(* ===== verification/_CoqProject ===== *)
-Q . S2P
Prelude.v
Binary64.v
Scalar.v
Ranges.v
Sets.v
StoutStrings.v
Values.v
Roles.v
Url.v
Attributes.v
Contract.v
Platform.v
Resource.v
ResourceFormat.v
Resources.v
Conservation.v
Exact.v
Apply.v
Queries.v
ResourceParse.v
Checkpoint.v
Find.v
Normalize.v
TypeUtils.v
Identifiers.v
FetcherUri.v
Fetcher.v
FetcherProperties.v
Hdfs.v
Scheduler.v
SchedulerSafety.v
SchedulerProperties.v
Executor.v
LinkedMap.v
ExecutorProperties.v
EventLoop.v
Heartbeat.v
Broker.v
BrokerSetup.v
Lock.v
Concurrent.v
LoopEnd.v
CommandExecutor.v
Logging.v
Native.v
DriverSetup.v
PyApi.v
PyModule.v
PyLogic.v
PyScheduler.v
PySchedulerProperties.v
PyExecutor.v
PyExecutorProperties.v
Jni.v
JniConvert.v
JniScheduler.v
JniExecutor.v
JniLogic.v
JniProperties.v
JniExecutorProperties.v
JniLibrary.v
