(* ===== verification/Prelude.v ===== *)
(** * Verification of liburb, the C++ core of the Universal Resource Broker

    liburb lets Mesos frameworks run on another scheduler: it implements the
    Mesos scheduler and executor drivers over a Redis message broker, together
    with the resource algebra that offers are made of, and comes with the two
    programs a task needs: the fetcher, which brings its files into the sandbox,
    and the command executor, which runs a shell command.  The sources are under
    src/urb-core/source/cpp/liburb; source/, mesos/ and test/ below are its
    subdirectories.

    ** Parts and how they interact

    A framework calls a driver (sched.cpp, exec.cpp); the driver checks its
    status and forwards the call to its process (scheduler_process.cpp,
    executor_process.cpp).  The process writes messages to a notify channel of
    the broker (message_broker.cpp, message_broker_redis.cpp), registers again
    through timers (timer.hpp) of the event loop (evhelper.cpp), and handles the
    messages that arrive by calling the framework back.  Offers carry resources
    (resources.cpp, resources_utils.cpp), whose values are scalars, ranges and
    sets (values.cpp); roles (roles.cpp) name who they are reserved for,
    attributes (attributes.cpp) describe hosts, URLs (url.hpp) name the broker.
    The event loop has a thread of its own: every other thread reaches it
    through a command queue (concurrent_queue.hpp), a mutex and libev's
    asynchronous watchers.  Frameworks written in Python and Java reach the
    drivers through bindings (python-bindings/, and source/org_apache_mesos_*,
    convert.cpp and construct.cpp), which turn the calls of one side into calls
    of the other and serialise the messages in between.

    ** Files

    - Prelude: results that may be errors ([Try]) or abort the process
      ([outcome], for glog's CHECK and LOG(FATAL)), and generic lemmas.
    - Binary64: IEEE double arithmetic on small integers, from the Standard
      Library's SpecFloat.
    - Scalar, Ranges, Sets, Values: values.cpp.  Doubles are SpecFloat values,
      64-bit numbers are Z with the wrap-around written out, Boost's interval
      set is the class [IntervalSet] with its laws and an instance.
    - StoutStrings: the string helpers of stout that the code calls, loops with
      fuel as long as the string and lemmas that this is enough.
    - Roles, Url, Attributes: the files of the same names.
    - Platform: the parameters that stand for Boost, numify and the printing of
      doubles, collected in one class, and an instance that can be evaluated.
    - Resource, ResourceFormat: one Resource (resources.cpp) with validation and
      the conversion of reservation formats (resources_utils.cpp).
    - Resources: the container with its operators, filters and queries.
      Conservation: what a container denotes, and that addition and subtraction
      respect it.  Exact: the same identity by identity, number by number and item
      by item.  Apply: offer operations.  Queries: what the filters, groupings
      and changes of a container give, and the templates of resources.hpp (sums
      over maps, sequences of operations).  ResourceParse: resources from text.
      Checkpoint: the application of checkpointed resources.  Find: the search
      for resources.  Normalize: offer operations brought to one format.
    - TypeUtils: comparison, order, hashing and printing of protobuf messages
      (type_utils.cpp, type_utils.hpp, messages.cpp).  Identifiers: the
      operators on identifiers, also those of v1/mesos.hpp (module [V1]).
    - FetcherUri, Fetcher, FetcherProperties: the fetcher (mesos/fetcher.cpp and
      the URI functions of mesos/include/slave/containerizer/fetcher.cpp).  What
      it asks of the system is a list of actions, the answers are a parameter
      that may depend on all earlier actions.  Hdfs: the HDFS client (hdfs.hpp)
      and the size of a download.
    - Contract: what an operation of a process promises, as an interface that
      the scheduler and the executor process instantiate.
    - Scheduler: driver and process as functions on one [State], whose [trace]
      holds the messages handed to the channel and the callbacks made.
      SchedulerSafety: the system of inputs, with frameworks that call the
      driver from callbacks, its reachable states and their invariant.
      SchedulerProperties: what follows for users of the driver.
    - Executor, ExecutorProperties: likewise for the executor, with stout's
      LinkedHashMap as a list of entries.  LinkedMap: that map as it is built, a
      linked list and a hash map into it.
    - EventLoop: timers.  Heartbeat: their use by a channel.  Broker: messages,
      their JSON form, and a channel's polling.  BrokerSetup: how a broker gets
      its connections and its endpoint, and the names of its channels.
    - Lock: the scoped lock of the drivers.  Concurrent: the threads around the
      event loop, one action per atomic access, so that a run is an arbitrary
      interleaving; libev's watchers are the class [Async] with their laws.
      LoopEnd: the destructor of the event loop among those threads.
    - CommandExecutor: test/command_executor.cpp as a function from inputs and
      the system's answers to driver calls and signals.
    - Logging: logging.cpp and what the flags of glog mean for a message.
      DriverSetup: the constructors and destructors of the drivers, as programs
      that create, run and destroy them.
    - Native: what the bindings use of a driver (the class [NativeDriver]), of
      protobuf ([Proto]) and of C strings, with the callbacks a driver makes;
      [scheduler_native] and [executor_native] are the two drivers.
    - PyApi: the CPython calls of the bindings, as a monad over reference counts,
      the interpreter lock, the pending exception and the driver's state; what
      Python code does is a parameter.  PyModule: the initialisation of the two
      extension modules (module.cpp).  PyScheduler and PyExecutor: the driver
      and proxy objects of these modules, with common.hpp.  PyLogic:
      triples over that monad.  PySchedulerProperties, PyExecutorProperties.
    - Jni: the JNI calls of the bindings, as a monad over attached threads,
      held arrays, weak references, native objects, field values and
      the pending exception; the virtual machine is a parameter.  JniConvert:
      convert.cpp, construct.cpp and the loading of the library.  JniScheduler,
      JniExecutor: the native methods and the proxies that call Java back.
      JniLogic: the rules for reasoning about them.  JniProperties,
      JniExecutorProperties, JniLibrary: the theorems.

    ** What the theorems show

    - Values: fixed-point arithmetic on scalars is exact below 2^51 thousandths;
      coalescing gives the canonical list of ranges and the operators on ranges
      and sets are those of finite sets; what is printed is parsed back.
    - Resources: the tests for adding and subtracting decide equality of
      identities; validation always returns and accepts only well-formed resources,
      whose conversions between formats are inverse; adding and subtracting
      change every scalar, number of a ranges resource and item of a set resource
      of every identity by exactly the operand; every offer operation, alone and
      in sequence, keeps the container's invariant and its totals; filters return exactly the entries they ask for,
      groupings partition the container, pushing a reservation and allocating
      are undone by their inverses, and sums add up the quantities; what
      [find] returns is exactly the amount asked for and is in the container;
      normalising an operation converts every resource it names or changes
      nothing and says why.
    - Messages: on messages without repeated entries the comparisons decide
      equality of the fields they look at, and the hashes agree with them; the
      identifiers of both interfaces are lawful keys of hashed and ordered maps.
      The linked hash map gives the answers of a list in the order of insertion.
    - Fetcher: for directories and cache names without quotes, and whatever the
      URIs contain, every shell command is a known one with the intended names
      as single words; if no URI ends in "..", "." or a slash, the targets are
      entries of the sandbox or cache files; the exit code is 0 exactly if every item was fetched; how the size of a download
      is found.
    - Drivers: invariants of all reachable states; no assertion fails once the
      channel exists; the fate of every status update and of every task to be
      launched; what a reconnecting executor sends again; that an aborted driver
      stays silent.
    - Event loop and broker: due timers run in the order of their times and then of
      their scheduling, once, and are never lost, and the wake-up is set again;
      polling neither stops nor multiplies; messages survive the wire.  In every
      interleaving commands are executed once and in order, no wake-up is lost,
      and when the calls stop, every schedule ends within a stated number of
      accesses with all calls returned and, after a shutdown, the loop gone,
      so that the loop's destructor joins its thread.
      A broker that runs has its connections and one endpoint, and endpoints do
      not share channels.
    - Command executor: whatever the order of its inputs, the log is exactly what
      the inputs ask for: one TASK_RUNNING, refusals of further tasks, one kill,
      one final update with the state of the exit status, then the driver's stop.
    - Set-up: whatever drivers a program creates, starts and destroys, what it holds,
      process objects included, is what the live drivers own; with one kind of driver glog is initialised once;
      messages go where the logging flags say.
    - Bindings, for Python and for Java: a callback reaches the framework's
      method exactly once, with the arguments converted, and aborts the driver
      exactly if the framework throws; a method calls the driver once with the
      values it was given and returns the driver's status, or raises an error and
      leaves the driver alone; references, the interpreter lock, attached
      threads, held arrays and native objects are balanced from the creation of a
      driver object to its destruction, under conditions on Python and Java that
      the theorems name; a Java map is
      read entry by entry; loading the library and unloading it leaves nothing.
    - Theorems whose name says what goes wrong record where the code does not do
      what it means to.

    ** Bounds and fuel

    Loops that search a string take fuel above its length; the lemmas of
    StoutStrings and Url show that the fuel is never used up.  Callbacks that
    call the driver may nest: [run_callback] follows them to a given depth and
    fails in a designated way beyond it; for callbacks that make no launching
    calls depth one is enough, which is proved.  Loops over Java
    collections take fuel, and fuel above the length of the collection is proved
    to be enough.  Scalars are bounded by 2^51 thousandths where a theorem says
    so, as doubles lose integers beyond 2^53.

    ** Not modelled

    The Python interpreter and the Java virtual machine are parameters, of which
    a theorem's hypotheses say what it relies on.  Of the bindings, JNI's local references,
    destructors that Py_DECREF may run, a driver object initialised again inside
    its own callback, and the proxies' [env] member being shared by threads.
    The Python service at the other end of the broker, libev, redis3m, jsoncpp
    and protobuf (messages are the fields the code reads), the parsing of
    command-line flags, and the test programs but for the command executor.  The fetcher
    cache of the containerizer is commented out in the source.  The Java wrapper
    classes (jvm/*.hpp) and the resources of the second interface
    (v1/resources.hpp) are headers whose implementation is not in the repository
    and that nothing here uses; the other headers declare.  The processes'
    handlers, timers and driver calls run one at a time; the accesses of
    different threads interleave in Concurrent only, where reads and writes of
    flags are atomic. *)

From stdpp Require Export base list strings option gmap sorting.
From Stdlib Require Export ZArith Lia.

#[global] Set Default Goal Selector "!".
#[global] Open Scope Z_scope.

(** ** Results of the code *)

(** Stout's [Try<T>]: a value or an error message. *)
Inductive Try (A : Type) : Type :=
| TryOk (a : A)
| TryError (message : string).
Arguments TryOk {A} a.
Arguments TryError {A} message.

(** A call that either returns or aborts the process: glog's [CHECK] and
    [LOG(FATAL)] print a message and call [abort()]. *)
Inductive outcome (A : Type) : Type :=
| Ret (a : A)
| Fatal (why : string).
Arguments Ret {A} a.
Arguments Fatal {A} why.

Definition obind {A B} (x : outcome A) (f : A -> outcome B) : outcome B :=
  match x with
  | Ret a => f a
  | Fatal w => Fatal w
  end.

Definition CHECK (b : bool) (why : string) : outcome unit :=
  if b then Ret tt else Fatal why.

Declare Scope outcome_scope.
Delimit Scope outcome_scope with outcome.
#[warnings="-at-level-200-changed"] Notation "'let!' x ':=' c 'in' k" := (obind c (fun x => k))
  (at level 200, x binder, c at level 100, k at level 200, right associativity)
  : outcome_scope.
Notation "c ';;!' k" := (obind c (fun _ => k))
  (at level 100, right associativity) : outcome_scope.
#[global] Open Scope outcome_scope.

(** A left-to-right [foreach] whose body may abort. *)
Fixpoint ofold {A B} (f : B -> A -> outcome B) (l : list A) (b : B) : outcome B :=
  match l with
  | [] => Ret b
  | x :: l' => let! b' := f b x in ofold f l' b'
  end.

Fixpoint omapM {A B} (f : A -> outcome B) (l : list A) : outcome (list B) :=
  match l with
  | [] => Ret []
  | x :: l' => let! y := f x in let! ys := omapM f l' in Ret (y :: ys)
  end.

(** ** Generic lemmas *)

Lemma StronglySorted_impl {A} (R1 R2 : A -> A -> Prop) l :
  (forall a b, R1 a b -> R2 a b) -> StronglySorted R1 l -> StronglySorted R2 l.
Proof.
  intros HR. induction 1 as [|a l _ IH Hl]; constructor; [done|].
  eapply Forall_impl; [exact Hl|]. auto.
Qed.

Lemma forallb_Forall {A} (f : A -> bool) (P : A -> Prop) l :
  (forall a, a ∈ l -> (f a = true <-> P a)) -> forallb f l = true <-> Forall P l.
Proof.
  intros Hf. rewrite forallb_forall, Forall_forall.
  setoid_rewrite <- list_elem_of_In. split; intros H a Ha; apply Hf; auto.
Qed.

Lemma existsb_elem {A} (f : A -> bool) l :
  existsb f l = true <-> exists a, a ∈ l /\ f a = true.
Proof. rewrite existsb_exists. by setoid_rewrite <- list_elem_of_In. Qed.

Lemma Forall_filter_all {A} (P : A -> Prop) `{!forall a, Decision (P a)} l :
  Forall P (filter P l).
Proof. apply Forall_forall. by intros a [? _]%list_elem_of_filter. Qed.

Lemma filter_Forall_id {A} (P : A -> Prop) `{!forall a, Decision (P a)} (l : list A) :
  Forall P l -> filter P l = l.
Proof.
  induction 1 as [|a l Ha _ IH]; [done|]. by rewrite filter_cons_True, IH.
Qed.

Lemma elem_of_concat_map {A B} (f : A -> list B) l b :
  b ∈ concat (map f l) <-> exists a, a ∈ l /\ b ∈ f a.
Proof.
  rewrite !list_elem_of_In, in_concat. setoid_rewrite in_map_iff.
  setoid_rewrite list_elem_of_In. split.
  - intros (? & (a & <- & Ha) & Hb). eauto.
  - intros (a & Ha & Hb). eauto.
Qed.
