(* ===== verification/Binary64.v ===== *)
(** * IEEE-754 binary64, the C++ [double]

    [double] is the Standard Library's executable specification of
    floating-point numbers at precision 53 and maximal exponent 1024;
    [dadd], [dmul] and [ddiv] are the correctly rounded operations and
    [double_of_Z] is the conversion [static_cast<double>(long long)].

    The lemmas bound the rounding error of the operations.  To stay inside
    the integers, the value of a double is read at a scale [K]:
    [dval K x] is the integer [x * 2^K], exact as soon as the exponent of [x]
    is at least [- K] ([grid K x]). *)
From S2P Require Import Prelude.
From Stdlib Require Import SpecFloat.

Definition prec := 53.
Definition emax := 1024.
Definition double := spec_float.
Definition dmul : double -> double -> double := SFmul prec emax.
Definition dadd : double -> double -> double := SFadd prec emax.
Definition ddiv : double -> double -> double := SFdiv prec emax.
Definition dltb : double -> double -> bool := SFltb.
Definition double_of_Z (n : Z) : double := binary_normalize prec emax n 0 false.

Definition dval (K : Z) (x : double) : Z :=
  match x with
  | S754_finite s m e => cond_Zopp s (Z.pos m * 2 ^ (e + K))
  | _ => 0
  end.

(** A finite double of moderate size whose exponent is at least [- K]. *)
Definition grid (K : Z) (x : double) : Prop :=
  match x with
  | S754_finite _ _ e => - K <= e <= 700
  | S754_zero _ => True
  | _ => False
  end.

(** ** Digits and powers *)

Lemma digits2_pos_log2 p : Z.pos (digits2_pos p) = Z.log2 (Z.pos p) + 1.
Proof.
  induction p as [p IH|p IH|]; cbn [digits2_pos]; try reflexivity.
  - rewrite Pos2Z.inj_succ, IH, (Pos2Z.inj_xI p), Z.log2_succ_double; lia.
  - rewrite Pos2Z.inj_succ, IH, (Pos2Z.inj_xO p), Z.log2_double; lia.
Qed.

Lemma Zdigits2_bounds m :
  0 < m -> 1 <= Zdigits2 m /\ 2 ^ (Zdigits2 m - 1) <= m < 2 ^ Zdigits2 m.
Proof.
  intros Hm. destruct m as [|p|p]; try lia. cbn [Zdigits2].
  rewrite digits2_pos_log2. pose proof (Z.log2_spec (Z.pos p) Hm) as Hl.
  pose proof (Z.log2_nonneg (Z.pos p)).
  replace (Z.log2 (Z.pos p) + 1 - 1) with (Z.log2 (Z.pos p)) by lia.
  rewrite <- Z.add_1_r in Hl. lia.
Qed.

Lemma Zdigits2_unique m d :
  1 <= d -> 2 ^ (d - 1) <= m < 2 ^ d -> Zdigits2 m = d.
Proof.
  intros Hd Hm. assert (0 < 2 ^ (d - 1)) by (apply Z.pow_pos_nonneg; lia).
  destruct (Zdigits2_bounds m) as (H1 & H2 & H3); [lia|].
  destruct (Z.lt_trichotomy (Zdigits2 m) d) as [Hlt|[Heq|Hgt]]; [|assumption|].
  - assert (2 ^ Zdigits2 m <= 2 ^ (d - 1)) by (apply Z.pow_le_mono_r; lia). lia.
  - assert (2 ^ d <= 2 ^ (Zdigits2 m - 1)) by (apply Z.pow_le_mono_r; lia). lia.
Qed.

Lemma Zdigits2_le m d : 0 < m < 2 ^ d -> Zdigits2 m <= d.
Proof.
  intros Hm. destruct (Zdigits2_bounds m) as (H1 & H2 & H3); [lia|].
  destruct (Z.le_gt_cases (Zdigits2 m) d) as [|Hgt]; [assumption|].
  assert (2 ^ d <= 2 ^ (Zdigits2 m - 1)) by (apply Z.pow_le_mono_r; lia). lia.
Qed.

Lemma pow2_split a b : 0 <= a -> 0 <= b -> 2 ^ (a + b) = 2 ^ a * 2 ^ b.
Proof. intros; apply Z.pow_add_r; lia. Qed.

Lemma pow2_pos a : 0 <= a -> 0 < 2 ^ a.
Proof. intros; apply Z.pow_pos_nonneg; lia. Qed.

Lemma iter_pos_nat {A} (f : A -> A) p x :
  iter_pos f p x = Nat.iter (Pos.to_nat p) f x.
Proof.
  revert x. induction p as [p IH|p IH|]; intros x; cbn [iter_pos].
  - rewrite !IH, Pos2Nat.inj_xI, <- Nat.iter_add.
    replace (S (2 * Pos.to_nat p)) with ((Pos.to_nat p + Pos.to_nat p) + 1)%nat by lia.
    by rewrite (Nat.iter_add _ 1).
  - rewrite !IH, Pos2Nat.inj_xO, <- Nat.iter_add. f_equal; lia.
  - reflexivity.
Qed.

(** ** Shifting right with a guard bit and a sticky bit *)

(** [shr_ok M k mrs]: [mrs] is the exact integer [M] after [k] right shifts. *)
Definition shr_ok (M : Z) (k : nat) (mrs : shr_record) : Prop :=
  exists rem, M = shr_m mrs * 2 ^ Z.of_nat k + rem /\
    0 <= rem < 2 ^ Z.of_nat k /\ 0 <= shr_m mrs /\
    match shr_r mrs, shr_s mrs with
    | false, false => rem = 0
    | false, true => 0 < rem /\ 2 * rem < 2 ^ Z.of_nat k
    | true, false => 2 * rem = 2 ^ Z.of_nat k
    | true, true => 2 ^ Z.of_nat k < 2 * rem
    end.

Lemma shr_ok_0 M : 0 <= M -> shr_ok M 0 {| shr_m := M; shr_r := false; shr_s := false |}.
Proof. intros; exists 0; cbn; lia. Qed.

Lemma shr_1_half mrs :
  0 <= shr_m mrs ->
  shr_m (shr_1 mrs) = shr_m mrs / 2 /\
  shr_m mrs = 2 * shr_m (shr_1 mrs) + Z.b2z (shr_r (shr_1 mrs)) /\
  shr_s (shr_1 mrs) = shr_r mrs || shr_s mrs.
Proof.
  destruct mrs as [[|[p|p|]|p] r s]; cbn; intros; try lia; repeat split; try reflexivity.
  - apply (Z.div_unique_pos _ _ _ 1); lia.
  - apply (Z.div_unique_pos _ _ _ 0); lia.
Qed.

Lemma shr_ok_S M k mrs : shr_ok M k mrs -> shr_ok M (S k) (shr_1 mrs).
Proof.
  intros (rem & HM & Hrem & Hm & Hloc).
  destruct (shr_1_half mrs Hm) as (_ & Hhalf & Hs).
  exists (Z.b2z (shr_r (shr_1 mrs)) * 2 ^ Z.of_nat k + rem).
  rewrite Hs, Nat2Z.inj_succ, Z.pow_succ_r by lia.
  assert (0 <= shr_m (shr_1 mrs)) by (destruct (shr_r (shr_1 mrs)); cbn in Hhalf; lia).
  destruct (shr_r (shr_1 mrs)), (shr_r mrs), (shr_s mrs); cbn [Z.b2z orb] in *;
    split_and!; nia.
Qed.

Lemma shr_ok_iter M k : 0 <= M ->
  shr_ok M k (Nat.iter k shr_1 {| shr_m := M; shr_r := false; shr_s := false |}).
Proof.
  intros HM. induction k as [|k IH]; [by apply shr_ok_0|].
  rewrite Nat.iter_succ. by apply shr_ok_S.
Qed.

(** Rounding the shifted mantissa to nearest is off by at most half a unit. *)
Lemma shr_ok_round M k mrs : shr_ok M k mrs ->
  let R := round_nearest_even (shr_m mrs) (loc_of_shr_record mrs) in
  2 * Z.abs (R * 2 ^ Z.of_nat k - M) <= 2 ^ Z.of_nat k /\
  shr_m mrs <= R <= shr_m mrs + 1.
Proof.
  intros (rem & HM & Hrem & Hm & Hloc). destruct mrs as [m r s]; cbn in *.
  destruct r, s; cbn; try destruct (Z.even m); nia.
Qed.

(** ** The rounding function *)

Lemma fexp_normal d e : -1074 <= d + e - 53 -> fexp prec emax (d + e) = d + e - 53.
Proof. unfold fexp, emin, prec, emax. lia. Qed.

Lemma fexp_small d e : -1074 <= e -> d <= 53 -> fexp prec emax (d + e) <= e.
Proof. unfold fexp, emin, prec, emax. lia. Qed.

Lemma shr_fexp_id m e : -1074 <= e -> Zdigits2 m <= 53 ->
  shr_fexp prec emax m e loc_Exact = ({| shr_m := m; shr_r := false; shr_s := false |}, e).
Proof.
  intros He Hd. unfold shr_fexp. pose proof (fexp_small _ _ He Hd).
  cbn [shr_record_of_loc].
  destruct (fexp prec emax (Zdigits2 m + e) - e) eqn:E; cbn [shr]; try reflexivity. lia.
Qed.

Lemma shr_fexp_shift m e : -1074 <= e -> 53 < Zdigits2 m ->
  exists k, Z.of_nat k = Zdigits2 m - 53 /\
  shr_fexp prec emax m e loc_Exact =
    (Nat.iter k shr_1 {| shr_m := m; shr_r := false; shr_s := false |}, e + Z.of_nat k).
Proof.
  intros He Hd. exists (Z.to_nat (Zdigits2 m - 53)). split; [lia|].
  unfold shr_fexp. rewrite fexp_normal by lia.
  replace (Zdigits2 m + e - 53 - e) with (Zdigits2 m - 53) by lia.
  destruct (Zdigits2 m - 53) as [|p|p] eqn:E; try lia. cbn [shr shr_record_of_loc].
  rewrite iter_pos_nat. f_equal; lia.
Qed.

(** Rounding an exact mantissa of more than 53 digits. *)
Lemma round_shifted m k mrs :
  Zdigits2 m = Z.of_nat k + 53 -> 0 < m -> shr_ok m k mrs ->
  let R := round_nearest_even (shr_m mrs) (loc_of_shr_record mrs) in
  2 ^ 52 <= R <= 2 ^ 53 /\ 2 * Z.abs (R * 2 ^ Z.of_nat k - m) <= 2 ^ Z.of_nat k.
Proof.
  intros Hd Hm Hok R. destruct (shr_ok_round _ _ _ Hok) as [Herr Hnear]. fold R in Herr, Hnear.
  split; [|exact Herr]. clear Herr.
  destruct Hok as (rem & HM & Hrem & Hsm & _).
  destruct (Zdigits2_bounds m Hm) as (_ & Hlo & Hhi). rewrite Hd in Hlo, Hhi.
  replace (Z.of_nat k + 53 - 1) with (Z.of_nat k + 52) in Hlo by lia.
  rewrite pow2_split in Hlo, Hhi by lia. pose proof (pow2_pos (Z.of_nat k)).
  assert (2 ^ 52 <= shr_m mrs) by (change (2 ^ 52) with 4503599627370496 in *; nia).
  assert (shr_m mrs < 2 ^ 53) by (change (2 ^ 53) with 9007199254740992 in *; nia).
  lia.
Qed.

Definition excess (m : Z) : Z := Z.max 0 (Zdigits2 m - 53).

(** [binary_round_aux] on an exact mantissa in the normal range: it returns a
    finite double of the same sign, within half a unit in the last place. *)
Lemma round_aux_spec s m e :
  0 < m -> -1074 <= e <= 971 -> Zdigits2 m + e <= 1023 ->
  exists m2 e2, binary_round_aux prec emax s m e loc_Exact = S754_finite s m2 e2 /\
    e <= e2 /\ 2 * Z.abs (Z.pos m2 * 2 ^ (e2 - e) - m) <= 2 ^ excess m.
Proof.
  intros Hm He Hov. unfold binary_round_aux, excess.
  destruct (Z.le_gt_cases (Zdigits2 m) 53) as [Hd|Hd].
  - rewrite shr_fexp_id by lia. cbn [shr_m loc_of_shr_record round_nearest_even].
    rewrite shr_fexp_id by lia. cbn [shr_m].
    destruct (Zdigits2_bounds m Hm) as [Hd1 _].
    destruct m as [|p|p]; try lia.
    exists p, e. unfold emax, prec. rewrite (proj2 (Z.leb_le _ _)) by lia.
    rewrite Z.max_l, Z.sub_diag, Z.pow_0_r by lia. split_and!; [reflexivity|lia|lia].
  - destruct (shr_fexp_shift m e ltac:(lia) Hd) as (k & Hk & ->).
    pose proof (shr_ok_iter m k ltac:(lia)) as Hok.
    set (mrs := Nat.iter k shr_1 _) in *.
    destruct (round_shifted m k mrs ltac:(lia) Hm Hok) as [HR Herr].
    set (R := round_nearest_even (shr_m mrs) (loc_of_shr_record mrs)) in *.
    rewrite Z.max_r, <- Hk by lia.
    destruct (Z.eq_dec R (2 ^ 53)) as [HR53|HR53].
    + rewrite HR53 in *.
      replace (shr_fexp prec emax (2 ^ 53) (e + Z.of_nat k) loc_Exact)
        with ({| shr_m := 2 ^ 52; shr_r := false; shr_s := false |}, e + Z.of_nat k + 1).
      2: { destruct (shr_fexp_shift (2 ^ 53) (e + Z.of_nat k)) as (j & Hj & ->); [lia|vm_compute; reflexivity|].
           change (Zdigits2 (2 ^ 53) - 53) with 1 in Hj. by replace j with 1%nat by lia. }
      cbn [shr_m]. exists (4503599627370496)%positive, (e + Z.of_nat k + 1).
      change (2 ^ 52) with 4503599627370496. unfold emax, prec.
      rewrite (proj2 (Z.leb_le _ _)) by lia. split_and!; [reflexivity|lia|].
      replace (e + Z.of_nat k + 1 - e) with (1 + Z.of_nat k) by lia.
      rewrite pow2_split by lia. change (2 ^ 53) with (4503599627370496 * 2 ^ 1) in Herr. lia.
    + rewrite shr_fexp_id; [|lia|apply Zdigits2_le; lia]. cbn [shr_m].
      destruct R as [|p|p]; try lia. exists p, (e + Z.of_nat k). unfold emax, prec.
      rewrite (proj2 (Z.leb_le _ _)) by lia. split_and!; [reflexivity|lia|].
      by replace (e + Z.of_nat k - e) with (Z.of_nat k) by lia.
Qed.

Lemma Pos_iter_xO m d : Z.pos (Pos.iter xO m d) = Z.pos m * 2 ^ Z.pos d.
Proof.
  revert m. induction d as [|d IH] using Pos.peano_ind; intros m.
  - change (Pos.iter xO m 1) with (m~0)%positive. lia.
  - rewrite Pos.iter_succ, Pos2Z.inj_xO, IH, Pos2Z.inj_succ, Z.pow_succ_r; lia.
Qed.

Lemma shl_align_spec m e e' :
  let '(m2, e2) := shl_align m e e' in
  e2 = Z.min e e' /\ Z.pos m2 = Z.pos m * 2 ^ (e - e2).
Proof.
  unfold shl_align. destruct (e' - e) as [|d|d] eqn:E.
  - split; [lia|]. rewrite Z.sub_diag. lia.
  - split; [lia|]. rewrite Z.sub_diag. lia.
  - split; [lia|]. rewrite Pos_iter_xO. do 2 f_equal. lia.
Qed.

(** [binary_round] first normalises the mantissa, then rounds it. *)
Lemma binary_round_spec K s m e :
  -1000 <= e <= 700 -> - K <= e - 53 -> Zdigits2 (Z.pos m) <= 300 ->
  let d := Zdigits2 (Z.pos m) in
  exists m2 e2, binary_round prec emax s m e = S754_finite s m2 e2 /\ - K <= e2 /\
    2 * Z.abs (Z.pos m2 * 2 ^ (e2 + K) - Z.pos m * 2 ^ (e + K))
      <= if d <=? 53 then 0 else 2 ^ (e + K + (d - 53)).
Proof.
  intros He HK Hd d. unfold binary_round.
  destruct (Zdigits2_bounds (Z.pos m) ltac:(lia)) as (Hd1 & Hdl & Hdh). fold d in Hd, Hd1, Hdl, Hdh.
  change (Z.pos (digits2_pos m)) with d. rewrite fexp_normal by lia.
  pose proof (shl_align_spec m e (d + e - 53)) as Hal.
  destruct (shl_align m e (d + e - 53)) as [m1 e1]. destruct Hal as [He1 Hm1].
  destruct (Z.leb_spec d 53) as [Hle|Hgt].
  - assert (Hd2 : Zdigits2 (Z.pos m1) = 53).
    { apply Zdigits2_unique; [lia|]. rewrite Hm1. replace (e - e1) with (53 - d) by lia.
      replace (53 - 1) with ((d - 1) + (53 - d)) by lia.
      replace 53 with (d + (53 - d)) at 4 by lia. rewrite !pow2_split by lia.
      pose proof (pow2_pos (53 - d)). nia. }
    destruct (round_aux_spec s (Z.pos m1) e1) as (m2 & e2 & -> & He2 & Herr); [lia..|].
    unfold excess in Herr. rewrite Hd2 in Herr. change (2 ^ Z.max 0 (53 - 53)) with 1 in Herr.
    exists m2, e2. split_and!; [done|lia|].
    assert (Heq : Z.pos m2 * 2 ^ (e2 - e1) = Z.pos m1) by lia.
    replace (e2 + K) with ((e2 - e1) + (e1 + K)) by lia.
    replace (e + K) with ((e - e1) + (e1 + K)) by lia.
    rewrite (pow2_split (e2 - e1)), (pow2_split (e - e1)) by lia.
    rewrite !Z.mul_assoc, Heq, Hm1. lia.
  - assert (e1 = e) as -> by lia. rewrite Z.sub_diag in Hm1.
    assert (Z.pos m1 = Z.pos m) as Hm1' by lia.
    destruct (round_aux_spec s (Z.pos m1) e) as (m2 & e2 & -> & He2 & Herr);
      [lia|lia|rewrite Hm1'; fold d; lia|].
    unfold excess in Herr. rewrite Hm1' in Herr. fold d in Herr. rewrite Z.max_r in Herr by lia.
    exists m2, e2. split_and!; [done|lia|].
    replace (e2 + K) with ((e2 - e) + (e + K)) by lia.
    rewrite (pow2_split (e2 - e)), (pow2_split (e + K)) by lia.
    pose proof (pow2_pos (e + K)). nia.
Qed.

(** ** Error bounds of the operations *)

Lemma dval_cond_Zopp K s m e : dval K (S754_finite s m e) = cond_Zopp s (Z.pos m) * 2 ^ (e + K).
Proof. destruct s; cbn [dval cond_Zopp]; lia. Qed.

Lemma exp_of_bound a e K c : 0 < a -> 0 <= e + K -> a * 2 ^ (e + K) < 2 ^ (c + K) ->
  Zdigits2 a + e <= c.
Proof.
  intros Ha He H. destruct (Z.le_gt_cases (Zdigits2 a + e) c) as [|Hgt]; [assumption|].
  destruct (Zdigits2_bounds a Ha) as (H1 & H2 & _).
  assert (2 ^ (c + K) <= 2 ^ ((Zdigits2 a - 1) + (e + K))) by (apply Z.pow_le_mono_r; lia).
  rewrite (pow2_split (Zdigits2 a - 1)) in H0 by lia. pose proof (pow2_pos (e + K)). nia.
Qed.

(** Turns an absolute error on mantissas into one on scaled values. *)
Lemma cond_Zopp_err s a b : Z.abs (cond_Zopp s a - cond_Zopp s b) = Z.abs (a - b).
Proof. destruct s; cbn [cond_Zopp]; lia. Qed.

Lemma normalize_spec K c A e :
  -150 <= e <= 700 -> 0 <= K <= 400 -> - K <= e - 53 ->
  Z.abs A * 2 ^ (e + K) < 2 ^ (c + K) -> c <= 100 -> 53 <= c + K ->
  A <> 0 ->
  exists s m2 e2, binary_normalize prec emax A e false = S754_finite s m2 e2 /\ - K <= e2 /\
    s = (A <? 0) /\
    2 * Z.abs (cond_Zopp s (Z.pos m2) * 2 ^ (e2 + K) - A * 2 ^ (e + K)) <= 2 ^ (c + K - 53).
Proof.
  intros He HK HKe HA Hc HcK HA0.
  assert (Hd : forall p, Z.abs A = Z.pos p -> Zdigits2 (Z.pos p) + e <= c).
  { intros p Hp. rewrite Hp in HA. eapply exp_of_bound; [..|exact HA]; lia. }
  assert (Hpow : 0 < 2 ^ (c + K - 53)) by (apply pow2_pos; lia).
  assert (Hmono : forall d, 53 < d -> d + e <= c -> 2 ^ (e + K + (d - 53)) <= 2 ^ (c + K - 53)).
  { intros d H1 H2. apply Z.pow_le_mono_r; lia. }
  unfold binary_normalize. destruct A as [|p|p]; [done|..]; cbn [Z.abs] in Hd.
  all: specialize (Hd p eq_refl); specialize (Hmono (Zdigits2 (Z.pos p)));
    destruct (binary_round_spec K false p e) as (m2 & e2 & H1 & H2 & H3); [lia..|].
  - exists false, m2, e2. split_and!; [done|done|done|]. cbn [cond_Zopp].
    destruct (Z.leb_spec (Zdigits2 (Z.pos p)) 53); lia.
  - destruct (binary_round_spec K true p e) as (m3 & e3 & H4 & H5 & H6); [lia..|].
    exists true, m3, e3. split_and!; [done|done|done|]. cbn [cond_Zopp].
    rewrite <- !Pos2Z.opp_pos, !Z.mul_opp_l in *.
    destruct (Z.leb_spec (Zdigits2 (Z.pos p)) 53); lia.
Qed.

(** The exponent of a finite double of bounded value. *)
Lemma exp_upper s m e K c : 0 <= e + K -> 0 <= c + K ->
  Z.abs (cond_Zopp s (Z.pos m) * 2 ^ (e + K)) <= 2 ^ (c + K) -> e <= c.
Proof.
  intros He Hc H. destruct (Z.le_gt_cases e c) as [|Hgt]; [assumption|].
  assert (2 ^ (c + K) < 2 ^ (e + K)) by (apply Z.pow_lt_mono_r; lia).
  destruct s; cbn [cond_Zopp] in H; nia.
Qed.

Lemma dval_align K s m e ez : ez <= e -> 0 <= ez + K ->
  cond_Zopp s (Z.pos (fst (shl_align m e ez))) * 2 ^ (ez + K) = dval K (S754_finite s m e).
Proof.
  intros Hez HK. pose proof (shl_align_spec m e ez) as H.
  destruct (shl_align m e ez) as [m2 e2]. destruct H as [He2 Hm2]. cbn [fst].
  rewrite dval_cond_Zopp. replace (e + K) with ((e - ez) + (ez + K)) by lia.
  rewrite (pow2_split (e - ez)) by lia. replace e2 with ez in Hm2 by lia.
  destruct s; cbn [cond_Zopp]; rewrite Hm2; lia.
Qed.

(** A finite double close to a bounded value has a bounded exponent. *)
Lemma grid_of_error K c s m2 e2 T :
  - K <= e2 -> 0 <= c <= 600 -> 53 <= K ->
  2 * Z.abs (cond_Zopp s (Z.pos m2) * 2 ^ (e2 + K) - T) <= 2 ^ (c + K - 53) ->
  Z.abs T < 2 ^ (c + K) -> grid K (S754_finite s m2 e2).
Proof.
  intros He2 Hc HK Herr HT. cbn [grid]. split; [lia|].
  enough (e2 <= c + 1) by lia.
  assert (H53 : 2 ^ (c + K - 53) <= 2 ^ (c + K)) by (apply Z.pow_le_mono_r; lia).
  assert (Hdbl : 2 ^ (c + 1 + K) = 2 * 2 ^ (c + K)).
  { replace (c + 1 + K) with (1 + (c + K)) by lia. rewrite pow2_split by lia. lia. }
  apply (exp_upper s m2 e2 K); lia.
Qed.

Lemma dadd_spec K c x y :
  53 <= K <= 400 -> 0 <= c <= 100 ->
  grid (Z.min 150 (K - 53)) x -> grid (Z.min 150 (K - 53)) y ->
  Z.abs (dval K x + dval K y) < 2 ^ (c + K) ->
  grid K (dadd x y) /\
  2 * Z.abs (dval K (dadd x y) - (dval K x + dval K y)) <= 2 ^ (c + K - 53).
Proof.
  intros HK Hc Hx Hy Hsum. assert (Hpow : 0 < 2 ^ (c + K - 53)) by (apply pow2_pos; lia).
  destruct x as [sx|sx| |sx mx ex], y as [sy|sy| |sy my ey]; cbn [grid] in Hx, Hy; try done;
    unfold dadd, SFadd.
  - destruct sx, sy; cbn [dval grid]; lia.
  - rewrite !dval_cond_Zopp in *. cbn [dval grid]. lia.
  - rewrite !dval_cond_Zopp in *. cbn [dval grid]. lia.
  - set (ez := Z.min ex ey).
    set (A := cond_Zopp sx _ + cond_Zopp sy _).
    assert (HA : dval K (S754_finite sx mx ex) + dval K (S754_finite sy my ey) = A * 2 ^ (ez + K)).
    { unfold A. rewrite Z.mul_add_distr_r, !dval_align by lia. done. }
    rewrite HA in *. destruct (Z.eq_dec A 0) as [->|HA0]; [cbn; lia|].
    rewrite Z.abs_mul, (Z.abs_eq (2 ^ (ez + K))) in Hsum by (apply Z.pow_nonneg; lia).
    destruct (normalize_spec K c A ez) as (s & m2 & e2 & -> & He2 & Hs & Herr); [lia..|].
    rewrite dval_cond_Zopp. split; [|lia].
    apply (grid_of_error K c s m2 e2 (A * 2 ^ (ez + K))); [lia..|].
    rewrite Z.abs_mul, (Z.abs_eq (2 ^ (ez + K))) by (apply Z.pow_nonneg; lia). lia.
Qed.

(** [round_aux_spec] read at scale [K]. *)
Lemma round_aux_scaled K c s m e :
  53 <= K <= 1000 -> 0 <= c <= 600 -> - K <= e <= 971 -> 0 < m ->
  m * 2 ^ (e + K) < 2 ^ (c + K) ->
  exists m2 e2, binary_round_aux prec emax s m e loc_Exact = S754_finite s m2 e2 /\ - K <= e2 /\
    2 * Z.abs (cond_Zopp s (Z.pos m2) * 2 ^ (e2 + K) - cond_Zopp s m * 2 ^ (e + K))
      <= 2 ^ (c + K - 53).
Proof.
  intros HK Hc He Hm HT.
  assert (Hd : Zdigits2 m + e <= c) by (eapply exp_of_bound; [..|exact HT]; lia).
  destruct (Zdigits2_bounds m Hm) as (Hd1 & _).
  destruct (round_aux_spec s m e) as (m2 & e2 & -> & He2 & Herr); [lia..|].
  exists m2, e2. split_and!; [done|lia|].
  replace (e2 + K) with ((e2 - e) + (e + K)) by lia.
  rewrite (pow2_split (e2 - e)), Z.mul_assoc by lia.
  rewrite <- Z.mul_sub_distr_r, Z.abs_mul, (Z.abs_eq (2 ^ (e + K))) by (apply Z.pow_nonneg; lia).
  replace (Z.abs _) with (Z.abs (Z.pos m2 * 2 ^ (e2 - e) - m)) by (destruct s; cbn [cond_Zopp]; lia).
  unfold excess in Herr. pose proof (pow2_pos (e + K)) as Hp.
  assert (Hpow : 0 < 2 ^ (c + K - 53)) by (apply pow2_pos; lia).
  destruct (Z.le_gt_cases (Zdigits2 m) 53) as [H53|H53].
  - rewrite Z.max_l in Herr by lia. change (2 ^ 0) with 1 in Herr. nia.
  - rewrite Z.max_r in Herr by lia.
    assert (2 ^ (Zdigits2 m - 53) * 2 ^ (e + K) <= 2 ^ (c + K - 53)).
    { rewrite <- pow2_split by lia. apply Z.pow_le_mono_r; lia. }
    nia.
Qed.

Lemma dmul_spec K1 K2 c x y :
  0 <= K1 -> 0 <= K2 -> 53 <= K1 + K2 <= 1000 -> 0 <= c <= 600 -> grid K1 x -> grid K2 y ->
  Z.abs (dval K1 x * dval K2 y) < 2 ^ (c + (K1 + K2)) ->
  grid (K1 + K2) (dmul x y) /\
  2 * Z.abs (dval (K1 + K2) (dmul x y) - dval K1 x * dval K2 y) <= 2 ^ (c + (K1 + K2) - 53).
Proof.
  intros HK1 HK2 HK Hc Hx Hy Hprod.
  assert (Hpow : 0 < 2 ^ (c + (K1 + K2) - 53)) by (apply pow2_pos; lia).
  destruct x as [sx|sx| |sx mx ex], y as [sy|sy| |sy my ey]; cbn [grid] in Hx, Hy; try done;
    unfold dmul, SFmul; try (rewrite ?dval_cond_Zopp; cbn [dval grid]; lia).
  rewrite !dval_cond_Zopp in *.
  assert (Hval : cond_Zopp sx (Z.pos mx) * 2 ^ (ex + K1) * (cond_Zopp sy (Z.pos my) * 2 ^ (ey + K2)) =
    cond_Zopp (xorb sx sy) (Z.pos (mx * my)) * 2 ^ (ex + ey + (K1 + K2))).
  { replace (ex + ey + (K1 + K2)) with ((ex + K1) + (ey + K2)) by lia.
    rewrite (pow2_split (ex + K1)), Pos2Z.inj_mul by lia. destruct sx, sy; cbn [cond_Zopp xorb]; lia. }
  rewrite Hval in *.
  assert (Hpos : Z.pos (mx * my) * 2 ^ (ex + ey + (K1 + K2)) < 2 ^ (c + (K1 + K2))).
  { rewrite Z.abs_mul, (Z.abs_eq (2 ^ _)) in Hprod by (apply Z.pow_nonneg; lia).
    destruct (xorb sx sy); cbn [cond_Zopp] in Hprod; lia. }
  assert (Zdigits2 (Z.pos (mx * my)) + (ex + ey) <= c) by (eapply exp_of_bound; [..|exact Hpos]; lia).
  destruct (Zdigits2_bounds (Z.pos (mx * my)) ltac:(lia)) as (Hd1 & _).
  destruct (round_aux_scaled (K1 + K2) c (xorb sx sy) (Z.pos (mx * my)) (ex + ey))
    as (m2 & e2 & -> & He2 & Herr); [lia..|].
  rewrite dval_cond_Zopp. split; [|exact Herr].
  eapply grid_of_error; [..|exact Hprod]; [lia..|exact Herr].
Qed.

(** ** Rounding to an integer: [std::llround] *)

Definition LLONG_MIN := - 2 ^ 63.
Definition LLONG_MAX := 2 ^ 63 - 1.

(** [std::llround] rounds to the nearest integer, halfway cases away from
    zero.  When the result does not fit a [long long] the C standard leaves the
    value unspecified; x86-64 returns [LLONG_MIN]. *)
Definition llround (x : double) : Z :=
  match x with
  | S754_zero _ => 0
  | S754_finite s m e =>
      let a := if 0 <=? e then Z.pos m * 2 ^ e
               else (Z.pos m + 2 ^ (- e - 1)) / 2 ^ (- e) in
      let r := cond_Zopp s a in
      if (LLONG_MIN <=? r) && (r <=? LLONG_MAX) then r else LLONG_MIN
  | _ => LLONG_MIN
  end.

Lemma llround_near K n x : 0 <= K -> grid K x -> Z.abs n < 2 ^ 63 ->
  2 * Z.abs (dval K x - n * 2 ^ K) < 2 ^ K -> llround x = n.
Proof.
  intros HK Hx Hn Hnear. pose proof (pow2_pos K HK) as HpK.
  destruct x as [s|s| |s m e]; cbn [grid] in Hx; try done.
  { cbn [dval] in Hnear. cbn [llround]. nia. }
  rewrite dval_cond_Zopp in Hnear. unfold llround.
  set (a := if 0 <=? e then _ else _).
  assert (Ha : cond_Zopp s a = n).
  { unfold a. destruct (Z.leb_spec 0 e) as [He|He].
    - rewrite (pow2_split e), Z.mul_assoc in Hnear by lia.
      enough (cond_Zopp s (Z.pos m) * 2 ^ e = n) by (destruct s; cbn [cond_Zopp] in *; lia). nia.
    - replace K with ((e + K) + (- e)) in Hnear at 2 3 by lia.
      rewrite (pow2_split (e + K) (- e)) in Hnear by lia.
      pose proof (pow2_pos (e + K) ltac:(lia)) as Hp1.
      assert (Hhalf : 2 ^ (- e) = 2 * 2 ^ (- e - 1)).
      { replace (- e) with (1 + (- e - 1)) at 1 by lia. rewrite pow2_split by lia. lia. }
      pose proof (pow2_pos (- e - 1) ltac:(lia)) as Hp2.
      assert (Hd : 2 * Z.abs (cond_Zopp s (Z.pos m) - n * 2 ^ (- e)) < 2 ^ (- e)) by nia.
      destruct s; cbn [cond_Zopp] in *.
      + enough (- n = (Z.pos m + 2 ^ (- e - 1)) / 2 ^ (- e)) by lia.
        apply (Z.div_unique_pos _ _ _ (Z.pos m + 2 ^ (- e - 1) + n * 2 ^ (- e))); lia.
      + symmetry. apply (Z.div_unique_pos _ _ _ (Z.pos m + 2 ^ (- e - 1) - n * 2 ^ (- e))); lia. }
  rewrite Ha. unfold LLONG_MIN, LLONG_MAX.
  destruct (Z.leb_spec (- 2 ^ 63) n), (Z.leb_spec n (2 ^ 63 - 1)); cbn [andb]; lia.
Qed.

(** Integers of at most 53 bits are represented exactly. *)
Lemma double_of_Z_exact K n : 53 <= K -> Z.abs n < 2 ^ 53 ->
  grid 53 (double_of_Z n) /\ dval K (double_of_Z n) = n * 2 ^ K.
Proof.
  intros HK Hn. unfold double_of_Z, binary_normalize.
  destruct n as [|p|p]; [done|..]; cbn [Z.abs] in Hn.
  all: assert (Hd : Zdigits2 (Z.pos p) <= 53) by (apply Zdigits2_le; lia).
  - destruct (binary_round_spec 53 false p 0) as (m2 & e2 & -> & He2 & Herr); [lia..|].
    rewrite (proj2 (Z.leb_le _ _) Hd) in Herr. rewrite !Z.add_0_l in Herr.
    assert (Heq : Z.pos m2 * 2 ^ (e2 + 53) = Z.pos p * 2 ^ 53) by lia.
    split; [apply (grid_of_error 53 54 false m2 e2 (Z.pos p * 2 ^ 53)); cbn [cond_Zopp]; lia|].
    rewrite dval_cond_Zopp. cbn [cond_Zopp].
    replace (e2 + K) with ((e2 + 53) + (K - 53)) by lia. replace K with (53 + (K - 53)) at 2 by lia.
    rewrite (pow2_split (e2 + 53)), (pow2_split 53) by lia. nia.
  - destruct (binary_round_spec 53 true p 0) as (m2 & e2 & -> & He2 & Herr); [lia..|].
    rewrite (proj2 (Z.leb_le _ _) Hd) in Herr. rewrite !Z.add_0_l in Herr.
    assert (Heq : Z.pos m2 * 2 ^ (e2 + 53) = Z.pos p * 2 ^ 53) by lia.
    split; [apply (grid_of_error 53 54 true m2 e2 (- (Z.pos p * 2 ^ 53))); cbn [cond_Zopp]; lia|].
    rewrite dval_cond_Zopp. cbn [cond_Zopp].
    replace (e2 + K) with ((e2 + 53) + (K - 53)) by lia. replace K with (53 + (K - 53)) at 2 by lia.
    rewrite (pow2_split (e2 + 53)), (pow2_split 53) by lia. nia.
Qed.

Lemma grid_weaken K K' x : K <= K' -> grid K x -> grid K' x.
Proof. destruct x; cbn; lia. Qed.

(** Reading a value at a finer scale. *)
Lemma dval_rescale K K' x : grid K x -> K <= K' -> dval K' x = dval K x * 2 ^ (K' - K).
Proof.
  intros Hx HK. destruct x as [| | |s m e]; cbn [grid] in Hx; try done.
  rewrite !dval_cond_Zopp. replace (e + K') with ((e + K) + (K' - K)) by lia.
  rewrite (pow2_split (e + K)) by lia. lia.
Qed.

(** The sign of a product. *)
Definition dsign (x : double) : option bool :=
  match x with
  | S754_zero _ | S754_nan => None
  | S754_infinity s | S754_finite s _ _ => Some s
  end.

Lemma round_aux_sign s m e l b :
  dsign (binary_round_aux prec emax s m e l) = Some b -> b = s.
Proof.
  unfold binary_round_aux. destruct (shr_fexp _ _ m e l) as [mrs e1].
  destruct (shr_fexp _ _ _ e1 loc_Exact) as [mrs2 e2].
  destruct (shr_m mrs2); cbn; try done. destruct (_ <=? _); cbn; congruence.
Qed.
