(* ===== verification/Scalar.v ===== *)
(** * [Value::Scalar] (source/values.cpp, lines 46-134)

    A scalar resource is a C++ [double]; every operation goes through a
    fixed-point representation with three decimal digits.  [fixed] is that
    representation, the abstract value of a scalar; the theorems show that
    the operators compute exactly on it as long as the result stays below
    [2^51] thousandths, and that the conversions are inverse there. *)
From S2P Require Import Prelude Binary64.
From Stdlib Require Import SpecFloat.

(** [Value::Scalar] has one required field, [value]. *)
Record Scalar := mkScalar { value : double }.

Definition set_value (s : Scalar) (v : double) : Scalar := {| value := v |}.

(** Signed 64-bit arithmetic. *)
Definition wrap_s64 (z : Z) : Z := (z + 2 ^ 63) mod 2 ^ 64 - 2 ^ 63.

Definition convertToFixed (floatValue : double) : Z :=
  llround (dmul floatValue (double_of_Z 1000)).

Definition convertToFloating (fixedValue : Z) : double :=
  let quotient := double_of_Z (Z.quot fixedValue 1000) in
  let remainder := ddiv (double_of_Z (Z.rem fixedValue 1000)) (double_of_Z 1000) in
  dadd quotient remainder.

Definition Scalar_eq (left right : Scalar) : bool :=
  convertToFixed (value left) =? convertToFixed (value right).

Definition Scalar_le (left right : Scalar) : bool :=
  convertToFixed (value left) <=? convertToFixed (value right).

Definition Scalar_add_assign (left right : Scalar) : Scalar :=
  let sum := wrap_s64 (convertToFixed (value left) + convertToFixed (value right)) in
  set_value left (convertToFloating sum).

Definition Scalar_sub_assign (left right : Scalar) : Scalar :=
  let diff := wrap_s64 (convertToFixed (value left) - convertToFixed (value right)) in
  set_value left (convertToFloating diff).

Definition Scalar_add (left right : Scalar) : Scalar :=
  let result := left in Scalar_add_assign result right.

Definition Scalar_sub (left right : Scalar) : Scalar :=
  let result := left in Scalar_sub_assign result right.

(** A scalar whose value is the given integer: [zero.set_value(0)] and the
    like. *)
Definition Scalar_of_Z (n : Z) : Scalar := {| value := double_of_Z n |}.

(** The default value of an unset [optional Value.Scalar]. *)
Definition Scalar_default : Scalar := {| value := S754_zero false |}.

(** ** The conversion from fixed point *)

Definition rem_ok (r : Z) : bool :=
  let x := ddiv (double_of_Z r) (double_of_Z 1000) in
  match x with
  | S754_finite _ _ e => (-62 <=? e) && (e <=? 0)
  | S754_zero _ => true
  | _ => false
  end && (Z.abs (1000 * dval 220 x - r * 2 ^ 220) <=? 2 ^ 176).

(** The division is only applied to [-999, 999]: every case is checked. *)
Lemma rem_table : forallb (fun i => rem_ok (Z.of_nat i - 999)) (seq 0 1999) = true.
Proof. vm_compute. reflexivity. Qed.

Lemma rem_spec r : Z.abs r < 1000 ->
  let x := ddiv (double_of_Z r) (double_of_Z 1000) in
  grid 62 x /\ Z.abs (1000 * dval 220 x - r * 2 ^ 220) <= 2 ^ 176.
Proof.
  intros Hr x. pose proof rem_table as Ht. rewrite forallb_forall in Ht.
  specialize (Ht (Z.to_nat (r + 999))).
  rewrite in_seq in Ht. specialize (Ht ltac:(lia)).
  replace (Z.of_nat (Z.to_nat (r + 999)) - 999) with r in Ht by lia.
  unfold rem_ok in Ht. fold x in Ht. apply andb_prop in Ht as [H1 H2].
  split; [|lia]. destruct x as [| | |s m e]; cbn [grid]; try done. lia.
Qed.

Lemma quot_rem_1000 n :
  n = 1000 * Z.quot n 1000 + Z.rem n 1000 /\ Z.abs (Z.rem n 1000) < 1000.
Proof.
  split; [apply Z.quot_rem; lia|].
  pose proof (Z.rem_bound_abs n 1000). lia.
Qed.

(** [convertToFloating n] is within 2^-12 of [n / 1000]. *)
Lemma convertToFloating_spec n : Z.abs n < 2 ^ 51 ->
  grid 220 (convertToFloating n) /\
  Z.abs (1000 * dval 220 (convertToFloating n) - n * 2 ^ 220) <= 1001 * 2 ^ 208.
Proof.
  intros Hn. destruct (quot_rem_1000 n) as [Hqr Hr].
  set (q := Z.quot n 1000) in *. set (r := Z.rem n 1000) in *.
  destruct (rem_spec r Hr) as [Hgr Her].
  destruct (double_of_Z_exact 220 q) as [Hgq Heq]; [lia| |].
  { change (2 ^ 51) with 2251799813685248 in Hn. change (2 ^ 53) with 9007199254740992. lia. }
  unfold convertToFloating. fold q r. cbv zeta.
  set (x := ddiv (double_of_Z r) (double_of_Z 1000)) in *.
  assert (Hb : Z.abs (dval 220 (double_of_Z q) + dval 220 x) < 2 ^ (42 + 220)).
  { rewrite Heq. change (2 ^ 51) with 2251799813685248 in Hn.
    change (2 ^ (42 + 220)) with (4398046511104 * 2 ^ 220).
    assert (2 ^ 176 <= 2 ^ 220) by (apply Z.pow_le_mono_r; lia). lia. }
  destruct (dadd_spec 220 42 (double_of_Z q) x) as [Hg He];
    [lia|lia|eapply grid_weaken; [|exact Hgq]; lia|eapply grid_weaken; [|exact Hgr]; lia|exact Hb|].
  split; [exact Hg|]. rewrite Heq in He.
  change (2 ^ (42 + 220 - 53)) with (2 * 2 ^ 208) in He.
  assert (Hp : 2 ^ 208 = 4294967296 * 2 ^ 176) by reflexivity. lia.
Qed.

(** The conversions are inverse below [2^51]. *)
Lemma fixed_of_floating n : Z.abs n < 2 ^ 51 ->
  convertToFixed (convertToFloating n) = n.
Proof.
  intros Hn. destruct (convertToFloating_spec n Hn) as [Hg He].
  destruct (double_of_Z_exact 53 1000) as [Hg2 He2]; [lia|vm_compute; reflexivity|].
  unfold convertToFixed.
  set (x := convertToFloating n) in *. set (t := double_of_Z 1000) in *.
  assert (H220 : 2 ^ 220 = 4096 * 2 ^ 208) by reflexivity. rewrite H220 in He.
  assert (0 < 2 ^ 208) by (apply pow2_pos; lia).
  assert (Hb : Z.abs (dval 220 x * dval 53 t) < 2 ^ (52 + (220 + 53))).
  { rewrite He2. change (2 ^ (52 + (220 + 53))) with (2 * 2 ^ 51 * 2 ^ 53 * 4096 * 2 ^ 208).
    change (2 ^ 51) with 2251799813685248 in *. change (2 ^ 53) with 9007199254740992 in *. lia. }
  destruct (dmul_spec 220 53 52 x t) as [Hg3 He3]; [lia..|assumption|assumption|exact Hb|].
  apply (llround_near (220 + 53)); [lia|exact Hg3|lia|].
  rewrite He2 in He3. change (2 ^ (52 + (220 + 53) - 53)) with (2 ^ 53 * 2048 * 2 ^ 208) in He3.
  change (2 ^ (220 + 53)) with (2 ^ 53 * 4096 * 2 ^ 208).
  change (2 ^ 53) with 9007199254740992 in *. lia.
Qed.

(** ** Signs *)

Lemma dsign_of_near x K T : grid K x -> 0 <= K ->
  dval K x <> 0 -> (T < 0 <-> dval K x < 0) ->
  dltb x (S754_zero false) = (T <? 0).
Proof.
  intros Hg HK Hnz HT. destruct x as [s|s| |s m e]; cbn [grid] in Hg; try done.
  rewrite dval_cond_Zopp in *. pose proof (pow2_pos (e + K) ltac:(lia)).
  unfold dltb, SFltb, SFcompare. destruct s; cbn [cond_Zopp] in *; symmetry.
  - apply Z.ltb_lt. nia.
  - apply Z.ltb_ge. nia.
Qed.

(** The floating result is negative exactly when the fixed value is. *)
Lemma convertToFloating_negative n : Z.abs n < 2 ^ 51 ->
  dltb (convertToFloating n) (S754_zero false) = (n <? 0).
Proof.
  intros Hn. destruct (Z.eq_dec n 0) as [->|Hn0]; [vm_compute; reflexivity|].
  destruct (convertToFloating_spec n Hn) as [Hg He].
  assert (0 < 2 ^ 208) by (apply pow2_pos; lia).
  change (2 ^ 220) with (4096 * 2 ^ 208) in He.
  apply (dsign_of_near _ 220); [exact Hg|lia|lia|lia].
Qed.

(** A non-negative scalar that converts without overflow has a non-negative
    fixed value. *)
Lemma convertToFixed_nonneg x :
  dltb x (S754_zero false) = false -> convertToFixed x <> LLONG_MIN -> 0 <= convertToFixed x.
Proof.
  intros Hx Hov. unfold convertToFixed in *. revert Hov.
  set (y := dmul x (double_of_Z 1000)).
  assert (Hs : forall b, dsign y = Some b -> b = false).
  { intros b. unfold y, dmul, SFmul.
    change (double_of_Z 1000) with (S754_finite false 8796093022208000 (-43)).
    destruct x as [s|s| |s m e]; try done.
    - destruct s; cbn in *; congruence.
    - intros Hb. apply round_aux_sign in Hb. destruct s; cbn in *; congruence. }
  destruct y as [s|s| |s m e]; cbn [dsign llround] in *; try lia.
  specialize (Hs s eq_refl). subst s. cbn [cond_Zopp].
  set (a := if 0 <=? e then _ else _).
  assert (0 <= a).
  { unfold a. destruct (Z.leb_spec 0 e); [nia|].
    apply Z.div_pos; [|apply pow2_pos; lia].
    pose proof (pow2_pos (- e - 1)). lia. }
  destruct (_ && _); [lia|congruence].
Qed.

(** ** The abstract value and the operators *)

Definition fixed (s : Scalar) : Z := convertToFixed (value s).

Lemma wrap_s64_id z : - 2 ^ 63 <= z < 2 ^ 63 -> wrap_s64 z = z.
Proof. intros. unfold wrap_s64. rewrite Z.mod_small; lia. Qed.

Lemma fixed_add a b : Z.abs (fixed a + fixed b) < 2 ^ 51 ->
  fixed (Scalar_add_assign a b) = fixed a + fixed b.
Proof.
  unfold fixed, Scalar_add_assign. cbn [value set_value]. intros H.
  rewrite wrap_s64_id by lia. by apply fixed_of_floating.
Qed.

Lemma fixed_sub a b : Z.abs (fixed a - fixed b) < 2 ^ 51 ->
  fixed (Scalar_sub_assign a b) = fixed a - fixed b.
Proof.
  unfold fixed, Scalar_sub_assign. cbn [value set_value]. intros H.
  rewrite wrap_s64_id by lia. by apply fixed_of_floating.
Qed.

Lemma negative_sub a b : Z.abs (fixed a - fixed b) < 2 ^ 51 ->
  dltb (value (Scalar_sub_assign a b)) (S754_zero false) = (fixed a <? fixed b).
Proof.
  unfold fixed, Scalar_sub_assign. cbn [value set_value]. intros H.
  rewrite wrap_s64_id, convertToFloating_negative by lia. lia.
Qed.

Lemma negative_add a b : Z.abs (fixed a + fixed b) < 2 ^ 51 ->
  dltb (value (Scalar_add_assign a b)) (S754_zero false) = (fixed a + fixed b <? 0).
Proof.
  unfold fixed, Scalar_add_assign. cbn [value set_value]. intros H.
  by rewrite wrap_s64_id, convertToFloating_negative by lia.
Qed.

Lemma Scalar_eq_fixed a b : Scalar_eq a b = true <-> fixed a = fixed b.
Proof. apply Z.eqb_eq. Qed.

Lemma Scalar_le_fixed a b : Scalar_le a b = true <-> fixed a <= fixed b.
Proof. apply Z.leb_le. Qed.

(** [Scalar_eq] is an equivalence coarser than equality. *)
Definition Scalar_equiv (a b : Scalar) : Prop := Scalar_eq a b = true.

#[export] Instance Scalar_equiv_equivalence : Equivalence Scalar_equiv.
Proof.
  split; intros ?; unfold Scalar_equiv; setoid_rewrite Scalar_eq_fixed;
    [done|intros ? ->; done|intros ? ? -> ->; done].
Qed.

#[export] Instance Scalar_add_proper :
  Proper (Scalar_equiv ==> Scalar_equiv ==> Scalar_equiv) Scalar_add_assign.
Proof.
  intros a a' Ha b b' Hb. unfold Scalar_equiv in *. rewrite Scalar_eq_fixed in *.
  unfold fixed, Scalar_add_assign in *. cbn [value set_value]. by rewrite Ha, Hb.
Qed.

#[export] Instance Scalar_sub_proper :
  Proper (Scalar_equiv ==> Scalar_equiv ==> Scalar_equiv) Scalar_sub_assign.
Proof.
  intros a a' Ha b b' Hb. unfold Scalar_equiv in *. rewrite Scalar_eq_fixed in *.
  unfold fixed, Scalar_sub_assign in *. cbn [value set_value]. by rewrite Ha, Hb.
Qed.

(** ** Properties *)

(** Converting a fixed-point number of fewer than 2^51 thousandths to a
    double and back gives the number again, and the double is negative exactly
    when the number is: the two rounding steps of [convertToFloating] and the
    one of [convertToFixed] never change the value, because the floating-point
    division is only applied to remainders in [-999, 999]. *)
Theorem convert_roundtrip n : Z.abs n < 2 ^ 51 ->
  convertToFixed (convertToFloating n) = n /\
  dltb (convertToFloating n) (S754_zero false) = (n <? 0).
Proof. auto using fixed_of_floating, convertToFloating_negative. Qed.

Lemma convert_roundtrip_witness :
  convertToFixed (convertToFloating (-1234567890123)) = -1234567890123 /\
  dltb (convertToFloating (-1234567890123)) (S754_zero false) = true.
Proof. apply (convert_roundtrip (-1234567890123)). vm_compute. reflexivity. Defined.

(** C25: On scalars whose fixed-point sum, respectively difference, is below 2^51
    thousandths in absolute value, [operator+=] and [operator-=] (and [operator+]
    and [operator-], which copy first) compute exactly the sum and the difference of
    the fixed-point values; so, while the sum and the first scalar are in range,
    adding and then subtracting the same amount is the identity for [operator==],
    even though the doubles themselves are rounded. *)
Theorem scalar_arithmetic_exact a b :
  (Z.abs (fixed a + fixed b) < 2 ^ 51 ->
   fixed (Scalar_add_assign a b) = fixed a + fixed b /\ fixed (Scalar_add a b) = fixed a + fixed b) /\
  (Z.abs (fixed a - fixed b) < 2 ^ 51 ->
   fixed (Scalar_sub_assign a b) = fixed a - fixed b /\ fixed (Scalar_sub a b) = fixed a - fixed b) /\
  (Z.abs (fixed a) < 2 ^ 51 -> Z.abs (fixed a + fixed b) < 2 ^ 51 ->
   Scalar_eq (Scalar_sub (Scalar_add a b) b) a = true).
Proof.
  split_and!.
  - intros H. split; by apply fixed_add.
  - intros H. split; by apply fixed_sub.
  - intros Ha Hab. unfold Scalar_add, Scalar_sub. cbv zeta. rewrite Scalar_eq_fixed.
    rewrite fixed_sub; rewrite fixed_add by lia; lia.
Qed.

(** The doubles 0.1 and 0.2. *)
Definition tenth : Scalar := {| value := S754_finite false 7205759403792794 (-56) |}.
Definition fifth : Scalar := {| value := S754_finite false 7205759403792794 (-55) |}.

Lemma scalar_arithmetic_exact_witness :
  fixed (Scalar_add tenth fifth) = 300 /\ fixed (Scalar_sub tenth fifth) = -100 /\
  Scalar_eq (Scalar_sub (Scalar_add tenth fifth) fifth) tenth = true.
Proof.
  destruct (scalar_arithmetic_exact tenth fifth) as (Ha & Hs & Hr).
  split; [apply Ha; vm_compute; reflexivity|]. split; [apply Hs; vm_compute; reflexivity|].
  apply Hr; vm_compute; reflexivity.
Defined.
