(* ===== verification/Ranges.v ===== *)
(** * [Value::Ranges] (source/values.cpp, lines 137-414)

    A ranges resource is a list of closed intervals of [uint64_t].
    [internal_coalesce] is the in-place single pass of the code over the
    sorted vector; [merge_pass] is the same pass as a function on lists and
    [coalesced] the canonical form it computes.  The theorems show that the
    pass terminates without tripping its assertions, that the canonical form
    denotes the same set of numbers, and that [operator==], [operator<=],
    [operator+] and [operator-] are equality, inclusion, union and difference
    of those sets. *)
From S2P Require Import Prelude.

(** [Value::Range], and [internal::Range] with the same two fields. *)
Record Range := mkRange { start : Z; end_ : Z }.

#[export] Instance Range_eq_dec : EqDecision Range.
Proof. solve_decision. Defined.
#[export] Instance Range_inhabited : Inhabited Range := populate (mkRange 0 0).

Definition Ranges := list Range.

Definition UINT64_MAX := 2 ^ 64 - 1.
Definition u64 (z : Z) : Z := z mod 2 ^ 64.

(** ** The code *)

(** [std::tie(left.start, left.end) < std::tie(right.start, right.end)] *)
Definition range_lt (left right : Range) : bool :=
  (start left <? start right) ||
  ((start left =? start right) && (end_ left <? end_ right)).

(** [std::sort] with that comparator: two ranges that it does not distinguish
    are equal, so the sorted sequence is unique. *)
Definition range_le (left right : Range) : Prop := range_lt right left = false.
#[export] Instance range_le_dec left right : Decision (range_le left right).
Proof. unfold range_le. apply _. Defined.
Definition sort_ranges (ranges : list Range) : list Range := merge_sort range_le ranges.

(** The state of the single pass: the vector that is read and overwritten in
    place, the number of result ranges so far and the range being built. *)
Record pass_state := mkPass { vec : list Range; count : nat; current : Range }.

(** The body of the [foreach] at index [i]. *)
Definition coalesce_step (st : pass_state) (i : nat) : pass_state :=
  match vec st !! i with
  | None => st
  | Some range =>
      let c := current st in
      if (start range =? start c) && (end_ range =? end_ c) then st
      else if (start range =? start c) && (end_ range >? end_ c) then
        mkPass (vec st) (count st) (mkRange (start c) (end_ range))
      else if start range >? start c then
        if start range <=? u64 (end_ c + 1) then
          mkPass (vec st) (count st) (mkRange (start c) (Z.max (end_ c) (end_ range)))
        else
          mkPass (<[(count st - 1)%nat := c]> (vec st)) (S (count st)) range
      else st
  end.

(** Copies the first [count] ranges of the vector over the result message. *)
Definition copy_one (ranges res : list Range) (i : nat) : outcome (list Range) :=
  let res := if (length res <=? i)%nat then res ++ [inhabitant] else res in
  CHECK (i <? length res)%nat "i < result->range_size()" ;;!
  Ret (<[i := ranges !!! i]> res).

Definition copy_out (result ranges : list Range) (count : nat) : outcome (list Range) :=
  let result := if (count <? length result)%nat then take count result else result in
  ofold (copy_one ranges) (seq 0 count) result.

(** [internal::coalesce] *)
Definition internal_coalesce (result : Ranges) (ranges : list Range) : outcome Ranges :=
  match ranges with
  | [] => Ret []
  | _ :: _ =>
      let ranges := sort_ranges ranges in
      CHECK (negb (length ranges =? 0)%nat) "!ranges.empty()" ;;!
      let st := fold_left coalesce_step (seq 0 (length ranges))
                  (mkPass ranges 1 (ranges !!! 0%nat)) in
      let ranges := <[(count st - 1)%nat := current st]> (vec st) in
      CHECK (count st <=? length ranges)%nat "count <= ranges.size()" ;;!
      let! result := copy_out result ranges (count st) in
      CHECK (length result =? count st)%nat "result->range_size() == count" ;;!
      Ret result
  end.

(** [coalesce(result, addedRanges)].  The assertions of [internal::coalesce]
    never fail ([internal_coalesce_ok]), so the abort is not threaded
    further. *)
Definition coalesce (result : Ranges) (addedRanges : list Ranges) : Ranges :=
  match internal_coalesce result (result ++ concat addedRanges) with
  | Ret r => r
  | Fatal _ => result
  end.

(** [coalesce(result)] and [coalesce(result, addedRange)] *)
Definition coalesce_self (result : Ranges) : Ranges := coalesce result [[]].
Definition coalesce_range (result : Ranges) (addedRange : Range) : Ranges :=
  coalesce result [[addedRange]].

(** [operator==] *)
Definition Ranges_eq (_left _right : Ranges) : bool :=
  let left := coalesce [] [_left] in
  let right := coalesce [] [_right] in
  if (length left =? length right)%nat then
    forallb (fun l => existsb (fun r => (start l =? start r) && (end_ l =? end_ r)) right) left
  else false.

(** [operator<=] *)
Definition Ranges_le (_left _right : Ranges) : bool :=
  let left := coalesce [] [_left] in
  let right := coalesce [] [_right] in
  forallb (fun l => existsb (fun r => (start l >=? start r) && (end_ l <=? end_ r)) right) left.

(** [operator+] and [operator+=] *)
Definition Ranges_add (left right : Ranges) : Ranges := coalesce [] [left; right].
Definition Ranges_add_assign (left right : Ranges) : Ranges := coalesce left [right].

(** ** The pass as a function on lists *)

(** The current range after it has absorbed [range], if it does. *)
Definition absorb (c range : Range) : option Range :=
  if (start range =? start c) && (end_ range =? end_ c) then Some c
  else if (start range =? start c) && (end_ range >? end_ c) then
    Some (mkRange (start c) (end_ range))
  else if start range >? start c then
    if start range <=? u64 (end_ c + 1) then
      Some (mkRange (start c) (Z.max (end_ c) (end_ range)))
    else None
  else Some c.

Fixpoint merge_pass (c : Range) (l : list Range) : list Range :=
  match l with
  | [] => [c]
  | range :: l =>
      match absorb c range with
      | Some c' => merge_pass c' l
      | None => c :: merge_pass range l
      end
  end.

Definition coalesced (ranges : list Range) : list Range :=
  match sort_ranges ranges with
  | [] => []
  | c :: l => merge_pass c (c :: l)
  end.

(** ** The in-place pass computes [merge_pass] *)

Lemma take_insert_last {A} (n : nat) (x : A) (v : list A) : (n < length v)%nat ->
  take (S n) (<[n := x]> v) = take n v ++ [x].
Proof.
  intros Hn. rewrite (take_S_r _ _ x) by (by apply list_lookup_insert_eq).
  by rewrite take_insert_ge by lia.
Qed.

Lemma coalesce_step_absorb st i r : vec st !! i = Some r ->
  coalesce_step st i =
    match absorb (current st) r with
    | Some c => mkPass (vec st) (count st) c
    | None => mkPass (<[(count st - 1)%nat := current st]> (vec st)) (S (count st)) r
    end.
Proof.
  intros Hr. unfold coalesce_step, absorb. rewrite Hr. destruct st as [v n c]; cbn [vec count current].
  repeat case_match; by simplify_eq.
Qed.

(** Writes happen at [count - 1], strictly before the read position [i]. *)
Lemma pass_in_place l : forall i st,
  drop i (vec st) = l -> (i <= length (vec st))%nat -> (1 <= count st <= i)%nat ->
  let st' := fold_left coalesce_step (seq i (length l)) st in
  take (count st') (<[(count st' - 1)%nat := current st']> (vec st')) =
    take (count st - 1) (vec st) ++ merge_pass (current st) l /\
  (1 <= count st' <= length (vec st))%nat /\ length (vec st') = length (vec st).
Proof.
  induction l as [|r l IH]; intros i st Hdrop Hi Hc.
  { cbn [seq length fold_left merge_pass]. split; [|lia].
    destruct (count st) as [|n] eqn:En; [lia|]. replace (S n - 1)%nat with n by lia.
    apply take_insert_last. lia. }
  assert (Hr : vec st !! i = Some r).
  { rewrite <- (Nat.add_0_r i), <- lookup_drop, Hdrop. done. }
  assert (Hlt : (i < length (vec st))%nat) by (by eapply lookup_lt_Some).
  assert (Hdrop' : drop (S i) (vec st) = l).
  { rewrite <- Nat.add_1_r, <- drop_drop, Hdrop. done. }
  cbn [length seq fold_left merge_pass]. rewrite (coalesce_step_absorb _ _ _ Hr).
  destruct (absorb (current st) r) as [c|].
  { apply (IH (S i) (mkPass (vec st) (count st) c)); cbn; [done|lia|lia]. }
  set (v := <[_ := _]> _).
  destruct (IH (S i) (mkPass v (S (count st)) r)) as (H1 & H2 & H3); cbn [vec count current] in *.
  - unfold v. rewrite drop_insert_lt by lia. done.
  - unfold v. rewrite length_insert. lia.
  - lia.
  - assert (Hv : length v = length (vec st)) by apply length_insert. rewrite Hv in H2, H3.
    split; [|done]. rewrite H1. replace (S (count st) - 1)%nat with (S (count st - 1)) by lia.
    unfold v. rewrite take_insert_last by lia. by rewrite <- app_assoc.
Qed.

Lemma copy_out_loop (ranges : list Range) n : forall (i : nat) (res : list Range),
  (i + n <= length ranges)%nat -> (i <= length res <= i + n)%nat ->
  take i res = take i ranges ->
  ofold (copy_one ranges) (seq i n) res = Ret (take (i + n) ranges).
Proof.
  induction n as [|n IH]; intros i res Hn Hres Htake; cbn [seq ofold].
  { rewrite Nat.add_0_r, <- Htake. f_equal. symmetry. apply take_ge. lia. }
  unfold copy_one at 1.
  set (res' := if (length res <=? i)%nat then res ++ [inhabitant] else res). cbv zeta.
  assert (Hres' : (length res' = Nat.max (S i) (length res))%nat /\ take i res' = take i res).
  { unfold res'. destruct (Nat.leb_spec (length res) i).
    - rewrite length_app, take_app_le by lia. cbn. split; [lia|done].
    - split; [lia|done]. }
  rewrite (proj2 (Nat.ltb_lt i (length res'))) by lia. cbn [CHECK obind].
  rewrite IH.
  - do 2 f_equal. lia.
  - lia.
  - rewrite length_insert. lia.
  - rewrite take_insert_last by lia. rewrite (take_S_r ranges i (ranges !!! i)).
    + by rewrite (proj2 Hres'), Htake.
    + apply list_lookup_lookup_total_lt. lia.
Qed.

Lemma copy_out_take result ranges n : (n <= length ranges)%nat ->
  copy_out result ranges n = Ret (take n ranges).
Proof.
  intros Hn. unfold copy_out. rewrite (copy_out_loop ranges n 0); [done|lia| |done].
  destruct (Nat.ltb_spec n (length result)); rewrite ?length_take; lia.
Qed.

Lemma absorb_self c : absorb c c = Some c.
Proof. unfold absorb. by rewrite !Z.eqb_refl. Qed.

(** The single pass never trips an assertion and computes [coalesced]. *)
Lemma internal_coalesce_ok result ranges :
  internal_coalesce result ranges = Ret (coalesced ranges).
Proof.
  unfold internal_coalesce, coalesced.
  destruct ranges as [|r0 rs]; [done|].
  set (ranges := r0 :: rs).
  assert (Hlen : length (sort_ranges ranges) = S (length rs)).
  { unfold sort_ranges. by rewrite (Permutation_length (merge_sort_Permutation _ _)). }
  destruct (sort_ranges ranges) as [|c l] eqn:E; [done|]. cbn [length] in Hlen.
  cbn [length Nat.eqb negb CHECK obind seq fold_left merge_pass lookup_total list_lookup_total].
  rewrite (coalesce_step_absorb (mkPass (c :: l) 1 c) 0 c eq_refl). cbn [current vec count].
  rewrite absorb_self.
  destruct (pass_in_place l 1 (mkPass (c :: l) 1 c)) as (H1 & H2 & H3); [done|cbn; lia|cbn; lia|].
  cbn [vec count current] in *. set (st := fold_left _ _ _) in *.
  change (length (c :: l)) with (S (length l)) in *.
  assert (Hle : (count st <= length (<[(count st - 1)%nat:=current st]> (vec st)))%nat).
  { rewrite length_insert. lia. }
  rewrite (proj2 (Nat.leb_le _ _) Hle). cbn [CHECK obind].
  rewrite copy_out_take by done. cbn [obind]. rewrite length_take, Nat.min_l, Nat.eqb_refl by done.
  cbn [CHECK obind]. by rewrite H1.
Qed.

Lemma coalesce_coalesced result added :
  coalesce result added = coalesced (result ++ concat added).
Proof. unfold coalesce. by rewrite internal_coalesce_ok. Qed.

(** ** What a list of ranges denotes *)

Definition covers (rs : Ranges) (x : Z) : Prop :=
  exists r, r ∈ rs /\ start r <= x <= end_ r.

(** A range that is not inverted and does not end at [UINT64_MAX]. *)
Definition valid_range (r : Range) : Prop :=
  0 <= start r <= end_ r /\ end_ r < UINT64_MAX.

(** Sorted, and separated by at least one number. *)
Definition apart (a b : Range) : Prop := end_ a + 1 < start b.
Definition canonical (rs : Ranges) : Prop :=
  StronglySorted apart rs /\ Forall valid_range rs.

Lemma covers_nil x : ~ covers [] x.
Proof. intros (r & Hr & _). by apply not_elem_of_nil in Hr. Qed.

Lemma covers_cons r rs x : covers (r :: rs) x <-> start r <= x <= end_ r \/ covers rs x.
Proof.
  unfold covers. setoid_rewrite elem_of_cons. split.
  - intros (r' & [->|Hr'] & Hx); eauto.
  - intros [Hx|(r' & Hr' & Hx)]; eauto.
Qed.

Lemma covers_app l1 l2 x : covers (l1 ++ l2) x <-> covers l1 x \/ covers l2 x.
Proof.
  induction l1 as [|r l1 IH]; cbn [app].
  - split; [by right|]. intros [H|H]; [by apply covers_nil in H|done].
  - rewrite !covers_cons, IH. tauto.
Qed.

#[export] Instance covers_perm : Proper ((≡ₚ) ==> eq ==> iff) covers.
Proof. intros l1 l2 Hl x ? <-. unfold covers. by setoid_rewrite Hl. Qed.

#[export] Instance range_le_total : Total range_le.
Proof. intros a b. unfold range_le, range_lt. lia. Qed.

#[export] Instance range_le_trans : Transitive range_le.
Proof. intros a b c. unfold range_le, range_lt. lia. Qed.

Lemma absorb_spec c r : valid_range c -> valid_range r -> start c <= start r ->
  match absorb c r with
  | Some c' => valid_range c' /\ start c' = start c /\ end_ c <= end_ c' /\
      forall x, start c' <= x <= end_ c' <-> start c <= x <= end_ c \/ start r <= x <= end_ r
  | None => apart c r
  end.
Proof.
  intros Hc Hr Hs. unfold absorb, apart, valid_range, UINT64_MAX, u64 in *.
  rewrite Z.mod_small by lia.
  destruct (Z.eqb_spec (start r) (start c)), (Z.eqb_spec (end_ r) (end_ c)),
    (Z.gtb_spec (end_ r) (end_ c)), (Z.gtb_spec (start r) (start c)),
    (Z.leb_spec (start r) (end_ c + 1)); cbn [andb start end_]; repeat split; lia.
Qed.

Definition start_le (a b : Range) : Prop := start a <= start b.

(** The pass over a sorted list builds the canonical form. *)
Lemma merge_pass_spec l : forall c,
  valid_range c -> Forall valid_range l -> StronglySorted start_le (c :: l) ->
  canonical (merge_pass c l) /\
  Forall (start_le c) (merge_pass c l) /\
  forall x, covers (merge_pass c l) x <-> covers (c :: l) x.
Proof.
  induction l as [|r l IH]; intros c Hc Hl Hs; cbn [merge_pass].
  { split_and!; [split; [apply SSorted_cons; constructor|by constructor]| |done].
    constructor; [unfold start_le; lia|constructor]. }
  apply Forall_cons in Hl as [Hr Hl]. apply StronglySorted_inv in Hs as [Hs Hle].
  apply Forall_cons in Hle as [Hcr Hle].
  pose proof (absorb_spec c r Hc Hr Hcr) as Ha. destruct (absorb c r) as [c'|].
  - destruct Ha as (Hc' & Hst & Hend & Hcov).
    assert (Hs' : StronglySorted start_le (c' :: l)).
    { apply StronglySorted_inv in Hs as [Hs _]. constructor; [done|].
      unfold start_le in *. by rewrite Hst. }
    destruct (IH c' Hc' Hl Hs') as (H1 & H2 & H3).
    split_and!; [done|unfold start_le in *; by rewrite <- Hst|].
    intros x. rewrite H3, !covers_cons, Hcov. tauto.
  - destruct (IH r Hr Hl Hs) as ((H1 & H1') & H2 & H3). unfold apart, start_le in *.
    split_and!.
    + split; constructor; [done| |done|done].
      eapply Forall_impl; [exact H2|]. cbn. unfold apart. lia.
    + constructor; [lia|]. eapply Forall_impl; [exact H2|]. cbn. lia.
    + intros x. rewrite covers_cons, H3, !covers_cons. tauto.
Qed.

Lemma sort_ranges_perm l : sort_ranges l ≡ₚ l.
Proof. apply merge_sort_Permutation. Qed.

Lemma sort_ranges_sorted l : StronglySorted start_le (sort_ranges l).
Proof.
  eapply StronglySorted_impl; [|apply (StronglySorted_merge_sort range_le)].
  intros a b. unfold range_le, range_lt, start_le. lia.
Qed.

Lemma coalesced_spec l : Forall valid_range l ->
  canonical (coalesced l) /\ forall x, covers (coalesced l) x <-> covers l x.
Proof.
  intros Hl. unfold coalesced. pose proof (sort_ranges_perm l) as Hp.
  pose proof (sort_ranges_sorted l) as Hs.
  rewrite <- Hp in Hl. assert (Hcov : forall x, covers l x <-> covers (sort_ranges l) x)
    by (intros x; by rewrite Hp).
  setoid_rewrite Hcov. clear Hp Hcov.
  destruct (sort_ranges l) as [|c l']; [split; [split; constructor|done]|].
  apply Forall_cons in Hl as [Hc Hl]. cbn [merge_pass]. rewrite absorb_self.
  destruct (merge_pass_spec l' c Hc Hl Hs) as (H1 & _ & H3). done.
Qed.

(** ** Canonical forms are unique *)

Lemma canonical_cons a l : canonical (a :: l) ->
  canonical l /\ valid_range a /\ Forall (apart a) l.
Proof.
  intros [Hs Hv]. apply StronglySorted_inv in Hs as [Hs Ha].
  apply Forall_cons in Hv as [Hv Hvl]. done.
Qed.

Lemma covers_after a l x : Forall (apart a) l -> covers l x -> end_ a + 1 < x.
Proof.
  intros Ha (r & Hr & Hx). rewrite Forall_forall in Ha. specialize (Ha r Hr).
  unfold apart in Ha. lia.
Qed.

(** The head of a canonical list is determined by the set it covers. *)
Lemma canonical_head a l b l' :
  canonical (a :: l) -> canonical (b :: l') ->
  (forall x, covers (a :: l) x <-> covers (b :: l') x) -> a = b.
Proof.
  intros (_ & Ha & Hal)%canonical_cons (_ & Hb & Hbl)%canonical_cons Heq.
  assert (Hcov : forall x, (start a <= x <= end_ a \/ covers l x) <->
                           (start b <= x <= end_ b \/ covers l' x))
    by (intros x; rewrite <- !covers_cons; apply Heq).
  assert (HA : forall x, covers l x -> end_ a + 1 < x) by (intros x; by apply covers_after).
  assert (HB : forall x, covers l' x -> end_ b + 1 < x) by (intros x; by apply covers_after).
  unfold valid_range in Ha, Hb.
  assert (start a = start b).
  { destruct (proj1 (Hcov (start a))) as [H|H%HB]; [left; lia|..];
    destruct (proj2 (Hcov (start b))) as [H'|H'%HA]; try (left; lia); lia. }
  assert (end_ a = end_ b).
  { destruct (Z.lt_trichotomy (end_ a) (end_ b)) as [Hlt|[?|Hlt]]; [|done|].
    - destruct (proj2 (Hcov (end_ a + 1))) as [H'|H'%HA]; [left; lia|lia|lia].
    - destruct (proj1 (Hcov (end_ b + 1))) as [H'|H'%HB]; [left; lia|lia|lia]. }
  destruct a, b; cbn in *; congruence.
Qed.

Lemma canonical_unique l1 : forall l2, canonical l1 -> canonical l2 ->
  (forall x, covers l1 x <-> covers l2 x) -> l1 = l2.
Proof.
  induction l1 as [|a l1 IH]; intros [|b l2] H1 H2 Heq; [done|..].
  - destruct (canonical_cons _ _ H2) as (_ & Hb & _). unfold valid_range in Hb.
    destruct (covers_nil (start b)). apply Heq, covers_cons. lia.
  - destruct (canonical_cons _ _ H1) as (_ & Ha & _). unfold valid_range in Ha.
    destruct (covers_nil (start a)). apply Heq, covers_cons. lia.
  - assert (a = b) as -> by (by eapply canonical_head).
    apply canonical_cons in H1 as (H1 & Hb & H1l). apply canonical_cons in H2 as (H2 & _ & H2l).
    f_equal. apply IH; [done..|]. intros x. specialize (Heq x). rewrite !covers_cons in Heq.
    split; intros Hx.
    + pose proof (covers_after _ _ _ H1l Hx). destruct (proj1 Heq (or_intror Hx)); [lia|done].
    + pose proof (covers_after _ _ _ H2l Hx). destruct (proj2 Heq (or_intror Hx)); [lia|done].
Qed.

Lemma canonical_NoDup l : canonical l -> NoDup l.
Proof.
  induction l as [|a l IH]; intros H; constructor.
  - apply canonical_cons in H as (_ & Hv & Ha). intros Hin.
    rewrite Forall_forall in Ha. specialize (Ha a Hin). unfold apart, valid_range in *. lia.
  - apply IH. by apply canonical_cons in H as (? & _).
Qed.

(** ** The operators decide equality and inclusion *)

Lemma Ranges_eq_lists l1 l2 : canonical l1 -> canonical l2 ->
  ((length l1 =? length l2)%nat = true /\
   forallb (fun l => existsb (fun r => (start l =? start r) && (end_ l =? end_ r)) l2) l1 = true)
  <-> l1 = l2.
Proof.
  intros H1 H2.
  rewrite (forallb_Forall _ (fun l => l ∈ l2)), Nat.eqb_eq, Forall_forall.
  2: { intros a _. rewrite existsb_elem. split.
       - intros (r & Hr & Heq). destruct a, r; cbn in Heq.
         apply andb_prop in Heq as [->%Z.eqb_eq ->%Z.eqb_eq]. done.
       - intros Ha. exists a. by rewrite !Z.eqb_refl. }
  split; [|intros ->; done]. intros [Hlen Hsub].
  assert (Hp : l1 ≡ₚ l2).
  { apply submseteq_length_Permutation; [|lia].
    apply NoDup_submseteq; [by apply canonical_NoDup|]. intros x; apply Hsub. }
  apply canonical_unique; [done..|]. intros x. by rewrite Hp.
Qed.

Lemma Ranges_eq_lists_bool l1 l2 : canonical l1 -> canonical l2 ->
  l1 = l2 <-> (if (length l1 =? length l2)%nat then
     forallb (fun l => existsb (fun r => (start l =? start r) && (end_ l =? end_ r)) l2) l1
   else false) = true.
Proof.
  intros H1 H2. rewrite <- (Ranges_eq_lists _ _ H1 H2). destruct (_ =? _)%nat; [tauto|].
  split; [intros [? _]; done|done].
Qed.

Lemma Ranges_add_spec l r : Forall valid_range l -> Forall valid_range r ->
  canonical (Ranges_add l r) /\
  forall x, covers (Ranges_add l r) x <-> covers l x \/ covers r x.
Proof.
  intros Hl Hr. unfold Ranges_add. rewrite coalesce_coalesced. cbn [concat app]. rewrite app_nil_r.
  destruct (coalesced_spec (l ++ r)) as [H1 H2]; [by apply Forall_app|].
  split; [done|]. intros x. by rewrite H2, covers_app.
Qed.

(** A contiguous range inside a canonical set lies in one of its ranges. *)
Lemma canonical_contiguous rs l : canonical rs -> start l <= end_ l ->
  (forall x, start l <= x <= end_ l -> covers rs x) ->
  exists r, r ∈ rs /\ start r <= start l /\ end_ l <= end_ r.
Proof.
  intros Hrs Hl Hx. destruct (Hx (start l)) as (r & Hr & Hin); [lia|].
  exists r. split_and!; [done|lia|].
  destruct (Z.le_gt_cases (end_ l) (end_ r)) as [|Hgt]; [done|].
  destruct (Hx (end_ r + 1)) as (r' & Hr' & Hin'); [lia|]. exfalso.
  clear Hx. induction rs as [|a rs IH]; [by apply not_elem_of_nil in Hr|].
  apply canonical_cons in Hrs as (Hrs & Hva & Ha). rewrite Forall_forall in Ha.
  unfold apart, valid_range in *.
  apply elem_of_cons in Hr as [->|Hr], Hr' as [->|Hr'].
  - lia.
  - specialize (Ha _ Hr'). lia.
  - specialize (Ha _ Hr). lia.
  - by apply IH.
Qed.

Lemma Ranges_le_lists l1 l2 : canonical l1 -> canonical l2 ->
  forallb (fun l => existsb (fun r => (start l >=? start r) && (end_ l <=? end_ r)) l2) l1 = true
  <-> forall x, covers l1 x -> covers l2 x.
Proof.
  intros [_ H1] H2.
  rewrite (forallb_Forall _ (fun l => exists r, r ∈ l2 /\ start r <= start l /\ end_ l <= end_ r)).
  2: { intros a _. rewrite existsb_elem. split; intros (r & Hr & H); exists r; split; try done; lia. }
  rewrite Forall_forall in *. split.
  - intros H x (l & Hl & Hx). destruct (H l Hl) as (r & Hr & Hlr). exists r. split; [done|lia].
  - intros H l Hl. apply canonical_contiguous; [done|specialize (H1 l Hl); unfold valid_range in H1; lia|].
    intros x Hx. apply H. by exists l.
Qed.

(** ** Subtraction, through an interval set

    [IntervalSet<uint64_t>] (stout/interval.hpp) wraps Boost's
    [icl::interval_set], which is not part of the sources.  The class lists the
    operations the code uses; the laws are Boost's documented behaviour: a
    right-open interval [lo, up) is added or ignored when empty, subtraction
    removes the elements of the other set, and iteration yields the non-empty
    intervals in increasing order, touching ones joined. *)
Class IntervalSet (IS : Type) := {
  iset_empty : IS;
  iset_add : IS -> Z * Z -> IS;
  iset_sub : IS -> IS -> IS;
  iset_intervals : IS -> list (Z * Z);
}.

Definition iset_mem {IS} `{IntervalSet IS} (s : IS) (x : Z) : Prop :=
  exists i, i ∈ iset_intervals s /\ i.1 <= x < i.2.

Class IntervalSetLaws (IS : Type) `{IntervalSet IS} : Prop := {
  iset_empty_mem x : ~ iset_mem iset_empty x;
  iset_add_mem s lo up x : 0 <= lo -> up <= UINT64_MAX ->
    iset_mem (iset_add s (lo, up)) x <-> iset_mem s x \/ lo <= x < up;
  iset_sub_mem s t x : iset_mem (iset_sub s t) x <-> iset_mem s x /\ ~ iset_mem t x;
  iset_sorted s : StronglySorted (fun a b => a.2 < b.1) (iset_intervals s);
  iset_bounds s : Forall (fun i => 0 <= i.1 < i.2 /\ i.2 <= UINT64_MAX) (iset_intervals s);
}.

Section Subtraction.
  Context {IS : Type} `{IntervalSet IS}.

(** The closed interval [begin, end] of [uint64_t] in right-open form. *)
Definition closed_interval (r : Range) : Z * Z := (start r, u64 (end_ r + 1)).

Definition rangesToIntervalSet (ranges : Ranges) : IS :=
  fold_left (fun set range => iset_add set (closed_interval range)) ranges iset_empty.

Definition intervalSetToRanges (set : IS) : Ranges :=
  map (fun interval => mkRange interval.1 (u64 (interval.2 - 1))) (iset_intervals set).

(** [operator-=] and [operator-] *)
Definition Ranges_sub_assign (_left _right : Ranges) : Ranges :=
  let left := rangesToIntervalSet _left in
  let right := rangesToIntervalSet _right in
  intervalSetToRanges (iset_sub left right).

Definition Ranges_sub (left right : Ranges) : Ranges :=
  let result := coalesce [] [left] in Ranges_sub_assign result right.

  Context `{!IntervalSetLaws IS}.

Lemma rangesToIntervalSet_mem ranges : Forall valid_range ranges ->
  forall x, iset_mem (rangesToIntervalSet ranges) x <-> covers ranges x.
Proof.
  unfold rangesToIntervalSet. intros Hv.
  assert (Hgen : forall s x,
    iset_mem (fold_left (fun set range => iset_add set (closed_interval range)) ranges s) x <->
    iset_mem s x \/ covers ranges x).
  { induction ranges as [|r rs IH]; intros s x; cbn [fold_left].
    - split; [by left|]. intros [|?%covers_nil]; done.
    - apply Forall_cons in Hv as [Hr Hv]. rewrite (IH Hv), covers_cons. clear IH.
      unfold closed_interval, valid_range, UINT64_MAX, u64 in *. rewrite Z.mod_small by lia.
      rewrite iset_add_mem by (unfold UINT64_MAX; lia).
      assert (Hx : start r <= x < end_ r + 1 <-> start r <= x <= end_ r) by lia.
      rewrite Hx. tauto. }
  intros x. rewrite Hgen. split; [|by right].
  intros [?%iset_empty_mem|]; done.
Qed.

Lemma intervalSetToRanges_spec set :
  canonical (intervalSetToRanges set) /\
  forall x, covers (intervalSetToRanges set) x <-> iset_mem set x.
Proof.
  unfold intervalSetToRanges, iset_mem. pose proof (iset_sorted set) as Hs.
  pose proof (iset_bounds set) as Hb. induction (iset_intervals set) as [|i l IH]; cbn [map].
  - split; [split; constructor|]. intros x. split; [intros []%covers_nil|].
    intros (i & []%not_elem_of_nil & _).
  - apply Forall_cons in Hb as [Hi Hb]. apply StronglySorted_inv in Hs as [Hs Hil].
    destruct (IH Hs Hb) as [[IHs IHv] IHc]. unfold u64 in *.
    assert (Hu : (i.2 - 1) mod 2 ^ 64 = i.2 - 1) by (rewrite Z.mod_small; unfold UINT64_MAX in *; lia).
    split; [split; constructor; [done| |unfold valid_range; cbn; lia|done]|].
    + apply Forall_forall. intros r (j & -> & Hj)%list_elem_of_fmap.
      rewrite Forall_forall in Hil. specialize (Hil j Hj). unfold apart; cbn. lia.
    + intros x. rewrite covers_cons, IHc. cbn [start end_]. rewrite Hu.
      setoid_rewrite elem_of_cons. split.
      * intros [Hx|(j & Hj & Hx)]; [exists i; split; [by left|lia]|eauto].
      * intros (j & [->|Hj] & Hx); [left; lia|eauto].
Qed.

Lemma Ranges_sub_assign_spec l r :
  Forall valid_range l -> Forall valid_range r ->
  canonical (Ranges_sub_assign l r) /\
  forall x, covers (Ranges_sub_assign l r) x <-> covers l x /\ ~ covers r x.
Proof.
  intros Hl Hr. unfold Ranges_sub_assign.
  destruct (intervalSetToRanges_spec (iset_sub (rangesToIntervalSet l) (rangesToIntervalSet r)))
    as [Hc Hm].
  split; [exact Hc|]. intros x. rewrite Hm, iset_sub_mem, !rangesToIntervalSet_mem by done. done.
Qed.
End Subtraction.

(** ** A reference interval set

    Canonical lists of ranges form an interval set: the laws can be met, and
    the definitions above can be evaluated with it. *)
Module RefIntervalSet.

Definition t : Type := { l : Ranges | canonical l }.

#[local] Instance valid_range_dec r : Decision (valid_range r).
Proof. unfold valid_range. apply _. Defined.

Definition elems (s : t) : Ranges := proj1_sig s.

Definition mk (l : Ranges) : t :=
  coalesced (filter valid_range l) ↾ proj1 (coalesced_spec _ (Forall_filter_all valid_range l)).

(** What is left of [a] once [b] is removed. *)
Definition cut (b a : Range) : Ranges :=
  filter valid_range
    [mkRange (start a) (Z.min (end_ a) (start b - 1)); mkRange (Z.max (start a) (end_ b + 1)) (end_ a)].

Definition cut_all (bs : Ranges) (l : Ranges) : Ranges :=
  fold_left (fun l b => concat (map (cut b) l)) bs l.

#[global] Instance ops : IntervalSet t := {
  iset_empty := mk [];
  iset_add s i := mk (mkRange i.1 (i.2 - 1) :: elems s);
  iset_sub s u := mk (cut_all (elems u) (elems s));
  iset_intervals s := map (fun r => (start r, end_ r + 1)) (elems s);
}.

Lemma mk_covers l x : covers (elems (mk l)) x <-> covers (filter valid_range l) x.
Proof. apply coalesced_spec, Forall_filter_all. Qed.

Lemma covers_filter l x :
  covers (filter valid_range l) x <-> exists r, r ∈ l /\ valid_range r /\ start r <= x <= end_ r.
Proof.
  unfold covers. setoid_rewrite list_elem_of_filter. split.
  - intros (r & [Hv Hr] & Hx). eauto.
  - intros (r & Hr & Hv & Hx). eauto.
Qed.

Lemma covers_filter_id l x : Forall valid_range l -> covers (filter valid_range l) x <-> covers l x.
Proof.
  rewrite covers_filter, Forall_forall. intros Hl. split.
  - intros (r & Hr & _ & Hx). by exists r.
  - intros (r & Hr & Hx). eauto.
Qed.

Lemma intervals_mem (s : t) x : iset_mem s x <-> covers (elems s) x.
Proof.
  unfold iset_mem, covers. cbn. setoid_rewrite list_elem_of_fmap. split.
  - intros (? & (r & -> & Hr) & Hx). cbn in Hx. exists r. split; [done|lia].
  - intros (r & Hr & Hx). exists (start r, end_ r + 1). split; [by exists r|cbn; lia].
Qed.

Lemma cut_covers b a x : valid_range a -> valid_range b ->
  covers (cut b a) x <-> start a <= x <= end_ a /\ ~ (start b <= x <= end_ b).
Proof.
  intros Ha Hb. unfold cut. rewrite covers_filter. setoid_rewrite elem_of_cons.
  setoid_rewrite list_elem_of_singleton. unfold valid_range in *. split.
  - intros (r & [->| ->] & Hv & Hx); cbn in *; lia.
  - intros Hx. destruct (Z.lt_ge_cases x (start b)); eexists; split;
      [left; reflexivity|cbn; lia|right; reflexivity|cbn; lia].
Qed.

Lemma cut_all_spec bs : forall l, Forall valid_range bs -> Forall valid_range l ->
  Forall valid_range (cut_all bs l) /\
  forall x, covers (cut_all bs l) x <-> covers l x /\ ~ covers bs x.
Proof.
  unfold cut_all. induction bs as [|b bs IH]; intros l Hbs Hl; cbn [fold_left].
  { split; [done|]. intros x. split; [intros ?; split; [done|apply covers_nil]|tauto]. }
  apply Forall_cons in Hbs as [Hb Hbs].
  destruct (IH (concat (map (cut b) l)) Hbs) as [H1 H2].
  { apply Forall_forall. intros r (a & _ & Hr)%elem_of_concat_map.
    by apply list_elem_of_filter in Hr as [? _]. }
  split; [done|]. intros x. rewrite H2, covers_cons.
  assert (Hc : covers (concat (map (cut b) l)) x <-> covers l x /\ ~ (start b <= x <= end_ b)).
  { rewrite Forall_forall in Hl. unfold covers at 1. setoid_rewrite elem_of_concat_map. split.
    - intros (r & (a & Ha & Hr) & Hx).
      destruct (proj1 (cut_covers b a x (Hl a Ha) Hb)) as [Hax Hbx]; [by exists r|].
      split; [by exists a|done].
    - intros [(a & Ha & Hax) Hbx].
      destruct (proj2 (cut_covers b a x (Hl a Ha) Hb)) as (r & Hr & Hx); [done|eauto]. }
  rewrite Hc. tauto.
Qed.

#[global] Instance laws : IntervalSetLaws t.
Proof.
  split.
  - intros x. rewrite intervals_mem. change (elems iset_empty) with (elems (mk [])).
    rewrite mk_covers. apply covers_nil.
  - intros s lo up x Hlo Hup. rewrite !intervals_mem.
    change (elems (iset_add s (lo, up))) with (elems (mk (mkRange lo (up - 1) :: elems s))).
    destruct (proj2_sig s) as [_ Hs]. fold (elems s) in Hs. rewrite Forall_forall in Hs.
    rewrite mk_covers, covers_filter. setoid_rewrite elem_of_cons. unfold covers. split.
    + intros (r & [->|Hr] & Hv & Hx); cbn in *; [right; lia|left; eauto].
    + intros [(r & Hr & Hx)|Hx]; [exists r; auto|].
      exists (mkRange lo (up - 1)). unfold valid_range. cbn. split; [by left|lia].
  - intros s u x. rewrite !intervals_mem.
    change (elems (iset_sub s u)) with (elems (mk (cut_all (elems u) (elems s)))).
    destruct (cut_all_spec (elems u) (elems s)) as [H1 H2]; [apply (proj2_sig u)|apply (proj2_sig s)|].
    by rewrite mk_covers, covers_filter_id, H2 by done.
  - intros s. destruct (proj2_sig s) as [Hs _]. fold (elems s) in Hs.
    cbn [iset_intervals ops]. induction Hs as [|a l _ IH Ha]; cbn; constructor; [done|].
    apply Forall_forall. intros i (r & -> & Hr)%list_elem_of_fmap.
    rewrite Forall_forall in Ha. specialize (Ha r Hr). unfold apart in Ha. cbn. lia.
  - intros s. destruct (proj2_sig s) as [_ Hv]. fold (elems s) in Hv. cbn. apply Forall_forall. intros i (r & -> & Hr)%list_elem_of_fmap.
    rewrite Forall_forall in Hv. specialize (Hv r Hr). unfold valid_range, UINT64_MAX in *. cbn. lia.
Qed.

End RefIntervalSet.

(** ** Properties *)

(** C15: Whatever the destination held before, [internal::coalesce] runs to the
    end without failing one of its four assertions, and for input ranges that
    are not inverted and end below [UINT64_MAX] it leaves a sorted list of
    ranges, any two separated by a gap, that holds exactly the numbers the
    input ranges hold. *)
Theorem coalesce_canonical result ranges :
  exists out, internal_coalesce result ranges = Ret out /\
    (Forall valid_range ranges -> canonical out /\ forall x, covers out x <-> covers ranges x).
Proof.
  exists (coalesced ranges). split; [apply internal_coalesce_ok|]. apply coalesced_spec.
Qed.

Definition sample_ranges : Ranges :=
  [mkRange 31000 32000; mkRange 10 20; mkRange 21 30; mkRange 15 18; mkRange 40 50].

Lemma valid_ranges_decide l :
  forallb (fun r => (0 <=? start r) && (start r <=? end_ r) && (end_ r <? UINT64_MAX)) l = true ->
  Forall valid_range l.
Proof. apply forallb_Forall. intros r _. unfold valid_range. lia. Qed.

Lemma coalesce_canonical_witness :
  exists out, internal_coalesce [mkRange 7 7] sample_ranges = Ret out /\
    canonical out /\ forall x, covers out x <-> covers sample_ranges x.
Proof.
  destruct (coalesce_canonical [mkRange 7 7] sample_ranges) as (out & E & H).
  exists out. split; [exact E|]. apply H, valid_ranges_decide. reflexivity.
Defined.

Example sample_coalesced :
  coalesce [] [sample_ranges] = [mkRange 10 30; mkRange 40 50; mkRange 31000 32000].
Proof. vm_compute. reflexivity. Qed.

(** On well-formed ranges [operator==] decides equality and [operator<=]
    inclusion of the sets of numbers, however the ranges are split, ordered or
    overlapped. *)
Theorem ranges_compare_sets l r : Forall valid_range l -> Forall valid_range r ->
  (Ranges_eq l r = true <-> forall x, covers l x <-> covers r x) /\
  (Ranges_le l r = true <-> forall x, covers l x -> covers r x).
Proof.
  intros Hl Hr. destruct (coalesced_spec l Hl) as [Cl Sl], (coalesced_spec r Hr) as [Cr Sr].
  unfold Ranges_eq, Ranges_le. rewrite !coalesce_coalesced. cbn [concat app].
  rewrite !app_nil_r. cbv zeta. split.
  - setoid_rewrite <- Sl. setoid_rewrite <- Sr. rewrite <- (Ranges_eq_lists_bool _ _ Cl Cr).
    split; [by intros ->|]. by apply canonical_unique.
  - setoid_rewrite <- Sl. setoid_rewrite <- Sr. by apply Ranges_le_lists.
Qed.

Lemma ranges_compare_sets_witness :
  (Ranges_eq sample_ranges [mkRange 10 30] = true <->
     forall x, covers sample_ranges x <-> covers [mkRange 10 30] x) /\
  (Ranges_le sample_ranges [mkRange 10 30] = true <->
     forall x, covers sample_ranges x -> covers [mkRange 10 30] x).
Proof.
  apply (ranges_compare_sets sample_ranges [mkRange 10 30]); apply valid_ranges_decide; reflexivity.
Defined.

(** C24: On operands whose ranges are not inverted and end below [UINT64_MAX],
    [operator+] (and [operator+=]) is set union and [operator-=] is set
    difference, the latter for every interval set that meets the documented
    laws; both results are canonical, so they can be the operands of the next
    operation. *)
Theorem ranges_union_difference {IS} `{IntervalSetLaws IS} l r :
  Forall valid_range l -> Forall valid_range r ->
  (canonical (Ranges_add l r) /\ Ranges_add_assign l r = Ranges_add l r /\
   forall x, covers (Ranges_add l r) x <-> covers l x \/ covers r x) /\
  (canonical (Ranges_sub_assign (IS := IS) l r) /\
   forall x, covers (Ranges_sub_assign (IS := IS) l r) x <-> covers l x /\ ~ covers r x).
Proof.
  intros Hl Hr. split; [|by apply Ranges_sub_assign_spec].
  destruct (Ranges_add_spec l r Hl Hr) as [H1 H2]. split; [done|]. split; [|done].
  unfold Ranges_add_assign, Ranges_add. by rewrite !coalesce_coalesced.
Qed.

Lemma ranges_union_difference_witness :
  (canonical (Ranges_add sample_ranges [mkRange 5 12]) /\
   Ranges_add_assign sample_ranges [mkRange 5 12] = Ranges_add sample_ranges [mkRange 5 12] /\
   forall x, covers (Ranges_add sample_ranges [mkRange 5 12]) x <->
     covers sample_ranges x \/ covers [mkRange 5 12] x) /\
  (canonical (Ranges_sub_assign (IS := RefIntervalSet.t) sample_ranges [mkRange 5 12]) /\
   forall x, covers (Ranges_sub_assign (IS := RefIntervalSet.t) sample_ranges [mkRange 5 12]) x <->
     covers sample_ranges x /\ ~ covers [mkRange 5 12] x).
Proof.
  apply (ranges_union_difference (IS := RefIntervalSet.t) sample_ranges [mkRange 5 12]);
    apply valid_ranges_decide; reflexivity.
Defined.

(** The bound on the end of a range is needed: at [UINT64_MAX] the
    comparison [range.start <= current.end + 1] wraps around, a range inside
    the current one is kept apart, and [operator==] tells apart two
    representations of the same set. *)
Theorem coalesce_overflow :
  coalesce [] [[mkRange 0 UINT64_MAX; mkRange 5 10]] = [mkRange 0 UINT64_MAX; mkRange 5 10] /\
  Ranges_eq [mkRange 0 UINT64_MAX; mkRange 5 10] [mkRange 0 UINT64_MAX] = false /\
  Ranges_le [mkRange 0 UINT64_MAX; mkRange 5 10] [mkRange 0 UINT64_MAX] = true /\
  forall x, covers [mkRange 0 UINT64_MAX; mkRange 5 10] x <-> covers [mkRange 0 UINT64_MAX] x.
Proof.
  split_and!; [vm_compute; reflexivity..|]. intros x. rewrite !covers_cons. cbn.
  unfold UINT64_MAX. split; [|tauto]. intros [?|[?|?]]; [by left|left; lia|by right].
Qed.
