(* ===== verification/Sets.v ===== *)
(** * [Value::Set] (source/values.cpp, lines 431-565)

    A set resource is a list of strings.  The operators are the nested index
    loops of the code.  On lists without duplicates they implement a finite
    set: [operator+] is union, [operator-] and [operator-=] are difference and
    [operator<=] is inclusion.  [operator==] compares position by position. *)
From S2P Require Import Prelude.

Abbreviation ValueSet := (list string) (only parsing).

(** The inner loop of the operators: is [x] one of the items? *)
Definition found (x : string) (items : list string) : bool :=
  existsb (fun y => bool_decide (x = y)) items.

(** [operator==]: the inner loop over [j] compares item [i] of both sides. *)
Definition Set_eq (left right : ValueSet) : bool :=
  if (length left =? length right)%nat then
    forallb (fun i => existsb (fun j : nat => bool_decide (left !! i = right !! i))
                        (seq 0 (length right)))
      (seq 0 (length left))
  else false.

(** [operator<=] *)
Definition Set_le (left right : ValueSet) : bool :=
  if (length left <=? length right)%nat then forallb (fun x => found x right) left else false.

(** One iteration of the loop that adds the items of the right operand. *)
Definition add_item_once (result : list string) (x : string) : list string :=
  if found x result then result else result ++ [x].

(** [operator+=] and [operator+], which first copies the left operand. *)
Definition Set_add_assign (left right : ValueSet) : ValueSet :=
  fold_left add_item_once right left.
Definition Set_add (left right : ValueSet) : ValueSet :=
  let result := fold_left (fun result x => result ++ [x]) left [] in
  fold_left add_item_once right result.

(** [operator-] *)
Definition Set_sub (left right : ValueSet) : ValueSet :=
  fold_left (fun result x => if found x right then result else result ++ [x]) left [].

(** The inner loop of [operator-=]: delete the first item equal to [x]. *)
Fixpoint delete_first (x : string) (items : list string) : list string :=
  match items with
  | [] => []
  | y :: items' => if bool_decide (x = y) then items' else y :: delete_first x items'
  end.

(** [operator-=] *)
Definition Set_sub_assign (left right : ValueSet) : ValueSet :=
  fold_left (fun left x => delete_first x left) right left.

(** ** Lemmas *)

Lemma found_elem x l : found x l = true <-> x ∈ l.
Proof.
  unfold found. rewrite existsb_elem. split.
  - intros (y & Hy & ->%bool_decide_eq_true). done.
  - intros Hx. exists x. split; [done|]. by apply bool_decide_eq_true.
Qed.

Lemma found_not_elem x l : found x l = false <-> x ∉ l.
Proof. rewrite <- not_true_iff_false, found_elem. done. Qed.

Lemma add_item_once_spec l x :
  (NoDup l -> NoDup (add_item_once l x)) /\ forall y, y ∈ add_item_once l x <-> y ∈ l \/ y = x.
Proof.
  unfold add_item_once. destruct (found x l) eqn:E.
  - apply found_elem in E. split; [done|]. intros y. split; [by left|]. by intros [?| ->].
  - apply found_not_elem in E. split.
    + intros Hl. apply NoDup_app. split_and!; [done| |apply NoDup_singleton].
      intros y Hy ->%list_elem_of_singleton. done.
    + intros y. by rewrite elem_of_app, list_elem_of_singleton.
Qed.

Lemma Set_add_assign_spec right : forall left,
  (NoDup left -> NoDup (Set_add_assign left right)) /\
  forall y, y ∈ Set_add_assign left right <-> y ∈ left \/ y ∈ right.
Proof.
  unfold Set_add_assign. induction right as [|x right IH]; intros left; cbn [fold_left].
  - split; [done|]. intros y. rewrite elem_of_nil. tauto.
  - destruct (add_item_once_spec left x) as [H1 H2].
    destruct (IH (add_item_once left x)) as [H3 H4]. split; [auto|].
    intros y. rewrite H4, H2, elem_of_cons. tauto.
Qed.

Lemma fold_snoc_app {A} (l acc : list A) : fold_left (fun r x => r ++ [x]) l acc = acc ++ l.
Proof.
  revert acc. induction l as [|x l IH]; intros acc; cbn [fold_left]; [by rewrite app_nil_r|].
  by rewrite IH, <- app_assoc.
Qed.

Lemma Set_add_assign_eq left right : Set_add left right = Set_add_assign left right.
Proof. unfold Set_add, Set_add_assign. by rewrite fold_snoc_app. Qed.

Lemma Set_sub_filter left right : Set_sub left right = filter (.∉ right) left.
Proof.
  unfold Set_sub.
  assert (Hgen : forall acc : list string,
    fold_left (fun result x => if found x right then result else result ++ [x]) left acc =
    acc ++ filter (.∉ right) left); [|apply (Hgen [])].
  induction left as [|x left IH]; intros acc; cbn [fold_left].
  - by rewrite filter_nil, app_nil_r.
  - rewrite IH, filter_cons. destruct (found x right) eqn:E.
    + apply found_elem in E. by destruct (decide (x ∉ right)).
    + apply found_not_elem in E. destruct (decide (x ∉ right)); [|done].
      by rewrite <- app_assoc.
Qed.

Lemma delete_first_NoDup x l : NoDup l -> delete_first x l = filter (.≠ x) l.
Proof.
  induction 1 as [|y l Hy Hl IH]; [done|]. cbn [delete_first]. rewrite filter_cons.
  case_bool_decide as E.
  - subst y. destruct (decide (x ≠ x)); [done|]. rewrite filter_Forall_id; [done|].
    apply Forall_forall. intros z Hz ->. done.
  - destruct (decide (y ≠ x)); [by rewrite IH|]. exfalso. auto.
Qed.

Lemma Set_sub_assign_filter right : forall left, NoDup left ->
  Set_sub_assign left right = filter (.∉ right) left.
Proof.
  unfold Set_sub_assign. induction right as [|x right IH]; intros left Hl; cbn [fold_left].
  - rewrite filter_Forall_id; [done|]. apply Forall_forall. intros y _. apply not_elem_of_nil.
  - rewrite delete_first_NoDup, IH by (try apply NoDup_filter; done).
    rewrite list_filter_filter. apply list_filter_iff. intros y. rewrite not_elem_of_cons. tauto.
Qed.

Lemma Set_eq_positional left right : Set_eq left right = true <-> left = right.
Proof.
  unfold Set_eq. destruct (Nat.eqb_spec (length left) (length right)) as [E|E].
  - rewrite (forallb_Forall _ (fun i => left !! i = right !! i)).
    + rewrite Forall_forall. split; [|by intros ->]. intros H. apply list_eq. intros i.
      destruct (decide (i < length left)%nat).
      * apply H, elem_of_seq. lia.
      * rewrite !lookup_ge_None_2 by lia. done.
    + intros i Hi%elem_of_seq. rewrite existsb_elem. split.
      * by intros (j & _ & H%bool_decide_eq_true).
      * intros H. exists 0%nat. split; [apply elem_of_seq; lia|by apply bool_decide_eq_true].
  - split; [done|]. intros ->. done.
Qed.

Lemma Set_le_spec left right :
  Set_le left right = true <-> (length left <= length right)%nat /\ left ⊆ right.
Proof.
  unfold Set_le.
  destruct (Nat.leb_spec (length left) (length right)) as [E|E].
  - rewrite (forallb_Forall _ (.∈ right)); [rewrite Forall_forall; tauto|]. intros x _. apply found_elem.
  - split; [done|]. lia.
Qed.

(** ** Properties *)

(** C39: On duplicate-free operands the set operators implement finite sets:
    [operator+] and [operator+=] give the same duplicate-free union,
    [operator-] and [operator-=] (which deletes in place, one occurrence per
    item) the same duplicate-free difference, and [operator<=], in spite of its
    length test, is inclusion. *)
Theorem set_operators_sets left right : NoDup left -> NoDup right ->
  (NoDup (Set_add left right) /\ Set_add_assign left right = Set_add left right /\
   forall x, x ∈ Set_add left right <-> x ∈ left \/ x ∈ right) /\
  (NoDup (Set_sub left right) /\ Set_sub_assign left right = Set_sub left right /\
   forall x, x ∈ Set_sub left right <-> x ∈ left /\ x ∉ right) /\
  (Set_le left right = true <-> left ⊆ right).
Proof.
  intros Hl Hr. split_and!.
  - rewrite Set_add_assign_eq. by apply Set_add_assign_spec.
  - by rewrite Set_add_assign_eq.
  - intros x. rewrite Set_add_assign_eq. apply Set_add_assign_spec.
  - rewrite Set_sub_filter. by apply NoDup_filter.
  - by rewrite Set_sub_filter, Set_sub_assign_filter.
  - intros x. rewrite Set_sub_filter, list_elem_of_filter. tauto.
  - rewrite Set_le_spec. split; [tauto|]. intros Hsub. split; [|done].
    by apply submseteq_length, NoDup_submseteq.
Qed.

Lemma set_operators_sets_witness :
  let left := ["sda1"; "sda2"]%string in
  let right := ["sda2"; "sdb1"; "sda1"]%string in
  NoDup (Set_add left right) /\ Set_sub_assign left right = Set_sub left right /\
  Set_le left right = true.
Proof.
  assert (H1 : NoDup ["sda1"; "sda2"]%string) by (apply NoDup_ListNoDup; repeat constructor; cbn; intuition done).
  assert (H2 : NoDup ["sda2"; "sdb1"; "sda1"]%string) by (apply NoDup_ListNoDup; repeat constructor; cbn; intuition done).
  destruct (set_operators_sets _ _ H1 H2) as ((A & _) & (_ & B & _) & C).
  cbv zeta. split; [exact A|]. split; [exact B|]. apply C.
  intros x Hx. rewrite !elem_of_cons, elem_of_nil in *. tauto.
Defined.

(** [operator==] on sets holds exactly when the two item lists are the
    same list: its inner loop compares [left.item(i)] with [right.item(i)], so
    two sets that include each other but list their items in a different
    order are reported as different. *)
Theorem set_equality_positional :
  (forall left right, Set_eq left right = true <-> left = right) /\
  (exists left right, NoDup left /\ Set_le left right = true /\ Set_le right left = true /\
     Set_eq left right = false).
Proof.
  split; [exact Set_eq_positional|].
  exists ["a"; "b"]%string, ["b"; "a"]%string. split_and!; [|done..].
  apply NoDup_ListNoDup; repeat constructor; cbn; intuition done.
Qed.
