(* ===== verification/StoutStrings.v ===== *)
(** * String helpers (3rdparty/stout/strings.hpp) and [std::string] searches

    The loops of [tokenize], [split] and [replace] run over offsets into the
    string; they are modelled that way, with fuel, and shown to need no more
    iterations than the string has characters.  [pieces] is the reference:
    the maximal runs of non-delimiters, in order. *)
From S2P Require Import Prelude.
From Stdlib Require Import Ascii.

(** ** [std::string] *)

(** [s.substr(pos)] and the [n]-character prefix. *)
Fixpoint sdrop (n : nat) (s : string) : string :=
  match n, s with
  | S n', String _ s' => sdrop n' s'
  | O, _ => s
  | _, EmptyString => ""
  end.

Fixpoint stake (n : nat) (s : string) : string :=
  match n, s with
  | S n', String c s' => String c (stake n' s')
  | _, _ => ""
  end.

(** [s.substr(pos, n)] for [pos <= s.size()] *)
Definition substr (s : string) (pos n : nat) : string := stake n (sdrop pos s).

(** The first position at or after [offset] whose character satisfies [p]. *)
Fixpoint find_pred (p : ascii -> bool) (s : string) (offset : nat) : option nat :=
  match s with
  | EmptyString => None
  | String c s' =>
      match offset with
      | O => if p c then Some O else option_map S (find_pred p s' O)
      | S offset' => option_map S (find_pred p s' offset')
      end
  end.

Fixpoint char_in (c : ascii) (chars : string) : bool :=
  match chars with
  | EmptyString => false
  | String d chars' => Ascii.eqb c d || char_in c chars'
  end.

Definition is_delim (delims : string) (c : ascii) : bool := char_in c delims.

Definition find_first_of (s delims : string) (offset : nat) : option nat :=
  find_pred (is_delim delims) s offset.
Definition find_first_not_of (s delims : string) (offset : nat) : option nat :=
  find_pred (fun c => negb (is_delim delims c)) s offset.
Definition find_char (s : string) (c : ascii) : option nat :=
  find_pred (fun d => Ascii.eqb d c) s 0.

(** The last position whose character satisfies [p]. *)
Fixpoint find_last_pred (p : ascii -> bool) (s : string) : option nat :=
  match s with
  | EmptyString => None
  | String c s' =>
      match find_last_pred p s' with
      | Some i => Some (S i)
      | None => if p c then Some O else None
      end
  end.

(** ** strings.hpp *)

(** [trim(from, ANY, chars)] *)
Definition trim (from chars : string) : string :=
  let start := find_first_not_of from chars 0 in
  let end_ := find_last_pred (fun c => negb (is_delim chars c)) from in
  match start with
  | None => ""
  | Some start =>
      match end_ with
      | Some e => substr from start (e + 1 - start)
      | None => sdrop start from
      end
  end.

(** The loop of [replace]: [None] when the fuel runs out. *)
Fixpoint replace_loop (fuel : nat) (result from to : string) (index : nat) : option string :=
  match fuel with
  | O => None
  | S fuel' =>
      match String.index index from result with
      | None => Some result
      | Some index =>
          let result := stake index result +:+ to +:+ sdrop (index + String.length from) result in
          replace_loop fuel' result from to (index + String.length to)
      end
  end.

Definition replace (s from to : string) : string :=
  if String.eqb from "" then s
  else default s (replace_loop (S (String.length s)) s from to 0).

(** [maxTokens.isSome() && tokens.size() == maxTokens.get() - 1] *)
Definition enough (maxTokens : option nat) (n : nat) : bool :=
  match maxTokens with
  | Some m => (n =? m - 1)%nat
  | None => false
  end.

Fixpoint tokenize_loop (fuel : nat) (s delims : string) (maxTokens : option nat)
    (offset : nat) (tokens : list string) : option (list string) :=
  match fuel with
  | O => None
  | S fuel' =>
      match find_first_not_of s delims offset with
      | None => Some tokens
      | Some nonDelim =>
          match find_first_of s delims nonDelim with
          | None => Some (tokens ++ [sdrop nonDelim s])
          | Some delim =>
              if enough maxTokens (length tokens) then Some (tokens ++ [sdrop nonDelim s])
              else tokenize_loop fuel' s delims maxTokens delim
                     (tokens ++ [substr s nonDelim (delim - nonDelim)])
          end
      end
  end.

Definition tokenize (s delims : string) (maxTokens : option nat) : list string :=
  match maxTokens with
  | Some O => []
  | _ => default [] (tokenize_loop (S (String.length s)) s delims maxTokens 0 [])
  end.

Fixpoint split_loop (fuel : nat) (s delims : string) (maxTokens : option nat)
    (offset : nat) (tokens : list string) : option (list string) :=
  match fuel with
  | O => None
  | S fuel' =>
      match find_first_of s delims offset with
      | None => Some (tokens ++ [sdrop offset s])
      | Some next =>
          if enough maxTokens (length tokens) then Some (tokens ++ [sdrop offset s])
          else split_loop fuel' s delims maxTokens (next + 1)
                 (tokens ++ [substr s offset (next - offset)])
      end
  end.

Definition split (s delims : string) (maxTokens : option nat) : list string :=
  match maxTokens with
  | Some O => []
  | _ => default [] (split_loop (S (String.length s)) s delims maxTokens 0 [])
  end.

(** [checkBracketsMatching]: the running count must not become negative. *)
Fixpoint brackets_loop (s : string) (openBracket closeBracket : ascii) (count : Z) : bool :=
  match s with
  | EmptyString => count =? 0
  | String c s' =>
      let count := if Ascii.eqb c openBracket then count + 1
                   else if Ascii.eqb c closeBracket then count - 1 else count in
      if count <? 0 then false else brackets_loop s' openBracket closeBracket count
  end.

Definition checkBracketsMatching (s : string) (openBracket closeBracket : ascii) : bool :=
  brackets_loop s openBracket closeBracket 0.

Definition startsWith (s prefix : string) : bool := String.prefix prefix s.
Definition startsWith_char (s : string) (c : ascii) : bool :=
  match s with EmptyString => false | String d _ => Ascii.eqb d c end.
Definition endsWith (s suffix : string) : bool :=
  (String.length suffix <=? String.length s)%nat &&
  String.eqb (sdrop (String.length s - String.length suffix) s) suffix.
Fixpoint endsWith_char (s : string) (c : ascii) : bool :=
  match s with
  | EmptyString => false
  | String d EmptyString => Ascii.eqb d c
  | String _ s' => endsWith_char s' c
  end.
Definition contains (s sub : string) : bool :=
  match String.index 0 sub s with Some _ => true | None => false end.

(** [strings::join] on a list of strings *)
Fixpoint join (separator : string) (l : list string) : string :=
  match l with
  | [] => ""
  | [x] => x
  | x :: l' => x +:+ separator +:+ join separator l'
  end.

(** ** Reference definitions *)

(** The pieces between delimiters, empty ones included: the first one and
    the others. *)
Fixpoint pieces (p : ascii -> bool) (s : string) : string * list string :=
  match s with
  | EmptyString => ("", [])
  | String c s' =>
      let (h, t) := pieces p s' in
      if p c then ("", h :: t) else (String c h, t)
  end.

Definition piece_list (p : ascii -> bool) (s : string) : list string :=
  let (h, t) := pieces p s in h :: t.

Fixpoint sfilter (p : ascii -> bool) (s : string) : string :=
  match s with
  | EmptyString => ""
  | String c s' => if p c then String c (sfilter p s') else sfilter p s'
  end.

Definition nonempty (s : string) : bool := negb (String.eqb s "").

(** ** Lemmas on searches *)

Lemma sdrop_length n s : String.length (sdrop n s) = (String.length s - n)%nat.
Proof. revert s; induction n as [|n IH]; intros [|c s]; cbn; auto. Qed.

Lemma sdrop_sdrop n m s : sdrop n (sdrop m s) = sdrop (m + n) s.
Proof. revert s; induction m as [|m IH]; intros [|c s]; cbn; auto. by destruct n. Qed.

Lemma sdrop_0 s : sdrop 0 s = s.
Proof. by destruct s. Qed.

Lemma append_nil_r s : s +:+ "" = s.
Proof. induction s as [|c s IH]; [done|]. exact (f_equal (String c) IH). Qed.

Lemma append_assoc s1 s2 s3 : (s1 +:+ s2) +:+ s3 = s1 +:+ (s2 +:+ s3).
Proof. induction s1 as [|c s1 IH]; [done|]. exact (f_equal (String c) IH). Qed.

Lemma find_pred_shift p s : forall o, (o <= String.length s)%nat ->
  find_pred p s o = option_map (Nat.add o) (find_pred p (sdrop o s) 0).
Proof.
  induction s as [|c s IH]; intros [|o] Ho; cbn in *; try lia; try done.
  - destruct (p c); [done|]. by destruct (find_pred p s 0).
  - rewrite IH by lia. by destruct (find_pred p (sdrop o s) 0).
Qed.

Lemma find_pred_lt p s : forall k, find_pred p s 0 = Some k -> (k < String.length s)%nat.
Proof.
  induction s as [|c s IH]; cbn; intros k; [done|].
  destruct (p c); [intros [= <-]; lia|].
  destruct (find_pred p s 0) as [j|]; [|done]. intros [= <-]. specialize (IH j eq_refl). lia.
Qed.

Lemma pieces_find p s :
  piece_list p s =
    match find_pred p s 0 with
    | None => [s]
    | Some k => stake k s :: piece_list p (sdrop (S k) s)
    end.
Proof.
  unfold piece_list. induction s as [|c s IH]; [done|]. cbn [pieces find_pred].
  destruct (pieces p s) as [h t] eqn:E. destruct (p c) eqn:Ec.
  - cbn [stake sdrop]. rewrite ?sdrop_0. by rewrite E.
  - destruct (find_pred p s 0) as [k|]; cbn [option_map]; injection IH as -> ->; done.
Qed.

(** ** [split] and [tokenize] compute the reference pieces *)

Lemma split_loop_spec s delims fuel : forall o toks,
  (o <= String.length s)%nat -> (String.length s - o < fuel)%nat ->
  split_loop fuel s delims None o toks = Some (toks ++ piece_list (is_delim delims) (sdrop o s)).
Proof.
  induction fuel as [|fuel IH]; intros o toks Ho Hf; [lia|].
  cbn [split_loop enough]. unfold find_first_of. rewrite find_pred_shift by done.
  rewrite pieces_find.
  destruct (find_pred (is_delim delims) (sdrop o s) 0) as [k|] eqn:E; cbn [option_map]; [|done].
  pose proof (find_pred_lt _ _ _ E) as Hk. rewrite sdrop_length in Hk.
  rewrite IH by lia. rewrite <- app_assoc. unfold substr. cbn [app].
  rewrite sdrop_sdrop. do 3 f_equal; [f_equal; lia|]. do 2 f_equal. lia.
Qed.

Lemma split_pieces s delims : split s delims None = piece_list (is_delim delims) s.
Proof.
  unfold split. rewrite split_loop_spec by lia. cbn [default app]. by rewrite sdrop_0.
Qed.

Lemma pieces_skip p s :
  List.filter nonempty (piece_list p s) =
    match find_pred (fun c => negb (p c)) s 0 with
    | None => []
    | Some k => List.filter nonempty (piece_list p (sdrop k s))
    end.
Proof.
  induction s as [|c s IH]; [done|]. cbn [find_pred].
  destruct (p c) eqn:Ec; cbn [negb]; [|done].
  unfold piece_list in IH |- * at 1. cbn [pieces]. destruct (pieces p s) as [h t]. rewrite Ec.
  change (List.filter nonempty ("" :: h :: t)) with (List.filter nonempty (h :: t)).
  rewrite IH. by destruct (find_pred _ s 0) as [k|].
Qed.

Lemma piece_nonempty p s k j : find_pred (fun c => negb (p c)) s 0 = Some k ->
  find_pred p (sdrop k s) 0 = Some j -> (0 < j)%nat.
Proof.
  revert k. induction s as [|c s IH]; intros k; cbn; [done|].
  destruct (p c) eqn:Ec; cbn [negb].
  - destruct (find_pred _ s 0) as [k'|]; [|done]. intros [= <-]. cbn. by apply IH.
  - intros [= <-]. cbn. rewrite Ec. destruct (find_pred p s 0); [|done]. intros [= <-]. lia.
Qed.

Lemma stake_nonempty j s : (0 < j)%nat -> (0 < String.length s)%nat -> nonempty (stake j s) = true.
Proof. destruct j, s; cbn; (lia || done). Qed.

Lemma pieces_at_delim p s j : find_pred p s 0 = Some j ->
  List.filter nonempty (piece_list p (sdrop j s)) =
  List.filter nonempty (piece_list p (sdrop (S j) s)).
Proof.
  revert j. induction s as [|c s IH]; intros j; cbn [find_pred]; [done|].
  destruct (p c) eqn:Ec.
  - intros [= <-]. cbn [sdrop]. rewrite ?sdrop_0. unfold piece_list. cbn [pieces].
    destruct (pieces p s) as [h t]. by rewrite Ec.
  - destruct (find_pred p s 0) as [k|] eqn:E; [|done]. intros [= <-]. cbn [sdrop]. by apply IH.
Qed.

Lemma tokenize_loop_spec s delims fuel : forall o toks,
  (o <= String.length s)%nat -> (String.length s - o < fuel)%nat ->
  tokenize_loop fuel s delims None o toks =
    Some (toks ++ List.filter nonempty (piece_list (is_delim delims) (sdrop o s))).
Proof.
  induction fuel as [|fuel IH]; intros o toks Ho Hf; [lia|].
  cbn [tokenize_loop enough]. unfold find_first_not_of. rewrite find_pred_shift by done.
  rewrite pieces_skip.
  destruct (find_pred (fun c => negb (is_delim delims c)) (sdrop o s) 0) as [k|] eqn:Ek;
    cbn [option_map]; [|by rewrite app_nil_r].
  pose proof (find_pred_lt _ _ _ Ek) as Hk. rewrite sdrop_length in Hk.
  unfold find_first_of. rewrite (find_pred_shift _ s (o + k)) by lia.
  rewrite pieces_find, sdrop_sdrop.
  destruct (find_pred (is_delim delims) (sdrop (o + k) s) 0) as [j|] eqn:Ej; cbn [option_map].
  - pose proof (find_pred_lt _ _ _ Ej) as Hj. rewrite sdrop_length in Hj.
    assert (Hpos : (0 < j)%nat) by (eapply piece_nonempty; [exact Ek|by rewrite sdrop_sdrop]).
    rewrite IH by lia. cbn [List.filter]. rewrite stake_nonempty by (rewrite ?sdrop_length; lia).
    unfold substr. replace (o + k + j - (o + k))%nat with j by lia.
    rewrite <- (sdrop_sdrop j), (pieces_at_delim _ _ _ Ej), <- app_assoc. done.
  - cbn [List.filter]. destruct (nonempty (sdrop (o + k) s)) eqn:En; [done|].
    unfold nonempty in En. apply negb_false_iff, String.eqb_eq in En.
    apply (f_equal String.length) in En. rewrite sdrop_length in En. cbn in En. lia.
Qed.

Lemma tokenize_pieces s delims :
  tokenize s delims None = List.filter nonempty (piece_list (is_delim delims) s).
Proof.
  unfold tokenize. rewrite tokenize_loop_spec by lia. cbn [default app]. by rewrite sdrop_0.
Qed.

Lemma split_at_first s delims :
  split s delims (Some 2%nat) =
    match find_first_of s delims 0 with
    | None => [s]
    | Some k => [stake k s; sdrop (S k) s]
    end.
Proof.
  unfold split. cbn [split_loop enough length Nat.sub Nat.eqb app].
  destruct (find_first_of s delims 0) as [k|] eqn:E; cbn [default]; [|by rewrite sdrop_0].
  pose proof (find_pred_lt _ _ _ E) as Hk. destruct (String.length s) as [|n]; [lia|].
  cbn [split_loop enough length Nat.sub Nat.eqb app]. unfold substr.
  rewrite sdrop_0, Nat.sub_0_r, Nat.add_1_r. by destruct (find_first_of s delims (S k)).
Qed.

(** ** Pieces of concatenations *)

Definition all_chars (p : ascii -> bool) (s : string) : bool :=
  String.eqb (sfilter p s) s.

Lemma sfilter_length p s : (String.length (sfilter p s) <= String.length s)%nat.
Proof. induction s as [|c s IH]; cbn; [lia|]. destruct (p c); cbn; lia. Qed.

Lemma all_chars_cons p c s : all_chars p (String c s) = true <-> p c = true /\ all_chars p s = true.
Proof.
  unfold all_chars. rewrite !String.eqb_eq. cbn [sfilter]. destruct (p c).
  - split; [intros [= ->]; done|]. by intros [_ ->].
  - split; [|by intros [? _]]. intros H. apply (f_equal String.length) in H.
    pose proof (sfilter_length p s). cbn in H. lia.
Qed.

Lemma pieces_app p s1 s2 : all_chars (fun c => negb (p c)) s1 = true ->
  pieces p (s1 +:+ s2) = let (h, t) := pieces p s2 in (s1 +:+ h, t).
Proof.
  induction s1 as [|c s1 IH].
  { intros _. change ("" +:+ s2) with s2. by destruct (pieces p s2). }
  intros [Hc H]%all_chars_cons. change (String c s1 +:+ s2) with (String c (s1 +:+ s2)).
  cbn [pieces]. rewrite (IH H). destruct (pieces p s2) as [h t].
  by destruct (p c).
Qed.

(** A delimiter-free word followed by a delimiter is a piece of its own. *)
Lemma tokens_word p w d s : all_chars (fun c => negb (p c)) w = true -> p d = true ->
  w ≠ "" ->
  List.filter nonempty (piece_list p (w +:+ String d s)) =
  w :: List.filter nonempty (piece_list p s).
Proof.
  intros Hw Hd Hne. unfold piece_list. rewrite pieces_app by done. cbn [pieces].
  destruct (pieces p s) as [h t]. rewrite Hd.
  rewrite (append_nil_r w). cbn [List.filter].
  destruct w; [done|]. done.
Qed.

Lemma tokens_delim p d s : p d = true ->
  List.filter nonempty (piece_list p (String d s)) = List.filter nonempty (piece_list p s).
Proof.
  intros Hd. unfold piece_list. cbn [pieces]. destruct (pieces p s) as [h t]. by rewrite Hd.
Qed.

Lemma tokens_last p w : all_chars (fun c => negb (p c)) w = true -> w ≠ "" ->
  List.filter nonempty (piece_list p w) = [w].
Proof.
  intros Hw Hne. unfold piece_list. pose proof (pieces_app p w "" Hw) as H.
  rewrite append_nil_r in H. rewrite H. cbn [pieces]. rewrite append_nil_r.
  destruct w; [done|]. done.
Qed.

(** ** [replace] of one character by nothing *)

Lemma append_cons c s t : String c s +:+ t = String c (s +:+ t).
Proof. done. Qed.

Lemma index_char c s : forall o, String.index o (String c "") s = find_pred (fun d => Ascii.eqb d c) s o.
Proof.
  induction s as [|d s IH]; intros [|o]; cbn; try done.
  - rewrite IH, Ascii.eqb_sym. destruct (Ascii.ascii_dec c d) as [->|Hne].
    + rewrite Ascii.eqb_refl. by destruct s.
    + rewrite (proj2 (Ascii.eqb_neq c d) Hne). by destruct (find_pred _ s 0).
  - rewrite IH. by destruct (find_pred _ s o).
Qed.

Lemma stake_add i k s : stake (i + k) s = stake i s +:+ stake k (sdrop i s).
Proof.
  revert s. induction i as [|i IH]; intros [|c s]; cbn [stake sdrop Nat.add]; try done.
  - by destruct k.
  - rewrite append_cons. by rewrite IH.
Qed.

Lemma stake_app n s t : String.length s = n -> stake n (s +:+ t) = s.
Proof.
  revert n. induction s as [|c s IH]; intros n <-; [by destruct t|].
  rewrite append_cons. cbn [String.length stake]. by rewrite IH.
Qed.

Lemma sdrop_app n s t : String.length s = n -> sdrop n (s +:+ t) = t.
Proof.
  revert n. induction s as [|c s IH]; intros n <-; [by destruct t|].
  rewrite append_cons. cbn [String.length sdrop]. by rewrite IH.
Qed.

Lemma stake_length k s : (k <= String.length s)%nat -> String.length (stake k s) = k.
Proof. revert s. induction k as [|k IH]; intros [|c s]; cbn; try lia. intros H. rewrite IH; lia. Qed.

Lemma sfilter_find p s :
  sfilter (fun c => negb (p c)) s =
    match find_pred p s 0 with
    | None => s
    | Some k => stake k s +:+ sfilter (fun c => negb (p c)) (sdrop (S k) s)
    end.
Proof.
  induction s as [|c s IH]; [done|]. cbn [sfilter find_pred]. destruct (p c); cbn [negb].
  - cbn [stake sdrop]. by rewrite ?sdrop_0.
  - rewrite IH at 1. destruct (find_pred p s 0); done.
Qed.

Lemma stake_sdrop i s : stake i s +:+ sdrop i s = s.
Proof.
  revert s. induction i as [|i IH]; intros [|c s]; cbn [stake sdrop]; try done.
  by rewrite append_cons, IH.
Qed.

Lemma length_append s t : String.length (s +:+ t) = (String.length s + String.length t)%nat.
Proof.
  induction s as [|c s IH]; [done|]. rewrite append_cons. cbn [String.length]. by rewrite IH.
Qed.

Lemma replace_loop_char c fuel : forall s i, (i <= String.length s)%nat ->
  (String.length s - i < fuel)%nat ->
  replace_loop fuel s (String c "") "" i =
    Some (stake i s +:+ sfilter (fun d => negb (Ascii.eqb d c)) (sdrop i s)).
Proof.
  induction fuel as [|fuel IH]; intros s i Hi Hf; [lia|]. cbn [replace_loop].
  rewrite index_char, find_pred_shift, sfilter_find by done.
  destruct (find_pred (fun d => Ascii.eqb d c) (sdrop i s) 0) as [k|] eqn:E; cbn [option_map];
    [|by rewrite stake_sdrop].
  pose proof (find_pred_lt _ _ _ E) as Hk. rewrite sdrop_length in Hk. cbn [String.length].
  change ("" +:+ sdrop (i + k + 1) s) with (sdrop (i + k + 1) s). rewrite Nat.add_0_r.
  assert (Hlen : String.length (stake (i + k) s) = (i + k)%nat) by (apply stake_length; lia).
  rewrite IH.
  - rewrite stake_app, sdrop_app by done. rewrite stake_add, append_assoc, sdrop_sdrop.
    do 5 f_equal. lia.
  - rewrite length_append. lia.
  - rewrite length_append, sdrop_length. lia.
Qed.

Lemma replace_char s c : replace s (String c "") "" = sfilter (fun d => negb (Ascii.eqb d c)) s.
Proof.
  unfold replace. cbn [String.eqb]. rewrite replace_loop_char by lia. cbn [default].
  rewrite sdrop_0. by destruct s.
Qed.

Lemma all_chars_impl (p q : ascii -> bool) s : (forall c, p c = true -> q c = true) ->
  all_chars p s = true -> all_chars q s = true.
Proof.
  intros H. induction s as [|c s IH]; [done|]. rewrite !all_chars_cons. intros [? ?]. auto.
Qed.

Lemma all_chars_app p s t : all_chars p (s +:+ t) = true <-> all_chars p s = true /\ all_chars p t = true.
Proof.
  induction s as [|c s IH]; [by split; [|intros [_ ?]]|].
  rewrite append_cons, !all_chars_cons, IH. tauto.
Qed.

Lemma find_pred_none_iff p s :
  find_pred p s 0 = None <-> all_chars (fun c => negb (p c)) s = true.
Proof.
  induction s as [|c s IH]; [done|]. rewrite all_chars_cons, <- IH. cbn.
  destruct (p c); cbn; [by split; [|intros []]|]. destruct (find_pred p s 0); cbn; split; try done; by intros [_ ?].
Qed.

(** The character at the first position found. *)
Lemma find_pred_at p s : forall k, find_pred p s 0 = Some k ->
  exists c, p c = true /\ sdrop k s = String c (sdrop (S k) s) /\
    all_chars (fun d => negb (p d)) (stake k s) = true.
Proof.
  induction s as [|c s IH]; intros k; cbn [find_pred]; [done|]. destruct (p c) eqn:Ec.
  - intros [= <-]. exists c. cbn [sdrop]. by rewrite ?sdrop_0.
  - destruct (find_pred p s 0) as [j|]; [|done]. intros [= <-].
    destruct (IH j eq_refl) as (d & Hd & Hs & Hl). exists d. cbn [sdrop stake].
    rewrite all_chars_cons, Ec. done.
Qed.

(** ** Splitting and joining *)

Lemma join_pieces c s : join (String c "") (piece_list (fun d => Ascii.eqb d c) s) = s.
Proof.
  unfold piece_list. induction s as [|d s IH]; [done|]. cbn [pieces].
  destruct (pieces _ s) as [h t] eqn:E. destruct (Ascii.eqb_spec d c) as [->|Hne].
  - cbn [join] in *. rewrite IH. done.
  - destruct t as [|x t]; cbn [join] in *; rewrite <- IH; [done|].
    by rewrite append_cons.
Qed.

Lemma pieces_no_delim p s : Forall (fun w => all_chars (fun c => negb (p c)) w = true) (piece_list p s).
Proof.
  unfold piece_list. induction s as [|c s IH]; [by repeat constructor|]. cbn [pieces].
  destruct (pieces p s) as [h t]. apply Forall_cons in IH as [Hh Ht].
  destruct (p c) eqn:Ec; repeat constructor; try done.
  apply all_chars_cons. by rewrite Ec.
Qed.

Lemma piece_list_ext p q s : (forall c, p c = q c) -> piece_list p s = piece_list q s.
Proof.
  intros Hpq. unfold piece_list. enough (pieces p s = pieces q s) as -> by done.
  induction s as [|c s IH]; [done|]. cbn. by rewrite IH, Hpq.
Qed.

Lemma is_delim_single c d : is_delim (String c "") d = Ascii.eqb d c.
Proof. unfold is_delim. cbn. apply orb_false_r. Qed.

(** ** Properties *)

(** [split] with a one-character delimiter loses nothing: no piece contains
    the delimiter and joining the pieces gives the string back.  [tokenize]
    returns the same pieces without the empty ones, for every set of
    delimiters; both loops finish within the length of the string. *)
Theorem split_join_roundtrip s c :
  join (String c "") (split s (String c "") None) = s /\
  Forall (fun w => all_chars (fun d => negb (Ascii.eqb d c)) w = true)
    (split s (String c "") None) /\
  (forall delims, tokenize s delims None = List.filter nonempty (split s delims None)).
Proof.
  rewrite !split_pieces, (piece_list_ext _ (fun d => Ascii.eqb d c)) by apply is_delim_single.
  split_and!; [apply join_pieces|apply pieces_no_delim|].
  intros delims. by rewrite split_pieces, tokenize_pieces.
Qed.
