(* ===== verification/Values.v ===== *)
(** * Reading and printing values (source/values.cpp, 309-320, 417-428, 568-660)

    [internal::values::parse] reads a scalar, a set, ranges or a text.  The
    number readers [numify<uint64_t>] and [numify<double>] rest on Boost's
    lexical cast, which is not part of the sources: they are parameters. *)
From stdpp Require Import pretty.
From Stdlib Require Import Ascii.
From S2P Require Import Prelude Binary64 Scalar Ranges Sets StoutStrings.

(** [Value::Type] *)
Inductive ValueType := SCALAR | RANGES | SET | TEXT.
#[export] Instance ValueType_eq_dec : EqDecision ValueType.
Proof. solve_decision. Defined.

(** [Value]: a type tag and four optional fields. *)
Record Value := mkValue {
  v_type : ValueType;
  v_scalar : option Scalar;
  v_ranges : option Ranges;
  v_set : option (list string);
  v_text : option string;
}.

Definition newline : string := String (ascii_of_nat 10) "".
Definition dquote : string := String (ascii_of_nat 34) "".

Section Parse.
  Context (numify_uint64 : string -> Try Z) (numify_double : string -> Try double).

(** The loop over the tokens, two at a time. *)
Fixpoint parse_ranges (tokens : list string) : Try Ranges :=
  match tokens with
  | b :: e :: tokens' =>
      match numify_uint64 b, numify_uint64 e with
      | TryOk begin_, TryOk end_ =>
          match parse_ranges tokens' with
          | TryOk ranges => TryOk (mkRange begin_ end_ :: ranges)
          | TryError m => TryError m
          end
      | _, _ => TryError ("Expecting non-negative integers in '" +:+ b +:+ "'")
      end
  | _ => TryOk []
  end.

(** [internal::values::parse] *)
Definition parse (text : string) : Try Value :=
  let temp := replace text " " "" in
  if (String.length temp =? 0)%nat then TryError "Expecting non-empty string"
  else if negb (checkBracketsMatching temp "{" "}") ||
          negb (checkBracketsMatching temp "[" "]") ||
          negb (checkBracketsMatching temp "(" ")") then TryError "Mismatched brackets"
  else
    match find_char temp "[" with
    | Some O =>
        let tokens := tokenize temp ("[]-," +:+ newline) None in
        if negb (length tokens mod 2 =? 0)%nat then TryError ("Expecting one or more " +:+ dquote +:+ "ranges" +:+ dquote)
        else
          match parse_ranges tokens with
          | TryOk ranges => TryOk (mkValue RANGES None (Some (coalesce_self ranges)) None None)
          | TryError m => TryError m
          end
    | None =>
        match find_char temp "{" with
        | Some O =>
            let tokens := tokenize temp ("{}," +:+ newline) None in
            TryOk (mkValue SET None None (Some tokens) None)
        | None =>
            match numify_double temp with
            | TryOk value_ => TryOk (mkValue SCALAR (Some (mkScalar value_)) None None None)
            | TryError _ => TryOk (mkValue TEXT None None None (Some temp))
            end
        | Some (S _) => TryError "Unexpected '{' found"
        end
    | Some (S _) => TryError "Unexpected '[' found"
    end.
End Parse.

(** [operator<<] on ranges and sets: items separated by a comma and a space. *)
Definition print_u64 (n : Z) : string := pretty (Z.to_N n).
Definition print_range (r : Range) : string := print_u64 (start r) +:+ "-" +:+ print_u64 (end_ r).

Definition Ranges_print (ranges : Ranges) : string :=
  "[" +:+ join ", " (map print_range ranges) +:+ "]".
Definition Set_print (set : list string) : string := "{" +:+ join ", " set +:+ "}".

(** [operator<<] and [operator==] on [Value::Text] *)
Definition Text_print (value : string) : string := value.
Definition Text_eq (left right : string) : bool := String.eqb left right.

(** ** Number readers *)

(** Documented behaviour of [boost::lexical_cast<uint64_t>]: the decimal form
    of a 64-bit number is read back. *)
Definition reads_decimal (numify_uint64 : string -> Try Z) : Prop :=
  forall n, 0 <= n <= UINT64_MAX -> numify_uint64 (print_u64 n) = TryOk n.

Definition is_digit (c : ascii) : bool := (48 <=? nat_of_ascii c)%nat && (nat_of_ascii c <=? 57)%nat.

(** A reader that meets the requirement: decimal digits only. *)
Fixpoint dec_go (s : string) (acc : Z) : Try Z :=
  match s with
  | EmptyString => TryOk acc
  | String c s' =>
      if is_digit c then dec_go s' (10 * acc + (Z.of_nat (nat_of_ascii c) - 48))
      else TryError "not a digit"
  end.
Definition read_decimal (s : string) : Try Z :=
  match s with
  | EmptyString => TryError "empty"
  | _ => match dec_go s 0 with
         | TryOk n => if n <=? UINT64_MAX then TryOk n else TryError "out of range"
         | e => e
         end
  end.

Lemma pretty_char_digit x : is_digit (pretty_N_char x) = true.
Proof. unfold pretty_N_char. by repeat case_match. Qed.

Lemma pretty_char_value x : (x < 10)%N ->
  Z.of_nat (nat_of_ascii (pretty_N_char x)) - 48 = Z.of_N x.
Proof.
  intros Hx. assert (x = 0 \/ x = 1 \/ x = 2 \/ x = 3 \/ x = 4 \/ x = 5 \/ x = 6 \/ x = 7 \/ x = 8 \/ x = 9)%N
    as Hc by lia.
  repeat destruct Hc as [->|Hc]; [done..|]. by rewrite Hc.
Qed.

Lemma dec_go_pretty x : forall s acc, acc = 0 -> dec_go (pretty_N_go x s) acc = dec_go s (Z.of_N x).
Proof.
  induction (N.lt_wf_0 x) as [x _ IH]. intros s acc ->.
  destruct (decide (0 < x)%N) as [Hx|Hx]; [|by replace x with 0%N by lia].
  rewrite pretty_N_go_step by done. rewrite IH by (done || by apply N.div_lt).
  cbn [dec_go]. rewrite pretty_char_digit. f_equal.
  rewrite pretty_char_value by (by apply N.mod_lt).
  rewrite (N.div_mod x 10) at 3 by done. lia.
Qed.

Lemma pretty_go_digits x : forall s, all_chars is_digit s = true ->
  all_chars is_digit (pretty_N_go x s) = true.
Proof.
  induction (N.lt_wf_0 x) as [x _ IH]. intros s Hs.
  destruct (decide (0 < x)%N) as [Hx|Hx]; [|by replace x with 0%N by lia].
  rewrite pretty_N_go_step by done. apply IH; [by apply N.div_lt|].
  apply all_chars_cons. by rewrite pretty_char_digit.
Qed.

Lemma pretty_go_nonempty x : forall s, s <> "" -> pretty_N_go x s <> "".
Proof.
  induction (N.lt_wf_0 x) as [x _ IH]. intros s Hs.
  destruct (decide (0 < x)%N) as [Hx|Hx]; [|by replace x with 0%N by lia].
  rewrite pretty_N_go_step by done. apply IH; [by apply N.div_lt|done].
Qed.

Lemma print_u64_digits n : all_chars is_digit (print_u64 n) = true /\ print_u64 n <> "".
Proof.
  unfold print_u64, pretty, pretty_N. case_decide as E; [done|].
  split; [by apply pretty_go_digits|].
  rewrite pretty_N_go_step by lia. by apply pretty_go_nonempty.
Qed.

Lemma read_decimal_reads : reads_decimal read_decimal.
Proof.
  intros n Hn. pose proof (print_u64_digits n) as [_ Hne]. unfold read_decimal.
  destruct (print_u64 n) as [|c s] eqn:E; [done|]. rewrite <- E. clear Hne E.
  assert (Hgo : dec_go (print_u64 n) 0 = TryOk n).
  { unfold print_u64, pretty, pretty_N. case_decide as E.
    - replace n with 0 by lia. done.
    - rewrite dec_go_pretty by done. cbn. f_equal. lia. }
  rewrite Hgo. by rewrite (proj2 (Z.leb_le n UINT64_MAX)) by lia.
Qed.

(** ** Printed values *)

Definition no_bracket (o c : ascii) (d : ascii) : bool := negb (Ascii.eqb d o) && negb (Ascii.eqb d c).

Lemma brackets_skip o c s t n : all_chars (no_bracket o c) s = true -> 0 <= n ->
  brackets_loop (s +:+ t) o c n = brackets_loop t o c n.
Proof.
  intros Hs Hn. induction s as [|d s IH]; [done|].
  apply all_chars_cons in Hs as [[H1 H2]%andb_prop Hs]. rewrite append_cons. cbn [brackets_loop].
  apply negb_true_iff in H1, H2. rewrite H1, H2, (proj2 (Z.ltb_ge n 0)) by done. by apply IH.
Qed.

Lemma brackets_around o c s : all_chars (no_bracket o c) s = true -> o <> c ->
  checkBracketsMatching (String o s +:+ String c "") o c = true.
Proof.
  intros Hs Hne. unfold checkBracketsMatching. rewrite append_cons. cbn [brackets_loop].
  rewrite Ascii.eqb_refl. cbn. rewrite brackets_skip by done. cbn.
  rewrite Ascii.eqb_refl. rewrite (proj2 (Ascii.eqb_neq c o)) by congruence. done.
Qed.

Lemma brackets_none o c s : all_chars (no_bracket o c) s = true -> checkBracketsMatching s o c = true.
Proof.
  intros Hs. unfold checkBracketsMatching. rewrite <- (append_nil_r s). by rewrite brackets_skip.
Qed.

Lemma join_cons sep w w' l : join sep (w :: w' :: l) = w +:+ sep +:+ join sep (w' :: l).
Proof. done. Qed.

Lemma all_chars_join p sep l : all_chars p sep = true -> Forall (fun w => all_chars p w = true) l ->
  all_chars p (join sep l) = true.
Proof.
  intros Hsep. induction 1 as [|w l Hw Hl IH]; [done|]. destruct l as [|w' l]; [done|].
  rewrite join_cons. by rewrite !all_chars_app.
Qed.

Lemma sfilter_app p s t : sfilter p (s +:+ t) = sfilter p s +:+ sfilter p t.
Proof.
  induction s as [|c s IH]; [done|]. rewrite append_cons. cbn [sfilter]. rewrite IH. by destruct (p c).
Qed.

Lemma sfilter_id p s : all_chars p s = true -> sfilter p s = s.
Proof. apply String.eqb_eq. Qed.

Lemma sfilter_join p sep l : Forall (fun w => all_chars p w = true) l ->
  sfilter p (join sep l) = join (sfilter p sep) l.
Proof.
  induction 1 as [|w l Hw Hl IH]; [done|]. destruct l as [|w' l]; [by apply sfilter_id|].
  rewrite !join_cons, !sfilter_app, (sfilter_id _ _ Hw), IH. done.
Qed.

Lemma find_pred_none p s : all_chars (fun c => negb (p c)) s = true -> find_pred p s 0 = None.
Proof.
  induction s as [|c s IH]; [done|]. rewrite all_chars_cons. intros [Hc Hs]. cbn.
  apply negb_true_iff in Hc. by rewrite Hc, IH.
Qed.

(** What the spaces of a printed list leave. *)
Definition not_space (d : ascii) : bool := negb (Ascii.eqb d " ").

Lemma printed_temp (o c : ascii) l : Forall (fun w => all_chars not_space w = true) l ->
  not_space o = true -> not_space c = true ->
  replace (String o "" +:+ join ", " l +:+ String c "") " " "" =
  String o (join "," l +:+ String c "").
Proof.
  intros Hl Ho Hc. rewrite replace_char. fold not_space.
  rewrite !sfilter_app, (sfilter_join not_space ", " l Hl).
  cbn [sfilter]. rewrite Ho, Hc. done.
Qed.

(** *** Sets *)

Definition plain (d : ascii) : bool := negb (char_in d (" []{}()," +:+ newline)).

Lemma plain_weaken q : forallb (fun n => implb (plain (ascii_of_nat n)) (q (ascii_of_nat n))) (seq 0 256) = true ->
  forall d, plain d = true -> q d = true.
Proof.
  intros H d Hd. rewrite forallb_forall in H. specialize (H (nat_of_ascii d)).
  rewrite ascii_nat_embedding, Hd in H. apply H. apply in_seq.
  pose proof (nat_ascii_bounded d). lia.
Qed.

Lemma tokens_join p l e : p ","%char = true -> p e = true ->
  Forall (fun w => all_chars (fun d => negb (p d)) w = true /\ w <> "") l ->
  List.filter nonempty (piece_list p (join "," l +:+ String e "")) = l.
Proof.
  intros Hd He. induction 1 as [|w l [Hw Hne] Hl IH].
  - change (join "," [] +:+ String e "") with (String e ""). by rewrite tokens_delim.
  - destruct l as [|w' l]; [cbn [join]; by rewrite tokens_word|].
    rewrite join_cons, append_assoc. change ("," +:+ ?x) with (String "," x).
    rewrite append_cons, tokens_word by done. by rewrite IH.
Qed.

Lemma set_temp_parts l (q : ascii -> bool) : Forall (fun w => all_chars plain w = true) l ->
  forallb (fun n => implb (plain (ascii_of_nat n)) (q (ascii_of_nat n))) (seq 0 256) = true ->
  q ","%char = true -> all_chars q (join "," l) = true.
Proof.
  intros Hl Hq Hc. apply all_chars_join; [by apply all_chars_cons|].
  eapply Forall_impl; [exact Hl|]. intros w. apply all_chars_impl. by apply plain_weaken.
Qed.

Lemma Set_print_temp l : Forall (fun w => all_chars plain w = true) l ->
  replace (Set_print l) " " "" = String "{" (join "," l +:+ "}").
Proof.
  intros Hl. apply printed_temp; [|done..]. eapply Forall_impl; [exact Hl|].
  intros w. apply all_chars_impl, plain_weaken. vm_compute. reflexivity.
Qed.

Lemma parse_Set_print nu nd l : Forall (fun w => all_chars plain w = true /\ w <> "") l ->
  parse nu nd (Set_print l) = TryOk (mkValue SET None None (Some l) None).
Proof.
  intros Hl. assert (Hp : Forall (fun w => all_chars plain w = true) l)
    by (eapply Forall_impl; [exact Hl|]; by intros w [? _]).
  pose proof (fun q => set_temp_parts l q Hp) as Hq.
  unfold parse. rewrite (Set_print_temp l Hp). cbv zeta. cbn [String.length Nat.eqb].
  rewrite <- (append_cons "{" (join "," l) "}").
  rewrite brackets_around by (try apply Hq; done).
  rewrite !brackets_none by
    (rewrite append_cons, all_chars_cons, all_chars_app; split_and!; try apply Hq; done).
  cbn [negb orb]. unfold find_char at 1. rewrite find_pred_none by
    (rewrite append_cons, all_chars_cons, all_chars_app; split_and!; try apply Hq; done).
  rewrite append_cons. cbn [find_char find_pred Ascii.eqb Bool.eqb].
  rewrite tokenize_pieces, tokens_delim by done. rewrite tokens_join; [done..|].
  eapply Forall_impl; [exact Hl|]. intros w [Hw Hne]. split; [|done].
  revert Hw. apply all_chars_impl, plain_weaken. vm_compute. reflexivity.
Qed.

(** *** Ranges *)

Definition range_char (d : ascii) : bool := is_digit d || Ascii.eqb d "-" || Ascii.eqb d ",".

Lemma range_char_weaken q : forallb (fun n => implb (range_char (ascii_of_nat n)) (q (ascii_of_nat n))) (seq 0 256) = true ->
  forall s, all_chars range_char s = true -> all_chars q s = true.
Proof.
  intros H s. apply all_chars_impl. intros d Hd. rewrite forallb_forall in H.
  specialize (H (nat_of_ascii d)). rewrite ascii_nat_embedding, Hd in H. apply H, in_seq.
  pose proof (nat_ascii_bounded d). lia.
Qed.

Lemma digits_range_char s : all_chars is_digit s = true -> all_chars range_char s = true.
Proof. apply all_chars_impl. unfold range_char. by intros c ->. Qed.

Lemma print_range_chars r : all_chars range_char (print_range r) = true.
Proof.
  unfold print_range. rewrite !all_chars_app.
  split_and!; [apply digits_range_char, print_u64_digits|done|apply digits_range_char, print_u64_digits].
Qed.

Lemma printed_ranges_chars rs : Forall (fun w => all_chars range_char w = true) (map print_range rs).
Proof. apply Forall_fmap, Forall_forall. intros r _. apply print_range_chars. Qed.

Lemma Ranges_print_temp rs :
  replace (Ranges_print rs) " " "" = String "[" (join "," (map print_range rs) +:+ "]").
Proof.
  apply printed_temp; [|done..]. eapply Forall_impl; [apply printed_ranges_chars|].
  intros w. apply range_char_weaken. vm_compute. reflexivity.
Qed.

Definition range_delims : string := "[]-," +:+ newline.

Lemma print_u64_token n : all_chars (fun d => negb (is_delim range_delims d)) (print_u64 n) = true.
Proof.
  eapply all_chars_impl; [|apply print_u64_digits]. intros c Hc.
  destruct (is_delim range_delims c) eqn:E; [|done]. exfalso.
  unfold is_delim, range_delims, newline in E. cbn in E.
  repeat (apply orb_prop in E as [E|E]; [apply Ascii.eqb_eq in E; by subst c|]). done.
Qed.

Lemma tokens_ranges rs :
  List.filter nonempty (piece_list (is_delim range_delims) (join "," (map print_range rs) +:+ "]")) =
  concat (map (fun r => [print_u64 (start r); print_u64 (end_ r)]) rs).
Proof.
  assert (Hrange : forall r d s, is_delim range_delims d = true ->
    List.filter nonempty (piece_list (is_delim range_delims) (print_range r +:+ String d s)) =
    print_u64 (start r) :: print_u64 (end_ r) ::
      List.filter nonempty (piece_list (is_delim range_delims) s)).
  { intros r d s Hd. unfold print_range. rewrite !append_assoc.
    change ("-" +:+ ?x) with (String "-" x).
    rewrite !tokens_word; try done; try apply print_u64_token; apply print_u64_digits. }
  induction rs as [|r rs IH]; [done|]. destruct rs as [|r' rs].
  - cbn [map join concat app]. by rewrite Hrange.
  - cbn [map]. rewrite join_cons, append_assoc. change ("," +:+ ?x) with (String "," x).
    rewrite append_cons, Hrange by done. cbn [map] in IH. rewrite IH. done.
Qed.

Lemma parse_ranges_printed nu rs : reads_decimal nu ->
  Forall (fun r => 0 <= start r <= UINT64_MAX /\ 0 <= end_ r <= UINT64_MAX) rs ->
  parse_ranges nu (concat (map (fun r => [print_u64 (start r); print_u64 (end_ r)]) rs)) = TryOk rs.
Proof.
  intros Hnu. induction 1 as [|[b e] rs [Hb He] _ IH]; [done|].
  cbn [map concat app parse_ranges start end_] in *. by rewrite !Hnu, IH.
Qed.

Lemma concat_pairs_even {A B} (f g : A -> B) l :
  (length (concat (map (fun r => [f r; g r]) l)) mod 2 =? 0)%nat = true.
Proof.
  assert (H : length (concat (map (fun r => [f r; g r]) l)) = (length l * 2)%nat)
    by (induction l as [|x l IH]; cbn [map concat app length]; lia).
  by rewrite H, Nat.Div0.mod_mul.
Qed.

Lemma coalesce_self_canonical rs : canonical rs -> coalesce_self rs = rs.
Proof.
  intros Hc. unfold coalesce_self. rewrite coalesce_coalesced. cbn [concat app]. rewrite app_nil_r.
  destruct (coalesced_spec rs) as [H1 H2]; [apply Hc|]. by apply canonical_unique.
Qed.

Lemma parse_Ranges_print nu nd rs : reads_decimal nu -> canonical rs ->
  parse nu nd (Ranges_print rs) = TryOk (mkValue RANGES None (Some rs) None None).
Proof.
  intros Hnu Hrs. pose proof (printed_ranges_chars rs) as Hp.
  assert (Hj : all_chars range_char (join "," (map print_range rs)) = true)
    by (by apply all_chars_join).
  pose proof (fun q Hq => range_char_weaken q Hq _ Hj) as Hw. clear Hp.
  unfold parse. rewrite Ranges_print_temp. cbv zeta. cbn [String.length Nat.eqb].
  rewrite <- (append_cons "[" (join "," (map print_range rs)) "]").
  rewrite brackets_around by (try apply Hw; done).
  rewrite !brackets_none by
    (rewrite append_cons, all_chars_cons, all_chars_app; split_and!; try apply Hw; done).
  cbn [negb orb]. rewrite append_cons. cbn [find_char find_pred Ascii.eqb Bool.eqb].
  fold range_delims. rewrite tokenize_pieces, tokens_delim, tokens_ranges by done.
  rewrite concat_pairs_even. cbn [negb]. rewrite parse_ranges_printed; [|done|].
  - by rewrite coalesce_self_canonical.
  - destruct Hrs as [_ Hv]. eapply Forall_impl; [exact Hv|].
    unfold valid_range, UINT64_MAX. intros r. lia.
Qed.

(** ** Properties *)

(** C40: Printing a canonical list of ranges and parsing the text gives the
    value back, and so does printing a set whose items are not empty and have no
    space, bracket, comma or newline; [numify<uint64_t>] is only assumed to read
    decimal numbers. *)
Theorem value_print_parse nu nd rs items : reads_decimal nu -> canonical rs ->
  Forall (fun w => all_chars plain w = true /\ w <> "") items ->
  parse nu nd (Ranges_print rs) = TryOk (mkValue RANGES None (Some rs) None None) /\
  parse nu nd (Set_print items) = TryOk (mkValue SET None None (Some items) None).
Proof. auto using parse_Ranges_print, parse_Set_print. Qed.

Lemma canonical_decide rs : coalesced rs = rs ->
  forallb (fun r => (0 <=? start r) && (start r <=? end_ r) && (end_ r <? UINT64_MAX)) rs = true ->
  canonical rs.
Proof. intros E H%valid_ranges_decide. rewrite <- E. by apply coalesced_spec. Qed.

Lemma value_print_parse_witness :
  let rs := [mkRange 10 30; mkRange 40 50; mkRange 31000 32000] in
  parse read_decimal (fun _ => TryError "text") (Ranges_print rs) =
    TryOk (mkValue RANGES None (Some rs) None None) /\
  parse read_decimal (fun _ => TryError "text") (Set_print ["sda1"; "sdb-2"]) =
    TryOk (mkValue SET None None (Some ["sda1"; "sdb-2"]) None).
Proof.
  apply (value_print_parse read_decimal _ [mkRange 10 30; mkRange 40 50; mkRange 31000 32000]
           ["sda1"; "sdb-2"]).
  - exact read_decimal_reads.
  - apply canonical_decide; vm_compute; reflexivity.
  - repeat constructor; done.
Defined.

Example print_sample :
  Ranges_print [mkRange 10 30; mkRange 40 50] = "[10-30, 40-50]" /\ Set_print ["a"; "b"] = "{a, b}".
Proof. split; vm_compute; reflexivity. Qed.

(** A value whose set field is the one its tag names. *)
Definition value_wf (v : Value) : Prop :=
  match v_type v with
  | SCALAR => is_Some (v_scalar v) /\ v_ranges v = None /\ v_set v = None /\ v_text v = None
  | RANGES => v_scalar v = None /\ is_Some (v_ranges v) /\ v_set v = None /\ v_text v = None
  | SET => v_scalar v = None /\ v_ranges v = None /\ is_Some (v_set v) /\ v_text v = None
  | TEXT => v_scalar v = None /\ v_ranges v = None /\ v_set v = None /\ is_Some (v_text v)
  end.

Lemma find_char_first s c : find_char s c = Some O <-> startsWith_char s c = true.
Proof.
  destruct s as [|d s]; [done|]. cbn. destruct (Ascii.eqb d c); [done|].
  by destruct (find_pred _ s 0).
Qed.

Lemma startsWith_char_inj s a b :
  startsWith_char s a = true -> startsWith_char s b = true -> a = b.
Proof.
  destruct s as [|d s]; [done|]. unfold startsWith_char. intros ->%Ascii.eqb_eq ->%Ascii.eqb_eq. done.
Qed.

Lemma parse_shape nu nd text v :
  parse nu nd text = TryOk v ->
  let temp := replace text " " "" in
  value_wf v /\ temp <> "" /\
  (v_type v = RANGES <-> startsWith_char temp "[" = true) /\
  (v_type v = SET <-> startsWith_char temp "{" = true) /\
  (forall d, v_scalar v = Some (mkScalar d) -> nd temp = TryOk d) /\
  (forall t, v_text v = Some t -> t = temp).
Proof.
  unfold parse. cbv zeta. generalize (replace text " " "") as temp. intros temp H.
  rewrite <- !find_char_first.
  destruct (Nat.eqb_spec (String.length temp) 0) as [|Hlen]; [done|].
  assert (Hne : temp <> "") by (intros ->; done). clear Hlen.
  destruct (negb _ || _ || _); [done|].
  assert (Hb : find_char temp "[" = Some O -> find_char temp "{" <> Some O).
  { rewrite !find_char_first. intros H1 H2. by pose proof (startsWith_char_inj _ _ _ H1 H2). }
  destruct (find_char temp "[") as [[|n]|] eqn:Eb; [|done|].
  - destruct (negb (_ =? 0)%nat); [done|]. destruct (parse_ranges nu _) as [rs|]; [|done].
    injection H as <-. cbn. split_and!; try done.
    split; [done|]. intros E. by apply Hb in E.
  - destruct (find_char temp "{") as [[|n]|] eqn:Ec; [injection H as <-|done|].
    { cbn. split_and!; done. }
    destruct (nd temp) as [d|m] eqn:Ed; injection H as <-; cbn; split_and!; try done;
      congruence.
Qed.

(** A successful parse yields a value in which exactly the field named by
    the type tag is set, and the tag is determined by the text without its
    spaces: ranges start with a square bracket, sets with a brace, and the rest
    is a scalar if it reads as a number and a text, kept verbatim, if not. *)
Theorem parse_tagged nu nd text v :
  parse nu nd text = TryOk v ->
  let temp := replace text " " "" in
  value_wf v /\ temp <> "" /\
  (v_type v = RANGES <-> startsWith_char temp "[" = true) /\
  (v_type v = SET <-> startsWith_char temp "{" = true) /\
  (forall d, v_scalar v = Some (mkScalar d) -> nd temp = TryOk d) /\
  (forall t, v_text v = Some t -> t = temp).
Proof. apply parse_shape. Qed.

Lemma parse_tagged_witness :
  v_type (mkValue RANGES None (Some [mkRange 1 9]) None None) = RANGES /\
  parse read_decimal (fun _ => TryError "text") " [1-4, 5-9] " =
    TryOk (mkValue RANGES None (Some [mkRange 1 9]) None None).
Proof.
  assert (H : parse read_decimal (fun _ => TryError "text") " [1-4, 5-9] " =
    TryOk (mkValue RANGES None (Some [mkRange 1 9]) None None)) by (vm_compute; reflexivity).
  split; [|exact H]. apply (parse_tagged _ _ _ _ H). vm_compute. reflexivity.
Defined.
