(* ===== verification/Roles.v ===== *)
(** * Roles (source/roles.cpp)

    Role names are paths separated by slashes.  [validate] checks slashes on
    the whole string and then each component; [valid_component] states on the
    pieces between slashes what the checks amount to. *)
From Stdlib Require Import Ascii.
From S2P Require Import Prelude StoutStrings.

Definition slash : ascii := "/".

(** [isStrictSubroleOf] *)
Definition isStrictSubroleOf (left right : string) : bool :=
  (String.length right <? String.length left)%nat &&
  match String.get (String.length right) left with
  | Some c => Ascii.eqb c slash
  | None => false
  end &&
  startsWith left right.

(** Tab, line feed, vertical tab, form feed, carriage return, space, delete. *)
Definition INVALID_CHARACTERS : string :=
  String.string_of_list_ascii (map ascii_of_nat [9; 10; 11; 12; 13; 32; 127]%nat).

(** The body of the loop over the components. *)
Definition validate_component (role component : string) : outcome (option string) :=
  CHECK (negb (String.eqb component "")) "!component.empty()" ;;!
  Ret (if String.eqb component "." then
         Some ("Role '" +:+ role +:+ "' cannot include '.' as a component")
       else if String.eqb component ".." then
         Some ("Role '" +:+ role +:+ "' cannot include '..' as a component")
       else if String.eqb component "*" then
         Some ("Role '" +:+ role +:+ "' cannot include '*' as a component")
       else if startsWith_char component "-" then
         Some ("Role component '" +:+ component +:+ "' is invalid because it starts with a dash")
       else match find_first_of component INVALID_CHARACTERS 0 with
            | Some _ => Some ("Role component '" +:+ component +:+
                "' is invalid because it contains backspace or whitespace")
            | None => None
            end).

Fixpoint validate_components (role : string) (components : list string) : outcome (option string) :=
  match components with
  | [] => Ret None
  | component :: components' =>
      let! error := validate_component role component in
      match error with
      | Some e => Ret (Some e)
      | None => validate_components role components'
      end
  end.

(** [validate(role)]; [None] is no error. *)
Definition validate (role : string) : outcome (option string) :=
  if String.eqb role "*" then Ret None
  else if startsWith_char role slash then
    Ret (Some ("Role '" +:+ role +:+ "' cannot start with a slash"))
  else if endsWith_char role slash then
    Ret (Some ("Role '" +:+ role +:+ "' cannot end with a slash"))
  else if contains role "//" then
    Ret (Some ("Role '" +:+ role +:+ "' cannot contain two adjacent slashes"))
  else
    let components := tokenize role "/" None in
    match components with
    | [] => Ret (Some "Role names cannot be the empty string")
    | _ => validate_components role components
    end.

(** [validate(roles)] *)
Fixpoint validate_all (roles : list string) : outcome (option string) :=
  match roles with
  | [] => Ret None
  | role :: roles' =>
      let! error := validate role in
      match error with
      | Some e => Ret (Some e)
      | None => validate_all roles'
      end
  end.

(** [parse] *)
Definition parse (text : string) : outcome (Try (list string)) :=
  let roles := tokenize text "," None in
  let! error := validate_all roles in
  Ret (match error with
       | Some e => TryError e
       | None => TryOk roles
       end).

(** ** The checks on the whole string and the pieces *)

Definition is_slash (c : ascii) : bool := Ascii.eqb c slash.

Lemma contains_cons d s : contains (String d s) "//" =
  (is_slash d && startsWith_char s slash) || contains s "//".
Proof.
  unfold contains, is_slash. cbn [String.index String.prefix].
  destruct (ascii_dec "/" d) as [<-|Hd].
  - rewrite Ascii.eqb_refl. destruct s as [|e s]; [done|]. cbn [String.prefix startsWith_char].
    unfold slash. destruct (ascii_dec "/" e) as [<-|He]; [by destruct s|].
    rewrite (proj2 (Ascii.eqb_neq e _)) by congruence. cbn [andb orb].
    by destruct (String.index 0 "//" (String e s)).
  - rewrite (proj2 (Ascii.eqb_neq d slash)) by (unfold slash; congruence). cbn [andb orb].
    by destruct (String.index 0 "//" s).
Qed.

Lemma endsWith_cons d s : endsWith_char (String d s) slash =
  if String.eqb s "" then is_slash d else endsWith_char s slash.
Proof. by destruct s. Qed.

Lemma pieces_head_nonempty s : nonempty (pieces is_slash s).1 =
  negb (String.eqb s "") && negb (startsWith_char s slash).
Proof.
  destruct s as [|d s]; [done|]. cbn [pieces]. destruct (pieces is_slash s) as [h t].
  cbn. unfold is_slash. by destruct (Ascii.eqb d slash).
Qed.

(** No empty piece after the first: no slash at the end and no two adjacent. *)
Lemma pieces_tail_nonempty s : forallb nonempty (pieces is_slash s).2 =
  negb (endsWith_char s slash) && negb (contains s "//").
Proof.
  induction s as [|d s IH]; [done|]. rewrite contains_cons, endsWith_cons.
  pose proof (pieces_head_nonempty s) as Hh. cbn [pieces].
  destruct (pieces is_slash s) as [h t]. cbn [fst snd] in *.
  destruct (is_slash d) eqn:Ed; cbn [fst snd forallb andb orb].
  - rewrite Hh, IH. destruct (String.eqb_spec s "") as [->|Hs]; cbn [negb andb]; [done|].
    destruct (startsWith_char s slash), (endsWith_char s slash); done.
  - rewrite IH. destruct (String.eqb_spec s "") as [->|Hs]; done.
Qed.

Lemma split_slash s : split s "/" None = piece_list is_slash s.
Proof. rewrite split_pieces. apply piece_list_ext, is_delim_single. Qed.

Lemma split_nonempty s : forallb nonempty (split s "/" None) =
  negb (String.eqb s "") && negb (startsWith_char s slash) &&
  negb (endsWith_char s slash) && negb (contains s "//").
Proof.
  rewrite split_slash. unfold piece_list.
  pose proof (pieces_head_nonempty s) as H1. pose proof (pieces_tail_nonempty s) as H2.
  destruct (pieces is_slash s) as [h t]. cbn [fst snd forallb] in *.
  rewrite H1, H2. by rewrite !andb_assoc.
Qed.

(** ** Components *)

Definition valid_component (w : string) : Prop :=
  w <> "" /\ w <> "." /\ w <> ".." /\ w <> "*" /\ startsWith_char w "-" = false /\
  all_chars (fun c => negb (is_delim INVALID_CHARACTERS c)) w = true.

Lemma validate_component_spec role w : w <> "" ->
  exists e, validate_component role w = Ret e /\ (e = None <-> valid_component w).
Proof.
  intros Hw. unfold validate_component, valid_component.
  rewrite (proj2 (String.eqb_neq w "")) by done. cbn [negb CHECK obind].
  eexists; split; [reflexivity|].
  unfold find_first_of. rewrite <- find_pred_none_iff.
  destruct (String.eqb_spec w "."), (String.eqb_spec w ".."), (String.eqb_spec w "*"); subst; try (split; [done|tauto]).
  destruct (startsWith_char w "-"), (find_pred (is_delim INVALID_CHARACTERS) w 0);
    split; try done; try tauto; intros (_ & _ & _ & _ & ? & ?); done.
Qed.

Lemma validate_components_spec role l : Forall (fun w => w <> "") l ->
  exists e, validate_components role l = Ret e /\ (e = None <-> Forall valid_component l).
Proof.
  induction 1 as [|w l Hw Hl (e & He & IH)]; cbn [validate_components]; [by exists None|].
  destruct (validate_component_spec role w Hw) as (e1 & -> & H1). cbn [obind].
  destruct e1 as [m|].
  - exists (Some m). split; [done|]. rewrite Forall_cons. split; [done|]. intros [Hv _]. by apply H1 in Hv.
  - exists e. split; [done|]. rewrite Forall_cons, IH. split; [|tauto]. intros ?. split; [by apply H1|done].
Qed.

Lemma tokenize_nonempty s delims : Forall (fun w => w <> "") (tokenize s delims None).
Proof.
  rewrite tokenize_pieces. apply Forall_forall. intros w Hw ->.
  apply list_elem_of_In, List.filter_In in Hw as [_ Hw]. done.
Qed.

Lemma list_filter_all_true {A} (f : A -> bool) l : forallb f l = true -> List.filter f l = l.
Proof.
  induction l as [|a l IH]; [done|]. cbn. intros [-> H]%andb_prop. by rewrite IH.
Qed.

Lemma tokenize_split s delims : forallb nonempty (split s delims None) = true ->
  tokenize s delims None = split s delims None.
Proof. rewrite tokenize_pieces, split_pieces. apply list_filter_all_true. Qed.

Lemma valid_components_nonempty l : Forall valid_component l -> forallb nonempty l = true.
Proof.
  intros H. apply (forallb_Forall _ (fun w => w <> "")).
  - intros w _. unfold nonempty. rewrite negb_true_iff, String.eqb_neq. done.
  - eapply Forall_impl; [exact H|]. by intros w [? _].
Qed.

Lemma split_never_nil s : split s "/" None <> [].
Proof. rewrite split_slash. unfold piece_list. by destruct (pieces is_slash s). Qed.

Lemma validate_spec role :
  exists e, validate role = Ret e /\
    (e = None <-> role = "*" \/ Forall valid_component (split role "/" None)).
Proof.
  unfold validate. destruct (String.eqb_spec role "*") as [->|Hstar]; [by exists None; split; [|tauto]|].
  pose proof (split_nonempty role) as Hs.
  assert (Hbad : forall m : string, forallb nonempty (split role "/" None) = false ->
    exists e, Ret (Some m) = Ret e /\
      (e = None <-> role = "*" \/ Forall valid_component (split role "/" None))).
  { intros m Hf. exists (Some m). split; [done|]. split; [done|].
    intros [?|Hv%valid_components_nonempty]; congruence. }
  destruct (startsWith_char role slash); [apply Hbad; by rewrite Hs, andb_false_r|].
  destruct (endsWith_char role slash); [apply Hbad; by rewrite Hs, andb_false_r|].
  destruct (contains role "//"); [apply Hbad; by rewrite Hs, andb_false_r|].
  rewrite !andb_true_r in Hs. destruct (String.eqb_spec role "") as [->|Hne].
  { by apply Hbad. }
  rewrite (tokenize_split _ _ Hs). pose proof (split_never_nil role) as Hnil.
  destruct (split role "/" None) as [|w l] eqn:E; [done|]. rewrite <- E.
  destruct (validate_components_spec role (split role "/" None)) as (e & He & Hiff).
  { rewrite <- (tokenize_split role "/") by (rewrite E; exact Hs). apply tokenize_nonempty. }
  exists e. split; [done|]. rewrite Hiff. split; [by right|]. by intros [?|?].
Qed.

(** ** Subroles *)

Lemma prefix_append r s : String.prefix r s = true <-> exists t, s = r +:+ t.
Proof.
  revert s. induction r as [|c r IH]; intros s.
  - split; [by exists s|by destruct s].
  - destruct s as [|d s]; cbn [String.prefix].
    + split; [done|]. intros (t & Ht). by rewrite append_cons in Ht.
    + destruct (ascii_dec c d) as [->|Hne].
      * rewrite IH. setoid_rewrite append_cons. split; intros (t & Ht); exists t; congruence.
      * split; [done|]. intros (t & Ht). rewrite append_cons in Ht. congruence.
Qed.

Lemma get_append r t : String.get (String.length r) (r +:+ t) = String.get 0 t.
Proof. induction r as [|c r IH]; [done|]. rewrite append_cons. cbn. done. Qed.

Lemma isStrictSubroleOf_iff left right :
  isStrictSubroleOf left right = true <-> exists t, left = right +:+ String slash t.
Proof.
  unfold isStrictSubroleOf, startsWith. rewrite !andb_true_iff, prefix_append. split.
  - intros [[_ Hc] (t & ->)]. rewrite get_append in Hc.
    destruct t as [|c t]; [done|]. apply Ascii.eqb_eq in Hc as ->. by exists t.
  - intros (t & ->). rewrite length_append, get_append. cbn [String.length String.get].
    split_and!; [apply Nat.ltb_lt; lia|apply Ascii.eqb_refl|]. eauto.
Qed.

(** ** Properties *)


Lemma validate_all_spec roles :
  exists e, validate_all roles = Ret e /\ (e = None <-> Forall (fun r => validate r = Ret None) roles).
Proof.
  induction roles as [|r roles (e & He & IH)]; cbn [validate_all]; [by exists None|].
  destruct (validate_spec r) as (e1 & E & _). rewrite E. cbn [obind]. destruct e1 as [m|].
  - exists (Some m). split; [done|]. rewrite Forall_cons, E. split; [done|]. by intros [? _].
  - exists e. split; [done|]. rewrite Forall_cons, IH. split; [done|]. by intros [_ ?].
Qed.

(** [parse] of a comma-separated list never aborts, and when it succeeds
    it returns the non-empty pieces between commas, every one a valid role. *)
Theorem parse_roles_valid text :
  exists r, parse text = Ret r /\
    forall roles, r = TryOk roles ->
      roles = tokenize text "," None /\ Forall (fun role => validate role = Ret None) roles.
Proof.
  unfold parse. destruct (validate_all_spec (tokenize text "," None)) as (e & -> & He).
  cbn [obind]. eexists; split; [reflexivity|]. intros roles.
  destruct e as [m|]; intros [= <-]. split; [done|]. by apply He.
Qed.

(** [isStrictSubroleOf left right] holds exactly when [left] is [right]
    followed by a slash and a rest; it is a strict partial order, so role
    hierarchies have no cycles. *)
Theorem subrole_strict_order :
  (forall left right, isStrictSubroleOf left right = true <->
     exists rest, left = right +:+ "/" +:+ rest) /\
  (forall a b c, isStrictSubroleOf a b = true -> isStrictSubroleOf b c = true ->
     isStrictSubroleOf a c = true) /\
  (forall a, isStrictSubroleOf a a = false).
Proof.
  split_and!.
  - intros left right. apply isStrictSubroleOf_iff.
  - intros a b c. rewrite !isStrictSubroleOf_iff. intros (t & ->) (u & ->).
    exists (u +:+ String slash t). by rewrite append_assoc, append_cons.
  - intros a. unfold isStrictSubroleOf. by rewrite Nat.ltb_irrefl.
Qed.
