(* ===== verification/Url.v ===== *)
(** * URLs (source/url.hpp)

    [urb://credentials@servers/path], or [urb://ha://...] with several
    servers. *)
From Stdlib Require Import Ascii.
From S2P Require Import Prelude StoutStrings.

Record URL := mkURL { servers : string; credentials : string; path : string; ha : bool }.

(** [strings::WHITESPACE]: space, tab, line feed, carriage return. *)
Definition WHITESPACE : string := String.string_of_list_ascii (map ascii_of_nat [32; 9; 10; 13]%nat).

(** [s.find(sub) == 0] *)
Definition found_at_start (s sub : string) : bool :=
  match String.index 0 sub s with Some O => true | _ => false end.

Definition find_last_of (s : string) (c : ascii) : option nat :=
  find_last_pred (fun d => Ascii.eqb d c) s.

(** The loop that moves everything from the last slash on to [path]. *)
Fixpoint path_loop (fuel : nat) (s path : string) : option (string * string) :=
  match fuel with
  | O => None
  | S fuel' =>
      match find_last_of s "/" with
      | None => Some (s, path)
      | Some index => path_loop fuel' (stake index s) (sdrop index s +:+ path)
      end
  end.

(** The part of [parse] after the prefixes. *)
Definition parse_body (s : string) (ha : bool) : Try URL :=
  let '(s, path) := default (s, "") (path_loop (S (String.length s)) s "") in
  let path := if String.eqb path "" then "/" else path in
  match find_last_of s "@" with
  | Some index => TryOk (mkURL (sdrop (index + 1) s) (stake index s) path ha)
  | None => TryOk (mkURL s "" path ha)
  end.

(** [URL::parse] *)
Definition parse (url : string) : Try URL :=
  let s := trim url WHITESPACE in
  if negb (found_at_start s "urb://") then
    TryError "Expecting 'urb://' at the beginning of the URL"
  else
    let s := sdrop 6 s in
    if found_at_start s "ha://" then parse_body (sdrop 5 s) true
    else
      match find_first_of s "," 0 with
      | Some _ => TryError "Expecting a single server when HA is not specified"
      | None => parse_body s false
      end.

(** [operator<<] *)
Definition print (u : URL) : string :=
  "urb://" +:+ (if negb (String.eqb (credentials u) "") then credentials u +:+ "@" else "") +:+
  servers u +:+ path u.

(** ** Lemmas *)

Lemma find_last_app p s t :
  find_last_pred p (s +:+ t) =
    match find_last_pred p t with
    | Some i => Some (String.length s + i)%nat
    | None => find_last_pred p s
    end.
Proof.
  induction s as [|c s IH]; [change ("" +:+ t) with t; by destruct (find_last_pred p t)|].
  rewrite append_cons. cbn. rewrite IH. by destruct (find_last_pred p t).
Qed.

Lemma find_last_lt p s : forall i, find_last_pred p s = Some i -> (i < String.length s)%nat.
Proof.
  induction s as [|c s IH]; intros i; cbn; [done|].
  destruct (find_last_pred p s) as [j|]; [intros [= <-]; specialize (IH j eq_refl); lia|].
  destruct (p c); [intros [= <-]; lia|done].
Qed.

Lemma find_last_none p s : find_last_pred p s = None <-> all_chars (fun c => negb (p c)) s = true.
Proof.
  induction s as [|c s IH]; [done|]. rewrite all_chars_cons, <- IH. cbn.
  destruct (find_last_pred p s); [by split; [|intros [_ ?]]|].
  destruct (p c); cbn; [by split; [|intros [? _]]|]. by split.
Qed.

(** The character at the last position found. *)
Lemma find_last_at p s : forall i, find_last_pred p s = Some i ->
  exists c, p c = true /\ sdrop i s = String c (sdrop (S i) s) /\
    all_chars (fun d => negb (p d)) (sdrop (S i) s) = true.
Proof.
  induction s as [|c s IH]; intros i; cbn [find_last_pred]; [done|].
  destruct (find_last_pred p s) as [j|] eqn:E.
  - intros [= <-]. cbn [sdrop]. by apply IH.
  - destruct (p c) eqn:Ec; [|done]. intros [= <-]. exists c. cbn [sdrop].
    rewrite ?sdrop_0. split_and!; [done..|]. by apply find_last_none.
Qed.

Definition is_char (c d : ascii) : bool := Ascii.eqb d c.
Definition lacks (c : ascii) (s : string) : Prop := all_chars (fun d => negb (Ascii.eqb d c)) s = true.

(** The loop cuts the string at its first slash. *)
Lemma path_loop_spec fuel : forall s p, (String.length s < fuel)%nat ->
  (p = "" \/ startsWith_char p "/" = true) ->
  exists s' p', path_loop fuel s p = Some (s', p') /\ s' +:+ p' = s +:+ p /\
    lacks "/" s' /\ (p' = "" \/ startsWith_char p' "/" = true).
Proof.
  induction fuel as [|fuel IH]; intros s p Hf Hp; [lia|]. cbn [path_loop].
  destruct (find_last_of s "/") as [i|] eqn:E.
  - destruct (find_last_at _ _ _ E) as (c & Hc%Ascii.eqb_eq & Hd & _).
    pose proof (find_last_lt _ _ _ E) as Hi.
    destruct (IH (stake i s) (sdrop i s +:+ p)) as (s' & p' & H1 & H2 & H3).
    + rewrite stake_length; lia.
    + right. by rewrite Hd, Hc.
    + exists s', p'. split; [done|]. split; [|done].
      by rewrite H2, <- append_assoc, stake_sdrop.
  - exists s, p. split_and!; [done..| |done]. by apply find_last_none.
Qed.

(** A slash-free string and a path are cut apart again. *)
Lemma cut_unique s1 p1 s2 p2 : s1 +:+ p1 = s2 +:+ p2 -> lacks "/" s1 -> lacks "/" s2 ->
  (p1 = "" \/ startsWith_char p1 "/" = true) -> (p2 = "" \/ startsWith_char p2 "/" = true) ->
  s1 = s2 /\ p1 = p2.
Proof.
  unfold lacks. revert s2. induction s1 as [|c s1 IH]; intros [|d s2] H H1 H2 Hp1 Hp2.
  - done.
  - change ("" +:+ p1) with p1 in H. rewrite append_cons in H. subst p1.
    apply all_chars_cons in H2 as [Hd _]. destruct Hp1 as [?|Hp1]; [done|]. cbn -[Ascii.eqb] in Hp1.
    by rewrite Hp1 in Hd.
  - change ("" +:+ p2) with p2 in H. rewrite append_cons in H. subst p2.
    apply all_chars_cons in H1 as [Hd _]. destruct Hp2 as [?|Hp2]; [done|]. cbn -[Ascii.eqb] in Hp2.
    by rewrite Hp2 in Hd.
  - rewrite !append_cons in H. injection H as -> H. apply all_chars_cons in H1 as [_ H1], H2 as [_ H2].
    by destruct (IH s2 H H1 H2 Hp1 Hp2) as [-> ->].
Qed.

Lemma path_loop_cut s p : lacks "/" s -> (p = "" \/ startsWith_char p "/" = true) ->
  path_loop (S (String.length (s +:+ p))) (s +:+ p) "" = Some (s, p).
Proof.
  intros Hs Hp. destruct (path_loop_spec (S (String.length (s +:+ p))) (s +:+ p) "")
    as (s' & p' & H1 & H2 & H3 & H4); [lia|by left|].
  rewrite append_nil_r in H2. rewrite H1.
  by destruct (cut_unique _ _ _ _ H2) as [-> ->].
Qed.

(** *** Trimming *)

Definition visible (c : ascii) : bool := negb (is_delim WHITESPACE c).
Definition ends_visible (s : string) : Prop :=
  find_last_pred visible s = Some (String.length s - 1)%nat.

Lemma ends_visible_app s t : t <> "" -> ends_visible (s +:+ t) <-> ends_visible t.
Proof.
  intros Ht. unfold ends_visible. rewrite find_last_app, length_append.
  assert (Hpos : (0 < String.length t)%nat) by (destruct t; cbn; [done|lia]).
  destruct (find_last_pred visible t) as [i|] eqn:E.
  - split; intros [= H]; f_equal; lia.
  - split; [|done]. intros H%find_last_lt. lia.
Qed.

Lemma find_last_stake p s : forall e, find_last_pred p s = Some e ->
  find_last_pred p (stake (e + 1) s) = Some e.
Proof.
  induction s as [|c s IH]; intros e; cbn; [done|].
  destruct (find_last_pred p s) as [j|]; [intros [= <-]; cbn; by rewrite IH|].
  destruct (p c) eqn:Ec; [|done]. intros [= <-]. cbn. destruct s; cbn; by rewrite Ec.
Qed.

Lemma find_last_sdrop p s : forall st e, find_last_pred p s = Some e -> (st <= e)%nat ->
  find_last_pred p (sdrop st s) = Some (e - st)%nat.
Proof.
  induction s as [|c s IH]; intros [|st] e; cbn [sdrop]; try done.
  - rewrite Nat.sub_0_r. done.
  - cbn [find_last_pred]. destruct (find_last_pred p s) as [j|] eqn:E.
    + intros [= <-] Hst. cbn. apply IH; [done|lia].
    + destruct (p c); [|done]. intros [= <-]. lia.
Qed.

Lemma find_pred_le_last p s : forall st, find_pred p s 0 = Some st ->
  exists e, find_last_pred p s = Some e /\ (st <= e)%nat.
Proof.
  induction s as [|c s IH]; intros st; cbn; [done|]. destruct (p c) eqn:Ec.
  - intros [= <-]. destruct (find_last_pred p s) as [e|]; eexists; split; (reflexivity || lia).
  - destruct (find_pred p s 0) as [k|]; [|done]. intros [= <-].
    destruct (IH k eq_refl) as (e & -> & He). exists (S e). split; [done|lia].
Qed.

Lemma trim_ends_visible url : trim url WHITESPACE <> "" -> ends_visible (trim url WHITESPACE).
Proof.
  unfold trim, find_first_not_of. fold visible.
  destruct (find_pred visible url 0) as [st|] eqn:E; [|done].
  destruct (find_pred_le_last _ _ _ E) as (e & He & Hle). rewrite He. intros _.
  unfold ends_visible, substr. replace (e + 1 - st)%nat with (e - st + 1)%nat by lia.
  pose proof (find_last_lt _ _ _ He) as Hlt.
  rewrite stake_length by (rewrite sdrop_length; lia).
  rewrite (find_last_stake _ _ (e - st)) by (by apply find_last_sdrop). f_equal. lia.
Qed.

Lemma stake_all s n : (String.length s <= n)%nat -> stake n s = s.
Proof.
  revert n. induction s as [|c s IH]; intros [|n]; cbn; try done; [lia|]. intros H.
  f_equal. apply IH. lia.
Qed.

Lemma trim_id c s : visible c = true -> ends_visible (String c s) ->
  trim (String c s) WHITESPACE = String c s.
Proof.
  intros Hc He. unfold trim, find_first_not_of. fold visible. rewrite He. cbn [find_pred].
  rewrite Hc. unfold substr. rewrite sdrop_0. apply stake_all. cbn. lia.
Qed.

(** *** Parsing what was printed *)

(** The authority part: credentials, an at sign and the servers. *)
Definition authority (u : URL) : string :=
  if negb (String.eqb (credentials u) "") then credentials u +:+ "@" +:+ servers u else servers u.

Lemma print_authority u : print u = "urb://" +:+ authority u +:+ path u.
Proof.
  unfold print, authority. destruct (negb _); [|done]. by rewrite !append_assoc.
Qed.

Record parsed (u : URL) : Prop := {
  p_authority : lacks "/" (authority u);
  p_servers : lacks "@" (servers u);
  p_path : startsWith_char (path u) "/" = true;
}.

Lemma cut_at_sign s : exists sv cr,
  match find_last_of s "@" with
  | Some index => (sdrop (index + 1) s, stake index s)
  | None => (s, "")
  end = (sv, cr) /\ lacks "@" sv /\ (s = cr +:+ "@" +:+ sv \/ s = sv /\ cr = "").
Proof.
  destruct (find_last_of s "@") as [i|] eqn:E.
  - destruct (find_last_at _ _ _ E) as (c & Hc%Ascii.eqb_eq & Hd & Hl). subst c.
    do 2 eexists. split; [reflexivity|]. rewrite Nat.add_1_r. split; [exact Hl|]. left.
    change ("@" +:+ ?x) with (String "@" x). by rewrite <- Hd, stake_sdrop.
  - exists s, "". split_and!; [done| |by right]. by apply find_last_none.
Qed.

Lemma parse_body_parsed s b u : parse_body s b = TryOk u ->
  parsed u /\ ha u = b /\ exists a p, s = a +:+ p /\ path u = (if String.eqb p "" then "/" else p) /\
    (p = "" \/ startsWith_char p "/" = true) /\ exists pre, a = pre +:+ authority u.
Proof.
  unfold parse_body.
  destruct (path_loop_spec (S (String.length s)) s "") as (a & p & -> & Hap & Ha & Hp); [lia|by left|].
  rewrite append_nil_r in Hap. cbn [from_option id].
  destruct (cut_at_sign a) as (sv & cr & Hcut & Hsv & Hparts). intros H.
  assert (u = mkURL sv cr (if String.eqb p "" then "/" else p) b) as ->.
  { destruct (find_last_of a "@"); injection Hcut as <- <-; congruence. }
  clear H Hcut. unfold authority. cbn [servers credentials path ha].
  assert (Hpre : exists pre, a = pre +:+ (if negb (String.eqb cr "") then cr +:+ "@" +:+ sv else sv)).
  { destruct (String.eqb_spec cr "") as [->|Hne], Hparts as [->|[-> ?]]; cbn [negb]; try done.
    - by exists "@".
    - by exists "".
    - by exists "". }
  destruct Hpre as [pre Hpre]. split; [|split; [done|]; exists a, p; split_and!; eauto].
  split; unfold authority; cbn [servers credentials path]; [|done|].
  - unfold lacks in *. rewrite Hpre, all_chars_app in Ha. tauto.
  - destruct (String.eqb_spec p ""); [done|]. by destruct Hp.
Qed.

Lemma parse_body_authority u : parsed u ->
  parse_body (authority u +:+ path u) (ha u) = TryOk u.
Proof.
  intros [H1 H2 H3]. unfold parse_body. rewrite path_loop_cut by auto. cbn [from_option id].
  assert (Hp : String.eqb (path u) "" = false) by (by destruct (path u)). rewrite Hp.
  unfold authority. destruct (String.eqb_spec (credentials u) "") as [Hc|Hc]; cbn [negb].
  - unfold find_last_of. rewrite (proj2 (find_last_none _ (servers u)) H2). destruct u; cbn in *; by subst.
  - unfold find_last_of. rewrite !find_last_app, (proj2 (find_last_none _ (servers u)) H2).
    cbn [find_last_pred Ascii.eqb Bool.eqb]. rewrite Nat.add_0_r.
    rewrite stake_app by done. rewrite <- append_assoc, sdrop_app by (rewrite length_append; done).
    by destruct u.
Qed.

Lemma found_at_start_prefix s : found_at_start ("urb://" +:+ s) "urb://" = true.
Proof. by destruct s. Qed.

Lemma found_at_start_inv s : found_at_start s "urb://" = true -> s = "urb://" +:+ sdrop 6 s.
Proof.
  unfold found_at_start. destruct (String.index 0 "urb://" s) as [[|n]|] eqn:E; [|done..].
  intros _. pose proof (String.index_correct1 0 0 "urb://" s E) as H. cbn in H.
  destruct s as [|a [|b [|c [|d [|e [|f s]]]]]]; try done. cbn in H.
  injection H as -> -> -> -> -> ->. done.
Qed.

Lemma parse_print u : parsed u -> ha u = false ->
  found_at_start (authority u +:+ path u) "ha://" = false ->
  find_first_of (authority u +:+ path u) "," 0 = None ->
  ends_visible (path u) -> parse (print u) = TryOk u.
Proof.
  intros Hp Hha Hn Hc He. unfold parse. rewrite print_authority.
  assert (Hpne : path u <> "") by (intros E; destruct Hp as [_ _ H]; by rewrite E in H).
  assert (Ht : trim ("urb://" +:+ authority u +:+ path u) WHITESPACE = "urb://" +:+ authority u +:+ path u).
  { apply (trim_id "u" ("rb://" +:+ authority u +:+ path u)); [done|].
    rewrite <- append_cons, <- append_assoc. by apply ends_visible_app. }
  rewrite Ht. cbv zeta. rewrite found_at_start_prefix. cbn [negb].
  change (sdrop 6 ("urb://" +:+ ?x)) with x. rewrite Hn, Hc, <- Hha.
  by apply parse_body_authority.
Qed.

Lemma no_comma s : find_first_of s "," 0 = None <-> lacks "," s.
Proof.
  unfold find_first_of, lacks.
  rewrite (find_pred_none_iff (is_delim ",") s).
  split; apply all_chars_impl; intros c; by rewrite is_delim_single.
Qed.

Lemma no_comma_print u : parsed u -> forall s b, parse_body s b = TryOk u ->
  lacks "," s -> lacks "," (authority u +:+ path u).
Proof.
  intros _ s b H Hs. destruct (parse_body_parsed _ _ _ H) as (_ & _ & a & p & -> & Hp & _ & pre & ->).
  unfold lacks in *. rewrite !all_chars_app in *. rewrite Hp.
  destruct (String.eqb p ""); tauto.
Qed.

(** ** Properties *)

(** The loop that collects the path stops after at most one pass per
    character and cuts the text at its first slash; every URL that [parse]
    accepts has no slash before the path, a path that starts with one, and no
    at sign in the servers. *)
Theorem url_parse_shape url u : parse url = TryOk u ->
  lacks "/" (authority u) /\ lacks "@" (servers u) /\ startsWith_char (path u) "/" = true /\
  (ha u = false -> lacks "," (servers u)).
Proof.
  unfold parse. destruct (negb _); [done|].
  destruct (found_at_start _ "ha://").
  - intros H. destruct (parse_body_parsed _ _ _ H) as ([H1 H2 H3] & -> & _). done.
  - destruct (find_first_of _ "," 0) as [|] eqn:Ec; [done|]. intros H.
    destruct (parse_body_parsed _ _ _ H) as (Hp & _ & _).
    pose proof (no_comma_print u Hp _ _ H (proj1 (no_comma _) Ec)) as Hl.
    destruct Hp as [H1 H2 H3]. split_and!; [done..|]. intros _.
    unfold lacks, authority in *. destruct (negb _); rewrite ?all_chars_app in Hl; tauto.
Qed.

Definition sample_url : URL := mkURL "host:6379" "user:pw@x" "/a/b" false.

Lemma url_parse_shape_witness :
  parse " urb://user:pw@x@host:6379/a/b " = TryOk sample_url /\ lacks "@" (servers sample_url).
Proof.
  assert (H : parse " urb://user:pw@x@host:6379/a/b " = TryOk sample_url) by (vm_compute; reflexivity).
  destruct (url_parse_shape _ _ H) as (_ & A & _). split; [exact H|exact A].
Defined.

(** Printing a URL that was parsed without high availability and parsing
    the text again gives the same URL, unless the printed text happens to
    start with the [ha://] marker. *)
Theorem url_print_parse url u : parse url = TryOk u -> ha u = false ->
  found_at_start (authority u +:+ path u) "ha://" = false -> parse (print u) = TryOk u.
Proof.
  intros H Hha Hn. unfold parse in H. cbv zeta in H.
  destruct (found_at_start (trim url WHITESPACE) "urb://") eqn:Es; [|done]. cbn [negb] in H.
  assert (Hb : parse_body (sdrop 6 (trim url WHITESPACE)) false = TryOk u /\
               find_first_of (sdrop 6 (trim url WHITESPACE)) "," 0 = None).
  { destruct (found_at_start (sdrop 6 _) "ha://"); [|by destruct (find_first_of _ "," 0)].
    apply parse_body_parsed in H as (_ & ? & _). congruence. }
  destruct Hb as [Hb Hc]. apply found_at_start_inv in Es.
  pose proof (trim_ends_visible url) as Ht. rewrite Es in Ht. specialize (Ht ltac:(done)).
  destruct (parse_body_parsed _ _ _ Hb) as (Hp & _ & a & p & Hs & Hpath & _).
  apply parse_print; try done.
  - apply no_comma. eapply no_comma_print; [done|exact Hb|by apply no_comma].
  - rewrite Hpath. destruct (String.eqb_spec p "") as [|Hne]; [done|].
    rewrite Hs, <- append_assoc in Ht. by apply ends_visible_app in Ht.
Qed.

Lemma url_print_parse_witness : parse (print sample_url) = TryOk sample_url.
Proof.
  apply (url_print_parse " urb://user:pw@x@host:6379/a/b " sample_url); vm_compute; reflexivity.
Defined.

(** A high-availability URL does not survive printing: [operator<<] leaves
    out the [ha://] marker, so the text is read as another URL, and is
    rejected when it lists several servers. *)
Theorem url_print_loses_ha :
  exists u, parse "urb://ha://h1:6379,h2:6379/q" = TryOk u /\ ha u = true /\
    print u = "urb://h1:6379,h2:6379/q" /\
    parse (print u) = TryError "Expecting a single server when HA is not specified".
Proof. eexists. split_and!; vm_compute; reflexivity. Qed.
