(* ===== verification/Attributes.v ===== *)
(** * Attributes (source/attributes.cpp)

    Named values of an agent.  Reading a malformed attribute aborts the
    process ([LOG(FATAL)]); so does comparing attributes that hold a set. *)
From Stdlib Require Import Ascii.
From S2P Require Import Prelude Binary64 Scalar Ranges Sets StoutStrings Values.

(** The protobuf message: every field may be unset. *)
Record Attribute := mkAttribute {
  a_name : option string;
  a_type : option ValueType;
  a_scalar : option Scalar;
  a_ranges : option Ranges;
  a_text : option string;
}.

(** The getters, with the protobuf defaults. *)
Definition name (a : Attribute) : string := default "" (a_name a).
Definition type (a : Attribute) : ValueType := default SCALAR (a_type a).
Definition scalar (a : Attribute) : Scalar := default Scalar_default (a_scalar a).
Definition ranges (a : Attribute) : Ranges := default [] (a_ranges a).
Definition text (a : Attribute) : string := default "" (a_text a).

Abbreviation Attributes := (list Attribute) (only parsing).

(** [Attributes::get(thatAttribute)] *)
Fixpoint get (attributes : Attributes) (thatAttribute : Attribute) : option Attribute :=
  match attributes with
  | [] => None
  | attribute :: rest =>
      if String.eqb (name attribute) (name thatAttribute) &&
         bool_decide (type attribute = type thatAttribute) then Some attribute
      else get rest thatAttribute
  end.

(** The comparison of one attribute with its counterpart. *)
Definition same_value (attribute thatAttribute : Attribute) : outcome bool :=
  match type attribute with
  | SCALAR => Ret (Scalar_eq (scalar attribute) (scalar thatAttribute))
  | RANGES => Ret (Ranges_eq (ranges attribute) (ranges thatAttribute))
  | TEXT => Ret (Text_eq (text attribute) (text thatAttribute))
  | SET => Fatal "Sets not supported for attributes"
  end.

Fixpoint all_same (attributes that : Attributes) : outcome bool :=
  match attributes with
  | [] => Ret true
  | attribute :: rest =>
      match get that attribute with
      | None => Ret false
      | Some thatAttribute =>
          let! same := same_value attribute thatAttribute in
          if same then all_same rest that else Ret false
      end
  end.

(** [Attributes::operator==] *)
Definition Attributes_eq (attributes that : Attributes) : outcome bool :=
  if negb (length attributes =? length that)%nat then Ret false else all_same attributes that.

(** [Attributes::get(name, default)] *)
Fixpoint get_scalar (attributes : Attributes) (n : string) (dflt : Scalar) : Scalar :=
  match attributes with
  | [] => dflt
  | a :: rest => if String.eqb (name a) n && bool_decide (type a = SCALAR) then scalar a
                 else get_scalar rest n dflt
  end.
Fixpoint get_ranges (attributes : Attributes) (n : string) (dflt : Ranges) : Ranges :=
  match attributes with
  | [] => dflt
  | a :: rest => if String.eqb (name a) n && bool_decide (type a = RANGES) then ranges a
                 else get_ranges rest n dflt
  end.
Fixpoint get_text (attributes : Attributes) (n : string) (dflt : string) : string :=
  match attributes with
  | [] => dflt
  | a :: rest => if String.eqb (name a) n && bool_decide (type a = TEXT) then text a
                 else get_text rest n dflt
  end.

(** [Attributes::isValid] *)
Definition isValid (a : Attribute) : bool :=
  match a_name a, a_type a with
  | Some n, Some t =>
      if String.eqb n "" then false
      else match t with
           | SCALAR => bool_decide (is_Some (a_scalar a))
           | RANGES => bool_decide (is_Some (a_ranges a))
           | TEXT => bool_decide (is_Some (a_text a))
           | SET => false
           end
  | _, _ => false
  end.

Section Parse.
  Context (numify_uint64 : string -> Try Z) (numify_double : string -> Try double).

(** [Attributes::parse(name, text)].  The fields of the value that was read
    are merged into those of a fresh attribute. *)
Definition parse_one (name text : string) : outcome Attribute :=
  match Values.parse numify_uint64 numify_double text with
  | TryError e => Fatal ("Failed to parse attribute " +:+ name +:+ " text " +:+ text +:+ " error " +:+ e)
  | TryOk value =>
      match v_type value with
      | RANGES => Ret (mkAttribute (Some name) (Some RANGES) None (Some (default [] (v_ranges value))) None)
      | TEXT => Ret (mkAttribute (Some name) (Some TEXT) None None (Some (default "" (v_text value))))
      | SCALAR =>
          Ret (mkAttribute (Some name) (Some SCALAR) (Some (default Scalar_default (v_scalar value))) None None)
      | SET => Fatal ("Bad type for attribute " +:+ name +:+ " text " +:+ text +:+ " type ")
      end
  end.

(** The body of the loop of [Attributes::parse(s)]. *)
Definition parse_token (attributes : Attributes) (token : string) : outcome Attributes :=
  match split token ":" (Some 2%nat) with
  | [key; value] =>
      if String.eqb key "" || String.eqb value "" then
        Fatal ("Invalid attribute key:value pair '" +:+ token +:+ "'")
      else let! a := parse_one key value in Ret (attributes ++ [a])
  | _ => Fatal ("Invalid attribute key:value pair '" +:+ token +:+ "'")
  end.

Definition parse (s : string) : outcome Attributes :=
  ofold parse_token (tokenize s (";" +:+ newline) None) [].

(** ** Lemmas *)

Lemma parse_one_valid n t a : n <> "" -> parse_one n t = Ret a -> isValid a = true /\ name a = n.
Proof.
  unfold parse_one. intros Hn. destruct (Values.parse _ _ t) as [v|]; [|done].
  destruct (v_type v); intros [= <-]; cbn; rewrite (proj2 (String.eqb_neq n "")) by done; done.
Qed.

(** What an accepted token and its attribute have to do with each other. *)
Definition token_of (token : string) (a : Attribute) : Prop :=
  isValid a = true /\
  exists rest, token = name a +:+ ":" +:+ rest /\ rest <> "" /\
    all_chars (fun c => negb (Ascii.eqb c ":")) (name a) = true /\ parse_one (name a) rest = Ret a.

Lemma parse_token_spec attrs token attrs' : parse_token attrs token = Ret attrs' ->
  exists a, attrs' = attrs ++ [a] /\ token_of token a.
Proof.
  unfold parse_token. rewrite split_at_first.
  destruct (find_first_of token ":" 0) as [k|] eqn:E; [|done].
  destruct (String.eqb_spec (stake k token) "") as [|Hk]; [done|].
  destruct (String.eqb_spec (sdrop (S k) token) "") as [|Hv]; [done|]. cbn [orb].
  destruct (parse_one (stake k token) (sdrop (S k) token)) as [a|] eqn:Ea; [|done]. cbn [obind].
  intros [= <-]. exists a. split; [done|].
  destruct (parse_one_valid _ _ _ Hk Ea) as [Hva Hname]. split; [done|].
  destruct (find_pred_at _ _ _ E) as (c & Hc & Hd & Hl).
  rewrite is_delim_single in Hc. apply Ascii.eqb_eq in Hc as ->.
  exists (sdrop (S k) token). rewrite Hname. split_and!; [|done| |done].
  - change (":" +:+ ?x) with (String ":" x). by rewrite <- Hd, stake_sdrop.
  - revert Hl. apply all_chars_impl. intros c. by rewrite is_delim_single.
Qed.

Lemma parse_tokens_spec tokens : forall attrs out, ofold parse_token tokens attrs = Ret out ->
  exists l, out = attrs ++ l /\ Forall2 token_of tokens l.
Proof.
  induction tokens as [|t tokens IH]; intros attrs out; cbn [ofold].
  - intros [= <-]. exists []. by rewrite app_nil_r.
  - destruct (parse_token attrs t) as [attrs'|] eqn:E; [|done]. cbn [obind]. intros H.
    destruct (parse_token_spec _ _ _ E) as (a & -> & Ha).
    destruct (IH _ _ H) as (l & -> & Hl). exists (a :: l). rewrite <- app_assoc. split; [done|].
    by constructor.
Qed.
End Parse.

(** *** Comparison *)

Definition key (a : Attribute) : string * ValueType := (name a, type a).

Lemma get_key that a : forall b, get that a = Some b -> b ∈ that /\ key b = key a.
Proof.
  induction that as [|c that IH]; intros b; cbn [get]; [done|].
  destruct (String.eqb_spec (name c) (name a)) as [E1|], (bool_decide_reflect (type c = type a)) as [E2|];
    cbn [andb]; try (intros [? ?]%IH; split; [by right|done]).
  intros [= <-]. split; [by left|]. unfold key. by rewrite E1, E2.
Qed.

Lemma get_unique that a : NoDup (map key that) -> a ∈ that -> get that a = Some a.
Proof.
  induction that as [|c that IH]; [by intros _ ?%not_elem_of_nil|].
  intros [Hc Hnd]%NoDup_cons Ha. cbn [get].
  destruct (String.eqb (name c) (name a) && bool_decide (type c = type a)) eqn:E.
  - apply andb_prop in E as [E1%String.eqb_eq E2%bool_decide_eq_true].
    apply elem_of_cons in Ha as [->|Ha]; [done|]. exfalso. apply Hc.
    apply list_elem_of_fmap. exists a. split; [|done]. unfold key. by rewrite E1, E2.
  - apply elem_of_cons in Ha as [->|Ha]; [|by apply IH].
    by rewrite String.eqb_refl, bool_decide_eq_true_2 in E.
Qed.

Lemma Ranges_eq_refl r : Ranges_eq r r = true.
Proof.
  unfold Ranges_eq. cbv zeta. rewrite Nat.eqb_refl.
  apply (forallb_Forall _ (fun _ => True)); [|by apply Forall_true].
  intros a Ha. split; [done|]. intros _. apply existsb_elem. exists a. by rewrite !Z.eqb_refl.
Qed.

Lemma same_value_refl a : type a <> SET -> same_value a a = Ret true.
Proof.
  unfold same_value. destruct (type a); intros H; try done.
  - unfold Scalar_eq. by rewrite Z.eqb_refl.
  - by rewrite Ranges_eq_refl.
  - unfold Text_eq. by rewrite String.eqb_refl.
Qed.

Lemma all_same_returns attrs that : Forall (fun a => type a <> SET) attrs ->
  exists b, all_same attrs that = Ret b.
Proof.
  induction 1 as [|a attrs Ha _ [b IH]]; cbn [all_same]; [by exists true|].
  destruct (get that a) as [c|]; [|by exists false].
  assert (exists s, same_value a c = Ret s) as [s ->]
    by (unfold same_value; destruct (type a); [by eexists..|done|by eexists]).
  cbn [obind]. destruct s; eauto.
Qed.

(** ** Properties *)

(** When [Attributes::parse] returns, there is one attribute per
    non-empty piece of the text, in order: the piece is the attribute's name,
    which has no colon, a colon and the text its value was read from, and
    every attribute is valid. *)
Theorem attributes_parse_tokens nu nd s attrs : parse nu nd s = Ret attrs ->
  Forall2 (token_of nu nd) (tokenize s (";" +:+ newline) None) attrs.
Proof. intros H. by destruct (parse_tokens_spec _ _ _ _ _ H) as (l & -> & Hl). Qed.

Lemma attributes_parse_tokens_witness :
  exists attrs, parse read_decimal (fun _ => TryError "text") "rack:r1;ports:[1-9]" = Ret attrs /\
    Forall2 (token_of read_decimal (fun _ => TryError "text")) ["rack:r1"; "ports:[1-9]"] attrs.
Proof.
  eexists. split; [vm_compute; reflexivity|].
  apply (attributes_parse_tokens read_decimal (fun _ => TryError "text") "rack:r1;ports:[1-9]").
  vm_compute. reflexivity.
Defined.

(** Comparing attributes without sets never aborts, and attributes with
    distinct names (per type) equal themselves; two attributes with one name
    break this, because the counterpart is always looked up as the first
    match. *)
Theorem attributes_equality :
  (forall attrs that, Forall (fun a => type a <> SET) attrs ->
     exists b, Attributes_eq attrs that = Ret b) /\
  (forall attrs, Forall (fun a => type a <> SET) attrs -> NoDup (map key attrs) ->
     Attributes_eq attrs attrs = Ret true) /\
  (exists attrs, Forall (fun a => isValid a = true) attrs /\ Attributes_eq attrs attrs = Ret false).
Proof.
  split_and!.
  - intros attrs that H. unfold Attributes_eq. destruct (negb _); [by eexists|].
    by apply all_same_returns.
  - intros attrs Hset Hnd. unfold Attributes_eq. rewrite Nat.eqb_refl. cbn [negb].
    assert (Hgen : forall l, (forall a, a ∈ l -> a ∈ attrs) -> all_same l attrs = Ret true).
    { induction l as [|a l IH]; intros Hl; [done|]. cbn [all_same].
      assert (Ha : a ∈ attrs) by (apply Hl; by left).
      rewrite get_unique, same_value_refl by (try done; by rewrite Forall_forall in Hset; apply Hset).
      cbn [obind]. apply IH. intros b Hb. apply Hl. by right. }
    by apply Hgen.
  - exists [mkAttribute (Some "rack") (Some TEXT) None None (Some "a");
            mkAttribute (Some "rack") (Some TEXT) None None (Some "b")].
    split; [repeat constructor|]. vm_compute. reflexivity.
Qed.
