(* ===== verification/Contract.v ===== *)
(** * The contract of a stateful operation

    The processes of the drivers are state machines whose operations may abort
    on a failed assertion.  Every operation promises its callers the same: it
    keeps the invariant, only extends the state, and once the process is armed
    it fails in one designated way only.  The promise is stated and composed
    here once, against the interface [Contract], and each process instantiates
    it with its own invariant. *)
From S2P Require Import Prelude.

Class Contract (St : Type) := {
  c_inv : St -> Prop;                     (** the invariant *)
  c_ext : St -> St -> Prop;               (** what an operation may not undo *)
  c_armed : St -> bool;                   (** the assertions are guaranteed *)
  c_refl : forall s, c_ext s s;
  c_trans : forall s1 s2 s3, c_ext s1 s2 -> c_ext s2 s3 -> c_ext s1 s3;
  c_mono : forall s s', c_ext s s' -> c_armed s = true -> c_armed s' = true;
}.

Section Laws.
  Context {St : Type} `{!Contract St} {nested : string}.

Definition good (s : St) (c : outcome St) : Prop :=
  match c with
  | Ret s' => c_inv s' /\ c_ext s s'
  | Fatal w => c_armed s = true -> w = nested
  end.

Lemma good_ret s s' : c_inv s' -> c_ext s s' -> good s (Ret s').
Proof. by split. Qed.

Lemma good_id s : c_inv s -> good s (Ret s).
Proof. intros Hs. by apply good_ret, c_refl. Qed.

Lemma good_ext s s1 c : c_ext s s1 -> good s1 c -> good s c.
Proof.
  intros E. destruct c as [s2|w]; cbn; [|by intros H Ha; apply H, (c_mono s)].
  intros [H1 H2]. split; [done|]. by eapply c_trans.
Qed.

Lemma good_bind s c k : good s c -> (forall s', c_inv s' -> c_ext s s' -> good s' (k s')) ->
  good s (obind c k).
Proof. destruct c as [s1|w]; cbn; [|done]. intros [H1 H2] Hk. by eapply good_ext, Hk. Qed.

Lemma good_check s b why k : (c_armed s = true -> b = true) -> good s k -> good s (CHECK b why ;;! k).
Proof. intros Hb Hk. destruct b; cbn; [done|]. intros Hc. by specialize (Hb Hc). Qed.

Lemma good_ofold {A} (f : St -> A -> outcome St) l :
  (forall s a, a ∈ l -> c_inv s -> good s (f s a)) -> forall s, c_inv s -> good s (ofold f l s).
Proof.
  induction l as [|a l IH]; intros Hf s Hs; cbn [ofold]; [by apply good_id|].
  apply good_bind; [apply Hf; [set_solver|done]|]. intros s' Hs' _. apply IH; [|done]. set_solver.
Qed.

(** A step that keeps the contract of an armed state. *)
Lemma good_armed s c : c_armed s = true -> good s c ->
  match c with Ret s' => c_inv s' | Fatal w => w = nested end.
Proof. intros Ha. destruct c; cbn; [by intros [? _]|auto]. Qed.

End Laws.

Arguments good {St _} nested s c.
