(* ===== verification/Platform.v ===== *)
(** * The code liburb relies on and does not contain

    Boost's interval sets and lexical casts and the C++ stream formatting of
    doubles are parameters of the model: [Platform] lists the operations the
    code calls, [PlatformLaws] the documented behaviour that theorems use. *)
From stdpp Require Import pretty.
From S2P Require Import Prelude Binary64 Scalar Ranges Values.

Class Platform := {
  iset : Type;
  #[global] iset_ops :: IntervalSet iset;
  (** [numify<uint64_t>] and [numify<double>] *)
  numify_uint64 : string -> Try Z;
  numify_double : string -> Try double;
  (** [stream << d] with 15 significant digits *)
  print_double : double -> string;
}.

Class PlatformLaws (P : Platform) : Prop := {
  #[global] iset_laws :: IntervalSetLaws iset;
  numify_reads : reads_decimal numify_uint64;
}.

(** A platform that can be evaluated: canonical range lists, decimal numbers,
    and doubles shown in thousandths. *)
Module RefPlatform.

Definition read_double (s : string) : Try double :=
  match read_decimal s with
  | TryOk n => TryOk (double_of_Z n)
  | TryError e => TryError e
  end.

Definition platform : Platform := {|
  iset := RefIntervalSet.t;
  iset_ops := RefIntervalSet.ops;
  numify_uint64 := read_decimal;
  numify_double := read_double;
  print_double d := pretty (convertToFixed d) +:+ "e-3";
|}.

Lemma laws : PlatformLaws platform.
Proof. split; [exact RefIntervalSet.laws|exact read_decimal_reads]. Qed.

End RefPlatform.
