(* ===== verification/Resource.v ===== *)
(** * [Resource] messages (source/resources.cpp, 57-586, 2133-2281; labels: source/type_utils.cpp, 271-299)

    The protobuf message with its optional fields, the comparison operators,
    [addable], [subtractable], [contains] and the arithmetic on one resource.
    [identity] is what two resources must share to be comparable; on regular
    resources the field-by-field comparisons decide its equality. *)
From stdpp Require Import pretty.
From S2P Require Import Prelude Binary64 Scalar Ranges Sets StoutStrings Values Platform.

(** ** Data *)

Record Label := mkLabel { l_key : string; l_value : option string }.
Abbreviation Labels := (list Label) (only parsing).

Inductive ReservationType := UNKNOWN_RESERVATION | STATIC | DYNAMIC.
#[export] Instance ReservationType_eq_dec : EqDecision ReservationType.
Proof. solve_decision. Defined.

(** [Resource::ReservationInfo] *)
Record ReservationInfo := mkReservation {
  ri_type : option ReservationType;
  ri_role : option string;
  ri_principal : option string;
  ri_labels : option (list Label);
}.

Inductive SourceType := UNKNOWN_SOURCE | PATH | MOUNT.
#[export] Instance SourceType_eq_dec : EqDecision SourceType.
Proof. solve_decision. Defined.

(** [DiskInfo::Source]; [Path] and [Mount] hold an optional root. *)
Record Source := mkSource {
  s_type : SourceType;
  s_path : option (option string);
  s_mount : option (option string);
}.

Inductive VolumeMode := RW | RO.
Record Volume := mkVolume {
  vol_container_path : string;
  vol_host_path : option string;
  vol_mode : option VolumeMode;
}.

Record Persistence := mkPersistence { p_id : string; p_principal : option string }.

Record DiskInfo := mkDisk {
  d_source : option Source;
  d_persistence : option Persistence;
  d_volume : option Volume;
}.

Record Resource := mkResource {
  r_provider_id : option string;
  r_name : string;
  r_type : ValueType;
  r_scalar : option Scalar;
  r_ranges : option (list Range);
  r_set : option (list string);
  r_role : option string;
  r_allocation_info : option (option string);
  r_reservation : option ReservationInfo;
  r_reservations : list ReservationInfo;
  r_disk : option DiskInfo;
  r_revocable : bool;
  r_shared : bool;
}.

(** Getters, with the protobuf defaults. *)
Definition scalar (r : Resource) : Scalar := default Scalar_default (r_scalar r).
Definition ranges (r : Resource) : list Range := default [] (r_ranges r).
Definition set (r : Resource) : list string := default [] (r_set r).
Definition role (r : Resource) : string := default "*" (r_role r).
Definition reservation_type (ri : ReservationInfo) : ReservationType :=
  default UNKNOWN_RESERVATION (ri_type ri).
Definition reservation_role (ri : ReservationInfo) : string := default "" (ri_role ri).
Definition label_value (l : Label) : string := default "" (l_value l).

Definition has {A} (o : option A) : bool := match o with Some _ => true | None => false end.

(** Setters. *)
Definition set_scalar (r : Resource) (v : Scalar) : Resource :=
  mkResource (r_provider_id r) (r_name r) (r_type r) (Some v) (r_ranges r) (r_set r) (r_role r)
    (r_allocation_info r) (r_reservation r) (r_reservations r) (r_disk r) (r_revocable r) (r_shared r).
Definition set_ranges (r : Resource) (v : list Range) : Resource :=
  mkResource (r_provider_id r) (r_name r) (r_type r) (r_scalar r) (Some v) (r_set r) (r_role r)
    (r_allocation_info r) (r_reservation r) (r_reservations r) (r_disk r) (r_revocable r) (r_shared r).
Definition set_set (r : Resource) (v : list string) : Resource :=
  mkResource (r_provider_id r) (r_name r) (r_type r) (r_scalar r) (r_ranges r) (Some v) (r_role r)
    (r_allocation_info r) (r_reservation r) (r_reservations r) (r_disk r) (r_revocable r) (r_shared r).
Definition with_role (r : Resource) (v : option string) : Resource :=
  mkResource (r_provider_id r) (r_name r) (r_type r) (r_scalar r) (r_ranges r) (r_set r) v
    (r_allocation_info r) (r_reservation r) (r_reservations r) (r_disk r) (r_revocable r) (r_shared r).
Definition with_allocation (r : Resource) (v : option (option string)) : Resource :=
  mkResource (r_provider_id r) (r_name r) (r_type r) (r_scalar r) (r_ranges r) (r_set r) (r_role r)
    v (r_reservation r) (r_reservations r) (r_disk r) (r_revocable r) (r_shared r).
Definition with_reservation (r : Resource) (v : option ReservationInfo) : Resource :=
  mkResource (r_provider_id r) (r_name r) (r_type r) (r_scalar r) (r_ranges r) (r_set r) (r_role r)
    (r_allocation_info r) v (r_reservations r) (r_disk r) (r_revocable r) (r_shared r).
Definition with_reservations (r : Resource) (v : list ReservationInfo) : Resource :=
  mkResource (r_provider_id r) (r_name r) (r_type r) (r_scalar r) (r_ranges r) (r_set r) (r_role r)
    (r_allocation_info r) (r_reservation r) v (r_disk r) (r_revocable r) (r_shared r).
Definition with_disk (r : Resource) (v : option DiskInfo) : Resource :=
  mkResource (r_provider_id r) (r_name r) (r_type r) (r_scalar r) (r_ranges r) (r_set r) (r_role r)
    (r_allocation_info r) (r_reservation r) (r_reservations r) v (r_revocable r) (r_shared r).
Definition with_shared (r : Resource) (v : bool) : Resource :=
  mkResource (r_provider_id r) (r_name r) (r_type r) (r_scalar r) (r_ranges r) (r_set r) (r_role r)
    (r_allocation_info r) (r_reservation r) (r_reservations r) (r_disk r) (r_revocable r) v.
Definition with_provider_id (r : Resource) (v : option string) : Resource :=
  mkResource v (r_name r) (r_type r) (r_scalar r) (r_ranges r) (r_set r) (r_role r)
    (r_allocation_info r) (r_reservation r) (r_reservations r) (r_disk r) (r_revocable r) (r_shared r).

(** ** Comparison *)

(** [has_x] on both sides agree, and the values if present. *)
Definition opt_eqb {A} (eqb : A -> A -> bool) (left right : option A) : bool :=
  match left, right with
  | Some l, Some r => eqb l r
  | None, None => true
  | _, _ => false
  end.

Definition Label_eq (left right : Label) : bool :=
  String.eqb (l_key left) (l_key right) && String.eqb (label_value left) (label_value right).

(** [operator==] on [Labels] *)
Definition Labels_eq (left right : list Label) : bool :=
  if negb (length left =? length right)%nat then false
  else forallb (fun l => existsb (fun r => Label_eq l r) right) left.

(** [operator==] on [AllocationInfo], [ReservationInfo], [Path], [Mount] *)
Definition AllocationInfo_eq (left right : option string) : bool := opt_eqb String.eqb left right.

Definition ReservationInfo_eq (left right : ReservationInfo) : bool :=
  bool_decide (reservation_type left = reservation_type right) &&
  String.eqb (reservation_role left) (reservation_role right) &&
  opt_eqb String.eqb (ri_principal left) (ri_principal right) &&
  opt_eqb Labels_eq (ri_labels left) (ri_labels right).

Definition Path_eq (left right : option string) : bool := opt_eqb String.eqb left right.
Definition Mount_eq (left right : option string) : bool :=
  opt_eqb String.eqb left right && String.eqb (default "" left) (default "" right).

(** [operator==] on [Source]: the right operand's [path()] is the default
    message when it is unset. *)
Definition Source_eq (left right : Source) : bool :=
  bool_decide (s_type left = s_type right) &&
  match s_path left with Some p => Path_eq p (default None (s_path right)) | None => true end &&
  match s_mount left with Some m => Mount_eq m (default None (s_mount right)) | None => true end.

(** [operator==] on [DiskInfo] *)
Definition DiskInfo_eq (left right : DiskInfo) : bool :=
  opt_eqb Source_eq (d_source left) (d_source right) &&
  opt_eqb (fun l r => String.eqb (p_id l) (p_id r)) (d_persistence left) (d_persistence right).

(** The loop over the two reservation stacks. *)
Fixpoint reservations_eq (left right : list ReservationInfo) : bool :=
  match left, right with
  | [], [] => true
  | l :: left', r :: right' => ReservationInfo_eq l r && reservations_eq left' right'
  | _, _ => false
  end.

(** [operator==] on [Resource] *)
Definition Resource_eq (left right : Resource) : bool :=
  if negb (String.eqb (r_name left) (r_name right)) ||
     negb (bool_decide (r_type left = r_type right)) then false
  else if negb (opt_eqb AllocationInfo_eq (r_allocation_info left) (r_allocation_info right)) then false
  else if negb (reservations_eq (r_reservations left) (r_reservations right)) then false
  else if negb (opt_eqb DiskInfo_eq (r_disk left) (r_disk right)) then false
  else if negb (Bool.eqb (r_revocable left) (r_revocable right)) then false
  else if negb (opt_eqb String.eqb (r_provider_id left) (r_provider_id right)) then false
  else if negb (Bool.eqb (r_shared left) (r_shared right)) then false
  else match r_type left with
       | SCALAR => Scalar_eq (scalar left) (scalar right)
       | RANGES => Ranges_eq (ranges left) (ranges right)
       | SET => Set_eq (set left) (set right)
       | TEXT => false
       end.

(** The disk has an exclusive [MOUNT] source. *)
Definition is_mount (d : DiskInfo) : bool :=
  match d_source d with Some s => bool_decide (s_type s = MOUNT) | None => false end.

(** [internal::addable] *)
Definition addable (left right : Resource) : bool :=
  if negb (Bool.eqb (r_shared left) (r_shared right)) then false
  else if r_shared left then Resource_eq left right
  else if negb (String.eqb (r_name left) (r_name right)) ||
          negb (bool_decide (r_type left = r_type right)) then false
  else if negb (opt_eqb AllocationInfo_eq (r_allocation_info left) (r_allocation_info right)) then false
  else if negb (reservations_eq (r_reservations left) (r_reservations right)) then false
  else if negb (Bool.eqb (has (r_disk left)) (has (r_disk right))) then false
  else if match r_disk left, r_disk right with
          | Some dl, Some dr => negb (DiskInfo_eq dl dr) || is_mount dl || has (d_persistence dl)
          | _, _ => false
          end then false
  else if negb (Bool.eqb (r_revocable left) (r_revocable right)) then false
  else opt_eqb String.eqb (r_provider_id left) (r_provider_id right).

(** [internal::subtractable] *)
Definition subtractable (left right : Resource) : bool :=
  if negb (Bool.eqb (r_shared left) (r_shared right)) then false
  else if r_shared left then Resource_eq left right
  else if negb (String.eqb (r_name left) (r_name right)) ||
          negb (bool_decide (r_type left = r_type right)) then false
  else if negb (opt_eqb AllocationInfo_eq (r_allocation_info left) (r_allocation_info right)) then false
  else if negb (reservations_eq (r_reservations left) (r_reservations right)) then false
  else if negb (Bool.eqb (has (r_disk left)) (has (r_disk right))) then false
  else if match r_disk left, r_disk right with
          | Some dl, Some dr =>
              negb (DiskInfo_eq dl dr) ||
              (is_mount dl && negb (Resource_eq left right)) ||
              (has (d_persistence dl) && negb (Resource_eq left right))
          | _, _ => false
          end then false
  else if negb (Bool.eqb (r_revocable left) (r_revocable right)) then false
  else opt_eqb String.eqb (r_provider_id left) (r_provider_id right).

(** [internal::contains] *)
Definition contains (left right : Resource) : bool :=
  if negb (subtractable left right) then false
  else match r_type left with
       | SCALAR => Scalar_le (scalar right) (scalar left)
       | RANGES => Ranges_le (ranges right) (ranges left)
       | SET => Set_le (set right) (set left)
       | TEXT => false
       end.

(** ** Arithmetic *)

(** [operator+=] *)
Definition Resource_add_assign (left right : Resource) : Resource :=
  match r_type left with
  | SCALAR => set_scalar left (Scalar_add_assign (scalar left) (scalar right))
  | RANGES => set_ranges left (Ranges_add_assign (ranges left) (ranges right))
  | SET => set_set left (Set_add_assign (set left) (set right))
  | TEXT => left
  end.

Section WithPlatform.
  Context {P : Platform}.

(** [operator-=] *)
Definition Resource_sub_assign (left right : Resource) : Resource :=
  match r_type left with
  | SCALAR => set_scalar left (Scalar_sub_assign (scalar left) (scalar right))
  | RANGES => set_ranges left (Ranges_sub_assign (IS := iset) (ranges left) (ranges right))
  | SET => set_set left (Set_sub_assign (set left) (set right))
  | TEXT => left
  end.

(** ** Printing *)

Definition Scalar_print (s : Scalar) : string :=
  print_double (convertToFloating (convertToFixed (value s))).

Definition print_root (root : option string) : string :=
  match root with Some root => ":" +:+ root | None => "" end.

Definition Source_print (s : Source) : string :=
  match s_type s with
  | MOUNT => "MOUNT" +:+ print_root (default None (s_mount s))
  | PATH => "PATH" +:+ print_root (default None (s_path s))
  | UNKNOWN_SOURCE => "UNKNOWN"
  end.

Definition Volume_print (v : Volume) : string :=
  match vol_host_path v with
  | Some host =>
      host +:+ ":" +:+ vol_container_path v +:+
      match vol_mode v with Some RW => ":rw" | Some RO => ":ro" | None => "" end
  | None => vol_container_path v
  end.

Definition Label_print (l : Label) : string :=
  l_key l +:+ match l_value l with Some v => ": " +:+ v | None => "" end.

Definition Labels_print (l : list Label) : string := "{" +:+ join ", " (map Label_print l) +:+ "}".

Definition ReservationType_name (t : ReservationType) : string :=
  match t with UNKNOWN_RESERVATION => "UNKNOWN" | STATIC => "STATIC" | DYNAMIC => "DYNAMIC" end.

Definition ReservationInfo_print (ri : ReservationInfo) : string :=
  ReservationType_name (reservation_type ri) +:+ "," +:+ reservation_role ri +:+
  match ri_principal ri with Some p => "," +:+ p | None => "" end +:+
  match ri_labels ri with Some l => "," +:+ Labels_print l | None => "" end.

Definition DiskInfo_print (d : DiskInfo) : string :=
  match d_source d with Some s => Source_print s | None => "" end +:+
  match d_persistence d with
  | Some p => (if has (d_source d) then "," else "") +:+ p_id p
  | None => ""
  end +:+
  match d_volume d with Some v => ":" +:+ Volume_print v | None => "" end.

(** [operator<<]: a text resource aborts. *)
Definition Resource_print (r : Resource) : outcome string :=
  let head :=
    r_name r +:+
    match r_allocation_info r with
    | Some role => "(allocated: " +:+ default "" role +:+ ")"
    | None => ""
    end +:+
    (if (0 <? length (r_reservations r))%nat then
       "(reservations: [" +:+
       join "," (map (fun ri => "(" +:+ ReservationInfo_print ri +:+ ")") (r_reservations r)) +:+ "])"
     else "") +:+
    match r_disk r with Some d => "[" +:+ DiskInfo_print d +:+ "]" | None => "" end +:+
    (if r_revocable r then "{REV}" else "") +:+
    (if r_shared r then "<SHARED>" else "") +:+ ":" in
  match r_type r with
  | SCALAR => Ret (head +:+ Scalar_print (scalar r))
  | RANGES => Ret (head +:+ Ranges_print (ranges r))
  | SET => Ret (head +:+ Set_print (set r))
  | TEXT => Fatal "Unexpected Value type"
  end.

End WithPlatform.

(** ** Identity *)

Definition label_pair (l : Label) : string * string := (l_key l, label_value l).
Definition label_set (l : list Label) : gset (string * string) := list_to_set (map label_pair l).
Definition reservation_id (ri : ReservationInfo) :
    ReservationType * string * option string * option (gset (string * string)) :=
  (reservation_type ri, reservation_role ri, ri_principal ri, label_set <$> ri_labels ri).
Definition source_id (s : Source) : SourceType * option (option string) * option (option string) :=
  (s_type s, s_path s, s_mount s).
Definition disk_id (d : DiskInfo) :=
  (source_id <$> d_source d, p_id <$> d_persistence d).

(** What two resources must share to be added, subtracted or compared. *)
Definition identity (r : Resource) :=
  (r_name r, r_type r, r_allocation_info r, map reservation_id (r_reservations r),
   disk_id <$> r_disk r, r_revocable r, r_provider_id r).

(** Labels without duplicates, and disk sources that set the field of their
    type and no other: what the message documentation asks for. *)
Definition regular_labels (l : list Label) : Prop := NoDup (map label_pair l).
Definition regular_reservation (ri : ReservationInfo) : Prop :=
  forall l, ri_labels ri = Some l -> regular_labels l.
Definition regular_source (s : Source) : Prop :=
  match s_type s with
  | PATH => is_Some (s_path s) /\ s_mount s = None
  | MOUNT => s_path s = None /\ is_Some (s_mount s)
  | UNKNOWN_SOURCE => s_path s = None /\ s_mount s = None
  end.
Definition regular (r : Resource) : Prop :=
  Forall regular_reservation (r_reservations r) /\
  forall d s, r_disk r = Some d -> d_source d = Some s -> regular_source s.

(** The comparison of the fields of [identity], as the operators write it. *)
Definition identity_eqb (left right : Resource) : bool :=
  String.eqb (r_name left) (r_name right) && bool_decide (r_type left = r_type right) &&
  opt_eqb AllocationInfo_eq (r_allocation_info left) (r_allocation_info right) &&
  reservations_eq (r_reservations left) (r_reservations right) &&
  opt_eqb DiskInfo_eq (r_disk left) (r_disk right) &&
  Bool.eqb (r_revocable left) (r_revocable right) &&
  opt_eqb String.eqb (r_provider_id left) (r_provider_id right).

Definition value_eqb (left right : Resource) : bool :=
  match r_type left with
  | SCALAR => Scalar_eq (scalar left) (scalar right)
  | RANGES => Ranges_eq (ranges left) (ranges right)
  | SET => Set_eq (set left) (set right)
  | TEXT => false
  end.

(** A disk that cannot be split: a mount or a persistent volume. *)
Definition exclusive (r : Resource) : bool :=
  match r_disk r with Some d => is_mount d || has (d_persistence d) | None => false end.

Ltac bool_cases :=
  repeat match goal with
  | |- context [negb ?b] => destruct b; cbn [negb orb andb]
  | |- context [?b && _] => destruct b; cbn [negb orb andb]
  end; try done.

Lemma Resource_eq_parts left right :
  Resource_eq left right =
    identity_eqb left right && Bool.eqb (r_shared left) (r_shared right) && value_eqb left right.
Proof. unfold Resource_eq, identity_eqb, value_eqb. bool_cases. Qed.

Lemma addable_parts left right : r_shared left = false -> r_shared right = false ->
  addable left right = identity_eqb left right && negb (exclusive left).
Proof.
  intros Hl Hr. unfold addable, identity_eqb, exclusive. rewrite Hl, Hr. cbn [Bool.eqb negb].
  destruct (String.eqb _ _), (bool_decide _), (opt_eqb AllocationInfo_eq _ _), (reservations_eq _ _);
    cbn [negb orb andb]; try done.
  destruct (r_disk left) as [dl|], (r_disk right) as [dr|]; cbn [has Bool.eqb negb opt_eqb andb]; try done.
  - destruct (DiskInfo_eq dl dr), (is_mount dl), (has (d_persistence dl)), (Bool.eqb _ _);
      cbn [negb orb andb]; rewrite ?andb_true_r, ?andb_false_r; done.
  - destruct (Bool.eqb _ _); cbn [negb andb]; by rewrite ?andb_true_r.
Qed.

Lemma subtractable_parts left right : r_shared left = false -> r_shared right = false ->
  subtractable left right =
    identity_eqb left right && (negb (exclusive left) || value_eqb left right).
Proof.
  intros Hl Hr. unfold subtractable, exclusive. rewrite Resource_eq_parts, Hl, Hr.
  unfold identity_eqb. cbn [Bool.eqb negb].
  destruct (String.eqb _ _), (bool_decide _), (opt_eqb AllocationInfo_eq _ _), (reservations_eq _ _);
    cbn [negb orb andb]; try done.
  destruct (r_disk left) as [dl|], (r_disk right) as [dr|]; cbn [has Bool.eqb negb opt_eqb andb]; try done.
  - destruct (DiskInfo_eq dl dr), (is_mount dl), (has (d_persistence dl)), (Bool.eqb _ _),
      (opt_eqb String.eqb _ _), (value_eqb left right); done.
  - destruct (Bool.eqb _ _), (opt_eqb String.eqb _ _); done.
Qed.

Lemma shared_addable left right : r_shared left = true ->
  addable left right = r_shared right && Resource_eq left right.
Proof. intros Hl. unfold addable. rewrite Hl. by destruct (r_shared right). Qed.

Lemma shared_subtractable left right : r_shared left = true ->
  subtractable left right = r_shared right && Resource_eq left right.
Proof. intros Hl. unfold subtractable. rewrite Hl. by destruct (r_shared right). Qed.

Lemma mixed_addable left right : r_shared left <> r_shared right ->
  addable left right = false /\ subtractable left right = false.
Proof.
  intros H. unfold addable, subtractable.
  destruct (r_shared left), (r_shared right); cbn; done.
Qed.

(** ** The comparisons decide equality of identities *)

Lemma opt_eqb_iff {A B} (eqb : A -> A -> bool) (f : A -> B) l r :
  (forall a b, l = Some a -> r = Some b -> eqb a b = true <-> f a = f b) ->
  opt_eqb eqb l r = true <-> f <$> l = f <$> r.
Proof.
  intros H. destruct l as [a|], r as [b|]; cbn; try done.
  rewrite (H a b) by done. split; [by intros ->|by intros [= ?]].
Qed.

Lemma opt_eqb_string (l r : option string) : opt_eqb String.eqb l r = true <-> l = r.
Proof.
  rewrite (opt_eqb_iff _ id), !option_fmap_id; [done|]. intros a b _ _. apply String.eqb_eq.
Qed.

Lemma Label_eq_iff l r : Label_eq l r = true <-> label_pair l = label_pair r.
Proof.
  unfold Label_eq, label_pair. rewrite andb_true_iff, !String.eqb_eq. split.
  - by intros [-> ->].
  - by intros [= -> ->].
Qed.

Lemma Labels_eq_iff l r : regular_labels l -> regular_labels r ->
  Labels_eq l r = true <-> label_set l = label_set r.
Proof.
  unfold regular_labels, Labels_eq, label_set. intros Hl Hr.
  assert (Hall : forallb (fun a => existsb (fun b => Label_eq a b) r) l = true <->
                 map label_pair l ⊆ map label_pair r).
  { rewrite (forallb_Forall _ (fun a => label_pair a ∈ map label_pair r)).
    - rewrite Forall_forall. unfold subseteq, list_subseteq. setoid_rewrite list_elem_of_fmap.
      split; [intros H x (a & -> & Ha); by apply H|]. intros H a Ha. apply H. eauto.
    - intros a _. rewrite existsb_elem, list_elem_of_fmap. setoid_rewrite Label_eq_iff.
      split; intros (b & H1 & H2); eauto. }
  destruct (Nat.eqb_spec (length l) (length r)) as [E|E]; cbn [negb].
  - rewrite Hall. split.
    + intros Hsub. apply list_to_set_perm_L. apply submseteq_length_Permutation.
      * by apply NoDup_submseteq.
      * rewrite !length_map. lia.
    + intros Hs x Hx. apply (elem_of_list_to_set (C := gset (string * string))).
      rewrite <- Hs. by apply elem_of_list_to_set.
  - split; [done|]. intros Hs. exfalso. apply E.
    apply (f_equal size) in Hs. rewrite !size_list_to_set, !length_map in Hs by done. done.
Qed.

Lemma ReservationInfo_eq_iff l r : regular_reservation l -> regular_reservation r ->
  ReservationInfo_eq l r = true <-> reservation_id l = reservation_id r.
Proof.
  intros Hl Hr. unfold ReservationInfo_eq, reservation_id.
  rewrite !andb_true_iff, bool_decide_eq_true, String.eqb_eq, opt_eqb_string.
  rewrite (opt_eqb_iff _ label_set) by (intros a b Ha Hb; apply Labels_eq_iff; auto).
  split; [by intros [[[-> ->] ->] ->]|]. intros [= -> -> -> ->]. done.
Qed.

Lemma reservations_eq_iff l r : Forall regular_reservation l -> Forall regular_reservation r ->
  reservations_eq l r = true <-> map reservation_id l = map reservation_id r.
Proof.
  intros Hl. revert r. induction Hl as [|a l Ha Hl IH]; intros [|b r] Hr; cbn; try done.
  apply Forall_cons in Hr as [Hb Hr]. rewrite andb_true_iff, ReservationInfo_eq_iff, IH by done.
  generalize (reservation_id a), (reservation_id b), (map reservation_id l), (map reservation_id r).
  intros x y xs ys. split; [by intros [-> ->]|]. by intros [= -> ->].
Qed.

Lemma Source_eq_iff l r : regular_source l -> regular_source r ->
  Source_eq l r = true <-> source_id l = source_id r.
Proof.
  destruct l as [lt lp lm], r as [rt rp rm]. unfold regular_source, Source_eq, source_id, Path_eq, Mount_eq.
  cbn [s_type s_path s_mount]. intros Hl Hr.
  destruct lt, rt; cbn [bool_decide]; rewrite ?bool_decide_true, ?bool_decide_false by done; cbn [andb];
    try (split; [done|congruence]).
  - destruct Hl as [-> ->], Hr as [-> ->]. done.
  - destruct Hl as [[p ->] ->], Hr as [[q ->] ->]. cbn [from_option id default].
    rewrite andb_true_r, opt_eqb_string. split; [by intros ->|by intros [= ->]].
  - destruct Hl as [-> [p ->]], Hr as [-> [q ->]]. cbn [from_option id default].
    rewrite !andb_true_iff, opt_eqb_string, String.eqb_eq. split.
    + intros H. by destruct_and! H; subst.
    + by intros [= ->].
Qed.

Lemma identity_eqb_iff l r : regular l -> regular r ->
  identity_eqb l r = true <-> identity l = identity r.
Proof.
  intros [Hl1 Hl2] [Hr1 Hr2]. unfold identity_eqb, identity.
  rewrite !andb_true_iff, String.eqb_eq, bool_decide_eq_true, reservations_eq_iff, opt_eqb_string by done.
  rewrite (opt_eqb_iff AllocationInfo_eq id), !option_fmap_id by (intros a b _ _; apply opt_eqb_string).
  rewrite (opt_eqb_iff DiskInfo_eq disk_id), eqb_true_iff.
  - split; [by intros [[[[[[-> ->] ->] ->] ->] ->] ->]|].
    intros [= -> -> -> -> -> -> ->]. done.
  - intros a b Ha Hb. unfold DiskInfo_eq, disk_id. rewrite andb_true_iff.
    rewrite (opt_eqb_iff _ source_id) by (intros s t Hs Ht; apply Source_eq_iff; eauto).
    rewrite (opt_eqb_iff _ p_id) by (intros p q _ _; apply String.eqb_eq).
    split; [by intros [-> ->]|by intros [= -> ->]].
Qed.

(** ** Properties *)

(** On regular resources that are not shared the field-by-field tests
    decide equality of identities: two of them can be added exactly if their
    identities agree and the resource is not exclusive (a mount disk or a
    persistent volume), and subtracted exactly if the identities agree and an
    exclusive one is equal as a whole; [contains] implies the latter. *)
Theorem addable_subtractable_identity l r : regular l -> regular r ->
  r_shared l = false -> r_shared r = false ->
  (addable l r = true <-> identity l = identity r /\ exclusive l = false) /\
  (subtractable l r = true <->
     identity l = identity r /\ (exclusive l = true -> Resource_eq l r = true)) /\
  (contains l r = true -> subtractable l r = true).
Proof.
  intros Rl Rr Sl Sr.
  assert (H3 : contains l r = true -> subtractable l r = true)
    by (unfold contains; by destruct (subtractable l r)).
  split; [|split; [|exact H3]]; clear H3.
  - rewrite addable_parts, andb_true_iff, negb_true_iff, identity_eqb_iff by done. done.
  - rewrite subtractable_parts, Resource_eq_parts, Sl, Sr by done.
    rewrite !andb_true_iff, orb_true_iff, negb_true_iff, identity_eqb_iff by done. cbn [Bool.eqb].
    destruct (exclusive l); split; intros [Hi Hv]; (split; [done|]).
    + intros _. destruct Hv as [?|Hv]; done.
    + right. by apply Hv.
    + done.
    + by left.
Qed.

Definition plain_resource (name : string) (n : Z) : Resource :=
  mkResource None name SCALAR (Some (Scalar_of_Z n)) None None None None None [] None false false.

Lemma addable_subtractable_identity_witness :
  addable (plain_resource "cpus" 1) (plain_resource "cpus" 2) = true.
Proof.
  destruct (addable_subtractable_identity (plain_resource "cpus" 1) (plain_resource "cpus" 2))
    as [A _]; [split; [constructor|discriminate]|split; [constructor|discriminate]|reflexivity..|].
  apply A. split; reflexivity.
Defined.

(** Without that regularity [operator==] is not symmetric: a disk source
    without a path equals one with a path, but not the other way round. *)
Theorem resource_equality_asymmetric :
  let with_source p :=
    mkResource None "disk" SCALAR (Some (Scalar_of_Z 1)) None None None None None []
      (Some (mkDisk (Some (mkSource PATH p None)) None None)) false false in
  Resource_eq (with_source None) (with_source (Some (Some "/a"))) = true /\
  Resource_eq (with_source (Some (Some "/a"))) (with_source None) = false.
Proof. split; vm_compute; reflexivity. Qed.
