(* ===== verification/ResourceFormat.v ===== *)
(** * Validation and format conversion (source/resources.cpp 769-1045, source/resources_utils.cpp 98-196)

    A resource names its reservations in one of three formats: [role] and
    [reservation] (pre-reservation-refinement), the stack [reservations]
    (post-reservation-refinement), or both (endpoint). *)
From S2P Require Import Prelude Binary64 Scalar Ranges Sets StoutStrings Values Roles Platform Resource.
From Stdlib Require Import SpecFloat.

(** ** [Resources::validate(resource)]; [None] is no error. *)

(** [return Error(...)] when the first part found one. *)
Definition or_error (first : outcome (option string)) (rest : outcome (option string)) :
    outcome (option string) :=
  let! e := first in
  match e with
  | Some m => Ret (Some m)
  | None => rest
  end.
Notation "a '|>!' b" := (or_error a b) (at level 100, b at level 200, right associativity) : outcome_scope.

(** The checks that return at their first failure. *)
Definition require (ok : bool) (message : string) : outcome (option string) :=
  Ret (if ok then None else Some message).

(** The two loops over the ranges. *)
Fixpoint validate_ranges (l : list Range) : option string :=
  match l with
  | [] => None
  | range :: rest =>
      if start range >? end_ range then Some "Invalid ranges resource: begin > end"
      else if existsb (fun rj => (start range <=? start rj) && (start rj <=? end_ range)) rest then
        Some "Invalid ranges resource: overlapping ranges"
      else validate_ranges rest
  end.

(** The two loops over the items. *)
Fixpoint validate_items (l : list string) : option string :=
  match l with
  | [] => None
  | item :: rest =>
      if existsb (String.eqb item) rest then Some "Invalid set resource: duplicated elements"
      else validate_items rest
  end.

Definition validate_value (r : Resource) : outcome (option string) :=
  Ret match r_type r with
  | SCALAR =>
      if negb (has (r_scalar r)) || has (r_ranges r) || has (r_set r) then
        Some "Invalid scalar resource"
      else if dltb (value (scalar r)) (S754_zero false) then
        Some "Invalid scalar resource: value < 0"
      else None
  | RANGES =>
      if has (r_scalar r) || negb (has (r_ranges r)) || has (r_set r) then
        Some "Invalid ranges resource"
      else validate_ranges (ranges r)
  | SET =>
      if has (r_scalar r) || has (r_ranges r) || negb (has (r_set r)) then
        Some "Invalid set resource"
      else validate_items (set r)
  | TEXT => Some "Unsupported resource type"
  end.

Definition validate_disk (r : Resource) : outcome (option string) :=
  Ret match r_disk r with
  | None => None
  | Some disk =>
      if negb (String.eqb (r_name r) "disk") then
        Some ("DiskInfo should not be set for " +:+ r_name r +:+ " resource")
      else
        match d_source disk with
        | Some source =>
            match s_type source with
            | PATH | MOUNT => None
            | UNKNOWN_SOURCE =>
                Some ("Unsupported 'DiskInfo.Source.Type' in '" +:+ Source_print source +:+ "'")
            end
        | None => None
        end
  end.

(** The pre-reservation-refinement format. *)
Definition validate_pre (r : Resource) : outcome (option string) :=
  Roles.validate (role r) |>!
  match r_reservation r with
  | None => Ret None
  | Some reservation =>
      require (negb (has (ri_type reservation)))
        "'Resource.ReservationInfo.type' must not be set for the 'Resource.reservation' field" |>!
      require (negb (has (ri_role reservation)))
        "'Resource.ReservationInfo.role' must not be set for the 'Resource.reservation' field" |>!
      require (negb (String.eqb (role r) "*"))
        ("Invalid reservation: role " +:+ dquote +:+ "*" +:+ dquote +:+ " cannot be dynamically reserved")
  end.

Definition validate_reservation (reservation : ReservationInfo) : outcome (option string) :=
  require (has (ri_type reservation))
    "Invalid reservation: 'Resource.ReservationInfo.type' field must be set." |>!
  require (has (ri_role reservation))
    "Invalid reservation: 'Resource.ReservationInfo.role' field must be set." |>!
  Roles.validate (reservation_role reservation) |>!
  require (negb (String.eqb (reservation_role reservation) "*"))
    ("Invalid reservation: role " +:+ dquote +:+ "*" +:+ dquote +:+ " cannot be reserved").

Fixpoint validate_stack (reservations : list ReservationInfo) : outcome (option string) :=
  match reservations with
  | [] => Ret None
  | reservation :: rest => validate_reservation reservation |>! validate_stack rest
  end.

(** Each reservation after the first refines the one before it. *)
Fixpoint validate_refined (ancestor : string) (reservations : list ReservationInfo) :
    outcome (option string) :=
  match reservations with
  | [] => Ret None
  | reservation :: rest =>
      require (negb (bool_decide (reservation_type reservation = STATIC)))
        "Invalid refined reservation: A refined reservation cannot be STATIC" |>!
      let descendant := reservation_role reservation in
      require (isStrictSubroleOf descendant ancestor)
        ("Invalid refined reservation: role '" +:+ descendant +:+ "' is not a refinement of '" +:+
         ancestor +:+ "'") |>!
      validate_refined descendant rest
  end.

Definition principal (ri : ReservationInfo) : string := default "" (ri_principal ri).
Definition labels (ri : ReservationInfo) : list Label := default [] (ri_labels ri).

(** The endpoint format: [role] and [reservation] agree with the only
    reservation of the stack. *)
Definition validate_single (r : Resource) (reservation : ReservationInfo) : outcome (option string) :=
  require (negb (has (r_role r) && negb (String.eqb (role r) (reservation_role reservation))))
    ("Invalid resource format: 'Resource.role' field with '" +:+ role r +:+
     "' does not match the role '" +:+ reservation_role reservation +:+ "' in 'Resource.reservations'") |>!
  match reservation_type reservation with
  | STATIC =>
      require (negb (has (r_reservation r)))
        ("Invalid resource format: 'Resource.reservation' must not be set if the single reservation"
         +:+ " in 'Resource.reservations' is STATIC")
  | DYNAMIC =>
      require (Bool.eqb (has (r_role r)) (has (r_reservation r)))
        ("Invalid resource format: 'Resource.role' and 'Resource.reservation' must either be both set"
         +:+ " or both not set if the single reservation in 'Resource.reservations' is DYNAMIC") |>!
      match r_reservation r with
      | None => Ret None
      | Some pre =>
          require (String.eqb (principal pre) (principal reservation))
            ("Invalid resource format: 'Resource.reservation.principal' field with '" +:+
             principal pre +:+ "' does not match the principal '" +:+ principal reservation +:+
             "' in 'Resource.reservations'") |>!
          require (Labels_eq (labels pre) (labels reservation))
            ("Invalid resource format: 'Resource.reservation.labels' field with '" +:+
             Labels_print (labels pre) +:+ "' does not match the labels '" +:+
             Labels_print (labels reservation) +:+ "' in 'Resource.reservations'")
      end
  | UNKNOWN_RESERVATION => Ret (Some "Unsupported 'Resource.ReservationInfo.Type'")
  end.

Definition validate_post (r : Resource) : outcome (option string) :=
  CHECK (0 <? length (r_reservations r))%nat "resource.reservations_size() > 0" ;;!
  validate_stack (r_reservations r) |>!
  match r_reservations r with
  | [] => Ret None
  | first :: rest =>
      validate_refined (reservation_role first) rest |>!
      match rest with
      | [] => validate_single r first
      | _ :: _ =>
          CHECK (1 <? length (r_reservations r))%nat "resource.reservations_size() > 1" ;;!
          require (negb (has (r_role r)))
            ("Invalid resource format: 'Resource.role' must not be set if there is more than one"
             +:+ " reservation in 'Resource.reservations'") |>!
          require (negb (has (r_reservation r)))
            ("Invalid resource format: 'Resource.reservation' must not be set if there is more than one"
             +:+ " reservation in 'Resource.reservations'")
      end
  end.

Definition validate_shared (r : Resource) : outcome (option string) :=
  if r_shared r then
    require (String.eqb (r_name r) "disk") ("Resource " +:+ r_name r +:+ " cannot be shared") |>!
    require (match r_disk r with Some d => has (d_persistence d) | None => false end)
      "Only persistent volumes can be shared"
  else Ret None.

Definition validate (r : Resource) : outcome (option string) :=
  require (negb (String.eqb (r_name r) "")) "Empty resource name" |>!
  validate_value r |>!
  validate_disk r |>!
  (match r_reservations r with [] => validate_pre r | _ :: _ => validate_post r end) |>!
  validate_shared r.

(** [Resources::validate(resources)]: the error message prints the resource. *)
Fixpoint validate_all {P : Platform} (resources : list Resource) : outcome (option string) :=
  match resources with
  | [] => Ret None
  | resource :: rest =>
      let! error := validate resource in
      match error with
      | Some e =>
          let! text := Resource_print resource in
          Ret (Some ("Resource '" +:+ text +:+ "' is invalid: " +:+ e))
      | None => validate_all rest
      end
  end.

(** ** Format conversion *)

Inductive ResourceFormat := PRE_RESERVATION_REFINEMENT | POST_RESERVATION_REFINEMENT | ENDPOINT.
#[export] Instance ResourceFormat_eq_dec : EqDecision ResourceFormat.
Proof. solve_decision. Defined.

Definition set_type (ri : ReservationInfo) (t : ReservationType) : ReservationInfo :=
  mkReservation (Some t) (ri_role ri) (ri_principal ri) (ri_labels ri).
Definition set_ri_role (ri : ReservationInfo) (role : string) : ReservationInfo :=
  mkReservation (ri_type ri) (Some role) (ri_principal ri) (ri_labels ri).

Definition to_pre (r : Resource) (format : ResourceFormat) : outcome Resource :=
  CHECK (negb (has (r_role r))) "!resource->has_role()" ;;!
  CHECK (negb (has (r_reservation r))) "!resource->has_reservation()" ;;!
  match r_reservations r with
  | [] => Ret (with_role r (Some "*"))
  | [source] =>
      let r :=
        if bool_decide (reservation_type source = DYNAMIC) then
          let target := default (mkReservation None None None None) (r_reservation r) in
          with_reservation r (Some (mkReservation (ri_type target) (ri_role target)
            (match ri_principal source with Some p => Some p | None => ri_principal target end)
            (match ri_labels source with Some l => Some l | None => ri_labels target end)))
        else r in
      let r := with_role r (Some (reservation_role source)) in
      Ret (if bool_decide (format = PRE_RESERVATION_REFINEMENT) then with_reservations r [] else r)
  | _ =>
      CHECK (negb (bool_decide (format = PRE_RESERVATION_REFINEMENT)))
        "Invalid resource format conversion" ;;!
      Ret r
  end.

Definition to_post (r : Resource) : outcome Resource :=
  match r_reservations r with
  | _ :: _ => Ret (with_reservation (with_role r None) None)
  | [] =>
      if String.eqb (role r) "*" then
        CHECK (negb (has (r_reservation r))) "!resource->has_reservation()" ;;!
        Ret (with_role r None)
      else
        let reservation :=
          match r_reservation r with
          | None => mkReservation (Some STATIC) None None None
          | Some pre => set_type pre DYNAMIC
          end in
        let reservation := set_ri_role reservation (role r) in
        Ret (with_role (with_reservation (with_reservations r [reservation]) None) None)
  end.

(** [convertResourceFormat] *)
Definition convertResourceFormat (r : Resource) (format : ResourceFormat) : outcome Resource :=
  match format with
  | PRE_RESERVATION_REFINEMENT | ENDPOINT => to_pre r format
  | POST_RESERVATION_REFINEMENT => to_post r
  end.
Definition convertResourceFormats (l : list Resource) (format : ResourceFormat) :
    outcome (list Resource) :=
  omapM (fun r => convertResourceFormat r format) l.

(** ** Lemmas *)

Lemma or_error_None a b : or_error a b = Ret None <-> a = Ret None /\ b = Ret None.
Proof.
  unfold or_error. destruct a as [[m|]|w]; cbn; [|tauto|]; split; (done || intros [? _]; done).
Qed.

Lemma require_None b m : require b m = Ret None <-> b = true.
Proof. unfold require. by destruct b. Qed.

Definition returns {A} (c : outcome A) : Prop := exists a, c = Ret a.

Lemma returns_or_error a b : returns a -> returns b -> returns (or_error a b).
Proof. intros [x ->] [y ->]. unfold or_error. destruct x; cbn; by eexists. Qed.

Lemma returns_require b m : returns (require b m).
Proof. by eexists. Qed.

Lemma returns_role r : returns (Roles.validate r).
Proof. destruct (validate_spec r) as (e & He & _). by exists e. Qed.

Create HintDb validation.
Create Rewrite HintDb validation.
#[export] Hint Resolve returns_or_error returns_require returns_role : validation.
#[export] Hint Extern 1 (returns (Ret _)) => eexists; reflexivity : validation.
#[export] Hint Rewrite or_error_None require_None negb_true_iff String.eqb_neq : validation.

Lemma returns_stack l : returns (validate_stack l).
Proof.
  induction l as [|ri l IH]; cbn [validate_stack]; [by eexists|].
  unfold validate_reservation. auto 10 with validation.
Qed.

Lemma returns_refined l : forall a, returns (validate_refined a l).
Proof. induction l as [|ri l IH]; intros a; cbn [validate_refined]; [by eexists|]. auto with validation. Qed.

Lemma returns_single r ri : returns (validate_single r ri).
Proof.
  unfold validate_single. apply returns_or_error; [auto with validation|].
  destruct (reservation_type ri), (r_reservation r); auto 10 with validation.
Qed.

#[export] Hint Resolve returns_stack returns_refined returns_single : validation.

Lemma validate_returns r : returns (validate r).
Proof.
  assert (Hres : returns (match r_reservations r with [] => validate_pre r | _ :: _ => validate_post r end)).
  { destruct (r_reservations r) as [|a l] eqn:E.
    - unfold validate_pre. destruct (r_reservation r); auto 10 with validation.
    - unfold validate_post. rewrite E. cbn [length Nat.ltb Nat.leb CHECK obind].
      destruct l; cbn [length Nat.ltb Nat.leb CHECK obind]; auto 10 with validation. }
  unfold validate, validate_value, validate_disk, validate_shared.
  destruct (r_shared r); auto 10 with validation.
Qed.

(** *** What validation guarantees *)

Definition refines (a b : ReservationInfo) : Prop :=
  isStrictSubroleOf (reservation_role b) (reservation_role a) = true /\ reservation_type b <> STATIC.

Definition valid_stack (l : list ReservationInfo) : Prop :=
  Forall (fun ri => is_Some (ri_type ri) /\ is_Some (ri_role ri) /\
            Roles.validate (reservation_role ri) = Ret None /\ reservation_role ri <> "*") l /\
  StronglySorted refines l.

Definition valid_value (r : Resource) : Prop :=
  match r_type r with
  | SCALAR => is_Some (r_scalar r) /\ r_ranges r = None /\ r_set r = None /\
              dltb (value (scalar r)) (S754_zero false) = false
  | RANGES => r_scalar r = None /\ is_Some (r_ranges r) /\ r_set r = None /\
              Forall (fun x => start x <= end_ x) (ranges r)
  | SET => r_scalar r = None /\ r_ranges r = None /\ is_Some (r_set r) /\ NoDup (set r)
  | TEXT => False
  end.

Lemma subrole_trans a b c : isStrictSubroleOf a b = true -> isStrictSubroleOf b c = true ->
  isStrictSubroleOf a c = true.
Proof.
  rewrite !isStrictSubroleOf_iff. intros (t & ->) (u & ->).
  exists (u +:+ String slash t). by rewrite append_assoc, append_cons.
Qed.

Lemma refined_sorted l : forall a, validate_refined (reservation_role a) l = Ret None ->
  StronglySorted refines (a :: l).
Proof.
  induction l as [|b l IH]; intros a; cbn [validate_refined]; [repeat constructor|].
  rewrite !or_error_None, !require_None, negb_true_iff, bool_decide_eq_false.
  intros (Ht & Hs & H). specialize (IH b H).
  constructor; [done|]. constructor; [done|].
  apply StronglySorted_inv in IH as [_ Hb]. eapply Forall_impl; [exact Hb|].
  intros c [Hc Hct]. split; [|done]. by eapply subrole_trans.
Qed.

Lemma sorted_refined l : forall a, StronglySorted refines (a :: l) ->
  validate_refined (reservation_role a) l = Ret None.
Proof.
  induction l as [|b l IH]; intros a Hs; cbn [validate_refined]; [done|].
  apply StronglySorted_inv in Hs as [Hs Ha]. apply Forall_cons in Ha as [[H1 H2] _].
  rewrite !or_error_None, !require_None, negb_true_iff, bool_decide_eq_false.
  split_and!; [done..|]. by apply IH.
Qed.

Lemma has_Some {A} (o : option A) : has o = true <-> is_Some o.
Proof. destruct o; cbn; split; (done || by intros [? ?]). Qed.
Lemma has_None {A} (o : option A) : has o = false <-> o = None.
Proof. by destruct o. Qed.

Lemma validate_stack_iff l : validate_stack l = Ret None <->
  Forall (fun ri => is_Some (ri_type ri) /\ is_Some (ri_role ri) /\
            Roles.validate (reservation_role ri) = Ret None /\ reservation_role ri <> "*") l.
Proof.
  induction l as [|ri l IH]; cbn [validate_stack]; [by split|].
  unfold validate_reservation. autorewrite with validation.
  rewrite Forall_cons, IH, !has_Some. tauto.
Qed.

Lemma validate_ranges_ordered l : validate_ranges l = None -> Forall (fun x => start x <= end_ x) l.
Proof.
  induction l as [|x l IH]; cbn [validate_ranges]; [by constructor|].
  destruct (start x >? end_ x) eqn:E; [done|]. destruct (existsb _ l); [done|].
  intros H. constructor; [lia|auto].
Qed.

Lemma validate_items_NoDup l : validate_items l = None <-> NoDup l.
Proof.
  induction l as [|x l IH]; cbn [validate_items]; [by split; [constructor|]|].
  rewrite NoDup_cons. destruct (existsb (String.eqb x) l) eqn:E.
  - split; [done|]. intros [Hx _]. exfalso. apply Hx.
    apply existsb_elem in E as (y & Hy & ->%String.eqb_eq). done.
  - rewrite IH. split; [|tauto]. intros ?. split; [|done]. intros Hx.
    rewrite <- not_true_iff_false in E. apply E, existsb_elem. exists x. by rewrite String.eqb_refl.
Qed.

Lemma validate_value_valid r : validate_value r = Ret None -> valid_value r.
Proof.
  unfold validate_value, valid_value. intros [= H]. destruct (r_type r); [..|done].
  - destruct (r_scalar r) eqn:E1, (r_ranges r), (r_set r); try done. cbn in H.
    by destruct (dltb _ _).
  - destruct (r_scalar r), (r_ranges r) eqn:E1, (r_set r); try done. cbn in H.
    split_and!; try done. by apply validate_ranges_ordered.
  - destruct (r_scalar r), (r_ranges r), (r_set r) eqn:E1; try done. cbn in H.
    split_and!; try done. by apply validate_items_NoDup.
Qed.

Lemma validate_parts r : validate r = Ret None <->
  r_name r <> "" /\ validate_value r = Ret None /\ validate_disk r = Ret None /\
  (match r_reservations r with [] => validate_pre r | _ :: _ => validate_post r end) = Ret None /\
  validate_shared r = Ret None.
Proof. unfold validate. autorewrite with validation. tauto. Qed.

Lemma validate_post_stack r : r_reservations r <> [] -> validate_post r = Ret None ->
  valid_stack (r_reservations r).
Proof.
  unfold validate_post, valid_stack. destruct (r_reservations r) as [|a l]; [done|]. intros _.
  cbn [length Nat.ltb Nat.leb CHECK obind]. rewrite or_error_None, validate_stack_iff.
  intros [Hs H]. apply or_error_None in H as [H _]. split; [done|]. by apply refined_sorted.
Qed.

(** *** Conversion *)

(** Only the stack of reservations is used. *)
Definition post_format (r : Resource) : Prop := r_role r = None /\ r_reservation r = None.

Lemma to_post_post r r' : to_post r = Ret r' -> post_format r'.
Proof.
  unfold to_post. destruct (r_reservations r) as [|a l] eqn:E; [|by intros [= <-]].
  destruct (String.eqb_spec (role r) "*") as [Er|Er].
  - destruct (r_reservation r) as [p|] eqn:Ep; cbn; [done|]. intros [= <-]. done.
  - by intros [= <-].
Qed.

Lemma to_post_id r : post_format r -> to_post r = Ret r.
Proof.
  intros [H1 H2]. unfold to_post, role, with_role, with_reservation.
  destruct r as [? ? ? ? ? ? ro ? rs rss ? ? ?]; cbn in *. subst. by destruct rss.
Qed.

(** Conversion touches the reservations only. *)
Lemma to_post_rest r r' : to_post r = Ret r' ->
  r_name r' = r_name r /\ r_type r' = r_type r /\ r_scalar r' = r_scalar r /\
  r_ranges r' = r_ranges r /\ r_set r' = r_set r /\ r_disk r' = r_disk r /\ r_shared r' = r_shared r.
Proof.
  unfold to_post. destruct (r_reservations r) as [|a l]; [|by intros [= <-]].
  destruct (String.eqb (role r) "*"); [|by intros [= <-]].
  destruct (r_reservation r); cbn; [done|]. by intros [= <-].
Qed.

Lemma validate_frame r r' : r_name r' = r_name r -> r_type r' = r_type r ->
  r_scalar r' = r_scalar r -> r_ranges r' = r_ranges r -> r_set r' = r_set r ->
  r_disk r' = r_disk r -> r_shared r' = r_shared r ->
  validate_value r' = validate_value r /\ validate_disk r' = validate_disk r /\
  validate_shared r' = validate_shared r.
Proof.
  intros H1 H2 H3 H4 H5 H6 H7.
  unfold validate_value, validate_disk, validate_shared, scalar, ranges, set.
  by rewrite H1, H2, H3, H4, H5, H6, H7.
Qed.

Lemma validate_single_post r a : post_format r -> reservation_type a <> UNKNOWN_RESERVATION ->
  validate_single r a = Ret None.
Proof.
  intros [Hr Hs] Ha. unfold validate_single. rewrite Hr, Hs. cbn. by destruct (reservation_type a).
Qed.

Lemma single_type r a : validate_single r a = Ret None -> reservation_type a <> UNKNOWN_RESERVATION.
Proof.
  unfold validate_single. intros [_ H]%or_error_None E. by rewrite E in H.
Qed.

Lemma to_post_reservations r r' : to_post r = Ret r' ->
  (match r_reservations r with [] => validate_pre r | _ :: _ => validate_post r end) = Ret None ->
  (match r_reservations r' with [] => validate_pre r' | _ :: _ => validate_post r' end) = Ret None.
Proof.
  intros Hc. pose proof (to_post_post _ _ Hc) as Hpost. revert Hc. unfold to_post.
  destruct (r_reservations r) as [|a l] eqn:E.
  - unfold validate_pre. rewrite or_error_None. intros Hc [Hrole Hres].
    destruct (String.eqb_spec (role r) "*") as [Er|Er].
    + destruct (r_reservation r); cbn in Hc; [done|]. injection Hc as <-.
      change (r_reservations (with_role r None)) with (r_reservations r). rewrite E.
      unfold validate_pre, role in *. destruct Hpost as [-> ->]. done.
    + injection Hc as <-. cbn [r_reservations with_role with_reservation with_reservations].
      unfold validate_post. cbn [r_reservations with_role with_reservation with_reservations].
      cbn [length Nat.ltb Nat.leb CHECK obind validate_stack validate_refined].
      unfold validate_reservation. autorewrite with validation. rewrite validate_single_post.
      * destruct (r_reservation r); cbn; split_and!; done.
      * done.
      * destruct (r_reservation r); done.
  - intros [= <-]. unfold validate_post. cbn [r_reservations with_role with_reservation]. rewrite E.
    cbn [length Nat.ltb Nat.leb CHECK obind]. autorewrite with validation.
    intros (H1 & H2 & H3). split_and!; [done..|]. destruct l as [|b l]; [|done].
    apply validate_single_post; [done|]. by eapply single_type.
Qed.

Lemma to_post_valid r r' : to_post r = Ret r' -> validate r = Ret None -> validate r' = Ret None.
Proof.
  intros Hc. rewrite !validate_parts. intros (H1 & H2 & H3 & H4 & H5).
  destruct (to_post_rest _ _ Hc) as (E1 & E2 & E3 & E4 & E5 & E6 & E7).
  destruct (validate_frame r r') as (-> & -> & ->); [done..|]. rewrite E1.
  split_and!; try done. by eapply to_post_reservations.
Qed.

Lemma to_post_returns r : validate r = Ret None -> returns (to_post r).
Proof.
  rewrite validate_parts. intros (_ & _ & _ & H & _). unfold to_post.
  destruct (r_reservations r); [|by eexists].
  destruct (String.eqb_spec (role r) "*") as [Er|]; [|by eexists].
  unfold validate_pre in H. apply or_error_None in H as [_ H].
  destruct (r_reservation r); [|by eexists]. autorewrite with validation in H. tauto.
Qed.

(** ** Properties *)

(** C32: [Resources::validate] always returns, and a resource it accepts is
    well formed: a non-empty name; exactly the value field of its type, with a
    scalar that is not negative, ranges that are not inverted or items without
    duplicates; a stack of valid, non-star roles in which every role is a
    strict subrole of every earlier one and only the first reservation may be
    static; and it is shared only if it is a persistent volume. *)
Theorem validate_sound r :
  (exists error, validate r = Ret error) /\
  (validate r = Ret None ->
     r_name r <> "" /\ valid_value r /\ valid_stack (r_reservations r) /\
     (r_shared r = true -> r_name r = "disk" /\ exists d, r_disk r = Some d /\ is_Some (d_persistence d))).
Proof.
  split; [apply validate_returns|]. rewrite validate_parts. intros (H1 & H2 & _ & H4 & H5).
  split_and!; [done|by apply validate_value_valid| |].
  - destruct (r_reservations r) as [|a l] eqn:E; [by split; constructor|].
    rewrite <- E. apply validate_post_stack; [by rewrite E|done].
  - intros Hs. unfold validate_shared in H5. rewrite Hs in H5.
    rewrite or_error_None, !require_None in H5. destruct H5 as [->%String.eqb_eq Hp].
    split; [done|]. destruct (r_disk r) as [d|]; [|done]. exists d. by rewrite <- has_Some.
Qed.

(** On a validated resource the conversion to the post-reservation-refinement
    format returns (its assertion holds), leaves [role] and [reservation]
    unset, keeps the resource valid, and does nothing the second time. *)
Theorem convert_to_post r : validate r = Ret None ->
  exists r', convertResourceFormat r POST_RESERVATION_REFINEMENT = Ret r' /\
    post_format r' /\ validate r' = Ret None /\
    convertResourceFormat r' POST_RESERVATION_REFINEMENT = Ret r'.
Proof.
  intros H. destruct (to_post_returns r H) as [r' Hr']. exists r'. cbn [convertResourceFormat].
  pose proof (to_post_post _ _ Hr') as Hp. split_and!; eauto using to_post_valid, to_post_id.
Qed.

(** A dynamically reserved scalar in the old format. *)
Definition old_format : Resource :=
  mkResource None "cpus" SCALAR (Some (Scalar_of_Z 4)) None None (Some "eng/web") None
    (Some (mkReservation None None (Some "alice") None)) [] None false false.

Lemma convert_to_post_witness :
  exists r', convertResourceFormat old_format POST_RESERVATION_REFINEMENT = Ret r' /\
    post_format r' /\ validate r' = Ret None /\
    convertResourceFormat r' POST_RESERVATION_REFINEMENT = Ret r'.
Proof. apply (convert_to_post old_format). vm_compute. reflexivity. Defined.

(** Converting a resource with at most one reservation to the old format
    and back is the identity, provided a static reservation carries no
    principal or labels (the old format has no place for them). *)
Theorem convert_roundtrip_formats r : post_format r ->
  (forall ri, r_reservations r = [ri] ->
     (reservation_type ri = STATIC /\ ri_principal ri = None /\ ri_labels ri = None \/
      reservation_type ri = DYNAMIC) /\ is_Some (ri_role ri) /\ reservation_role ri <> "*") ->
  (length (r_reservations r) <= 1)%nat ->
  obind (convertResourceFormat r PRE_RESERVATION_REFINEMENT)
    (fun r' => convertResourceFormat r' POST_RESERVATION_REFINEMENT) = Ret r.
Proof.
  intros [Hr Hs] Hri Hlen. cbn [convertResourceFormat]. unfold to_pre, to_post, role.
  destruct r as [pid nm ty sc rg st ro al rs rss dk rv sh]; cbn in *. subst ro rs. cbn [has negb CHECK obind].
  destruct rss as [|ri [|rj l]]; [done| |cbn in Hlen; lia].
  destruct (Hri ri eq_refl) as (Ht & [role Hrole] & Hstar). unfold reservation_role in *.
  destruct ri as [t ro p lb]; cbn in *. subst ro. cbn in Hstar |- *.
  unfold reservation_type in *. cbn in Ht |- *.
  assert (Hb : bool_decide (PRE_RESERVATION_REFINEMENT = PRE_RESERVATION_REFINEMENT) = true) by done.
  rewrite Hb. clear Hb. apply String.eqb_neq in Hstar.
  destruct Ht as [(Ht & -> & ->)|Ht]; destruct t as [[]|]; try done; cbn in Ht |- *.
  - rewrite (bool_decide_false (STATIC = DYNAMIC)) by done. cbn. by rewrite Hstar.
  - rewrite (bool_decide_true (DYNAMIC = DYNAMIC)) by done. cbn. rewrite Hstar. by destruct p, lb.
Qed.

Lemma convert_roundtrip_formats_witness :
  let r := mkResource None "cpus" SCALAR (Some (Scalar_of_Z 4)) None None None None None
             [mkReservation (Some DYNAMIC) (Some "eng/web") (Some "alice") None] None false false in
  obind (convertResourceFormat r PRE_RESERVATION_REFINEMENT)
    (fun r' => convertResourceFormat r' POST_RESERVATION_REFINEMENT) = Ret r.
Proof.
  cbv zeta. apply (convert_roundtrip_formats (mkResource None "cpus" SCALAR _ None None None None None
             [mkReservation (Some DYNAMIC) (Some "eng/web") (Some "alice") None] None false false)).
  - done.
  - intros ri [= <-]. split; [by right|]. by eauto.
  - cbn. lia.
Defined.

(** The overlap test of [validate] misses a range that starts before an
    earlier one and covers it: such a resource is accepted although its ranges
    overlap. *)
Theorem validate_misses_overlap :
  exists r a b, validate r = Ret None /\ r_ranges r = Some [a; b] /\
    exists x, start a <= x <= end_ a /\ start b <= x <= end_ b.
Proof.
  exists (mkResource None "ports" RANGES None (Some [mkRange 5 10; mkRange 1 20]) None None None None
            [] None false false), (mkRange 5 10), (mkRange 1 20).
  split_and!; [vm_compute; reflexivity|done|]. exists 7. cbn. lia.
Qed.

(** Validating a list that contains a text resource aborts the process
    instead of returning an error, because the message prints the resource and
    printing a text value is a fatal error. *)
Theorem validate_text_aborts {P : Platform} r rest : r_type r = TEXT ->
  exists why, validate_all (r :: rest) = Fatal why.
Proof.
  intros Ht. cbn [validate_all]. destruct (validate_returns r) as [[e|] He]; rewrite He; cbn [obind].
  - unfold Resource_print. rewrite Ht. by eexists.
  - apply validate_parts in He as (_ & H & _). unfold validate_value in H. by rewrite Ht in H.
Qed.

Lemma validate_text_aborts_witness :
  exists why, validate_all (P := RefPlatform.platform)
    [mkResource None "label" TEXT None None None None None None [] None false false] = Fatal why.
Proof. apply (validate_text_aborts (P := RefPlatform.platform)). reflexivity. Defined.
