(* ===== verification/Resources.v ===== *)
(** * [Resources], the container (source/resources.cpp, 1048-1526, 1709-2130, 2282-2318)

    A vector of [Resource_]: a resource and, if it is shared, the number of its
    copies.  Assertions on the resource format abort, so most operations run
    in the [outcome] monad. *)
From stdpp Require Import pretty.
From S2P Require Import Prelude Binary64 Scalar Ranges Sets StoutStrings Values Roles Platform.
From S2P Require Import Resource ResourceFormat.
From Stdlib Require Import SpecFloat.

(** [Resources::Resource_]; [sharedCount] is a C++ [int], kept without its width: it counts the copies of
    one shared resource in a container. *)
Record Resource_ := mkResource_ { resource : Resource; sharedCount : option Z }.

Definition Resource_of (r : Resource) : Resource_ :=
  mkResource_ r (if r_shared r then Some 1 else None).

Abbreviation Resources := (list Resource_) (only parsing).

(** ** Predicates on one resource *)

(** The two assertions every predicate starts with. *)
Definition CHECK_post (r : Resource) : outcome unit :=
  CHECK (negb (has (r_role r))) "!resource.has_role()" ;;!
  CHECK (negb (has (r_reservation r))) "!resource.has_reservation()".

Definition isEmpty (r : Resource) : outcome bool :=
  CHECK_post r ;;!
  Ret match r_type r with
      | SCALAR => Scalar_eq (scalar r) (Scalar_of_Z 0)
      | RANGES => (length (ranges r) =? 0)%nat
      | SET => (length (set r) =? 0)%nat
      | TEXT => false
      end.

Definition isPersistentVolume (r : Resource) : outcome bool :=
  CHECK_post r ;;!
  Ret match r_disk r with Some d => has (d_persistence d) | None => false end.

Definition isUnreserved (r : Resource) : outcome bool :=
  CHECK_post r ;;! Ret (length (r_reservations r) =? 0)%nat.

(** [resource.reservations().rbegin()->role()] *)
Definition reservationRole (r : Resource) : outcome string :=
  CHECK (0 <? length (r_reservations r))%nat "resource.reservations_size() > 0" ;;!
  Ret match last (r_reservations r) with
      | Some ri => reservation_role ri
      | None => ""
      end.

Definition isReserved (r : Resource) (role : option string) : outcome bool :=
  CHECK_post r ;;!
  let! u := isUnreserved r in
  if u then Ret false
  else match role with
       | None => Ret true
       | Some role => let! rr := reservationRole r in Ret (String.eqb role rr)
       end.

Definition isAllocatableTo (role : string) (r : Resource) : outcome bool :=
  CHECK_post r ;;!
  let! u := isUnreserved r in
  if u then Ret true
  else
    let! rr := reservationRole r in
    if String.eqb role rr then Ret true else Ret (isStrictSubroleOf role rr).

Definition isDynamicallyReserved (r : Resource) : outcome bool :=
  CHECK_post r ;;!
  let! res := isReserved r None in
  Ret (res && match last (r_reservations r) with
              | Some ri => bool_decide (reservation_type ri = DYNAMIC)
              | None => false
              end).

Definition isRevocable (r : Resource) : outcome bool := CHECK_post r ;;! Ret (r_revocable r).
Definition isSharedResource (r : Resource) : outcome bool := CHECK_post r ;;! Ret (r_shared r).
Definition hasRefinedReservations (r : Resource) : outcome bool :=
  CHECK_post r ;;! Ret (1 <? length (r_reservations r))%nat.

(** ** [Resource_] *)

Definition isShared (x : Resource_) : bool := has (sharedCount x).

Definition validate_ (x : Resource_) : outcome (option string) :=
  match sharedCount x with
  | Some n => if n <? 0 then Ret (Some "Invalid shared resource: count < 0") else validate (resource x)
  | None => validate (resource x)
  end.

Definition isEmpty_ (x : Resource_) : outcome bool :=
  match sharedCount x with
  | Some n => if n =? 0 then Ret true else isEmpty (resource x)
  | None => isEmpty (resource x)
  end.

Definition contains_ (x that : Resource_) : bool :=
  match sharedCount x, sharedCount that with
  | Some n, Some m => (m <=? n) && Resource_eq (resource x) (resource that)
  | None, None => Resource.contains (resource x) (resource that)
  | _, _ => false
  end.

Definition eq_ (x that : Resource_) : bool :=
  match sharedCount x, sharedCount that with
  | Some n, Some m => (n =? m) && Resource_eq (resource x) (resource that)
  | None, None => Resource_eq (resource x) (resource that)
  | _, _ => false
  end.

(** [operator+=]; the resources are addable. *)
Definition add_ (x that : Resource_) : outcome Resource_ :=
  match sharedCount x with
  | None => Ret (mkResource_ (Resource_add_assign (resource x) (resource that)) None)
  | Some n =>
      match sharedCount that with
      | Some m => Ret (mkResource_ (resource x) (Some (n + m)))
      | None => Fatal "CHECK_SOME(that.sharedCount)"
      end
  end.

Section WithPlatform.
  Context {P : Platform}.

(** [operator-=]; the resources are subtractable. *)
Definition sub_ (x that : Resource_) : outcome Resource_ :=
  match sharedCount x with
  | None => Ret (mkResource_ (Resource_sub_assign (resource x) (resource that)) None)
  | Some n =>
      match sharedCount that with
      | Some m => Ret (mkResource_ (resource x) (Some (n - m)))
      | None => Fatal "CHECK_SOME(that.sharedCount)"
      end
  end.

(** ** Adding and subtracting *)

Fixpoint add_loop (resources : Resources) (that : Resource_) : outcome Resources :=
  match resources with
  | [] => Ret [that]
  | x :: rest =>
      if addable (resource x) (resource that) then let! x' := add_ x that in Ret (x' :: rest)
      else let! rest' := add_loop rest that in Ret (x :: rest')
  end.

(** [add] *)
Definition add (resources : Resources) (that : Resource_) : outcome Resources :=
  let! empty := isEmpty_ that in
  if empty then Ret resources else add_loop resources that.

(** A scalar or a count below zero: more was subtracted than there was. *)
Definition negative (x : Resource_) : bool :=
  match sharedCount x with Some n => n <? 0 | None => false end ||
  (bool_decide (r_type (resource x) = SCALAR) &&
   dltb (value (scalar (resource x))) (S754_zero false)).

(** [resources[i] = resources.back(); resources.pop_back();] *)
Definition swap_remove (i : nat) (resources : Resources) : Resources :=
  match last resources with
  | Some back => take (length resources - 1) (<[i := back]> resources)
  | None => resources
  end.

(** The index of the first resource that [that] can be subtracted from. *)
Fixpoint find_subtractable (resources : Resources) (that : Resource_) : option (nat * Resource_) :=
  match resources with
  | [] => None
  | x :: rest =>
      if subtractable (resource x) (resource that) then Some (O, x)
      else match find_subtractable rest that with
           | Some (i, y) => Some (S i, y)
           | None => None
           end
  end.

(** [subtract] *)
Definition subtract (resources : Resources) (that : Resource_) : outcome Resources :=
  let! empty := isEmpty_ that in
  if empty then Ret resources
  else
    match find_subtractable resources that with
    | None => Ret resources
    | Some (i, x) =>
        let! x' := sub_ x that in
        let! drop := if negative x' then Ret true else isEmpty_ x' in
        Ret (if drop then swap_remove i resources else <[i := x']> resources)
    end.

(** [operator+=] and [operator-=], on a [Resource_], a [Resource] (by
    conversion) and a [Resources]; [operator+] and [operator-] copy first. *)
Definition plus_one (resources : Resources) (that : Resource_) : outcome Resources :=
  let! error := validate_ that in
  match error with None => add resources that | Some _ => Ret resources end.
Definition plus_resource (resources : Resources) (that : Resource) : outcome Resources :=
  plus_one resources (Resource_of that).
Definition plus (resources that : Resources) : outcome Resources := ofold add that resources.

Definition minus_one (resources : Resources) (that : Resource_) : outcome Resources :=
  let! error := validate_ that in
  match error with None => subtract resources that | Some _ => Ret resources end.
Definition minus_resource (resources : Resources) (that : Resource) : outcome Resources :=
  minus_one resources (Resource_of that).
Definition minus (resources that : Resources) : outcome Resources := ofold subtract that resources.

(** The constructors from one and from several [Resource]s. *)
Definition of_resource (r : Resource) : outcome Resources := plus_resource [] r.
Definition of_resources (l : list Resource) : outcome Resources := ofold plus_resource l [].

(** ** Containment *)

(** [_contains] *)
Definition _contains (resources : Resources) (that : Resource_) : bool :=
  existsb (fun x => contains_ x that) resources.

Fixpoint contains_loop (remaining that : Resources) : outcome bool :=
  match that with
  | [] => Ret true
  | x :: rest =>
      if negb (_contains remaining x) then Ret false
      else
        let! persistent := isPersistentVolume (resource x) in
        let! remaining := if persistent then subtract remaining x else Ret remaining in
        contains_loop remaining rest
  end.

(** [contains(Resources)], [contains(Resource)] and [operator==] *)
Definition contains (resources that : Resources) : outcome bool := contains_loop resources that.

Definition contains_resource (resources : Resources) (that : Resource) : outcome bool :=
  let! error := validate that in
  match error with
  | None => Ret (_contains resources (Resource_of that))
  | Some _ => Ret false
  end.

Definition Resources_eq (left right : Resources) : outcome bool :=
  let! c := contains left right in
  if c then contains right left else Ret false.

(** [count] *)
Fixpoint count (resources : Resources) (that : Resource) : Z :=
  match resources with
  | [] => 0
  | x :: rest => if Resource_eq (resource x) that then default 1 (sharedCount x) else count rest that
  end.

(** ** Transformations *)

Definition map_resource (f : Resource -> Resource) (x : Resource_) : Resource_ :=
  mkResource_ (f (resource x)) (sharedCount x).

Definition allocate (resources : Resources) (role : string) : Resources :=
  map (map_resource (fun r => with_allocation r (Some (Some role)))) resources.
Definition unallocate (resources : Resources) : Resources :=
  map (map_resource (fun r => if has (r_allocation_info r) then with_allocation r None else r)) resources.

Definition filter_resources (predicate : Resource -> outcome bool) (resources : Resources) :
    outcome Resources :=
  ofold (fun result x =>
    let! keep := predicate (resource x) in
    if keep then add result x else Ret result) resources [].

Definition reserved (resources : Resources) (role : option string) : outcome Resources :=
  filter_resources (fun r => isReserved r role) resources.
Definition allocatableTo (resources : Resources) (role : string) : outcome Resources :=
  filter_resources (isAllocatableTo role) resources.
Definition unreserved (resources : Resources) : outcome Resources :=
  filter_resources isUnreserved resources.
Definition persistentVolumes (resources : Resources) : outcome Resources :=
  filter_resources isPersistentVolume resources.
Definition onot (p : Resource -> outcome bool) (r : Resource) : outcome bool :=
  let! b := p r in Ret (negb b).
Definition revocable (resources : Resources) : outcome Resources := filter_resources isRevocable resources.
Definition nonRevocable (resources : Resources) : outcome Resources :=
  filter_resources (onot isRevocable) resources.
Definition shared (resources : Resources) : outcome Resources := filter_resources isSharedResource resources.
Definition nonShared (resources : Resources) : outcome Resources :=
  filter_resources (onot isSharedResource) resources.

(** [result[key].add(resource_)] on a hash map of [Resources] *)
Definition add_at (result : gmap string Resources) (key : string) (x : Resource_) :
    outcome (gmap string Resources) :=
  let! l := add (default [] (result !! key)) x in Ret (<[key := l]> result).

Definition reservations (resources : Resources) : outcome (gmap string Resources) :=
  ofold (fun result x =>
    let! r := isReserved (resource x) None in
    if r then let! role := reservationRole (resource x) in add_at result role x
    else Ret result) resources ∅.

Definition allocations (resources : Resources) : outcome (gmap string Resources) :=
  ofold (fun result x =>
    match r_allocation_info (resource x) with
    | None => Fatal "has_allocation_info()"
    | Some None => Fatal "allocation_info().has_role()"
    | Some (Some role) => add_at result role x
    end) resources ∅.

Definition pushReservation (resources : Resources) (reservation : ReservationInfo) : outcome Resources :=
  ofold (fun result x =>
    let x := map_resource (fun r => with_reservations r (r_reservations r ++ [reservation])) x in
    let! error := validate (resource x) in
    CHECK (negb (has error)) "CHECK_NONE(Resources::validate(resource_.resource))" ;;!
    add result x) resources [].

(** [mutable_reservations()->RemoveLast()] *)
Definition pop_last (r : Resource) : Resource := with_reservations r (removelast (r_reservations r)).

Definition popReservation (resources : Resources) : outcome Resources :=
  ofold (fun result x =>
    CHECK (0 <? length (r_reservations (resource x)))%nat "reservations_size() > 0" ;;!
    add result (map_resource pop_last x)) resources [].

Definition clear_reservations (r : Resource) : Resource := with_reservations r [].

Definition toUnreserved (resources : Resources) : outcome Resources :=
  ofold (fun result x => add result (map_resource clear_reservations x)) resources [].

Definition createStrippedScalarQuantity (resources : Resources) : outcome Resources :=
  ofold (fun stripped x =>
    match r_type (resource x) with
    | SCALAR =>
        let s := with_allocation (with_provider_id (resource x) None) None in
        let! res := isReserved s None in
        let! s := if res then
                    let! role := reservationRole s in
                    Ret (with_reservations s [mkReservation (Some STATIC) (Some role) None None])
                  else Ret s in
        add stripped (Resource_of (with_shared (with_disk s None) false))
    | _ => Ret stripped
    end) resources [].

(** ** Quantities *)

(** [get<T>(name)]: the sum over the resources of that name and type. *)
Definition get_sum {A} (type : ValueType) (field : Resource -> A) (plus : A -> A -> A) (zero : A)
    (resources : Resources) (name : string) : option A :=
  fold_left (fun total x =>
    if String.eqb (r_name (resource x)) name && bool_decide (r_type (resource x) = type) then
      Some (plus (default zero total) (field (resource x)))
    else total) resources None.

Definition get_scalar := get_sum SCALAR scalar Scalar_add_assign Scalar_default.
Definition get_set := get_sum SET set Set_add_assign [].
Definition get_ranges := get_sum RANGES ranges Ranges_add_assign [].

Definition get (resources : Resources) (name : string) : outcome Resources :=
  filter_resources (fun r => Ret (String.eqb (r_name r) name)) resources.
Definition scalars (resources : Resources) : outcome Resources :=
  filter_resources (fun r => Ret (bool_decide (r_type r = SCALAR))) resources.

Definition names (resources : Resources) : gset string :=
  fold_left (fun result x => {[ r_name (resource x) ]} ∪ result) resources ∅.
Definition types (resources : Resources) : gmap string ValueType :=
  fold_left (fun result x => <[ r_name (resource x) := r_type (resource x) ]> result) resources ∅.

(** [static_cast<uint64_t>(d)]: truncation, for values in range. *)
Definition to_uint64 (d : double) : Z :=
  match d with
  | S754_finite s m e =>
      let a := if e <? 0 then Z.pos m / 2 ^ (- e) else Z.pos m * 2 ^ e in
      u64 (if s then - a else a)
  | _ => 0
  end.

(** [Megabytes(n)], in bytes *)
Definition Megabytes (n : Z) : Z := u64 (n * 2 ^ 20).

Definition cpus (resources : Resources) : option double := value <$> get_scalar resources "cpus".
Definition gpus (resources : Resources) : option double := value <$> get_scalar resources "gpus".
Definition mem (resources : Resources) : option Z :=
  (fun v => Megabytes (to_uint64 (value v))) <$> get_scalar resources "mem".
Definition disk (resources : Resources) : option Z :=
  (fun v => Megabytes (to_uint64 (value v))) <$> get_scalar resources "disk".
Definition ports (resources : Resources) : option (list Range) := get_ranges resources "ports".
Definition ephemeral_ports (resources : Resources) : option (list Range) :=
  get_ranges resources "ephemeral_ports".

(** ** Printing *)

Definition print_ (x : Resource_) : outcome string :=
  let! s := Resource_print (resource x) in
  Ret (match sharedCount x with Some n => s +:+ "<" +:+ pretty n +:+ ">" | None => s end).

Definition Resources_print (resources : Resources) : outcome string :=
  match resources with
  | [] => Ret "{}"
  | _ => let! l := omapM print_ resources in Ret (join "; " l)
  end.

End WithPlatform.
