(* ===== verification/Conservation.v ===== *)
(** * What a [Resources] container holds

    The invariant of the container, the quantities it holds (thousandths of
    each scalar, the set of numbers of each ranges resource), and the effect of
    [add] and [subtract] on them. *)
From S2P Require Import Prelude Binary64 Scalar Ranges Sets StoutStrings Values Roles Platform.
From S2P Require Import Resource ResourceFormat Resources.
From Stdlib Require Import SpecFloat.

(** ** Values *)

(** A value that the operators treat exactly: scalars below [2^51]
    thousandths, ranges below [UINT64_MAX], sets without duplicates. *)
Definition value_ok (r : Resource) : Prop :=
  match r_type r with
  | SCALAR => 0 <= fixed (scalar r) < 2 ^ 51
  | RANGES => Forall valid_range (ranges r)
  | SET => NoDup (set r)
  | TEXT => False
  end.

Definition is_zero (r : Resource) : Prop :=
  match r_type r with
  | SCALAR => fixed (scalar r) = 0
  | RANGES => ranges r = []
  | SET => set r = []
  | TEXT => False
  end.

(** What the comparison of values compares. *)
Definition value_key (r : Resource) : Z + list Range + list string :=
  match r_type r with
  | SCALAR => inl (inl (fixed (scalar r)))
  | RANGES => inl (inr (coalesced (ranges r)))
  | SET => inr (set r)
  | TEXT => inr []
  end.

Lemma Ranges_eq_coalesced l r : Forall valid_range l -> Forall valid_range r ->
  Ranges_eq l r = true <-> coalesced l = coalesced r.
Proof.
  intros Hl Hr. destruct (coalesced_spec l Hl) as [Cl _], (coalesced_spec r Hr) as [Cr _].
  unfold Ranges_eq. rewrite !coalesce_coalesced. cbn [concat app]. rewrite !app_nil_r. cbv zeta.
  by rewrite (Ranges_eq_lists_bool _ _ Cl Cr).
Qed.

Lemma value_eqb_iff l r : value_ok l -> value_ok r -> r_type l = r_type r ->
  value_eqb l r = true <-> value_key l = value_key r.
Proof.
  unfold value_ok, value_eqb, value_key. intros Hl Hr Ht. rewrite <- Ht in *.
  destruct (r_type l); [..|done].
  - rewrite Scalar_eq_fixed. split; [by intros ->|by intros [= ?]].
  - rewrite Ranges_eq_coalesced by done. split; [by intros ->|by intros [= ?]].
  - rewrite Set_eq_positional. split; [by intros ->|by intros [= ?]].
Qed.

(** ** Keys

    A resource can be subtracted from another exactly if their keys agree;
    for a shared or exclusive resource the key includes the value. *)
Definition skey (r : Resource) :=
  (identity r, r_shared r, if r_shared r || exclusive r then Some (value_key r) else None).

(** Equal resources are merged into one entry unless they are exclusive. *)
Definition mergeable (r : Resource) : bool := r_shared r || negb (exclusive r).

Lemma identity_exclusive l r : identity l = identity r -> exclusive l = exclusive r.
Proof.
  unfold identity, exclusive. intros [= _ _ _ _ Hd _ _].
  destruct (r_disk l) as [dl|], (r_disk r) as [dr|]; try done. cbn in Hd. injection Hd as Hs Hp.
  unfold is_mount.
  destruct (d_source dl) as [sl|], (d_source dr) as [sr|]; try done; cbn in Hs;
    destruct (d_persistence dl), (d_persistence dr); try done.
  - injection Hs as -> _ _. by rewrite !orb_true_r.
  - injection Hs as -> _ _. done.
Qed.

Lemma identity_type l r : identity l = identity r -> r_type l = r_type r /\ r_name l = r_name r.
Proof. unfold identity. by intros [= -> ->]. Qed.

Lemma Resource_eq_iff l r : regular l -> regular r -> value_ok l -> value_ok r ->
  Resource_eq l r = true <-> identity l = identity r /\ r_shared l = r_shared r /\ value_key l = value_key r.
Proof.
  intros Rl Rr Vl Vr. rewrite Resource_eq_parts, !andb_true_iff, identity_eqb_iff, eqb_true_iff by done.
  split.
  - intros [[Hi Hs] Hv]. split_and!; [done..|]. apply value_eqb_iff; try done. by apply identity_type.
  - intros (Hi & Hs & Hv). split; [done|]. apply value_eqb_iff; try done. by apply identity_type.
Qed.

Lemma subtractable_iff l r : regular l -> regular r -> value_ok l -> value_ok r ->
  subtractable l r = true <-> skey l = skey r.
Proof.
  intros Rl Rr Vl Vr. unfold skey.
  destruct (Bool.bool_dec (r_shared l) (r_shared r)) as [Hs|Hs].
  2: { destruct (mixed_addable l r Hs) as [_ ->]. rewrite !pair_equal_spec. split; [done|]. by intros [[_ ?] _]. }
  destruct (r_shared l) eqn:El.
  - rewrite shared_subtractable by done. rewrite <- Hs. cbn [andb orb].
    rewrite Resource_eq_iff by done. rewrite El, <- Hs, !pair_equal_spec.
    split; [by intros (-> & _ & ->)|]. intros [[? _] [= ?]]. done.
  - rewrite subtractable_parts, andb_true_iff, identity_eqb_iff, orb_true_iff, negb_true_iff by done.
    rewrite <- Hs, !pair_equal_spec. cbn [orb]. split.
    + intros [Hi Hv]. rewrite <- (identity_exclusive _ _ Hi), Hi. split; [done|]. destruct (exclusive l); [|done].
      destruct Hv as [?|Hv]; [done|]. f_equal.
      apply value_eqb_iff; try done. by apply identity_type.
    + intros [[Hi _] Hv]. split; [done|]. rewrite <- (identity_exclusive _ _ Hi) in Hv.
      destruct (exclusive l); [right|by left]. injection Hv as Hv.
      apply value_eqb_iff; try done. by apply identity_type.
Qed.

Lemma addable_iff l r : regular l -> regular r -> value_ok l -> value_ok r ->
  addable l r = true <-> skey l = skey r /\ mergeable l = true.
Proof.
  intros Rl Rr Vl Vr. rewrite <- (subtractable_iff l r) by done. unfold mergeable.
  destruct (Bool.bool_dec (r_shared l) (r_shared r)) as [Hs|Hs].
  2: { destruct (mixed_addable l r Hs) as [-> ->]. split; [done|by intros [? _]]. }
  destruct (r_shared l) eqn:El.
  - rewrite shared_addable, shared_subtractable by done. split; [done|by intros [? _]].
  - rewrite addable_parts, subtractable_parts by done. cbn [orb].
    rewrite !andb_true_iff, orb_true_iff. tauto.
Qed.

Lemma skey_mergeable l r : skey l = skey r -> mergeable l = mergeable r.
Proof.
  unfold skey, mergeable. rewrite !pair_equal_spec. intros [[Hi Hs] _]. by rewrite Hs, (identity_exclusive _ _ Hi).
Qed.

(** ** Entries *)

Record entry_ok (x : Resource_) : Prop := {
  e_post : post_format (resource x);
  e_regular : regular (resource x);
  e_value : value_ok (resource x);
  e_nonzero : ~ is_zero (resource x);
  e_shared : has (sharedCount x) = r_shared (resource x);
  e_count : forall n, sharedCount x = Some n -> 0 < n;
}.

(** What may be added or subtracted: an entry, but possibly a zero one. *)
Record operand_ok (x : Resource_) : Prop := {
  o_post : post_format (resource x);
  o_regular : regular (resource x);
  o_value : value_ok (resource x);
  o_shared : has (sharedCount x) = r_shared (resource x);
  o_count : forall n, sharedCount x = Some n -> 0 < n;
}.

Lemma entry_operand x : entry_ok x -> operand_ok x.
Proof. intros []. by split. Qed.

Lemma operand_entry x : operand_ok x -> ~ is_zero (resource x) -> entry_ok x.
Proof. intros [] ?. by split. Qed.

Definition is_zero_b (r : Resource) : bool :=
  match r_type r with
  | SCALAR => fixed (scalar r) =? 0
  | RANGES => (length (ranges r) =? 0)%nat
  | SET => (length (set r) =? 0)%nat
  | TEXT => false
  end.

Lemma is_zero_b_iff r : is_zero_b r = true <-> is_zero r.
Proof.
  unfold is_zero_b, is_zero. destruct (r_type r); [apply Z.eqb_eq| | |done].
  - rewrite Nat.eqb_eq. apply length_zero_iff_nil.
  - rewrite Nat.eqb_eq. apply length_zero_iff_nil.
Qed.

Lemma CHECK_post_ok r : post_format r -> CHECK_post r = Ret tt.
Proof. intros [H1 H2]. unfold CHECK_post. by rewrite H1, H2. Qed.

Lemma isEmpty_zero r : post_format r -> isEmpty r = Ret (is_zero_b r).
Proof.
  intros H. unfold isEmpty. rewrite CHECK_post_ok by done. cbn [obind].
  unfold is_zero_b. by destruct (r_type r).
Qed.

Lemma isEmpty_operand x : operand_ok x -> isEmpty_ x = Ret (is_zero_b (resource x)).
Proof.
  intros [H1 _ _ _ H5]. unfold isEmpty_. destruct (sharedCount x) as [n|]; [|by apply isEmpty_zero].
  specialize (H5 n eq_refl). destruct (Z.eqb_spec n 0); [lia|]. by apply isEmpty_zero.
Qed.

(** ** Containers *)

(** The keys of the entries that new resources can be merged into. *)
Definition merge_keys (rs : list Resource_) :=
  map (fun x => skey (resource x)) (List.filter (fun x => mergeable (resource x)) rs).

(** Thousandths of the scalar resource [name]. *)
Definition amount (name : string) (r : Resource) : Z :=
  if String.eqb (r_name r) name && bool_decide (r_type r = SCALAR) then fixed (scalar r) else 0.
Fixpoint total (name : string) (rs : list Resource_) : Z :=
  match rs with
  | [] => 0
  | x :: rs' => amount name (resource x) + total name rs'
  end.

(** The numbers of the ranges resource [name]. *)
Definition member (name : string) (r : Resource) (p : Z) : Prop :=
  r_name r = name /\ r_type r = RANGES /\ covers (ranges r) p.
Definition holds (name : string) (rs : list Resource_) (p : Z) : Prop :=
  exists x, x ∈ rs /\ member name (resource x) p.

Record container_ok (rs : list Resource_) : Prop := {
  c_entries : Forall entry_ok rs;
  c_keys : NoDup (merge_keys rs);
  c_total : forall name, total name rs < 2 ^ 51;
}.

Lemma total_app name l1 l2 : total name (l1 ++ l2) = total name l1 + total name l2.
Proof. induction l1 as [|x l1 IH]; cbn [app total]; lia. Qed.

#[export] Instance total_perm name : Proper ((≡ₚ) ==> eq) (total name).
Proof. intros l1 l2 H. induction H; cbn [total]; lia. Qed.

Lemma filter_perm {A} (f : A -> bool) l1 l2 : l1 ≡ₚ l2 -> List.filter f l1 ≡ₚ List.filter f l2.
Proof.
  induction 1 as [|x l1 l2 _ IH|x y l|l1 l2 l3 _ IH1 _ IH2]; cbn [List.filter].
  - done.
  - destruct (f x); by rewrite ?IH.
  - destruct (f x), (f y); try done. by constructor.
  - by rewrite IH1.
Qed.

#[export] Instance merge_keys_perm : Proper ((≡ₚ) ==> (≡ₚ)) merge_keys.
Proof. intros l1 l2 H. unfold merge_keys. by apply Permutation_map, filter_perm. Qed.

#[export] Instance holds_perm name : Proper ((≡ₚ) ==> eq ==> iff) (holds name).
Proof. intros l1 l2 H p ? <-. unfold holds. by setoid_rewrite H. Qed.

#[export] Instance container_ok_perm : Proper ((≡ₚ) ==> iff) container_ok.
Proof.
  assert (Hone : forall l1 l2, l1 ≡ₚ l2 -> container_ok l1 -> container_ok l2).
  { intros l1 l2 H [H1 H2 H3]. split; [by rewrite <- H|by rewrite <- H|].
    intros name. by rewrite <- H. }
  intros l1 l2 H. split; apply Hone; [done|by symmetry].
Qed.

Lemma holds_cons name x rs p : holds name (x :: rs) p <-> member name (resource x) p \/ holds name rs p.
Proof.
  unfold holds. setoid_rewrite elem_of_cons. split.
  - intros (y & [->|Hy] & Hm); eauto.
  - intros [Hm|(y & Hy & Hm)]; eauto.
Qed.

Lemma amount_nonneg name r : value_ok r -> 0 <= amount name r.
Proof.
  unfold amount, value_ok. destruct (String.eqb _ _), (bool_decide_reflect (r_type r = SCALAR)) as [E|]; cbn; try lia.
  rewrite E. lia.
Qed.

Lemma total_nonneg name rs : Forall entry_ok rs -> 0 <= total name rs.
Proof.
  induction 1 as [|x rs Hx _ IH]; cbn [total]; [lia|].
  pose proof (amount_nonneg name _ (e_value _ Hx)). lia.
Qed.

(** Two entries with one key are the same entry. *)
Lemma merge_keys_app l1 l2 : merge_keys (l1 ++ l2) = merge_keys l1 ++ merge_keys l2.
Proof. unfold merge_keys. by rewrite List.filter_app, map_app. Qed.

Lemma merge_keys_cons x rs : merge_keys (x :: rs) =
  if mergeable (resource x) then skey (resource x) :: merge_keys rs else merge_keys rs.
Proof. unfold merge_keys. cbn. by destruct (mergeable (resource x)). Qed.

Lemma merge_keys_elem rs y : y ∈ rs -> mergeable (resource y) = true -> skey (resource y) ∈ merge_keys rs.
Proof.
  intros Hy Hm. unfold merge_keys. apply list_elem_of_fmap. exists y. split; [done|].
  apply list_elem_of_In, List.filter_In. split; [by apply list_elem_of_In|done].
Qed.

Lemma merge_keys_inv rs k : k ∈ merge_keys rs ->
  exists y, y ∈ rs /\ mergeable (resource y) = true /\ skey (resource y) = k.
Proof.
  unfold merge_keys. intros (y & -> & Hy)%list_elem_of_fmap.
  apply list_elem_of_In, List.filter_In in Hy as [Hy Hm]. exists y. by rewrite list_elem_of_In.
Qed.

(** ** The effect of [add] *)

Lemma add_loop_cases rs that :
  (forall x, x ∈ rs -> addable (resource x) (resource that) = false) /\ add_loop rs that = Ret (rs ++ [that]) \/
  exists l1 x l2, rs = l1 ++ x :: l2 /\ addable (resource x) (resource that) = true /\
    add_loop rs that = obind (add_ x that) (fun x' => Ret (l1 ++ x' :: l2)).
Proof.
  induction rs as [|x rs IH]; cbn [add_loop].
  { left. split; [by intros x ?%not_elem_of_nil|done]. }
  destruct (addable (resource x) (resource that)) eqn:E.
  { right. exists [], x, rs. done. }
  destruct IH as [[Hno ->]|(l1 & y & l2 & -> & Hy & ->)].
  - left. split; [|done]. intros y [->|Hy]%elem_of_cons; auto.
  - right. exists (x :: l1), y, l2. split_and!; [done..|]. by destruct (add_ y that).
Qed.

Lemma operand_of_entry_value x y : skey (resource x) = skey (resource y) ->
  r_shared (resource x) = r_shared (resource y) /\ r_type (resource x) = r_type (resource y) /\
  r_name (resource x) = r_name (resource y).
Proof.
  unfold skey. rewrite !pair_equal_spec. intros [[Hi Hs] _]. split; [done|].
  by apply identity_type.
Qed.

(** Adding changes the value only. *)
Lemma add_assign_frame l r :
  let l' := Resource_add_assign l r in
  identity l' = identity l /\ r_shared l' = r_shared l /\ exclusive l' = exclusive l /\
  (post_format l -> post_format l') /\ (regular l -> regular l').
Proof. unfold Resource_add_assign. destruct (r_type l) eqn:E; cbn; rewrite ?E; done. Qed.

Lemma amount_scalar name r : r_type r = SCALAR ->
  amount name r = if String.eqb (r_name r) name then fixed (scalar r) else 0.
Proof.
  intros H. unfold amount. rewrite H, bool_decide_true by done. by rewrite andb_true_r.
Qed.

Lemma amount_other name r : r_type r <> SCALAR -> amount name r = 0.
Proof. intros H. unfold amount. by rewrite bool_decide_false, andb_false_r by done. Qed.

Lemma add_assign_value l r : value_ok l -> value_ok r -> r_type l = r_type r -> r_name l = r_name r ->
  (forall name, amount name l + amount name r < 2 ^ 51) ->
  let l' := Resource_add_assign l r in
  value_ok l' /\ (~ is_zero l -> ~ is_zero l') /\
  (forall name, amount name l' = amount name l + amount name r) /\
  (forall name p, member name l' p <-> member name l p \/ member name r p).
Proof.
  intros Hl Hr Ht Hn Hb. unfold Resource_add_assign, value_ok, is_zero, member in *.
  rewrite <- Ht in Hr. destruct (r_type l) eqn:E; [..|done]; cbn [r_type r_name set_scalar set_ranges set_set]; rewrite E.
  - specialize (Hb (r_name l)). rewrite !amount_scalar, <- Hn, String.eqb_refl in Hb by congruence.
    assert (Hs : fixed (Scalar_add_assign (scalar l) (scalar r)) = fixed (scalar l) + fixed (scalar r))
      by (apply fixed_add; lia).
    change (scalar (set_scalar l ?v)) with v. rewrite Hs. split_and!; [lia|lia|lia| |].
    + intros name. rewrite !amount_scalar by (cbn; congruence). cbn [r_name set_scalar]. rewrite <- Hn.
      destruct (String.eqb _ _); [|lia]. exact Hs.
    + intros name p. rewrite <- Ht. split; [by intros (_ & ? & _)|]. by intros [(_ & ? & _)|(_ & ? & _)].
  - destruct (Ranges_add_spec (ranges l) (ranges r) Hl Hr) as [Hc Hm].
    assert (Ha : Ranges_add_assign (ranges l) (ranges r) = Ranges_add (ranges l) (ranges r)).
    { unfold Ranges_add_assign, Ranges_add. by rewrite !coalesce_coalesced. }
    change (ranges (set_ranges l ?v)) with v. rewrite Ha. split_and!.
    + apply Hc.
    + intros Hne Hnil. destruct (ranges l) as [|a t] eqn:El; [done|].
      apply Forall_cons in Hl as [Hva _]. destruct (proj2 (Hm (start a))) as (q & Hq & _).
      * left. exists a. unfold valid_range in Hva. split; [by left|lia].
      * rewrite Hnil in Hq. by apply not_elem_of_nil in Hq.
    + intros name. rewrite !amount_other by (cbn; congruence). lia.
    + intros name p. rewrite Hm, <- Ht, <- Hn. tauto.
  - destruct (Set_add_assign_spec (set r) (set l)) as [Hnd Hel].
    change (set (set_set l ?v)) with v. split_and!; [auto| | |].
    + intros Hne Hnil. destruct (set l) as [|a t] eqn:El; [done|].
      assert (Ha : a ∈ Set_add_assign (a :: t) (set r)) by (apply Hel; left; by left).
      rewrite Hnil in Ha. by apply not_elem_of_nil in Ha.
    + intros name. rewrite !amount_other by (cbn; congruence). lia.
    + intros name p. rewrite <- Ht. split; [by intros (_ & ? & _)|]. by intros [(_ & ? & _)|(_ & ? & _)].
Qed.

Lemma add_merged x that : entry_ok x -> operand_ok that ->
  addable (resource x) (resource that) = true ->
  (forall name, amount name (resource x) + amount name (resource that) < 2 ^ 51) ->
  exists x', add_ x that = Ret x' /\ entry_ok x' /\
    skey (resource x') = skey (resource x) /\ mergeable (resource x') = true /\
    (r_shared (resource that) = false ->
       (forall name, amount name (resource x') = amount name (resource x) + amount name (resource that)) /\
       (forall name p, member name (resource x') p <->
          member name (resource x) p \/ member name (resource that) p)) /\
    (r_shared (resource that) = true -> resource x' = resource x).
Proof.
  intros [X1 X2 X3 X4 X5 X6] [T1 T2 T3 T4 T5] Ha Hb.
  apply addable_iff in Ha as [Hk Hm]; [|done..].
  destruct (operand_of_entry_value _ _ Hk) as (Hsh & Hty & Hnm).
  unfold add_. destruct (sharedCount x) as [n|] eqn:En.
  - destruct (sharedCount that) as [m|] eqn:Em; [|cbn in *; congruence].
    eexists. split; [reflexivity|]. cbn [resource]. split_and!; try done; [|cbn in *; congruence].
    split; cbn; try done. intros k [= <-]. specialize (X6 n eq_refl). specialize (T5 m eq_refl). lia.
  - cbn in X5. destruct (add_assign_frame (resource x) (resource that)) as (F1 & F2 & F3 & F4 & F5).
    destruct (add_assign_value (resource x) (resource that)) as (V1 & V2 & V3 & V4); [done..|].
    eexists. split; [reflexivity|]. cbn [resource]. split_and!; try done.
    + split; cbn; auto. by rewrite F2.
    + unfold skey, mergeable in *. rewrite F1, F2, F3, <- X5 in *. cbn [orb] in *.
      apply negb_true_iff in Hm. by rewrite Hm.
    + unfold mergeable in *. by rewrite F2, F3.
    + congruence.
Qed.

(** [add] of an operand that is not shared. *)
Lemma add_spec rs that : container_ok rs -> operand_ok that ->
  (forall name, total name rs + amount name (resource that) < 2 ^ 51) ->
  exists rs', add rs that = Ret rs' /\ container_ok rs' /\
    (r_shared (resource that) = false ->
       (forall name, total name rs' = total name rs + amount name (resource that)) /\
       (forall name p, holds name rs' p <-> holds name rs p \/ member name (resource that) p)).
Proof.
  intros [Ce Ck Ct] Ho Hb. unfold add. rewrite isEmpty_operand by done. cbn [obind].
  destruct (is_zero_b (resource that)) eqn:Ez.
  - apply is_zero_b_iff in Ez. exists rs. split_and!; [done|by split|]. intros _. split.
    + intros name. unfold is_zero in Ez. destruct (r_type (resource that)) eqn:Et; [|..|done].
      * rewrite amount_scalar by done. destruct (String.eqb _ _); lia.
      * rewrite amount_other by congruence. lia.
      * rewrite amount_other by congruence. lia.
    + intros name p. split; [by left|]. intros [?|(_ & Ht & Hc)]; [done|].
      unfold is_zero in Ez. rewrite Ht in Ez. rewrite Ez in Hc. by apply covers_nil in Hc.
  - assert (Hnz : ~ is_zero (resource that)) by (rewrite <- is_zero_b_iff; congruence). clear Ez.
    destruct (add_loop_cases rs that) as [[Hno ->]|(l1 & x & l2 & -> & Hadd & ->)].
    + exists (rs ++ [that]). split; [done|]. split.
      * split.
        -- apply Forall_app. split; [done|]. constructor; [|done]. by apply operand_entry.
        -- rewrite merge_keys_app, merge_keys_cons. cbn.
           destruct (mergeable (resource that)) eqn:Em; [|by rewrite app_nil_r].
           apply NoDup_app. split_and!; [done| |apply NoDup_singleton].
           intros k Hk ->%list_elem_of_singleton. apply merge_keys_inv in Hk as (y & Hy & Hmy & Hky).
           rewrite Forall_forall in Ce. destruct (Ce y Hy), Ho.
           specialize (Hno y Hy). rewrite <- not_true_iff_false in Hno. apply Hno.
           by apply addable_iff.
        -- intros name. rewrite total_app. cbn [total]. specialize (Hb name). lia.
      * intros _. split; [intros name; rewrite total_app; cbn [total]; lia|].
        intros name p. rewrite <- Permutation_cons_append, holds_cons. tauto.
    + rewrite Forall_app, Forall_cons in Ce. destruct Ce as (Ce1 & Cx & Ce2).
      destruct (add_merged x that) as (x' & -> & Ex' & Kx' & Mx' & Hns & Hs); [done..| |].
      { intros name. specialize (Hb name). rewrite total_app in Hb. cbn [total] in Hb.
        pose proof (total_nonneg name _ Ce1). pose proof (total_nonneg name _ Ce2). lia. }
      cbn [obind]. eexists. split; [reflexivity|].
      assert (Mx : mergeable (resource x) = true) by (by rewrite <- (skey_mergeable _ _ Kx')).
      split.
      * split.
        -- apply Forall_app. split; [done|]. by constructor.
        -- rewrite merge_keys_app, merge_keys_cons in *. rewrite Mx', Mx, Kx' in *. done.
        -- intros name. specialize (Hb name). rewrite total_app in *. cbn [total] in *.
           destruct (r_shared (resource that)) eqn:Es.
           ++ rewrite Hs by done. pose proof (amount_nonneg name _ (o_value _ Ho)). lia.
           ++ rewrite (proj1 (Hns eq_refl)). lia.
      * intros Es. destruct (Hns Es) as [H1 H2]. split.
        -- intros name. rewrite !total_app. cbn [total]. rewrite H1. lia.
        -- intros name p. rewrite <- !Permutation_middle, !holds_cons, H2. tauto.
Qed.

(** ** The effect of [subtract] *)

(** The value test of [contains]. *)
Definition value_leb (r l : Resource) : bool :=
  match r_type l with
  | SCALAR => Scalar_le (scalar r) (scalar l)
  | RANGES => Ranges_le (ranges r) (ranges l)
  | SET => Set_le (set r) (set l)
  | TEXT => false
  end.

Lemma contains_parts l r :
  Resource.contains l r = true <-> subtractable l r = true /\ value_leb r l = true.
Proof.
  unfold Resource.contains, value_leb. destruct (subtractable l r); cbn [negb]; [tauto|].
  split; [done|by intros [? _]].
Qed.

Lemma Ranges_le_covers l r : Forall valid_range l -> Forall valid_range r ->
  Ranges_le l r = true <-> forall x, covers l x -> covers r x.
Proof.
  intros Hl Hr. destruct (coalesced_spec l Hl) as [Cl Sl], (coalesced_spec r Hr) as [Cr Sr].
  unfold Ranges_le. rewrite !coalesce_coalesced. cbn [concat app]. rewrite !app_nil_r. cbv zeta.
  setoid_rewrite <- Sl. setoid_rewrite <- Sr. by apply Ranges_le_lists.
Qed.

Lemma value_key_leb l r : value_ok l -> value_ok r -> r_type l = r_type r ->
  value_key l = value_key r -> value_leb r l = true.
Proof.
  unfold value_ok, value_key, value_leb. intros Hl Hr Ht. rewrite <- Ht in *.
  destruct (r_type l); [..|done]; intros [= E].
  - rewrite Scalar_le_fixed. lia.
  - rewrite Ranges_le_covers by done. intros x.
    destruct (coalesced_spec _ Hl) as [_ <-], (coalesced_spec _ Hr) as [_ <-]. by rewrite E.
  - rewrite Set_le_spec, E. done.
Qed.

Lemma member_contained name x that p : value_ok x -> value_ok that ->
  r_type x = r_type that -> r_name x = r_name that -> value_leb that x = true ->
  member name that p -> member name x p.
Proof.
  unfold member, value_ok, value_leb. intros Hx Ht Hty Hnm Hle (<- & Hr & Hc).
  rewrite Hr in Hty. rewrite Hty in *. rewrite Hr in Ht. split_and!; [done..|].
  rewrite Ranges_le_covers in Hle by done. by apply Hle.
Qed.

Section WithPlatform.
  Context {P : Platform} {PL : PlatformLaws P}.

Lemma sub_assign_frame l r :
  let l' := Resource_sub_assign l r in
  identity l' = identity l /\ r_shared l' = r_shared l /\ exclusive l' = exclusive l /\
  (post_format l -> post_format l') /\ (regular l -> regular l').
Proof. unfold Resource_sub_assign. destruct (r_type l) eqn:E; cbn; rewrite ?E; done. Qed.

Lemma sub_assign_value l r : value_ok l -> value_ok r -> r_type l = r_type r -> r_name l = r_name r ->
  value_leb r l = true ->
  let l' := Resource_sub_assign l r in
  value_ok l' /\
  (r_type l = SCALAR -> dltb (value (scalar l')) (S754_zero false) = false) /\
  (forall name, amount name l' = amount name l - amount name r) /\
  (forall name p, member name l' p <-> member name l p /\ ~ member name r p).
Proof.
  intros Hl Hr Ht Hn Hle. unfold Resource_sub_assign, value_ok, member, value_leb in *.
  rewrite <- Ht in Hr. destruct (r_type l) eqn:E; [..|done];
    cbn [r_type r_name set_scalar set_ranges set_set]; rewrite E.
  - apply Scalar_le_fixed in Hle. change (scalar (set_scalar l ?v)) with v.
    rewrite negative_sub, fixed_sub by lia. split_and!; [lia|lia|lia| |].
    + intros name. rewrite !amount_scalar by (cbn; congruence). cbn [r_name set_scalar]. rewrite <- Hn.
      destruct (String.eqb _ _); [|lia]. change (scalar (set_scalar l ?v)) with v. apply fixed_sub. lia.
    + intros name p. rewrite <- Ht. split; [by intros (_ & ? & _)|by intros [(_ & ? & _) _]].
  - destruct (Ranges_sub_assign_spec (IS := iset) (ranges l) (ranges r) Hl Hr) as [Hc Hm].
    change (ranges (set_ranges l ?v)) with v. split_and!; [apply Hc|done| |].
    + intros name. rewrite !amount_other by (cbn; congruence). lia.
    + intros name p. rewrite Hm, <- Ht, <- Hn. tauto.
  - change (set (set_set l ?v)) with v. split_and!; [|done| |].
    + rewrite Set_sub_assign_filter by done. by apply NoDup_filter.
    + intros name. rewrite !amount_other by (cbn; congruence). lia.
    + intros name p. rewrite <- Ht. split; [by intros (_ & ? & _)|by intros [(_ & ? & _) _]].
Qed.

Lemma find_subtractable_cases rs that :
  match find_subtractable rs that with
  | None => forall x, x ∈ rs -> subtractable (resource x) (resource that) = false
  | Some (i, x) => exists l1 l2, rs = l1 ++ x :: l2 /\ i = length l1 /\
      subtractable (resource x) (resource that) = true /\
      forall y, y ∈ l1 -> subtractable (resource y) (resource that) = false
  end.
Proof.
  induction rs as [|x rs IH]; cbn [find_subtractable]; [by intros x ?%not_elem_of_nil|].
  destruct (subtractable (resource x) (resource that)) eqn:E.
  { exists [], rs. split_and!; [done..|]. by intros y ?%not_elem_of_nil. }
  destruct (find_subtractable rs that) as [[i y]|].
  - destruct IH as (l1 & l2 & -> & -> & Hy & Hl1). exists (x :: l1), l2. split_and!; [done..|].
    intros z [->|Hz]%elem_of_cons; auto.
  - intros y [->|Hy]%elem_of_cons; auto.
Qed.

Lemma swap_remove_perm l1 x l2 : swap_remove (length l1) (l1 ++ x :: l2) ≡ₚ l1 ++ l2.
Proof.
  unfold swap_remove. destruct l2 as [|b l2 _] using rev_ind.
  - rewrite last_snoc, length_app. cbn [length]. replace (length l1 + 1 - 1)%nat with (length l1) by lia.
    rewrite take_insert_ge by lia. rewrite take_app_length, app_nil_r. done.
  - rewrite (app_comm_cons l2 [b] x), app_assoc, last_snoc, <- app_assoc.
    rewrite (insert_app_r_alt l1) by lia. rewrite Nat.sub_diag. cbn [app insert list_insert].
    rewrite (app_comm_cons l2 [b] b), app_assoc.
    rewrite take_app_length' by (rewrite !length_app; cbn [length]; rewrite ?length_app; cbn [length]; lia).
    by rewrite <- Permutation_cons_append.
Qed.

Lemma container_shrink l1 x l2 : container_ok (l1 ++ x :: l2) -> container_ok (l1 ++ l2).
Proof.
  rewrite <- Permutation_middle. intros [Ce Ck Ct]. apply Forall_cons in Ce as [Ex Ce].
  split; [done| |].
  - rewrite merge_keys_cons in Ck. destruct (mergeable _); [by apply NoDup_cons in Ck as [_ ?]|done].
  - intros name. specialize (Ct name). cbn [total] in Ct.
    pose proof (amount_nonneg name _ (e_value _ Ex)). lia.
Qed.

(** The entry that [contains] found and the one [subtract] takes from. *)
Lemma contained_entry rs that : container_ok rs -> operand_ok that ->
  r_shared (resource that) = false -> _contains rs that = true ->
  exists l1 x l2, rs = l1 ++ x :: l2 /\ find_subtractable rs that = Some (length l1, x) /\
    sharedCount x = None /\ skey (resource x) = skey (resource that) /\
    value_leb (resource that) (resource x) = true.
Proof.
  intros [Ce Ck _] [O1 O2 O3 O4 O5] Hns Hc. unfold _contains in Hc.
  apply existsb_elem in Hc as (y & Hy & Hc). unfold contains_ in Hc.
  destruct (sharedCount that) eqn:Et; [cbn in O4; congruence|].
  destruct (sharedCount y) eqn:Ey; [done|]. apply contains_parts in Hc as [Hsub Hle].
  pose proof (find_subtractable_cases rs that) as Hf. rewrite Forall_forall in Ce.
  pose proof (Ce y Hy) as [Y1 Y2 Y3 Y4 Y5 Y6].
  destruct (find_subtractable rs that) as [[i x]|]; [|rewrite Hf in Hsub; done].
  destruct Hf as (l1 & l2 & -> & -> & Hx & Hl1). exists l1, x, l2.
  assert (Ex : entry_ok x) by (apply Ce, elem_of_app; right; by left). destruct Ex as [X1 X2 X3 X4 X5 X6].
  apply subtractable_iff in Hx; [|done..]. pose proof Hsub as Hky. apply subtractable_iff in Hky; [|done..].
  destruct (operand_of_entry_value _ _ Hx) as (Hsh & Hty & Hnm).
  assert (Hcount : sharedCount x = None) by (apply has_None; congruence).
  split_and!; try done. destruct (exclusive (resource x)) eqn:Eex.
  - apply value_key_leb; try done. unfold skey in Hx. rewrite !pair_equal_spec in Hx.
    destruct Hx as [[Hi _] Hv]. rewrite <- (identity_exclusive _ _ Hi), Eex, !orb_true_r in Hv. congruence.
  - assert (Mx : mergeable (resource x) = true) by (unfold mergeable; by rewrite Eex, orb_true_r).
    apply elem_of_app in Hy as [Hy|[->|Hy]%elem_of_cons]; [by rewrite Hl1 in Hsub|done|].
    exfalso. rewrite merge_keys_app, merge_keys_cons, Mx in Ck.
    apply NoDup_app in Ck as (_ & _ & [Hnot _]%NoDup_cons). apply Hnot.
    rewrite Hx, <- Hky. apply merge_keys_elem; [done|].
    rewrite (skey_mergeable _ (resource x)); congruence.
Qed.

Lemma zero_amount name r : is_zero r -> amount name r = 0 /\ forall p, ~ member name r p.
Proof.
  unfold is_zero, member. intros Hz. split.
  - destruct (r_type r) eqn:E; [|by rewrite amount_other by congruence..].
    rewrite amount_scalar by done. destruct (String.eqb _ _); lia.
  - intros p (_ & Ht & Hc). rewrite Ht in Hz. rewrite Hz in Hc. by apply covers_nil in Hc.
Qed.

Lemma member_dec_ranges name r p : member name r p \/ ~ member name r p.
Proof.
  assert (Hcov : forall l : list Range, covers l p \/ ~ covers l p).
  { intros l. induction l as [|a l IH]; [right; apply covers_nil|]. rewrite covers_cons.
    destruct (decide (start a <= p <= end_ a)); [tauto|]. tauto. }
  unfold member. destruct (decide (r_name r = name)), (decide (r_type r = RANGES)), (Hcov (ranges r)); tauto.
Qed.

(** Replacing or dropping the entry that was subtracted from. *)
Lemma replace_entry l1 x l2 x' : container_ok (l1 ++ x :: l2) -> operand_ok x' ->
  mergeable (resource x') = mergeable (resource x) ->
  (mergeable (resource x) = true -> skey (resource x') = skey (resource x)) ->
  (forall name, amount name (resource x') <= amount name (resource x)) ->
  ~ is_zero (resource x') -> container_ok (l1 ++ x' :: l2).
Proof.
  rewrite <- !Permutation_middle. intros [Ce Ck Ct] Ho Hm Hk Ha Hz. apply Forall_cons in Ce as [Ex Ce].
  split.
  - constructor; [by apply operand_entry|done].
  - rewrite merge_keys_cons in *. rewrite Hm. destruct (mergeable (resource x)); [|done].
    by rewrite Hk.
  - intros name. specialize (Ct name). specialize (Ha name). cbn [total] in *. lia.
Qed.

Lemma subtracted_entry x that : entry_ok x -> operand_ok that -> sharedCount x = None ->
  skey (resource x) = skey (resource that) -> value_leb (resource that) (resource x) = true ->
  let x' := mkResource_ (Resource_sub_assign (resource x) (resource that)) None in
  operand_ok x' /\ negative x' = false /\
  mergeable (resource x') = mergeable (resource x) /\
  (mergeable (resource x) = true -> skey (resource x') = skey (resource x)) /\
  (forall name, amount name (resource x') = amount name (resource x) - amount name (resource that)) /\
  (forall name p, member name (resource x') p <->
     member name (resource x) p /\ ~ member name (resource that) p).
Proof.
  intros [X1 X2 X3 X4 X5 X6] [T1 T2 T3 T4 T5] Hn Hk Hle.
  destruct (operand_of_entry_value _ _ Hk) as (Hsh & Hty & Hnm).
  destruct (sub_assign_frame (resource x) (resource that)) as (F1 & F2 & F3 & F4 & F5).
  destruct (sub_assign_value (resource x) (resource that)) as (V1 & V2 & V3 & V4); [done..|].
  rewrite Hn in X5. cbn in X5. cbn [resource]. split_and!; try done.
  - split; cbn; [auto|auto|done|congruence|done].
  - unfold negative. cbn [sharedCount resource orb].
    assert (Ht' : r_type (Resource_sub_assign (resource x) (resource that)) = r_type (resource x))
      by (by apply identity_type in F1 as [? _]).
    rewrite Ht'. case_bool_decide as E; [|done]. cbn. by apply V2.
  - unfold mergeable. by rewrite F2, F3.
  - unfold mergeable, skey. rewrite F1, F2, F3, <- X5. cbn [orb]. rewrite negb_true_iff. by intros ->.
Qed.

(** [subtract] of a contained operand that is not shared. *)
Lemma subtract_spec rs that : container_ok rs -> operand_ok that ->
  r_shared (resource that) = false -> _contains rs that = true ->
  exists rs', subtract rs that = Ret rs' /\ container_ok rs' /\
    (forall name, total name rs' = total name rs - amount name (resource that)) /\
    (forall name p, holds name rs p <-> holds name rs' p \/ member name (resource that) p).
Proof.
  intros Hrs Ho Hns Hc. unfold subtract. rewrite isEmpty_operand by done. cbn [obind].
  destruct (is_zero_b (resource that)) eqn:Ez.
  { apply is_zero_b_iff in Ez. exists rs. split_and!; [done..| |].
    - intros name. destruct (zero_amount name _ Ez) as [-> _]. lia.
    - intros name p. destruct (zero_amount name _ Ez) as [_ Hz]. split; [by left|].
      intros [?|?%Hz]; done. }
  destruct (contained_entry rs that Hrs Ho Hns Hc) as (l1 & x & l2 & -> & Hf & Hn & Hk & Hle).
  assert (Ex : entry_ok x) by (destruct Hrs as [Ce _ _]; by apply Forall_app in Ce as [_ [? _]%Forall_cons]).
  destruct (subtracted_entry x that Ex Ho Hn Hk Hle) as (Ox & Neg & Mx & Kx & Ax & Px).
  rewrite Hf. unfold sub_. rewrite Hn. cbn [obind]. rewrite Neg, isEmpty_operand by done. cbn [obind].
  set (x' := mkResource_ _ _) in *.
  assert (Hle' : forall name, amount name (resource x') <= amount name (resource x)).
  { intros name. rewrite Ax. pose proof (amount_nonneg name _ (o_value _ Ho)). lia. }
  assert (Hp : forall name p, member name (resource x) p <->
            member name (resource x') p \/ member name (resource that) p).
  { intros name p. rewrite Px. destruct (member_dec_ranges name (resource that) p) as [Ht|Ht]; [|tauto].
    split; [tauto|]. intros _. destruct (operand_of_entry_value _ _ Hk) as (_ & Hty & Hnm).
    exact (member_contained name _ _ p (e_value _ Ex) (o_value _ Ho) Hty Hnm Hle Ht). }
  destruct (is_zero_b (resource x')) eqn:Ez'; eexists; (split; [reflexivity|]).
  - apply is_zero_b_iff in Ez'. split; [|split].
    + rewrite swap_remove_perm. by eapply container_shrink.
    + intros name. rewrite swap_remove_perm, <- Permutation_middle. cbn [total].
      specialize (Ax name). destruct (zero_amount name _ Ez') as [Hz _]. lia.
    + intros name p. rewrite swap_remove_perm, <- Permutation_middle, holds_cons, Hp.
      destruct (zero_amount name _ Ez') as [_ Hz]. specialize (Hz p). tauto.
  - rewrite insert_app_r_alt, Nat.sub_diag by lia. cbn [insert list_insert]. split; [|split].
    + eapply replace_entry; try done. rewrite <- is_zero_b_iff. congruence.
    + intros name. rewrite !total_app. cbn [total]. specialize (Ax name). lia.
    + intros name p. rewrite <- !Permutation_middle, !holds_cons, Hp. tauto.
Qed.

End WithPlatform.
