(* ===== verification/Exact.v ===== *)
(** * Exact quantities of a [Resources] container

    [Conservation] counts by name.  Here the quantities of a container are taken
    apart further: by the whole identity of an entry (name, type, allocation,
    reservations, disk, ...), and for ranges and sets number by number and item by
    item, with how many entries hold each.  [add] and [subtract] change exactly
    what they should. *)
From S2P Require Import Prelude Binary64 Scalar Ranges Sets StoutStrings Values Roles Platform.
From S2P Require Import Resource ResourceFormat Resources Conservation.

(** ** Pieces *)

(** A number of a ranges resource, or an item of a set resource. *)
Inductive Piece := Number (p : Z) | Item (w : string).

Definition carries (r : Resource) (u : Piece) : bool :=
  match u, r_type r with
  | Number p, RANGES => existsb (fun a => (start a <=? p) && (p <=? end_ a)) (ranges r)
  | Item w, SET => existsb (String.eqb w) (set r)
  | _, _ => false
  end.

Lemma existsb_covers l p : existsb (fun a => (start a <=? p) && (p <=? end_ a)) l = true <-> covers l p.
Proof.
  rewrite existsb_exists. unfold covers. setoid_rewrite list_elem_of_In. split; intros (a & Ha & H); exists a; (split; [done|]).
  - apply andb_true_iff in H. lia.
  - apply andb_true_iff. lia.
Qed.

Lemma existsb_item l w : existsb (String.eqb w) l = true <-> w ∈ l.
Proof.
  rewrite existsb_exists, list_elem_of_In. split; [by intros (v & ? & ->%String.eqb_eq)|]. intros H. exists w.
  by rewrite String.eqb_refl.
Qed.

Lemma carries_number r p : carries r (Number p) = true <-> r_type r = RANGES /\ covers (ranges r) p.
Proof.
  unfold carries. destruct (r_type r); try (split; [done|by intros [? _]]). rewrite existsb_covers. naive_solver.
Qed.

Lemma carries_item r w : carries r (Item w) = true <-> r_type r = SET /\ w ∈ set r.
Proof.
  unfold carries. destruct (r_type r); try (split; [done|by intros [? _]]). rewrite existsb_item. naive_solver.
Qed.

(** Every number or item of [r] is one of [l]. *)
Lemma carries_contained l r u : value_ok l -> value_ok r -> r_type l = r_type r -> value_leb r l = true ->
  carries r u = true -> carries l u = true.
Proof.
  unfold value_ok, value_leb. intros Hl Hr Ht Hle. destruct u as [p|w].
  - rewrite !carries_number. intros [E Hp]. rewrite E in Ht. rewrite Ht, ?E in *. rewrite Ranges_le_covers in Hle by done. split; [done|by apply Hle].
  - rewrite !carries_item. intros [E Hw]. rewrite E in Ht. rewrite Ht, ?E in *. rewrite Set_le_spec in Hle. split; [done|by apply Hle].
Qed.

Lemma carries_add l r u : value_ok l -> value_ok r -> r_type l = r_type r ->
  carries (Resource_add_assign l r) u = carries l u || carries r u.
Proof.
  intros Hl Hr Ht. unfold value_ok in *. rewrite <- Ht in Hr. apply eq_true_iff_eq. rewrite orb_true_iff.
  unfold Resource_add_assign. destruct u as [p|w]; rewrite ?carries_number, ?carries_item; rewrite <- Ht;
    destruct (r_type l) eqn:E; rewrite ?carries_number, ?carries_item; cbn [r_type set_scalar set_ranges set_set]; rewrite ?E;
    try (split; [by intros [? _]|by intros [[? _]|[? _]]]).
  - change (ranges (set_ranges l ?v)) with v. destruct (Ranges_add_spec (ranges l) (ranges r) Hl Hr) as [_ Hm].
    unfold Ranges_add_assign. unfold Ranges_add in Hm. rewrite !coalesce_coalesced in *. rewrite Hm. naive_solver.
  - change (set (set_set l ?v)) with v. destruct (Set_add_assign_spec (set r) (set l)) as [_ Hel]. rewrite Hel. naive_solver.
Qed.

(** ** Sums over the entries *)

Fixpoint measure (f : Resource -> Z) (rs : list Resource_) : Z :=
  match rs with [] => 0 | x :: rs' => f (resource x) + measure f rs' end.

Lemma measure_app f l1 l2 : measure f (l1 ++ l2) = measure f l1 + measure f l2.
Proof. induction l1 as [|x l1 IH]; cbn [app measure]; lia. Qed.

#[export] Instance measure_perm f : Proper ((≡ₚ) ==> eq) (measure f).
Proof. intros l1 l2 H. induction H; cbn [measure]; lia. Qed.

(** Thousandths of a scalar, whatever its name. *)
Definition thousandths (r : Resource) : Z := if bool_decide (r_type r = SCALAR) then fixed (scalar r) else 0.

Lemma thousandths_amount r : thousandths r = amount (r_name r) r.
Proof. unfold thousandths, amount. by rewrite String.eqb_refl. Qed.

(** The resources a question is about: those whose identity satisfies a test. *)
Definition about (b : _ -> bool) (r : Resource) : bool := b (identity r).

(** Their thousandths, and how many of their entries hold a piece. *)
Definition amount_of b (r : Resource) : Z := if about b r then thousandths r else 0.
Definition piece_of b (u : Piece) (r : Resource) : Z := if about b r && carries r u then 1 else 0.

Lemma about_eq b l r : identity l = identity r -> about b l = about b r.
Proof. unfold about. by intros ->. Qed.

(** The entry that [that] is merged into, if any, holds the piece already. *)
Definition merged_holds (rs : list Resource_) (that : Resource_) (u : Piece) : bool :=
  existsb (fun x => addable (resource x) (resource that) && carries (resource x) u) rs.

(** ** [add] *)

Lemma add_shape rs that rs' : container_ok rs -> operand_ok that -> r_shared (resource that) = false ->
  add rs that = Ret rs' ->
  (is_zero (resource that) /\ rs' = rs) \/
  ((forall x, x ∈ rs -> addable (resource x) (resource that) = false) /\ rs' = rs ++ [that]) \/
  exists l1 x l2, rs = l1 ++ x :: l2 /\ addable (resource x) (resource that) = true /\
    rs' = l1 ++ mkResource_ (Resource_add_assign (resource x) (resource that)) None :: l2.
Proof.
  intros [Ce _ _] Ho Hs. unfold add. rewrite isEmpty_operand by done. cbn [obind].
  destruct (is_zero_b (resource that)) eqn:Ez.
  { intros [= <-]. left. split; [by apply is_zero_b_iff|done]. }
  destruct (add_loop_cases rs that) as [[Hno ->]|(l1 & x & l2 & -> & Ha & ->)]; [intros [= <-]; by right; left|].
  apply Forall_app in Ce as [_ [Ex _]%Forall_cons].
  assert (sharedCount x = None) as Hn.
  { pose proof Ha as [Hk _]%addable_iff; try apply Ex; try apply Ho.
    destruct (operand_of_entry_value _ _ Hk) as (Hsh & _). apply has_None. rewrite (e_shared _ Ex). congruence. }
  unfold add_. rewrite Hn. cbn [obind]. intros [= <-]. right; right. by exists l1, x, l2.
Qed.

Lemma zero_carries r u : is_zero r -> carries r u = false.
Proof.
  intros Hz. apply not_true_iff_false. unfold is_zero in Hz. destruct u as [p|w].
  - rewrite carries_number. intros [E Hp]. rewrite E in Hz. rewrite Hz in Hp. by apply covers_nil in Hp.
  - rewrite carries_item. intros [E Hw]. rewrite E in Hz. rewrite Hz in Hw. by apply not_elem_of_nil in Hw.
Qed.

(** Only one entry can take in [that]. *)
Lemma merged_here l1 x l2 that u : container_ok (l1 ++ x :: l2) -> operand_ok that ->
  addable (resource x) (resource that) = true -> merged_holds (l1 ++ x :: l2) that u = carries (resource x) u.
Proof.
  intros [Ce Ck _] Ho Ha. unfold merged_holds. apply eq_true_iff_eq. rewrite existsb_exists. split.
  - intros (y & Hy%list_elem_of_In & [Hay Hc]%andb_true_iff). rewrite Forall_forall in Ce.
    assert (Ex : entry_ok x) by (apply Ce, elem_of_app; right; by left). pose proof (Ce y Hy) as Ey.
    apply addable_iff in Ha as [Hk Hm]; try apply Ex; try apply Ho.
    apply addable_iff in Hay as [Hky Hmy]; try apply Ey; try apply Ho.
    rewrite <- Permutation_middle in Hy, Ck. apply elem_of_cons in Hy as [->|Hy]; [done|].
    rewrite merge_keys_cons, Hm in Ck. apply NoDup_cons in Ck as [Hn _]. destruct Hn.
    rewrite Hk, <- Hky. by apply merge_keys_elem.
  - intros Hc. exists x. rewrite Ha, Hc. split; [|done]. apply in_app_iff. right. by left.
Qed.

Lemma add_exact rs that rs' b : container_ok rs -> operand_ok that -> r_shared (resource that) = false ->
  (forall name, total name rs + amount name (resource that) < 2 ^ 51) -> add rs that = Ret rs' ->
  measure (amount_of b) rs' = measure (amount_of b) rs + amount_of b (resource that) /\
  forall u, measure (piece_of b u) rs' = measure (piece_of b u) rs +
    if merged_holds rs that u then 0 else piece_of b u (resource that).
Proof.
  intros Hc Ho Hs Hb E. destruct (add_shape rs that rs' Hc Ho Hs E) as [[Hz ->]|[[Hno ->]|(l1 & x & l2 & -> & Ha & ->)]].
  - split.
    + unfold amount_of. rewrite thousandths_amount. destruct (zero_amount (r_name (resource that)) _ Hz) as [-> _].
      destruct (about _ _); lia.
    + intros u. unfold piece_of at 3. rewrite zero_carries, andb_false_r by done. destruct (merged_holds _ _ _); lia.
  - split; [rewrite measure_app; cbn [measure]; lia|]. intros u. rewrite measure_app. cbn [measure].
    assert (merged_holds rs that u = false) as ->; [|lia]. apply not_true_iff_false. unfold merged_holds.
    rewrite existsb_exists. intros (y & Hy%list_elem_of_In & [Hay _]%andb_true_iff). by rewrite Hno in Hay.
  - pose proof Hc as [Ce _ Ct]. apply Forall_app in Ce as [Ce1 [Ex Ce2]%Forall_cons].
    pose proof Ha as [Hk Hm]%addable_iff; try apply Ex; try apply Ho.
    destruct (operand_of_entry_value _ _ Hk) as (_ & Hty & Hnm).
    destruct (add_assign_frame (resource x) (resource that)) as (F1 & _).
    destruct (add_assign_value (resource x) (resource that)) as (_ & _ & V3 & _); try apply Ex; try apply Ho; try done.
    { intros name. specialize (Hb name). rewrite total_app in Hb. cbn [total] in Hb.
      pose proof (total_nonneg name _ Ce1). pose proof (total_nonneg name _ Ce2). lia. }
    assert (Hid : identity (resource x) = identity (resource that)) by (unfold skey in Hk; congruence).
    split.
    + rewrite !measure_app. cbn [measure resource]. unfold amount_of at 2 5 7. rewrite (about_eq b _ _ F1), <- (about_eq b _ _ Hid).
      destruct (about b (resource x)); [|lia]. rewrite !thousandths_amount, <- Hnm, (proj2 (identity_type _ _ F1)), V3. lia.
    + intros u. rewrite (merged_here l1 x l2) by done. rewrite !measure_app. cbn [measure resource].
      unfold piece_of at 2 5 7. rewrite carries_add by (done || apply Ex || apply Ho).
      rewrite (about_eq b _ _ F1), <- (about_eq b _ _ Hid).
      destruct (about b (resource x)), (carries (resource x) u), (carries (resource that) u); cbn; lia.
Qed.

(** What entries of the given name hold. *)
Definition has_piece (name : string) (rs : list Resource_) (u : Piece) : Prop :=
  exists x, x ∈ rs /\ r_name (resource x) = name /\ carries (resource x) u = true.

Lemma has_piece_nil name u : ~ has_piece name [] u.
Proof. by intros (x & ?%not_elem_of_nil & _). Qed.

Lemma has_piece_cons name x rs u : has_piece name (x :: rs) u <->
  (r_name (resource x) = name /\ carries (resource x) u = true) \/ has_piece name rs u.
Proof.
  unfold has_piece. setoid_rewrite elem_of_cons. split.
  - intros (y & [->|Hy] & H); eauto.
  - intros [H|(y & Hy & H)]; eauto.
Qed.

#[export] Instance has_piece_perm name : Proper ((≡ₚ) ==> eq ==> iff) (has_piece name).
Proof. intros l1 l2 H u ? <-. unfold has_piece. by setoid_rewrite H. Qed.

Lemma add_pieces rs that rs' name u : container_ok rs -> operand_ok that -> r_shared (resource that) = false ->
  add rs that = Ret rs' ->
  has_piece name rs' u <-> has_piece name rs u \/ (r_name (resource that) = name /\ carries (resource that) u = true).
Proof.
  intros Hc Ho Hs E. destruct (add_shape rs that rs' Hc Ho Hs E) as [[Hz ->]|[[_ ->]|(l1 & x & l2 & -> & Ha & ->)]].
  - rewrite (zero_carries _ u Hz). naive_solver.
  - rewrite <- Permutation_cons_append, has_piece_cons. tauto.
  - pose proof Hc as [[_ [Ex _]%Forall_cons]%Forall_app _ _].
    pose proof Ha as [Hk _]%addable_iff; try apply Ex; try apply Ho.
    destruct (operand_of_entry_value _ _ Hk) as (_ & Hty & Hnm).
    destruct (add_assign_frame (resource x) (resource that)) as (F1 & _).
    rewrite <- !Permutation_middle, !has_piece_cons. cbn [resource].
    rewrite carries_add by (done || apply Ex || apply Ho). rewrite (proj2 (identity_type _ _ F1)), orb_true_iff, Hnm. tauto.
Qed.

(** ** [subtract] *)

Section WithPlatform.
  Context {P : Platform} {PL : PlatformLaws P}.

Lemma carries_sub l r u : value_ok l -> value_ok r -> r_type l = r_type r ->
  carries (Resource_sub_assign l r) u = carries l u && negb (carries r u).
Proof.
  intros Hl Hr Ht. unfold value_ok in *. rewrite <- Ht in Hr. apply eq_true_iff_eq.
  rewrite andb_true_iff, negb_true_iff, <- not_true_iff_false.
  unfold Resource_sub_assign. destruct u as [p|w]; rewrite ?carries_number, ?carries_item; rewrite <- Ht;
    destruct (r_type l) eqn:E; rewrite ?carries_number, ?carries_item; cbn [r_type set_scalar set_ranges set_set]; rewrite ?E;
    try (split; [by intros [? _]|by intros [[? _] _]]).
  - change (ranges (set_ranges l ?v)) with v.
    destruct (Ranges_sub_assign_spec (IS := iset) (ranges l) (ranges r) Hl Hr) as [_ Hm]. rewrite Hm. naive_solver.
  - change (set (set_set l ?v)) with v. rewrite Set_sub_assign_filter by done.
    rewrite list_elem_of_filter. naive_solver.
Qed.

Lemma subtract_shape rs that rs' : container_ok rs -> operand_ok that -> r_shared (resource that) = false ->
  _contains rs that = true -> subtract rs that = Ret rs' ->
  (is_zero (resource that) /\ rs' = rs) \/
  exists l x x', rs ≡ₚ x :: l /\ entry_ok x /\ skey (resource x) = skey (resource that) /\
    value_leb (resource that) (resource x) = true /\ resource x' = Resource_sub_assign (resource x) (resource that) /\
    operand_ok x' /\ ((is_zero (resource x') /\ rs' ≡ₚ l) \/ rs' ≡ₚ x' :: l).
Proof.
  intros Hrs Ho Hns Hc. unfold subtract. rewrite isEmpty_operand by done. cbn [obind].
  destruct (is_zero_b (resource that)) eqn:Ez.
  { intros [= <-]. left. split; [by apply is_zero_b_iff|done]. }
  clear Ez. destruct (contained_entry rs that Hrs Ho Hns Hc) as (l1 & x & l2 & -> & Hf & Hn & Hk & Hle).
  assert (Ex : entry_ok x) by (destruct Hrs as [Ce _ _]; by apply Forall_app in Ce as [_ [? _]%Forall_cons]).
  destruct (subtracted_entry x that Ex Ho Hn Hk Hle) as (Ox & Neg & _).
  rewrite Hf. unfold sub_. rewrite Hn. cbn [obind]. rewrite Neg, isEmpty_operand by done. cbn [obind].
  intros [= <-]. right. exists (l1 ++ l2), x, (mkResource_ (Resource_sub_assign (resource x) (resource that)) None).
  split_and!; [by rewrite Permutation_middle|done..|]. cbn [resource]. destruct (is_zero_b _) eqn:Ez'; [left|right].
  - split; [by apply is_zero_b_iff|apply swap_remove_perm].
  - rewrite insert_app_r_alt, Nat.sub_diag by lia. cbn [insert list_insert]. by rewrite Permutation_middle.
Qed.

Lemma subtract_exact rs that rs' b : container_ok rs -> operand_ok that -> r_shared (resource that) = false ->
  _contains rs that = true -> subtract rs that = Ret rs' ->
  measure (amount_of b) rs = measure (amount_of b) rs' + amount_of b (resource that) /\
  forall u, measure (piece_of b u) rs = measure (piece_of b u) rs' + piece_of b u (resource that).
Proof.
  intros Hc Ho Hs Hin E.
  destruct (subtract_shape rs that rs' Hc Ho Hs Hin E) as [[Hz ->]|(l & x & x' & Hp & Ex & Hk & Hle & Hx' & Ox & Hr)].
  - split.
    + unfold amount_of at 3. rewrite thousandths_amount. destruct (zero_amount (r_name (resource that)) _ Hz) as [-> _].
      destruct (about _ _); lia.
    + intros u. unfold piece_of at 3. rewrite zero_carries, andb_false_r by done. lia.
  - destruct (operand_of_entry_value _ _ Hk) as (_ & Hty & Hnm).
    destruct (sub_assign_frame (resource x) (resource that)) as (F1 & _). rewrite <- Hx' in F1.
    destruct (sub_assign_value (resource x) (resource that)) as (_ & _ & V3 & _); try apply Ex; try apply Ho; try done.
    assert (Hid : identity (resource x) = identity (resource that)) by (unfold skey in Hk; congruence).
    assert (Ha : amount_of b (resource x) = amount_of b (resource x') + amount_of b (resource that)).
    { unfold amount_of. rewrite (about_eq b _ _ F1), <- (about_eq b _ _ Hid). destruct (about b (resource x)); [|lia].
      rewrite !thousandths_amount, <- Hnm, (proj2 (identity_type _ _ F1)), Hx', V3. lia. }
    assert (Hu : forall u, piece_of b u (resource x) = piece_of b u (resource x') + piece_of b u (resource that)).
    { intros u. unfold piece_of. rewrite (about_eq b _ _ F1), <- (about_eq b _ _ Hid).
      rewrite Hx', carries_sub by (done || apply Ex || apply Ho).
      pose proof (carries_contained (resource x) (resource that) u (e_value _ Ex) (o_value _ Ho) Hty Hle) as Hcc.
      destruct (about b (resource x)), (carries (resource x) u), (carries (resource that) u); cbn; try lia. }
    split.
    + rewrite Hp. cbn [measure]. rewrite Ha. destruct Hr as [[Hz ->]| ->]; cbn [measure]; [|lia].
      unfold amount_of at 1. rewrite thousandths_amount. destruct (zero_amount (r_name (resource x')) _ Hz) as [-> _].
      destruct (about _ _); lia.
    + intros u. rewrite Hp. cbn [measure]. rewrite Hu. destruct Hr as [[Hz ->]| ->]; cbn [measure]; [|lia].
      unfold piece_of at 1. rewrite zero_carries, andb_false_r by done. lia.
Qed.

End WithPlatform.
