(* ===== verification/Apply.v ===== *)
(** * Offer operations (source/resources.cpp, 1529-1706)

    [Resources::apply] moves amounts between entries of a container, then
    asserts that the cpus, gpus, memory, disk and ports did not change. *)
From S2P Require Import Prelude Binary64 Scalar Ranges Sets StoutStrings Values Roles Platform.
From S2P Require Import Resource ResourceFormat Resources Conservation Exact.
From Stdlib Require Import SpecFloat.

(** [Offer::Operation], with the resources or volumes it names. *)
Inductive Operation :=
| OP_UNKNOWN
| LAUNCH
| LAUNCH_GROUP
| RESERVE (resources : list Resource)
| UNRESERVE (resources : list Resource)
| CREATE (volumes : list Resource)
| DESTROY (volumes : list Resource).

(** A loop that returns at the first error. *)
Fixpoint try_loop {A B} (step : B -> A -> outcome (Try B)) (l : list A) (b : B) : outcome (Try B) :=
  match l with
  | [] => Ret (TryOk b)
  | a :: l' =>
      let! r := step b a in
      match r with
      | TryOk b' => try_loop step l' b'
      | TryError e => Ret (TryError e)
      end
  end.

(** Strip persistence and volume, and make the resource non-shared. *)
Definition strip_volume (volume : Resource) : Resource :=
  let stripped :=
    match r_disk volume with
    | Some d =>
        match d_source d with
        | Some s => with_disk volume (Some (mkDisk (Some s) None None))
        | None => with_disk volume None
        end
    | None => with_disk volume None
    end in
  with_shared stripped false.

(** [operator==] on [Option<double>], [Option<Bytes>], [Option<Ranges>] *)
Definition option_eqb {A} (eqb : A -> A -> bool) (left right : option A) : bool := opt_eqb eqb left right.

Section WithPlatform.
  Context {P : Platform}.

Definition reserve_step (result : list Resource_) (reserved : Resource) : outcome (Try (list Resource_)) :=
  let! r := isReserved reserved None in
  if negb r then Ret (TryError "Invalid RESERVE Operation: Resource must be reserved")
  else
    let! d := isDynamicallyReserved reserved in
    if negb d then
      Ret (TryError "Invalid RESERVE Operation: Resource must be dynamically reserved")
    else
      let! fresh := of_resource reserved in
      let! resources := popReservation fresh in
      let! c := contains result resources in
      if negb c then
        let! all := Resources_print result in
        let! part := Resources_print resources in
        Ret (TryError ("Invalid RESERVE Operation: " +:+ all +:+ " does not contain " +:+ part))
      else
        let! result := minus result resources in
        let! result := add result (Resource_of reserved) in
        Ret (TryOk result).

Definition unreserve_step (result : list Resource_) (reserved : Resource) : outcome (Try (list Resource_)) :=
  let! r := isReserved reserved None in
  if negb r then Ret (TryError "Invalid UNRESERVE Operation: Resource is not reserved")
  else
    let! d := isDynamicallyReserved reserved in
    if negb d then
      Ret (TryError "Invalid UNRESERVE Operation: Resource is not dynamically reserved")
    else
      let! c := contains_resource result reserved in
      if negb c then
        let! all := Resources_print result in
        let! part := Resource_print reserved in
        Ret (TryError ("Invalid UNRESERVE Operation: " +:+ all +:+ " does not contain " +:+ part))
      else
        let! fresh := of_resource reserved in
        let! resources := popReservation fresh in
        let! result := subtract result (Resource_of reserved) in
        let! result := plus result resources in
        Ret (TryOk result).

Definition create_step (result : list Resource_) (volume : Resource) : outcome (Try (list Resource_)) :=
  match r_disk volume with
  | None => Ret (TryError "Invalid CREATE Operation: Missing 'disk'")
  | Some d =>
      if negb (has (d_persistence d)) then
        Ret (TryError "Invalid CREATE Operation: Missing 'persistence'")
      else
        let stripped := strip_volume volume in
        let! c := contains_resource result stripped in
        if negb c then
          let! text := Resource_print volume in
          Ret (TryError ("Invalid CREATE Operation: Insufficient disk resources for persistent volume "
                         +:+ text))
        else
          let! result := subtract result (Resource_of stripped) in
          let! result := add result (Resource_of volume) in
          Ret (TryOk result)
  end.

Definition destroy_step (result : list Resource_) (volume : Resource) : outcome (Try (list Resource_)) :=
  match r_disk volume with
  | None => Ret (TryError "Invalid DESTROY Operation: Missing 'disk'")
  | Some d =>
      if negb (has (d_persistence d)) then
        Ret (TryError "Invalid DESTROY Operation: Missing 'persistence'")
      else
        let! c := contains_resource result volume in
        if negb c then
          Ret (TryError "Invalid DESTROY Operation: Persistent volume does not exist")
        else
          let! result := subtract result (Resource_of volume) in
          let! again := contains_resource result volume in
          if again then
            let! text := Resource_print volume in
            Ret (TryError ("Invalid DESTROY Operation: Persistent volume " +:+ text +:+
                           " cannot be removed due to additional shared copies"))
          else
            let! result := add result (Resource_of (strip_volume volume)) in
            Ret (TryOk result)
  end.

(** Validate the operation's resources, then take the steps. *)
Definition checked (what : string) (l : list Resource)
    (step : list Resource_ -> Resource -> outcome (Try (list Resource_))) (result : list Resource_) :
    outcome (Try (list Resource_)) :=
  let! error := validate_all l in
  match error with
  | Some e => Ret (TryError ("Invalid " +:+ what +:+ " Operation: " +:+ e))
  | None => try_loop step l result
  end.

Definition apply_switch (resources : list Resource_) (operation : Operation) :
    outcome (Try (list Resource_)) :=
  match operation with
  | LAUNCH | LAUNCH_GROUP => Ret (TryOk resources)
  | RESERVE l => checked "RESERVE" l reserve_step resources
  | UNRESERVE l => checked "UNRESERVE" l unreserve_step resources
  | CREATE l => checked "CREATE" l create_step resources
  | DESTROY l => checked "DESTROY" l destroy_step resources
  | OP_UNKNOWN => Ret (TryError "Unknown offer operation")
  end.

(** [Resources::apply] *)
Definition apply (resources : list Resource_) (operation : Operation) : outcome (Try (list Resource_)) :=
  let! r := apply_switch resources operation in
  match r with
  | TryError e => Ret (TryError e)
  | TryOk result =>
      CHECK (option_eqb SFeqb (cpus result) (cpus resources)) "result.cpus() == cpus()" ;;!
      CHECK (option_eqb SFeqb (gpus result) (gpus resources)) "result.gpus() == gpus()" ;;!
      CHECK (option_eqb Z.eqb (mem result) (mem resources)) "result.mem() == mem()" ;;!
      CHECK (option_eqb Z.eqb (disk result) (disk resources)) "result.disk() == disk()" ;;!
      CHECK (option_eqb Ranges_eq (ports result) (ports resources)) "result.ports() == ports()" ;;!
      Ret (TryOk result)
  end.

End WithPlatform.

(** ** What the sanity checks compare *)

Definition has_scalar (name : string) (r : Resource) : bool :=
  String.eqb (r_name r) name && bool_decide (r_type r = SCALAR).

Lemma amount_has name r : amount name r = if has_scalar name r then fixed (scalar r) else 0.
Proof. done. Qed.

Lemma get_scalar_fold name rs : forall acc k, 0 <= k -> Forall entry_ok rs -> k + total name rs < 2 ^ 51 ->
  (forall v, acc = Some v -> v = mkScalar (convertToFloating k) /\ 0 < k) -> (acc = None -> k = 0) ->
  fold_left (fun total x =>
    if String.eqb (r_name (resource x)) name && bool_decide (r_type (resource x) = SCALAR) then
      Some (Scalar_add_assign (default Scalar_default total) (scalar (resource x)))
    else total) rs acc =
  if k + total name rs =? 0 then None else Some (mkScalar (convertToFloating (k + total name rs))).
Proof.
  induction rs as [|x rs IH]; intros acc k Hk Hrs Hb Hacc Hnone; cbn [fold_left total] in *.
  - rewrite Z.add_0_r. destruct acc as [v|].
    + destruct (Hacc v eq_refl) as [-> Hpos]. by rewrite (proj2 (Z.eqb_neq k 0)) by lia.
    + by rewrite (Hnone eq_refl).
  - apply Forall_cons in Hrs as [Hx Hrs]. pose proof (total_nonneg name _ Hrs) as Hnn.
    fold (has_scalar name (resource x)). rewrite amount_has in *.
    destruct (has_scalar name (resource x)) eqn:Eh; [|by apply IH].
    assert (Hpos : 0 < fixed (scalar (resource x))).
    { apply andb_prop in Eh as [_ Et%bool_decide_eq_true].
      destruct Hx as [_ _ Hv Hnz _ _]. unfold value_ok, is_zero in *. rewrite Et in *. lia. }
    assert (Hfix : convertToFixed (value (default Scalar_default acc)) = k).
    { destruct acc as [v|]; cbn.
      - destruct (Hacc v eq_refl) as [-> _]. apply fixed_of_floating. lia.
      - by rewrite (Hnone eq_refl). }
    rewrite (IH _ (k + fixed (scalar (resource x)))); try lia; [by rewrite Z.add_assoc|done| |done].
    intros v [= <-]. split; [|lia]. unfold Scalar_add_assign, set_value. rewrite Hfix.
    fold (fixed (scalar (resource x))). by rewrite wrap_s64_id by lia.
Qed.

Lemma get_scalar_total rs name : container_ok rs ->
  get_scalar rs name =
    if total name rs =? 0 then None else Some (mkScalar (convertToFloating (total name rs))).
Proof.
  intros [Ce _ Ct]. unfold get_scalar, get_sum.
  rewrite (get_scalar_fold name rs None 0); try done. by apply Ct.
Qed.

Lemma SFeqb_floating n : Z.abs n < 2 ^ 51 -> SFeqb (convertToFloating n) (convertToFloating n) = true.
Proof.
  intros Hn. pose proof (fixed_of_floating n Hn) as Hf.
  destruct (convertToFloating n) as [s|s| |s m e] eqn:E; [done|by destruct s| |].
  - cbn in Hf. rewrite <- Hf in Hn. vm_compute in Hn. done.
  - unfold SFeqb. cbn. destruct s; rewrite Z.compare_refl, Pos.compare_cont_refl; done.
Qed.

(** The five checks only depend on the quantities. *)
Lemma scalar_checks (rs rs' : list Resource_) name : container_ok rs -> container_ok rs' ->
  total name rs' = total name rs ->
  get_scalar rs' name = get_scalar rs name.
Proof. intros H H' E. by rewrite !get_scalar_total, E. Qed.

Definition has_ranges (name : string) (r : Resource) : bool :=
  String.eqb (r_name r) name && bool_decide (r_type r = RANGES).

Lemma has_ranges_iff name r : has_ranges name r = true <-> r_name r = name /\ r_type r = RANGES.
Proof. unfold has_ranges. by rewrite andb_true_iff, String.eqb_eq, bool_decide_eq_true. Qed.

(** A ranges value that stands for the set [S]. *)
Definition denotes (o : option (list Range)) (S : Z -> Prop) : Prop :=
  match o with
  | None => forall p, ~ S p
  | Some l => canonical l /\ (exists p, S p) /\ forall p, covers l p <-> S p
  end.

Lemma denotes_ext o S1 S2 : (forall p, S1 p <-> S2 p) -> denotes o S1 -> denotes o S2.
Proof.
  intros H. destruct o as [l|]; cbn.
  - intros (Hc & (p & Hp) & Hl). split_and!; [done|exists p; by apply H|]. intros q. by rewrite Hl.
  - intros Hn p Hp. apply (Hn p). by apply H.
Qed.

Lemma denotes_eqb o1 o2 S : denotes o1 S -> denotes o2 S -> option_eqb Ranges_eq o1 o2 = true.
Proof.
  destruct o1 as [l1|], o2 as [l2|]; cbn; try done.
  - intros (C1 & _ & H1) (C2 & _ & H2). apply Ranges_eq_coalesced; [apply C1|apply C2|].
    f_equal. apply canonical_unique; [done..|]. intros p. by rewrite H1, H2.
  - intros (_ & (p & Hp) & _) Hn. by apply Hn in Hp.
  - intros Hn (_ & (p & Hp) & _). by apply Hn in Hp.
Qed.

Lemma get_ranges_fold name rs : Forall entry_ok rs -> forall acc S, denotes acc S ->
  denotes (fold_left (fun total x =>
    if String.eqb (r_name (resource x)) name && bool_decide (r_type (resource x) = RANGES) then
      Some (Ranges_add_assign (default [] total) (ranges (resource x)))
    else total) rs acc) (fun p => S p \/ holds name rs p).
Proof.
  induction 1 as [|x rs Hx _ IH]; intros acc S Hacc; cbn [fold_left].
  { eapply denotes_ext; [|exact Hacc]. intros p. split; [by left|].
    intros [?|(y & ?%not_elem_of_nil & _)]; done. }
  fold (has_ranges name (resource x)).
  assert (Hskip : forall S', (forall p, S' p <-> S p \/ member name (resource x) p) ->
    forall p, S' p \/ holds name rs p <-> S p \/ holds name (x :: rs) p).
  { intros S' HS' p. rewrite holds_cons, HS'. tauto. }
  destruct (has_ranges name (resource x)) eqn:Eh.
  - apply has_ranges_iff in Eh as [En Et]. destruct Hx as [_ _ Hv Hnz _ _].
    unfold value_ok, is_zero in *. rewrite Et in *.
    set (old := default [] acc).
    assert (Hold : Forall valid_range old /\ forall p, covers old p <-> S p).
    { unfold old. destruct acc as [l|]; cbn in *; [destruct Hacc as ([_ ?] & _ & ?); done|].
      split; [constructor|]. intros p. split; [intros []%covers_nil|intros ?%Hacc; done]. }
    destruct Hold as [Vold Sold].
    assert (Ha : Ranges_add_assign old (ranges (resource x)) = Ranges_add old (ranges (resource x))).
    { unfold Ranges_add_assign, Ranges_add. by rewrite !coalesce_coalesced. }
    destruct (Ranges_add_spec old (ranges (resource x)) Vold Hv) as [Hc Hm].
    eapply denotes_ext; [apply (Hskip (fun p => S p \/ member name (resource x) p)); done|].
    apply IH. cbn. rewrite Ha. split_and!; [done| |].
    + destruct (ranges (resource x)) as [|a l] eqn:El; [done|].
      apply Forall_cons in Hv as [Hva _]. exists (start a). right. unfold member. rewrite El.
      split_and!; [done..|]. exists a. unfold valid_range in Hva. split; [by left|lia].
    + intros p. rewrite Hm, Sold. unfold member. tauto.
  - eapply denotes_ext; [apply (Hskip S)|by apply IH].
    intros p. split; [by left|]. intros [?|(? & ? & _)]; [done|].
    rewrite <- not_true_iff_false, has_ranges_iff in Eh. tauto.
Qed.

Lemma get_ranges_holds rs name : container_ok rs -> denotes (get_ranges rs name) (holds name rs).
Proof.
  intros [Ce _ _]. unfold get_ranges, get_sum.
  eapply denotes_ext; [|apply (get_ranges_fold name rs Ce None (fun _ => False))].
  - intros p. tauto.
  - by intros p [].
Qed.

(** ** The steps move amounts *)

(** The same quantities of every scalar and ranges resource. *)
Definition same_quantities (rs rs' : list Resource_) : Prop :=
  (forall name, total name rs' = total name rs) /\
  (forall name p, holds name rs' p <-> holds name rs p).

(** A resource an operation may name: in the post-refinement format, not
    shared, with a value the operators treat exactly. *)
Record request_ok (r : Resource) : Prop := {
  q_post : post_format r;
  q_regular : regular r;
  q_value : value_ok r;
  q_shared : r_shared r = false;
}.

Lemma request_operand r : request_ok r -> operand_ok (Resource_of r).
Proof.
  intros [H1 H2 H3 H4]. unfold Resource_of. rewrite H4. split; cbn; try done.
Qed.

(** A change of a resource that leaves its name, type and value alone. *)
Record same_value_as (r r' : Resource) : Prop := {
  sv_name : r_name r' = r_name r;
  sv_type : r_type r' = r_type r;
  sv_scalar : r_scalar r' = r_scalar r;
  sv_ranges : r_ranges r' = r_ranges r;
  sv_set : r_set r' = r_set r;
}.

Lemma same_value_sym r r' : same_value_as r r' -> same_value_as r' r.
Proof. intros [H1 H2 H3 H4 H5]. split; congruence. Qed.

Lemma same_value_quantities r r' : same_value_as r r' ->
  (forall name, amount name r' = amount name r) /\
  (forall name p, member name r' p <-> member name r p) /\
  (value_ok r -> value_ok r') /\ is_zero_b r' = is_zero_b r.
Proof.
  intros [H1 H2 H3 H4 H5]. unfold amount, member, value_ok, is_zero_b, scalar, ranges, set.
  by rewrite H1, H2, H3, H4, H5.
Qed.

Lemma amount_le_total name rs x : container_ok rs -> x ∈ rs -> amount name (resource x) <= total name rs.
Proof.
  intros [Ce _ _] (l1 & l2 & ->)%list_elem_of_split. apply Forall_app in Ce as [C1 [_ C2]%Forall_cons].
  rewrite total_app. cbn [total]. pose proof (total_nonneg name _ C1). pose proof (total_nonneg name _ C2). lia.
Qed.

Section Steps.
  Context {P : Platform} {PL : PlatformLaws P}.

Lemma subtract_amount_bound rs that rs1 : container_ok rs -> container_ok rs1 ->
  (forall name, total name rs1 = total name rs - amount name (resource that)) ->
  forall name, total name rs1 + amount name (resource that) < 2 ^ 51.
Proof. intros [_ _ Ct] _ H name. rewrite H. specialize (Ct name). lia. Qed.

Lemma move_amount rs r r' : container_ok rs -> request_ok r -> request_ok r' -> same_value_as r r' ->
  _contains rs (Resource_of r) = true ->
  exists rs1 rs2, subtract rs (Resource_of r) = Ret rs1 /\ container_ok rs1 /\
    add rs1 (Resource_of r') = Ret rs2 /\ container_ok rs2 /\ same_quantities rs rs2.
Proof.
  intros Hrs Hr Hr' Hsv Hc. destruct (same_value_quantities _ _ Hsv) as (Ha & Hm & _ & _).
  destruct (subtract_spec rs (Resource_of r)) as (rs1 & E1 & C1 & T1 & P1);
    [done|by apply request_operand|apply Hr|done|].
  destruct (add_spec rs1 (Resource_of r')) as (rs2 & E2 & C2 & Q2); [done|by apply request_operand| |].
  { intros name. cbn [resource Resource_of]. rewrite Ha.
    exact (subtract_amount_bound rs (Resource_of r) rs1 Hrs C1 T1 name). }
  destruct Q2 as [T2 P2]; [apply Hr'|]. cbn [resource Resource_of] in *.
  exists rs1, rs2. split_and!; try done. split.
  - intros name. rewrite T2, T1, Ha. lia.
  - intros name p. rewrite P2, P1, Hm. done.
Qed.

Lemma add_zero rs x : operand_ok x -> is_zero_b (resource x) = true -> add rs x = Ret rs.
Proof. intros Ho Hz. unfold add. rewrite isEmpty_operand, Hz by done. done. Qed.

Lemma add_nil x : operand_ok x -> is_zero_b (resource x) = false -> add [] x = Ret [x].
Proof. intros Ho Hz. unfold add. rewrite isEmpty_operand, Hz by done. done. Qed.

Lemma subtract_zero rs x : operand_ok x -> is_zero_b (resource x) = true -> subtract rs x = Ret rs.
Proof. intros Ho Hz. unfold subtract. rewrite isEmpty_operand, Hz by done. done. Qed.

(** Printing does not abort. *)
Lemma print_returns r : r_type r <> TEXT -> returns (Resource_print r).
Proof. intros H. unfold Resource_print. destruct (r_type r); [by eexists..|done]. Qed.

Lemma value_ok_type r : value_ok r -> r_type r <> TEXT.
Proof. unfold value_ok. by intros H E; rewrite E in H. Qed.

Lemma print_all_returns rs : Forall entry_ok rs -> returns (Resources_print rs).
Proof.
  intros H. assert (Hm : returns (omapM print_ rs)).
  { induction H as [|x rs Hx _ [l IH]]; cbn [omapM]; [by eexists|].
    destruct (print_returns (resource x)) as [s Hs]; [apply value_ok_type, Hx|].
    unfold print_ at 1. rewrite Hs. cbn [obind]. rewrite IH. by eexists. }
  destruct Hm as [l Hl]. unfold Resources_print. destruct rs; [by eexists|]. rewrite Hl. by eexists.
Qed.

(** *** Popping a reservation *)

Lemma pop_request r : request_ok r -> request_ok (pop_last r) /\ same_value_as r (pop_last r).
Proof.
  intros [H1 [H2 H2'] H3 H4]. split; [|done]. split; try done. split; [|done]. cbn.
  clear -H2. induction H2 as [|a l Ha Hl IH]; [done|]. cbn. destruct l; [done|]. by constructor.
Qed.

Lemma of_resource_spec r : request_ok r -> validate r = Ret None ->
  of_resource r = Ret (if is_zero_b r then [] else [Resource_of r]).
Proof.
  intros Hr Hv. pose proof (request_operand r Hr) as Ho. unfold of_resource, plus_resource, plus_one, validate_.
  assert (Hn : sharedCount (Resource_of r) = None) by (cbn; by rewrite (q_shared _ Hr)).
  rewrite Hn. cbn [resource Resource_of]. rewrite Hv. cbn [obind].
  destruct (is_zero_b r) eqn:Ez; [by apply add_zero|by apply add_nil].
Qed.

Lemma pop_fresh r : request_ok r -> r_reservations r <> [] ->
  popReservation (if is_zero_b r then [] else [Resource_of r]) =
    Ret (if is_zero_b r then [] else [Resource_of (pop_last r)]).
Proof.
  intros Hr Hne. destruct (pop_request r Hr) as [Hp Hsv].
  destruct (same_value_quantities _ _ Hsv) as (_ & _ & _ & Hz).
  destruct (is_zero_b r) eqn:Ez; [done|]. unfold popReservation. cbn [ofold resource Resource_of].
  rewrite (proj2 (Nat.ltb_lt 0 _)) by (destruct (r_reservations r); cbn; [done|lia]).
  cbn [CHECK obind].
  assert (E : map_resource pop_last (Resource_of r) = Resource_of (pop_last r)) by done. rewrite E.
  rewrite add_nil; [done|by apply request_operand|by rewrite <- Hz in Ez].
Qed.

(** *** One step *)

(** The step returns, and what it returns holds the same quantities. *)
Definition conserves (step : list Resource_ -> Resource -> outcome (Try (list Resource_)))
    (rs : list Resource_) (r : Resource) : Prop :=
  exists res, step rs r = Ret res /\
    forall rs', res = TryOk rs' -> container_ok rs' /\ same_quantities rs rs'.

Lemma conserves_refl rs : container_ok rs -> same_quantities rs rs.
Proof. by split. Qed.

Lemma isReserved_post r : post_format r -> isReserved r None = Ret (negb (length (r_reservations r) =? 0)%nat).
Proof.
  intros H. unfold isReserved, isUnreserved. rewrite CHECK_post_ok by done. cbn [obind].
  by destruct (length (r_reservations r) =? 0)%nat.
Qed.

Lemma isDynamicallyReserved_post r : post_format r -> exists b, isDynamicallyReserved r = Ret b.
Proof.
  intros H. unfold isDynamicallyReserved. rewrite isReserved_post, CHECK_post_ok by done. by eexists.
Qed.

Lemma isPersistentVolume_post r : post_format r -> exists b, isPersistentVolume r = Ret b.
Proof. intros H. unfold isPersistentVolume. rewrite CHECK_post_ok by done. by eexists. Qed.

(** A one-element container is contained exactly if its entry is. *)
Lemma contains_singleton rs r : container_ok rs -> request_ok r ->
  contains rs [Resource_of r] = Ret (_contains rs (Resource_of r)).
Proof.
  intros Hrs Hr. unfold contains. cbn [contains_loop].
  destruct (_contains rs (Resource_of r)) eqn:E; [|done]. cbn [negb].
  destruct (isPersistentVolume_post r) as [b Hb]; [apply Hr|]. cbn [resource Resource_of]. rewrite Hb.
  cbn [obind]. destruct b; [|done].
  destruct (subtract_spec rs (Resource_of r)) as (rs1 & -> & _);
    [done|by apply request_operand|apply Hr|done|done].
Qed.

Lemma reserve_conserves rs r : container_ok rs -> request_ok r -> validate r = Ret None ->
  conserves reserve_step rs r.
Proof.
  intros Hrs Hr Hv. unfold conserves, reserve_step. rewrite isReserved_post by apply Hr. cbn [obind].
  destruct (Nat.eqb_spec (length (r_reservations r)) 0) as [|Hlen]; cbn [negb]; [by eexists|].
  assert (Hne : r_reservations r <> []) by (intros E; by rewrite E in Hlen).
  destruct (isDynamicallyReserved_post r) as [d ->]; [apply Hr|]. cbn [obind].
  destruct d; cbn [negb]; [|by eexists].
  rewrite of_resource_spec by done. cbn [obind]. rewrite pop_fresh by done. cbn [obind].
  destruct (pop_request r Hr) as [Hp Hsv]. destruct (is_zero_b r) eqn:Ez.
  { cbn [contains contains_loop obind negb minus ofold].
    rewrite add_zero by (done || by apply request_operand). cbn [obind].
    eexists. split; [reflexivity|]. intros rs' [= <-]. split; [done|by apply conserves_refl]. }
  rewrite contains_singleton by done. cbn [obind].
  destruct (_contains rs (Resource_of (pop_last r))) eqn:Ec; cbn [negb].
  - destruct (move_amount rs (pop_last r) r) as (rs1 & rs2 & E1 & _ & E2 & C2 & Q2); try done.
    cbn [minus ofold]. rewrite E1. cbn [obind]. rewrite E2. cbn [obind].
    eexists. split; [reflexivity|]. by intros rs' [= <-].
  - destruct (print_all_returns rs) as [a ->]; [apply Hrs|]. cbn [obind Resources_print omapM].
    destruct (print_returns (pop_last r)) as [s Hs]; [by apply value_ok_type, Hp|].
    unfold print_. cbn [resource Resource_of]. rewrite Hs. cbn [obind]. by eexists.
Qed.

Lemma contains_resource_valid rs r : validate r = Ret None ->
  contains_resource rs r = Ret (_contains rs (Resource_of r)).
Proof. intros Hv. unfold contains_resource. by rewrite Hv. Qed.

Lemma unreserve_conserves rs r : container_ok rs -> request_ok r -> validate r = Ret None ->
  conserves unreserve_step rs r.
Proof.
  intros Hrs Hr Hv. unfold conserves, unreserve_step. rewrite isReserved_post by apply Hr. cbn [obind].
  destruct (Nat.eqb_spec (length (r_reservations r)) 0) as [|Hlen]; cbn [negb]; [by eexists|].
  assert (Hne : r_reservations r <> []) by (intros E; by rewrite E in Hlen).
  destruct (isDynamicallyReserved_post r) as [d ->]; [apply Hr|]. cbn [obind].
  destruct d; cbn [negb]; [|by eexists].
  rewrite contains_resource_valid by done. cbn [obind].
  destruct (_contains rs (Resource_of r)) eqn:Ec; cbn [negb].
  - rewrite of_resource_spec by done. cbn [obind]. rewrite pop_fresh by done. cbn [obind].
    destruct (pop_request r Hr) as [Hp Hsv]. destruct (is_zero_b r) eqn:Ez.
    + rewrite subtract_zero by (done || by apply request_operand). cbn [obind plus ofold].
      eexists. split; [reflexivity|]. intros rs' [= <-]. split; [done|by apply conserves_refl].
    + destruct (move_amount rs r (pop_last r)) as (rs1 & rs2 & E1 & _ & E2 & C2 & Q2); try done.
      rewrite E1. cbn [obind plus ofold]. rewrite E2. cbn [obind].
      eexists. split; [reflexivity|]. by intros rs' [= <-].
  - destruct (print_all_returns rs) as [a ->]; [apply Hrs|]. cbn [obind].
    destruct (print_returns r) as [s ->]; [by apply value_ok_type, Hr|]. cbn [obind]. by eexists.
Qed.

(** *** Volumes *)

Lemma strip_request r : request_ok r -> request_ok (strip_volume r) /\ same_value_as r (strip_volume r).
Proof.
  intros [H1 [H2 H2'] H3 H4]. unfold strip_volume.
  destruct (r_disk r) as [d|] eqn:Ed; [destruct (d_source d) as [s|] eqn:Es|]; (split; [|done]); split; try done;
    (split; [done|]); intros d' s' [= <-]; cbn; intros [= <-]; eauto.
Qed.

Lemma contains_resource_returns rs r : exists b, contains_resource rs r = Ret b /\
  (b = true -> _contains rs (Resource_of r) = true).
Proof.
  unfold contains_resource. destruct (validate_returns r) as [[e|] ->]; cbn [obind]; eexists; by split.
Qed.

Lemma create_conserves rs r : container_ok rs -> request_ok r -> validate r = Ret None ->
  conserves create_step rs r.
Proof.
  intros Hrs Hr Hv. unfold conserves, create_step. destruct (r_disk r) as [d|] eqn:Ed; [|by eexists].
  destruct (has (d_persistence d)); cbn [negb]; [|by eexists].
  destruct (strip_request r Hr) as [Hs Hsv].
  destruct (contains_resource_returns rs (strip_volume r)) as (b & -> & Hb). cbn [obind].
  destruct b; cbn [negb].
  - destruct (move_amount rs (strip_volume r) r) as (rs1 & rs2 & E1 & _ & E2 & C2 & Q2); try done.
    { by apply same_value_sym. }
    { by apply Hb. }
    rewrite E1. cbn [obind]. rewrite E2. cbn [obind]. eexists. split; [reflexivity|]. by intros rs' [= <-].
  - destruct (print_returns r) as [s ->]; [by apply value_ok_type, Hr|]. cbn [obind]. by eexists.
Qed.

Lemma destroy_conserves rs r : container_ok rs -> request_ok r -> validate r = Ret None ->
  conserves destroy_step rs r.
Proof.
  intros Hrs Hr Hv. unfold conserves, destroy_step. destruct (r_disk r) as [d|] eqn:Ed; [|by eexists].
  destruct (has (d_persistence d)); cbn [negb]; [|by eexists].
  destruct (strip_request r Hr) as [Hs Hsv].
  rewrite contains_resource_valid by done. cbn [obind].
  destruct (_contains rs (Resource_of r)) eqn:Ec; cbn [negb]; [|by eexists].
  destruct (move_amount rs r (strip_volume r)) as (rs1 & rs2 & E1 & _ & E2 & C2 & Q2); try done.
  rewrite E1. cbn [obind]. rewrite contains_resource_valid by done. cbn [obind].
  destruct (_contains rs1 (Resource_of r)).
  - destruct (print_returns r) as [s ->]; [by apply value_ok_type, Hr|]. cbn [obind]. by eexists.
  - rewrite E2. cbn [obind]. eexists. split; [reflexivity|]. by intros rs' [= <-].
Qed.

(** *** All steps *)

Lemma same_quantities_trans rs1 rs2 rs3 :
  same_quantities rs1 rs2 -> same_quantities rs2 rs3 -> same_quantities rs1 rs3.
Proof.
  intros [H1 H2] [H3 H4]. split; intros; [by rewrite H3|by rewrite H4, H2].
Qed.

Lemma try_loop_conserves step :
  (forall rs r, container_ok rs -> request_ok r -> validate r = Ret None -> conserves step rs r) ->
  forall l rs, container_ok rs -> Forall request_ok l -> Forall (fun r => validate r = Ret None) l ->
  exists res, try_loop step l rs = Ret res /\
    forall rs', res = TryOk rs' -> container_ok rs' /\ same_quantities rs rs'.
Proof.
  intros Hstep. induction l as [|r l IH]; intros rs Hrs Hl Hv; cbn [try_loop].
  { eexists. split; [reflexivity|]. intros rs' [= <-]. split; [done|by apply conserves_refl]. }
  apply Forall_cons in Hl as [Hr Hl], Hv as [Hvr Hv].
  destruct (Hstep rs r Hrs Hr Hvr) as (res & -> & Hres). cbn [obind].
  destruct res as [rs1|e]; [|by eexists]. destruct (Hres rs1 eq_refl) as [C1 Q1].
  destruct (IH rs1 C1 Hl Hv) as (res & -> & H2). eexists. split; [reflexivity|].
  intros rs' E. destruct (H2 rs' E) as [C2 Q2]. split; [done|]. by eapply same_quantities_trans.
Qed.

Lemma validate_list_spec l : Forall request_ok l ->
  exists e, validate_all l = Ret e /\ (e = None -> Forall (fun r => validate r = Ret None) l).
Proof.
  induction 1 as [|r l Hr _ (e & He & IH)]; cbn [validate_all]; [by exists None|].
  destruct (validate_returns r) as [[m|] Hv]; rewrite Hv; cbn [obind].
  - destruct (print_returns r) as [s ->]; [by apply value_ok_type, Hr|]. cbn [obind]. by eexists.
  - exists e. split; [done|]. intros E. constructor; auto.
Qed.

Definition operation_ok (op : Operation) : Prop :=
  match op with
  | RESERVE l | UNRESERVE l | CREATE l | DESTROY l => Forall request_ok l
  | _ => True
  end.

Lemma checked_conserves what l step rs :
  (forall rs r, container_ok rs -> request_ok r -> validate r = Ret None -> conserves step rs r) ->
  container_ok rs -> Forall request_ok l ->
  exists res, checked what l step rs = Ret res /\
    forall rs', res = TryOk rs' -> container_ok rs' /\ same_quantities rs rs'.
Proof.
  intros Hstep Hrs Hl. unfold checked. destruct (validate_list_spec l Hl) as (e & -> & He). cbn [obind].
  destruct e as [m|]; [by eexists|]. by apply try_loop_conserves; auto.
Qed.

Lemma switch_conserves rs op : container_ok rs -> operation_ok op ->
  exists res, apply_switch rs op = Ret res /\
    forall rs', res = TryOk rs' -> container_ok rs' /\ same_quantities rs rs'.
Proof.
  intros Hrs Hop. destruct op; cbn [apply_switch operation_ok] in *.
  - by eexists.
  - eexists. split; [reflexivity|]. intros rs' [= <-]. split; [done|by apply conserves_refl].
  - eexists. split; [reflexivity|]. intros rs' [= <-]. split; [done|by apply conserves_refl].
  - by apply checked_conserves; auto using reserve_conserves.
  - by apply checked_conserves; auto using unreserve_conserves.
  - by apply checked_conserves; auto using create_conserves.
  - by apply checked_conserves; auto using destroy_conserves.
Qed.

Lemma opt_eqb_refl {A} (eqb : A -> A -> bool) o : (forall a, o = Some a -> eqb a a = true) ->
  opt_eqb eqb o o = true.
Proof. destruct o; cbn; auto. Qed.

Lemma double_check rs rs' name : container_ok rs -> container_ok rs' -> total name rs' = total name rs ->
  option_eqb SFeqb (value <$> get_scalar rs' name) (value <$> get_scalar rs name) = true.
Proof.
  intros C C' E. rewrite (scalar_checks rs rs' name) by done. apply opt_eqb_refl.
  rewrite get_scalar_total by done. destruct (total name rs =? 0); intros d; cbn; [done|]. intros [= <-].
  apply SFeqb_floating. pose proof (c_total _ C name). pose proof (total_nonneg name _ (c_entries _ C)). lia.
Qed.

Lemma bytes_check rs rs' name : container_ok rs -> container_ok rs' -> total name rs' = total name rs ->
  option_eqb Z.eqb ((fun v => Megabytes (to_uint64 (value v))) <$> get_scalar rs' name)
    ((fun v => Megabytes (to_uint64 (value v))) <$> get_scalar rs name) = true.
Proof.
  intros C C' E. rewrite (scalar_checks rs rs' name) by done. apply opt_eqb_refl.
  intros a _. apply Z.eqb_refl.
Qed.

Lemma apply_returns rs op : container_ok rs -> operation_ok op ->
  exists res, apply rs op = Ret res /\
    forall rs', res = TryOk rs' -> container_ok rs' /\ same_quantities rs rs'.
Proof.
  intros Hrs Hop. unfold apply. destruct (switch_conserves rs op Hrs Hop) as (res & -> & Hres). cbn [obind].
  destruct res as [rs'|e]; [|by eexists]. destruct (Hres rs' eq_refl) as [C [HT HP]].
  unfold cpus, gpus, mem, disk, ports. rewrite !double_check by auto. rewrite !bytes_check by auto.
  rewrite (denotes_eqb _ _ (holds "ports" rs)).
  - cbn [CHECK obind]. eexists. split; [reflexivity|]. intros rs'' [= <-]. by split.
  - eapply denotes_ext; [apply HP|]. by apply get_ranges_holds.
  - by apply get_ranges_holds.
Qed.

End Steps.

(** ** Properties *)

Lemma container_nil : container_ok [].
Proof. split; [constructor|constructor|]. intros name. cbn. lia. Qed.

(** C2: Take a container that satisfies the invariant and a resource in the
    post-refinement format that is not shared, with a value the operators treat exactly
    (at least 0 and less than 2^51 thousandths, ranges that are not inverted and end below
    [UINT64_MAX], a set without duplicates), no label repeated in a reservation, and a
    disk source that has just the field of its type.  Adding it, if the scalars stay below
    2^51 thousandths in total, keeps the container's invariant (valid, non-empty, pairwise
    unmergeable entries) and changes every quantity by exactly the resource: of each
    scalar the thousandths are the sum, for the entries of each identity separately and
    not only by name; each number of a ranges resource and each item of a set resource
    is held by one entry more exactly if the resource holds it and the entry of the
    same identity it is merged into did not.  Subtracting one that the container
    contains keeps the invariant and is exact in the same way: the thousandths are the
    difference, and each number and item of the resource is held by one entry less.
    Neither trips an assertion. *)
Theorem add_subtract_exact {P : Platform} {PL : PlatformLaws P} rs that :
  container_ok rs -> operand_ok that -> r_shared (resource that) = false ->
  ((forall name, total name rs + amount name (resource that) < 2 ^ 51) ->
   exists rs', add rs that = Ret rs' /\ container_ok rs' /\
     (forall name, total name rs' = total name rs + amount name (resource that)) /\
     (forall name p, holds name rs' p <-> holds name rs p \/ member name (resource that) p) /\
     forall b, measure (amount_of b) rs' = measure (amount_of b) rs + amount_of b (resource that) /\
       forall u, measure (piece_of b u) rs' = measure (piece_of b u) rs +
         if merged_holds rs that u then 0 else piece_of b u (resource that)) /\
  (_contains rs that = true ->
   exists rs', subtract rs that = Ret rs' /\ container_ok rs' /\
     (forall name, total name rs' = total name rs - amount name (resource that)) /\
     (forall name p, holds name rs p <-> holds name rs' p \/ member name (resource that) p) /\
     forall b, measure (amount_of b) rs' = measure (amount_of b) rs - amount_of b (resource that) /\
       forall u, measure (piece_of b u) rs' = measure (piece_of b u) rs - piece_of b u (resource that)).
Proof.
  intros Hrs Ho Hs. split.
  - intros Hb. destruct (add_spec rs that Hrs Ho Hb) as (rs' & E & C & Q). exists rs'. destruct (Q Hs). split_and!; [done..|].
    intros b. by apply add_exact.
  - intros Hc. destruct (subtract_spec rs that Hrs Ho Hs Hc) as (rs' & E & C & T & H). exists rs'. split_and!; [done..|].
    intros b. destruct (subtract_exact rs that rs' b Hrs Ho Hs Hc E) as [Ha Hu]. split; [lia|].
    intros u. specialize (Hu u). lia.
Qed.

Definition scalar_resource (name : string) (n : Z) (stack : list ReservationInfo) : Resource :=
  mkResource None name SCALAR (Some (Scalar_of_Z n)) None None None None None stack None false false.

Definition dynamic_role (role : string) : ReservationInfo :=
  mkReservation (Some DYNAMIC) (Some role) None None.

Lemma sample_request name n stack : 0 <= fixed (Scalar_of_Z n) < 2 ^ 51 ->
  Forall (fun ri => ri_labels ri = None) stack -> request_ok (scalar_resource name n stack).
Proof.
  intros Hn Hs. split; [done| |done|done]. split; [|done]. cbn.
  eapply Forall_impl; [exact Hs|]. intros ri Hri l. congruence.
Qed.

Lemma sample_amount name nm n stack : amount name (scalar_resource nm n stack) =
  if String.eqb nm name then fixed (Scalar_of_Z n) else 0.
Proof. by rewrite amount_scalar. Qed.

Lemma sample_container name n : 0 < fixed (Scalar_of_Z n) < 2 ^ 51 ->
  container_ok [Resource_of (scalar_resource name n [])].
Proof.
  intros Hn. split.
  - constructor; [|done]. split; [done|split; [constructor|done]| | |done|done].
    + change (0 <= fixed (Scalar_of_Z n) < 2 ^ 51). lia.
    + change (fixed (Scalar_of_Z n) <> 0). lia.
  - vm_compute. apply NoDup_singleton.
  - intros nm. cbn [total resource Resource_of]. rewrite sample_amount.
    destruct (String.eqb name nm); lia.
Qed.

Lemma add_subtract_exact_witness :
  let rs := [Resource_of (scalar_resource "cpus" 4 [])] in
  let that := Resource_of (scalar_resource "cpus" 1 []) in
  (exists rs', add rs that = Ret rs' /\ total "cpus" rs' = 5000) /\
  (exists rs', subtract (P := RefPlatform.platform) rs that = Ret rs' /\ total "cpus" rs' = 3000).
Proof.
  pose proof RefPlatform.laws as PL.
  destruct (add_subtract_exact (P := RefPlatform.platform)
              [Resource_of (scalar_resource "cpus" 4 [])] (Resource_of (scalar_resource "cpus" 1 [])))
    as [Hadd Hsub].
  - apply sample_container. vm_compute. done.
  - apply request_operand, sample_request; [vm_compute; done|constructor].
  - reflexivity.
  - split; [destruct Hadd as (rs' & E & _ & T & _)|destruct Hsub as (rs' & E & _ & T & _)].
    + intros name. cbn [total resource Resource_of]. rewrite !sample_amount.
      destruct (String.eqb "cpus" name); vm_compute; reflexivity.
    + exists rs'. split; [exact E|]. rewrite T. cbn [total resource Resource_of].
      rewrite !sample_amount. vm_compute. reflexivity.
    + vm_compute. reflexivity.
    + exists rs'. split; [exact E|]. rewrite T. cbn [total resource Resource_of].
      rewrite !sample_amount. vm_compute. reflexivity.
Defined.

(** [Resources::apply] never aborts on an operation whose resources are
    in the post-refinement format, not shared and in range: it returns an error
    or a container in which the thousandths of every scalar resource and the
    set of numbers of every ranges resource are what they were, so its five
    sanity checks (cpus, gpus, mem, disk, ports) always pass. *)
Theorem apply_conserves {P : Platform} {PL : PlatformLaws P} rs op :
  container_ok rs -> operation_ok op ->
  exists res, apply rs op = Ret res /\
    forall rs', res = TryOk rs' -> container_ok rs' /\ same_quantities rs rs'.
Proof. apply apply_returns. Qed.

Lemma apply_conserves_witness :
  let rs := [Resource_of (scalar_resource "cpus" 4 [])] in
  let op := RESERVE [scalar_resource "cpus" 1 [dynamic_role "eng"]] in
  exists rs', apply (P := RefPlatform.platform) rs op = Ret (TryOk rs') /\ length rs' = 2%nat /\
    total "cpus" rs' = 4000.
Proof.
  pose proof RefPlatform.laws as PL.
  destruct (apply_conserves (P := RefPlatform.platform) [Resource_of (scalar_resource "cpus" 4 [])]
              (RESERVE [scalar_resource "cpus" 1 [dynamic_role "eng"]])) as (res & E & H).
  - apply sample_container. vm_compute. done.
  - constructor; [|done]. apply sample_request; [vm_compute; done|repeat constructor].
  - revert E H. vm_compute (apply _ _). intros E H. injection E as <-.
    eexists. split; [reflexivity|]. split; [reflexivity|].
    destruct (H _ eq_refl) as [_ [HT _]]. rewrite HT. vm_compute. reflexivity.
Defined.

(** A shared persistent volume of 10 megabytes, and a container that holds one
    copy of it next to 20 free megabytes. *)
Definition shared_volume : Resource :=
  mkResource None "disk" SCALAR (Some (Scalar_of_Z 10)) None None None None None [dynamic_role "eng"]
    (Some (mkDisk None (Some (mkPersistence "v1" None)) (Some (mkVolume "data" None (Some RW))))) false true.
Definition volume_container : list Resource_ :=
  [Resource_of (scalar_resource "disk" 20 [dynamic_role "eng"]); Resource_of shared_volume].

(** The restriction to resources that are not shared is needed: creating a
    shared volume that the container already holds merges it into the existing
    entry, only its copies are counted, the disk total drops, and [apply]
    aborts on its own sanity check instead of returning an error. *)
Theorem apply_create_shared_twice_aborts :
  validate shared_volume = Ret None /\
  apply (P := RefPlatform.platform) volume_container (CREATE [shared_volume]) =
    Fatal "result.disk() == disk()".
Proof. split; vm_compute; reflexivity. Qed.
