(* ===== verification/Queries.v ===== *)
(** * Filters, groupings and changes of containers (source/resources.cpp, 1265-1460; include/mesos/resources.hpp)

    [Resources] offers filters (reserved, unreserved, revocable, ...), groupings by
    role, changes of every entry (allocate, pushReservation, ...) and, in the header,
    sums over maps of containers and sequences of operations.  They rebuild a
    container entry by entry with [add]; here is what that gives. *)
From S2P Require Import Prelude Binary64 Scalar Ranges Sets StoutStrings Values Roles Platform.
From S2P Require Import Resource ResourceFormat Resources Conservation Exact Apply.

(** ** Operations of the header *)

Section Header.
  Context {P : Platform}.

(** [apply(const Iterable& operations)] *)
Fixpoint apply_all (resources : list Resource_) (operations : list Operation) : outcome (Try (list Resource_)) :=
  match operations with
  | [] => Ret (TryOk resources)
  | operation :: rest =>
      let! transformed := apply resources operation in
      match transformed with
      | TryError e => Ret (TryError e)
      | TryOk result => apply_all result rest
      end
  end.

(** [sum]: the containers of a map, added in the order of its iteration. *)
Definition sum (containers : list Resources) : outcome Resources := ofold plus containers [].

(** [operator+=] on maps of containers: [left[key] += resources] for every entry of
    the right map, in the order of its iteration. *)
Definition map_plus (left : gmap string Resources) (right : list (string * Resources)) : outcome (gmap string Resources) :=
  ofold (fun left kr => let! l := plus (default [] (left !! kr.1)) kr.2 in Ret (<[kr.1 := l]> left)) right left.

End Header.

(** ** Entries that do not merge *)

(** An entry that no entry of [rs] takes in. *)
Definition separate (rs : list Resource_) (x : Resource_) : Prop :=
  mergeable (resource x) = true -> skey (resource x) ∉ merge_keys rs.

Lemma add_separate rs x : Forall entry_ok rs -> entry_ok x -> separate rs x -> add rs x = Ret (rs ++ [x]).
Proof.
  intros Ce Ex Hs. unfold add. rewrite (isEmpty_operand x (entry_operand x Ex)). cbn [obind].
  destruct (is_zero_b (resource x)) eqn:Ez; [apply is_zero_b_iff in Ez; by destruct (e_nonzero x Ex)|].
  destruct (add_loop_cases rs x) as [[_ ->]|(l1 & y & l2 & -> & Ha & _)]; [done|exfalso].
  apply Forall_app in Ce as [_ [Ey _]%Forall_cons]. destruct Ex, Ey.
  apply addable_iff in Ha as [Hk Hm]; try done. rewrite (skey_mergeable _ _ Hk) in Hm. apply Hs; [done|].
  rewrite <- Hk. apply merge_keys_elem; [apply elem_of_app; right; by left|]. by rewrite (skey_mergeable _ _ Hk).
Qed.

Lemma merge_keys_snoc rs x : NoDup (merge_keys rs) -> separate rs x -> NoDup (merge_keys (rs ++ [x])).
Proof.
  intros Hn Hs. rewrite merge_keys_app, merge_keys_cons. cbn. destruct (mergeable (resource x)) eqn:Em; [|by rewrite app_nil_r].
  apply NoDup_app. split_and!; [done| |apply NoDup_singleton]. intros k Hk ->%list_elem_of_singleton. by apply Hs.
Qed.

Lemma separate_next acc x rest : NoDup (merge_keys (acc ++ x :: rest)) -> separate acc x.
Proof.
  rewrite merge_keys_app, merge_keys_cons. intros Hn Hm Hk. rewrite Hm in Hn.
  apply NoDup_app in Hn as (_ & Hd & _). apply (Hd _ Hk). by left.
Qed.

(** Adding entries that are pairwise separate lists them. *)
Lemma add_list rs : forall acc, Forall entry_ok (acc ++ rs) -> NoDup (merge_keys (acc ++ rs)) ->
  ofold add rs acc = Ret (acc ++ rs).
Proof.
  induction rs as [|x rs IH]; intros acc Ce Hn; cbn [ofold]; [by rewrite app_nil_r|].
  assert (Ce' := Ce). apply Forall_app in Ce' as [Ca [Ex _]%Forall_cons].
  rewrite add_separate by (done || by eapply separate_next). cbn [obind].
  rewrite (cons_middle x acc rs), app_assoc in *. by apply IH.
Qed.

Lemma container_rebuild rs : container_ok rs -> ofold add rs [] = Ret rs.
Proof. intros [Ce Ck _]. by apply (add_list rs []). Qed.

(** ** Filters *)

(** A predicate that does not abort on resources in the post-refinement format. *)
Definition decides (p : Resource -> outcome bool) (b : Resource -> bool) : Prop :=
  forall r, post_format r -> p r = Ret (b r).

Lemma sublist_ok (f : Resource_ -> bool) rs : container_ok rs -> container_ok (List.filter f rs).
Proof.
  intros [Ce Ck Ct]. split.
  - apply Forall_forall. intros x Hx. apply list_elem_of_In, List.filter_In in Hx as [Hx _].
    rewrite Forall_forall in Ce. by apply Ce, list_elem_of_In.
  - clear Ce Ct. induction rs as [|x rs IH]; [done|]. rewrite merge_keys_cons in Ck. cbn [List.filter].
    assert (NoDup (merge_keys rs)) by (destruct (mergeable (resource x)); [by apply NoDup_cons in Ck as [_ ?]|done]).
    destruct (f x); [|by apply IH]. rewrite merge_keys_cons. destruct (mergeable (resource x)) eqn:Em; [|by apply IH].
    apply NoDup_cons in Ck as [Hk _]. apply NoDup_cons. split; [|by apply IH]. intros (y & Hy & Hm & E)%merge_keys_inv.
    apply Hk. rewrite <- E. apply merge_keys_elem; [|done].
    apply list_elem_of_In, List.filter_In in Hy as [Hy _]. by apply list_elem_of_In.
  - intros name. apply (Z.le_lt_trans _ (total name rs)); [|apply Ct]. clear Ck Ct.
    induction Ce as [|x rs Ex _ IH]; [done|]. cbn. pose proof (amount_nonneg name _ (e_value _ Ex)).
    destruct (f x); cbn [total]; lia.
Qed.

Lemma filter_loop p b rs : decides p b -> Forall entry_ok rs -> forall acc,
  ofold (fun result x => let! keep := p (resource x) in if keep then add result x else Ret result) rs acc =
  ofold add (List.filter (fun x => b (resource x)) rs) acc.
Proof.
  intros Hp. induction 1 as [|x rs Ex _ IH]; intros acc; cbn [ofold List.filter]; [done|].
  rewrite (Hp _ (e_post x Ex)). cbn [obind]. destruct (b (resource x)); [|apply IH]. cbn [ofold].
  by destruct (add acc x); [cbn [obind]; apply IH|].
Qed.

Lemma filter_entries p b rs : decides p b -> container_ok rs ->
  filter_resources p rs = Ret (List.filter (fun x => b (resource x)) rs).
Proof.
  intros Hp Hc. unfold filter_resources. rewrite (filter_loop p b) by (done || apply Hc).
  by apply container_rebuild, sublist_ok.
Qed.

Lemma total_filter f name rs :
  total name rs = total name (List.filter f rs) + total name (List.filter (fun x => negb (f x)) rs).
Proof. induction rs as [|x rs IH]; [done|]. cbn. destruct (f x); cbn [total negb]; lia. Qed.

Lemma onot_decides p b : decides p b -> decides (onot p) (fun r => negb (b r)).
Proof. intros H r Hr. unfold onot. by rewrite (H r Hr). Qed.

Lemma isReserved_decides : decides (fun r => isReserved r None) (fun r => negb (length (r_reservations r) =? 0)%nat).
Proof. intros r. apply isReserved_post. Qed.
Lemma isRevocable_decides : decides isRevocable r_revocable.
Proof. intros r Hr. unfold isRevocable. by rewrite CHECK_post_ok. Qed.
Lemma isShared_decides : decides isSharedResource r_shared.
Proof. intros r Hr. unfold isSharedResource. by rewrite CHECK_post_ok. Qed.
Lemma isUnreserved_decides : decides isUnreserved (fun r => (length (r_reservations r) =? 0)%nat).
Proof. intros r Hr. unfold isUnreserved. by rewrite CHECK_post_ok. Qed.

(** The role a resource is reserved for, if it is. *)
Definition reserved_role (r : Resource) : option string := reservation_role <$> last (r_reservations r).
Definition reserved_for (role : string) (r : Resource) : bool := bool_decide (reserved_role r = Some role).
Definition is_reserved (r : Resource) : bool := has (reserved_role r).
Definition persistent (r : Resource) : bool := match r_disk r with Some d => has (d_persistence d) | None => false end.
Definition allocatable (role : string) (r : Resource) : bool :=
  match reserved_role r with None => true | Some rr => String.eqb role rr || isStrictSubroleOf role rr end.

Lemma reserved_length r : (length (r_reservations r) =? 0)%nat = negb (is_reserved r).
Proof.
  unfold is_reserved, reserved_role. destruct (r_reservations r) as [|ri l] using rev_ind; [done|].
  rewrite length_app, last_snoc. cbn. by rewrite Nat.add_1_r.
Qed.

Lemma reservationRole_post r : is_reserved r = true -> reservationRole r = Ret (default "" (reserved_role r)).
Proof.
  unfold is_reserved, reservationRole, reserved_role. destruct (r_reservations r) as [|ri l] using rev_ind; [done|].
  rewrite last_snoc, length_app. cbn. intros _. by rewrite Nat.add_1_r.
Qed.

Lemma is_reserved_decides : decides (fun r => isReserved r None) is_reserved.
Proof. intros r Hr. rewrite isReserved_post, reserved_length by done. by rewrite negb_involutive. Qed.
Lemma unreserved_decides : decides isUnreserved (fun r => negb (is_reserved r)).
Proof. intros r Hr. unfold isUnreserved. by rewrite CHECK_post_ok, <- reserved_length. Qed.
Lemma persistent_decides : decides isPersistentVolume persistent.
Proof. intros r Hr. unfold isPersistentVolume. by rewrite CHECK_post_ok. Qed.

Lemma reserved_for_decides role : decides (fun r => isReserved r (Some role)) (reserved_for role).
Proof.
  intros r Hr. unfold isReserved. rewrite CHECK_post_ok, (unreserved_decides r Hr) by done. cbn [obind].
  unfold reserved_for. destruct (is_reserved r) eqn:E; cbn [negb].
  - rewrite (reservationRole_post r E). cbn [obind]. unfold is_reserved in E. destruct (reserved_role r) as [rr|]; [cbn|done].
    destruct (String.eqb_spec role rr) as [->|]; [by rewrite bool_decide_true|rewrite bool_decide_false by congruence; done].
  - unfold is_reserved in E. by destruct (reserved_role r).
Qed.

Lemma allocatable_decides role : decides (isAllocatableTo role) (allocatable role).
Proof.
  intros r Hr. unfold isAllocatableTo. rewrite CHECK_post_ok, (unreserved_decides r Hr) by done. cbn [obind].
  unfold allocatable. destruct (is_reserved r) eqn:E; cbn [negb].
  - rewrite (reservationRole_post r E). unfold is_reserved in E. destruct (reserved_role r) as [rr|]; [cbn|done].
    by destruct (String.eqb role rr).
  - unfold is_reserved in E. by destruct (reserved_role r).
Qed.

Definition entries_where (b : Resource -> bool) (rs : list Resource_) : list Resource_ :=
  List.filter (fun x => b (resource x)) rs.

(** ** Groupings *)

Lemma merge_keys_filter f rs k : k ∈ merge_keys (List.filter f rs) -> k ∈ merge_keys rs.
Proof.
  intros (y & Hy & Hm & <-)%merge_keys_inv. apply merge_keys_elem; [|done].
  apply list_elem_of_In, List.filter_In in Hy as [Hy _]. by apply list_elem_of_In.
Qed.

(** The entries of each key, and no empty group. *)
Definition grouped (key : Resource -> option string) (rs : list Resource_) (m : gmap string Resources) : Prop :=
  forall k, m !! k = match entries_where (fun r => bool_decide (key r = Some k)) rs with [] => None | l => Some l end.

Lemma grouped_default key rs m k : grouped key rs m ->
  default [] (m !! k) = entries_where (fun r => bool_decide (key r = Some k)) rs.
Proof. intros H. rewrite H. by destruct (entries_where _ rs). Qed.

Lemma entries_where_snoc b rs x : entries_where b (rs ++ [x]) = if b (resource x) then entries_where b rs ++ [x] else entries_where b rs.
Proof. unfold entries_where. rewrite List.filter_app. cbn. destruct (b (resource x)); [done|by rewrite app_nil_r]. Qed.

Lemma grouped_snoc key rs x m : container_ok (rs ++ [x]) -> grouped key rs m ->
  exists m', match key (resource x) with Some k => add_at m k x | None => Ret m end = Ret m' /\ grouped key (rs ++ [x]) m'.
Proof.
  intros Hc Hg. destruct Hc as [Ce Ck _]. apply Forall_app in Ce as [Ce [Ex _]%Forall_cons].
  destruct (key (resource x)) as [k|] eqn:E.
  - unfold add_at. rewrite (grouped_default key rs) by done. set (l := entries_where _ rs).
    assert (Hl : add l x = Ret (l ++ [x])).
    { apply add_separate; [|done|].
      - apply Forall_forall. intros y Hy. apply list_elem_of_In, List.filter_In in Hy as [Hy _].
        rewrite Forall_forall in Ce. by apply Ce, list_elem_of_In.
      - intros Hm Hk. apply (separate_next rs x [] Ck Hm). by eapply merge_keys_filter. }
    rewrite Hl. cbn [obind]. eexists. split; [done|]. intros k'. rewrite entries_where_snoc, E.
    destruct (decide (k = k')) as [<-|Hk].
    + rewrite lookup_insert_eq, bool_decide_true by done. fold l. by destruct l.
    + rewrite lookup_insert_ne, bool_decide_false by (done || congruence). apply Hg.
  - exists m. split; [done|]. intros k'. rewrite entries_where_snoc, E. apply Hg.
Qed.

Lemma container_prefix l1 l2 : container_ok (l1 ++ l2) -> container_ok l1.
Proof.
  intros [Ce Ck Ct]. apply Forall_app in Ce as [Ce Ce2]. split; [done| |].
  - rewrite merge_keys_app in Ck. by apply NoDup_app in Ck as [? _].
  - intros name. specialize (Ct name). rewrite total_app in Ct. pose proof (total_nonneg name _ Ce2). lia.
Qed.

Lemma group_loop key step rs : (forall m x, entry_ok x -> x ∈ rs ->
    step m x = match key (resource x) with Some k => add_at m k x | None => Ret m end) ->
  forall acc m, container_ok (acc ++ rs) -> grouped key acc m ->
  exists m', ofold step rs m = Ret m' /\ grouped key (acc ++ rs) m'.
Proof.
  induction rs as [|x rs IH]; intros Hs acc m Hc Hg; cbn [ofold]; [rewrite app_nil_r; eauto|].
  rewrite (cons_middle x acc rs), app_assoc in *. pose proof (container_prefix _ _ Hc) as Hp.
  destruct (grouped_snoc key acc x m Hp Hg) as (m1 & E1 & G1).
  rewrite Hs by ((by left) || (destruct Hp as [Ce _ _]; by apply Forall_app in Ce as [_ [? _]%Forall_cons])).
  rewrite E1. cbn [obind]. apply IH; [|done..]. intros m' y Hy Hin. apply Hs; [done|]. by right.
Qed.

Lemma grouped_nil key : grouped key [] ∅.
Proof. intros k. apply lookup_empty. Qed.

Lemma groupings_lemma rs : container_ok rs ->
  (exists m, reservations rs = Ret m /\ grouped reserved_role rs m) /\
  ((forall x, x ∈ rs -> exists role, r_allocation_info (resource x) = Some (Some role)) ->
   exists m, allocations rs = Ret m /\ grouped (fun r => default None (r_allocation_info r)) rs m).
Proof.
  intros Hc. split.
  - apply (group_loop reserved_role _ rs) with (acc := []); [|done|apply grouped_nil]. intros m x Ex _.
    rewrite (is_reserved_decides _ (e_post x Ex)). cbn [obind]. destruct (is_reserved (resource x)) eqn:E.
    + rewrite (reservationRole_post _ E). unfold is_reserved in E. by destruct (reserved_role (resource x)).
    + unfold is_reserved in E. by destruct (reserved_role (resource x)).
  - intros Ha. apply (group_loop (fun r => default None (r_allocation_info r)) _ rs) with (acc := []); [|done|apply grouped_nil].
    intros m x _ Hx. destruct (Ha x Hx) as [role ->]. done.
Qed.

(** C30: on a container the filters [reserved], [unreserved], [allocatableTo],
    [persistentVolumes], [revocable], [nonRevocable], [shared] and [nonShared] return
    exactly the entries that satisfy their predicate, in the order they have; the
    result satisfies the container's invariant, and with the entries that were left
    out it makes up the quantities of the whole.  [reservations] and [allocations] sort
    the entries by the role they are reserved for, or allocated to: under every role
    stand exactly its entries, and no group is empty. *)
Theorem filters_exact rs role : container_ok rs ->
  reserved rs None = Ret (entries_where is_reserved rs) /\
  reserved rs (Some role) = Ret (entries_where (reserved_for role) rs) /\
  unreserved rs = Ret (entries_where (fun r => negb (is_reserved r)) rs) /\
  allocatableTo rs role = Ret (entries_where (allocatable role) rs) /\
  persistentVolumes rs = Ret (entries_where persistent rs) /\
  revocable rs = Ret (entries_where r_revocable rs) /\
  nonRevocable rs = Ret (entries_where (fun r => negb (r_revocable r)) rs) /\
  shared rs = Ret (entries_where r_shared rs) /\
  nonShared rs = Ret (entries_where (fun r => negb (r_shared r)) rs) /\
  (forall b, container_ok (entries_where b rs) /\
    forall name, total name rs = total name (entries_where b rs) + total name (entries_where (fun r => negb (b r)) rs)) /\
  (exists m, reservations rs = Ret m /\ grouped reserved_role rs m) /\
  ((forall x, x ∈ rs -> exists role, r_allocation_info (resource x) = Some (Some role)) ->
   exists m, allocations rs = Ret m /\ grouped (fun r => default None (r_allocation_info r)) rs m).
Proof.
  intros Hc. destruct (groupings_lemma rs Hc) as [Hg1 Hg2].
  split_and!; [apply filter_entries; [|done]..| |done|done].
  - apply is_reserved_decides.
  - apply reserved_for_decides.
  - apply unreserved_decides.
  - apply allocatable_decides.
  - apply persistent_decides.
  - apply isRevocable_decides.
  - apply (onot_decides _ _ isRevocable_decides).
  - apply isShared_decides.
  - apply (onot_decides _ _ isShared_decides).
  - intros b. split; [by apply sublist_ok|]. intros name. apply total_filter.
Qed.

(** ** Changes of every entry *)

(** A change that keeps entries entries, and apart. *)
Record keeps_apart (f : Resource -> Resource) (rs : list Resource_) : Prop := {
  k_entry : forall x, x ∈ rs -> entry_ok (map_resource f x);
  k_value : forall x, x ∈ rs -> same_value_as (resource x) (f (resource x));
  k_mergeable : forall x, x ∈ rs -> mergeable (f (resource x)) = mergeable (resource x);
  k_key : forall x y, x ∈ rs -> y ∈ rs -> skey (f (resource x)) = skey (f (resource y)) -> skey (resource x) = skey (resource y);
}.

Lemma same_value_amount name r r' : same_value_as r r' -> amount name r' = amount name r.
Proof. intros [H1 H2 H3 _ _]. unfold amount, scalar. by rewrite H1, H2, H3. Qed.

Lemma total_map f name rs : (forall x, x ∈ rs -> same_value_as (resource x) (f (resource x))) ->
  total name (map (map_resource f) rs) = total name rs.
Proof.
  intros H. induction rs as [|x rs IH]; [done|]. cbn [map total map_resource resource].
  rewrite (same_value_amount name _ _ (H x ltac:(by left))), IH; [done|]. intros y Hy. apply H. by right.
Qed.

Lemma keeps_apart_tail f x rs : keeps_apart f (x :: rs) -> keeps_apart f rs.
Proof. intros [H1 H2 H3 H4]. split; intros; [apply H1|apply H2|apply H3|apply H4]; by (done || right). Qed.

Lemma map_container f rs : container_ok rs -> keeps_apart f rs -> container_ok (map (map_resource f) rs).
Proof.
  intros [Ce Ck Ct] Hk. split.
  - apply Forall_fmap, Forall_forall. apply (k_entry _ _ Hk).
  - clear Ce Ct. induction rs as [|x rs IH]; [done|]. rewrite merge_keys_cons in Ck. cbn [map].
    rewrite merge_keys_cons. cbn [map_resource resource]. rewrite (k_mergeable _ _ Hk x) by (by left).
    pose proof (keeps_apart_tail _ _ _ Hk) as Ht. destruct (mergeable (resource x)) eqn:Em; [|by apply IH].
    apply NoDup_cons in Ck as [Hx Ck]. apply NoDup_cons. split; [|by apply IH].
    intros (y & (z & -> & Hz)%list_elem_of_fmap & Hm & E)%merge_keys_inv. cbn [map_resource resource] in Hm, E.
    apply Hx. rewrite (k_key _ _ Hk x z) by (done || (by left) || by right). apply merge_keys_elem; [done|].
    by rewrite <- (k_mergeable _ _ Ht).
  - intros name. rewrite total_map; [apply Ct|]. apply (k_value _ _ Hk).
Qed.

Lemma add_map f rs : forall acc, ofold (fun result x => add result (map_resource f x)) rs acc = ofold add (map (map_resource f) rs) acc.
Proof. induction rs as [|x rs IH]; intros acc; [done|]. cbn. by destruct (add acc (map_resource f x)); [apply IH|]. Qed.

Lemma map_rebuild f rs : container_ok rs -> keeps_apart f rs ->
  ofold (fun result x => add result (map_resource f x)) rs [] = Ret (map (map_resource f) rs).
Proof. intros Hc Hk. rewrite add_map. by apply container_rebuild, map_container. Qed.

(** *** Allocation *)

Lemma allocation_entry a x : entry_ok x -> entry_ok (map_resource (fun r => with_allocation r a) x).
Proof. intros [H1 H2 H3 H4 H5 H6]. by split. Qed.

Lemma allocation_apart a b rs : Forall entry_ok rs -> (forall x, x ∈ rs -> r_allocation_info (resource x) = b) ->
  keeps_apart (fun r => with_allocation r a) rs.
Proof.
  intros Ce Hb. rewrite Forall_forall in Ce. split; try done.
  - intros x Hx. apply allocation_entry, Ce, Hx.
  - intros x y Hx Hy. unfold skey. rewrite !pair_equal_spec. intros [[Hi Hs] Hv]. split; [split; [|done]|exact Hv].
    unfold identity in *. cbn in Hi. rewrite (Hb x Hx), (Hb y Hy). congruence.
Qed.

Lemma with_allocation_id r a : with_allocation (with_allocation r a) (r_allocation_info r) = r.
Proof. by destruct r. Qed.

Lemma unallocate_uniform rs role : (forall x, x ∈ rs -> r_allocation_info (resource x) = Some role) ->
  unallocate rs = map (map_resource (fun r => with_allocation r None)) rs.
Proof. intros H. apply map_ext_in. intros x Hx%list_elem_of_In. unfold map_resource. by rewrite (H x Hx). Qed.

Lemma allocate_elem rs role y : y ∈ allocate rs role -> r_allocation_info (resource y) = Some (Some role).
Proof. by intros (x & -> & _)%list_elem_of_fmap. Qed.

(** *** Reservations *)

Definition push (reservation : ReservationInfo) (r : Resource) : Resource :=
  with_reservations r (r_reservations r ++ [reservation]).

Lemma push_apart ri rs : Forall entry_ok rs -> regular_reservation ri -> keeps_apart (push ri) rs.
Proof.
  intros Ce Hr. rewrite Forall_forall in Ce. split; try done.
  - intros x Hx. destruct (Ce x Hx) as [H1 H2 H3 H4 H5 H6]. split; try done. destruct H2 as [H2 H7]. split; [|done].
    apply Forall_app. split; [done|]. by constructor.
  - intros x y Hx Hy. unfold skey. rewrite !pair_equal_spec. intros [[Hi Hs] Hv]. split; [split; [|done]|exact Hv].
    unfold identity in *. cbn in Hi. rewrite !map_app in Hi. injection Hi as H1 H2 H3 H4 H5 H6 H7.
    apply app_inj_tail in H4 as [H4 _]. congruence.
Qed.

Lemma pop_push ri r : pop_last (push ri r) = r.
Proof. unfold pop_last, push. cbn. rewrite removelast_last. by destruct r. Qed.

Lemma push_loop ri rs : (forall x, x ∈ rs -> validate (push ri (resource x)) = Ret None) -> forall acc,
  ofold (fun result x =>
    let x := map_resource (fun r => with_reservations r (r_reservations r ++ [ri])) x in
    let! error := validate (resource x) in
    CHECK (negb (has error)) "CHECK_NONE(Resources::validate(resource_.resource))" ;;!
    add result x) rs acc =
  ofold (fun result x => add result (map_resource (push ri) x)) rs acc.
Proof.
  induction rs as [|x rs IH]; intros Hv acc; [done|]. cbn [ofold].
  cbn [map_resource resource]. unfold push in Hv. rewrite (Hv x ltac:(by left)). cbn [obind CHECK negb has].
  unfold push at 1. destruct (add acc _); [|done]. cbn [obind]. apply IH. intros y Hy. apply Hv. by right.
Qed.

Lemma pop_loop rs : (forall x, x ∈ rs -> (0 < length (r_reservations (resource x)))%nat) -> forall acc,
  ofold (fun result x =>
    CHECK (0 <? length (r_reservations (resource x)))%nat "reservations_size() > 0" ;;!
    add result (map_resource pop_last x)) rs acc =
  ofold add (map (map_resource pop_last) rs) acc.
Proof.
  induction rs as [|x rs IH]; intros Hl acc; [done|]. cbn [ofold map].
  assert ((0 <? length (r_reservations (resource x)))%nat = true) as -> by (apply Nat.ltb_lt, Hl; by left).
  cbn [obind CHECK]. destruct (add acc (map_resource pop_last x)); [|done]. cbn [obind]. apply IH. intros y Hy. apply Hl. by right.
Qed.

Lemma map_resource_id f g rs : (forall x, x ∈ rs -> g (f (resource x)) = resource x) ->
  map (map_resource g) (map (map_resource f) rs) = rs.
Proof.
  intros H. rewrite map_map. rewrite <- (map_id rs) at 2. apply map_ext_in. intros x Hx%list_elem_of_In.
  unfold map_resource. cbn. rewrite (H x Hx). by destruct x.
Qed.

(** C31: pushing a reservation on every entry of a container and popping it again gives
    the container back, entry by entry, when the reserved resources are valid; and so
    does allocating an unallocated container to a role and unallocating it.  In
    between the containers satisfy the invariant and have the same quantities, and an
    allocated container has one group, itself. *)
Theorem push_pop_allocate rs ri role : container_ok rs -> regular_reservation ri ->
  ((forall x, x ∈ rs -> validate (push ri (resource x)) = Ret None) ->
   exists rs', pushReservation rs ri = Ret rs' /\ container_ok rs' /\ popReservation rs' = Ret rs /\
     forall name, total name rs' = total name rs) /\
  ((forall x, x ∈ rs -> r_allocation_info (resource x) = None) ->
   container_ok (allocate rs role) /\ unallocate (allocate rs role) = rs /\
   (forall name, total name (allocate rs role) = total name rs) /\
   allocations (allocate rs role) = Ret (match rs with [] => ∅ | _ => {[role := allocate rs role]} end)).
Proof.
  intros Hc Hri. pose proof Hc as [Ce _ _]. split.
  - intros Hv. pose proof (push_apart ri rs Ce Hri) as Hk. exists (map (map_resource (push ri)) rs).
    assert (map (map_resource pop_last) (map (map_resource (push ri)) rs) = rs) as Hm
      by (apply map_resource_id; intros; apply pop_push). split_and!.
    + unfold pushReservation. rewrite push_loop by done. by apply map_rebuild.
    + by apply map_container.
    + unfold popReservation. rewrite pop_loop, Hm; [by apply container_rebuild|].
      intros y (x & -> & _)%list_elem_of_fmap. cbn. rewrite length_app. cbn. lia.
    + intros name. apply total_map, Hk.
  - intros Ha. pose proof (allocation_apart (Some (Some role)) None rs Ce Ha) as Hk.
    assert (container_ok (allocate rs role)) as Hc' by (by apply map_container). split_and!; [done| | |].
    + rewrite (unallocate_uniform _ (Some role)) by (apply allocate_elem). unfold allocate. apply map_resource_id.
      intros x Hx. rewrite <- (Ha x Hx). apply with_allocation_id.
    + intros name. apply total_map, Hk.
    + destruct (groupings_lemma (allocate rs role) Hc') as [_ Hg].
      destruct Hg as (m & -> & Hm); [intros x ->%allocate_elem; eauto|]. f_equal. apply map_eq. intros k. rewrite (Hm k).
      assert (entries_where (fun r => bool_decide (default None (r_allocation_info r) = Some k)) (allocate rs role) =
              if decide (k = role) then allocate rs role else []) as ->.
      { clear. unfold entries_where, allocate. induction rs as [|x rs IH]; [by case_decide|]. cbn. rewrite IH.
        case_decide as E; [subst; by rewrite bool_decide_true|]. by rewrite bool_decide_false by congruence. }
      destruct (decide (k = role)) as [->|Hne]; destruct rs; cbn; rewrite ?lookup_empty, ?lookup_singleton_eq, ?lookup_singleton_ne; done.
Qed.

(** ** Sums *)

Definition unshared (rs : list Resource_) : Prop := forall x, x ∈ rs -> r_shared (resource x) = false.

Lemma add_all_spec l : forall acc, container_ok acc -> Forall operand_ok l -> unshared l ->
  (forall name, total name acc + total name l < 2 ^ 51) ->
  exists rs', ofold add l acc = Ret rs' /\ container_ok rs' /\
    (forall name, total name rs' = total name acc + total name l) /\
    (forall name p, holds name rs' p <-> holds name acc p \/ holds name l p) /\
    (forall name u, has_piece name rs' u <-> has_piece name acc u \/ has_piece name l u).
Proof.
  induction l as [|x l IH]; intros acc Hc Ho Hs Hb; cbn [ofold].
  { exists acc. split_and!; [done..|intros name; cbn; lia| |].
    - intros name p. split; [by left|]. intros [?|(x & ?%not_elem_of_nil & _)]; done.
    - intros name u. split; [by left|]. by intros [?|?%has_piece_nil]. }
  apply Forall_cons in Ho as [Hx Ho].
  assert (forall name, 0 <= total name l) as Hl.
  { intros name. clear -Ho. induction Ho as [|y l Hy _ IH]; [done|]. cbn. pose proof (amount_nonneg name _ (o_value _ Hy)). lia. }
  destruct (add_spec acc x Hc Hx) as (rs1 & E1 & H1 & Hq); [intros name; specialize (Hb name); specialize (Hl name); cbn in Hb; lia|].
  destruct (Hq (Hs x ltac:(by left))) as [Hq1 Hq2].
  pose proof (fun name u => add_pieces acc x rs1 name u Hc Hx (Hs x ltac:(by left)) E1) as Hq3. rewrite E1. cbn [obind].
  destruct (IH rs1 H1 Ho) as (rs' & E & H' & Ht & Hh & Hp).
  - intros y Hy. apply Hs. by right.
  - intros name. rewrite Hq1. specialize (Hb name). cbn in Hb. lia.
  - exists rs'. split_and!; [done..| | |].
    + intros name. rewrite Ht, Hq1. cbn. lia.
    + intros name p. rewrite Hh, Hq2, holds_cons. tauto.
    + intros name u. rewrite Hp, Hq3, has_piece_cons. tauto.
Qed.

Lemma container_operands rs : container_ok rs -> Forall operand_ok rs.
Proof. intros [Ce _ _]. eapply Forall_impl; [exact Ce|]. apply entry_operand. Qed.

Lemma plus_spec rs that : container_ok rs -> container_ok that -> unshared that ->
  (forall name, total name rs + total name that < 2 ^ 51) ->
  exists rs', plus rs that = Ret rs' /\ container_ok rs' /\
    (forall name, total name rs' = total name rs + total name that) /\
    (forall name p, holds name rs' p <-> holds name rs p \/ holds name that p) /\
    (forall name u, has_piece name rs' u <-> has_piece name rs u \/ has_piece name that u).
Proof. intros Hr Ht Hs Hb. apply add_all_spec; [done|by apply container_operands|done..]. Qed.

Fixpoint total_all (name : string) (containers : list Resources) : Z :=
  match containers with [] => 0 | rs :: rest => total name rs + total_all name rest end.

Lemma total_all_nonneg name containers : Forall container_ok containers -> 0 <= total_all name containers.
Proof. induction 1 as [|rs l [Ce _ _] _ IH]; cbn; [done|]. pose proof (total_nonneg name _ Ce). lia. Qed.

Lemma sum_loop containers : forall acc, Forall container_ok containers -> Forall unshared containers -> container_ok acc ->
  (forall name, total name acc + total_all name containers < 2 ^ 51) ->
  exists rs', ofold plus containers acc = Ret rs' /\ container_ok rs' /\
    (forall name, total name rs' = total name acc + total_all name containers) /\
    (forall name u, has_piece name rs' u <-> has_piece name acc u \/ exists c, c ∈ containers /\ has_piece name c u).
Proof.
  induction containers as [|rs l IH]; intros acc Hc Hu Ha Hb; cbn [ofold].
  { exists acc. split_and!; [done..|intros name; cbn; lia|]. intros name u. split; [by left|].
    by intros [?|(c & ?%not_elem_of_nil & _)]. }
  apply Forall_cons in Hc as [Hr Hc]. apply Forall_cons in Hu as [Hu1 Hu].
  destruct (plus_spec acc rs Ha Hr Hu1) as (rs1 & -> & H1 & Ht & _ & Hp).
  { intros name. specialize (Hb name). cbn in Hb. pose proof (total_all_nonneg name l Hc). lia. }
  cbn [obind]. destruct (IH rs1 Hc Hu H1) as (rs' & E & H' & Ht' & Hp').
  { intros name. rewrite Ht. specialize (Hb name). cbn in Hb. lia. }
  exists rs'. split_and!; [done..|intros name; rewrite Ht', Ht; cbn; lia|].
  intros name u. rewrite Hp', Hp. setoid_rewrite elem_of_cons. split.
  - intros [[?|?]|(c & ? & ?)]; eauto.
  - intros [?|(c & [->|?] & ?)]; eauto.
Qed.

(** *** Maps of containers *)

Definition total_at (name k : string) (m : gmap string Resources) : Z := total name (default [] (m !! k)).

Definition piece_at (name k : string) (m : gmap string Resources) (u : Piece) : Prop := has_piece name (default [] (m !! k)) u.

Definition map_ok (m : gmap string Resources) : Prop := forall k rs, m !! k = Some rs -> container_ok rs.

Lemma map_ok_default m k : map_ok m -> container_ok (default [] (m !! k)).
Proof. intros Hm. destruct (m !! k) as [rs|] eqn:E; [by eapply Hm|apply container_nil]. Qed.

Lemma total_at_insert name k k' rs m : total_at name k' (<[k := rs]> m) = if decide (k = k') then total name rs else total_at name k' m.
Proof. unfold total_at. case_decide as E; [subst; by rewrite lookup_insert_eq|by rewrite lookup_insert_ne]. Qed.

Lemma piece_at_insert name k k' rs m u : piece_at name k' (<[k := rs]> m) u <->
  if decide (k = k') then has_piece name rs u else piece_at name k' m u.
Proof. unfold piece_at. case_decide as E; [subst; by rewrite lookup_insert_eq|by rewrite lookup_insert_ne]. Qed.

Lemma map_plus_spec right : forall left, NoDup right.*1 -> map_ok left -> Forall (fun kr => container_ok kr.2 /\ unshared kr.2) right ->
  (forall name k, total_at name k left + total_at name k (list_to_map right) < 2 ^ 51) ->
  exists m, map_plus left right = Ret m /\ map_ok m /\
    (forall name k, total_at name k m = total_at name k left + total_at name k (list_to_map right)) /\
    forall name k u, piece_at name k m u <-> piece_at name k left u \/ piece_at name k (list_to_map right) u.
Proof.
  unfold map_plus. induction right as [|[k rs] right IH]; intros left Hn Hl Hr Hb; cbn [ofold fst snd].
  { exists left. split_and!; [done..| |].
    - intros name k. assert (total_at name k (list_to_map []) = 0) as -> by done. lia.
    - intros name k u. split; [by left|]. by intros [?|?%has_piece_nil]. }
  apply NoDup_cons in Hn as [Hk Hn]. apply Forall_cons in Hr as [[Hc Hu] Hr]. cbn in Hk, Hc, Hu.
  assert (total_at_right : forall name k', total_at name k' (list_to_map ((k, rs) :: right)) =
    if decide (k = k') then total name rs else total_at name k' (list_to_map right)) by (intros; apply total_at_insert).
  assert (Hz : forall name, total_at name k (list_to_map right) = 0).
  { intros name. unfold total_at. by rewrite not_elem_of_list_to_map_1. }
  assert (Hnp : forall name u, ~ piece_at name k (list_to_map right) u).
  { intros name u. unfold piece_at. rewrite not_elem_of_list_to_map_1 by done. apply has_piece_nil. }
  destruct (plus_spec (default [] (left !! k)) rs) as (l & -> & H1 & Ht & _ & Hp); [by apply map_ok_default|done..| |].
  { intros name. specialize (Hb name k). rewrite total_at_right, decide_True in Hb by done. exact Hb. }
  cbn [obind]. destruct (IH (<[k := l]> left) Hn) as (m & E & Hm & Htm & Hpm).
  - intros k' rs'. destruct (decide (k = k')) as [<-|Hne]; [rewrite lookup_insert_eq; by intros [= <-]|].
    rewrite lookup_insert_ne by done. apply Hl.
  - done.
  - intros name k'. rewrite total_at_insert. specialize (Hb name k'). rewrite total_at_right in Hb.
    case_decide as Ek; [subst k'; rewrite Hz, Ht; unfold total_at in Hb; lia|done].
  - exists m. split_and!; [done..| |].
    + intros name k'. rewrite Htm, total_at_insert, total_at_right.
      case_decide as Ek; [subst k'; rewrite Hz, Ht; unfold total_at; lia|done].
    + intros name k' u. change (list_to_map ((k, rs) :: right)) with (<[k := rs]> (list_to_map right : gmap string Resources)).
      rewrite Hpm, !piece_at_insert. case_decide as Ek; [|done]. subst k'. rewrite Hp.
      pose proof (Hnp name u). unfold piece_at at 2. tauto.
Qed.

(** ** Quantities without their owners *)

Lemma clear_operand x : entry_ok x -> operand_ok (map_resource clear_reservations x).
Proof. intros [H1 [_ H2] H3 _ H5 H6]. by split. Qed.

Lemma toUnreserved_spec rs : container_ok rs -> unshared rs ->
  exists rs', toUnreserved rs = Ret rs' /\ container_ok rs' /\ same_quantities rs rs' /\
    forall name u, has_piece name rs' u <-> has_piece name rs u.
Proof.
  intros Hc Hu. pose proof Hc as [Ce _ Ct]. unfold toUnreserved. rewrite add_map.
  assert (forall name, total name (map (map_resource clear_reservations) rs) = total name rs) as Ht
    by (intros name; apply total_map; by intros).
  destruct (add_all_spec (map (map_resource clear_reservations) rs) []) as (rs' & E & H' & Hq & Hh & Hp).
  - apply container_nil.
  - apply Forall_fmap. eapply Forall_impl; [exact Ce|]. apply clear_operand.
  - intros y (x & -> & Hx)%list_elem_of_fmap. by apply (Hu x).
  - intros name. rewrite Ht. apply Ct.
  - exists rs'. split_and!; [done..| |].
    + split; [intros name; rewrite Hq, Ht; cbn; lia|]. intros name p. rewrite Hh. split.
      * intros [(x & ?%not_elem_of_nil & _)|(y & (x & -> & Hx)%list_elem_of_fmap & Hm)]; [done|]. by exists x.
      * intros (x & Hx & Hm). right. exists (map_resource clear_reservations x). split; [by apply list_elem_of_fmap_2|done].
    + intros name u. rewrite Hp. split.
      * intros [?%has_piece_nil|(y & (x & -> & Hx)%list_elem_of_fmap & Hm)]; [done|]. by exists x.
      * intros (x & Hx & Hm). right. exists (map_resource clear_reservations x). split; [by apply list_elem_of_fmap_2|done].
Qed.

(** What [createStrippedScalarQuantity] keeps of a scalar. *)
Definition stripped_scalar (r : Resource) : Resource :=
  let s := with_allocation (with_provider_id r None) None in
  let s := match reserved_role r with
           | Some role => with_reservations s [mkReservation (Some STATIC) (Some role) None None]
           | None => s
           end in
  with_shared (with_disk s None) false.
Definition is_scalar (r : Resource) : bool := bool_decide (r_type r = SCALAR).

Lemma stripped_loop rs : Forall entry_ok rs -> forall acc,
  ofold (fun stripped x =>
    match r_type (resource x) with
    | SCALAR =>
        let s := with_allocation (with_provider_id (resource x) None) None in
        let! res := isReserved s None in
        let! s := if res then
                    let! role := reservationRole s in
                    Ret (with_reservations s [mkReservation (Some STATIC) (Some role) None None])
                  else Ret s in
        add stripped (Resource_of (with_shared (with_disk s None) false))
    | _ => Ret stripped
    end) rs acc =
  ofold add (map (fun x => Resource_of (stripped_scalar (resource x))) (entries_where is_scalar rs)) acc.
Proof.
  induction 1 as [|x rs Ex _ IH]; intros acc; [done|]. cbn [ofold].
  assert (entries_where is_scalar (x :: rs) =
    if is_scalar (resource x) then x :: entries_where is_scalar rs else entries_where is_scalar rs) as -> by done.
  unfold is_scalar at 1. destruct (r_type (resource x)) eqn:Et;
    [rewrite bool_decide_true by done|rewrite bool_decide_false by done; apply IH..].
  cbn [map ofold]. unfold stripped_scalar at 1. set (s := with_allocation _ None).
  rewrite (is_reserved_decides s (e_post x Ex)). cbn [obind].
  assert (reserved_role s = reserved_role (resource x)) as Er by done. unfold is_reserved at 1. rewrite <- Er.
  destruct (reserved_role s) as [role|] eqn:Es; cbn [has].
  - rewrite reservationRole_post by (unfold is_reserved; by rewrite Es). rewrite Es. cbn [obind default].
    destruct (add acc _); [|done]. apply IH.
  - cbn [obind]. destruct (add acc _); [|done]. apply IH.
Qed.

Lemma stripped_operand x : entry_ok x -> r_type (resource x) = SCALAR -> operand_ok (Resource_of (stripped_scalar (resource x))).
Proof.
  intros [H1 H2 H3 _ _ _] Ht. unfold stripped_scalar. split; try done.
  - by destruct (reserved_role (resource x)).
  - cbn. destruct (reserved_role (resource x)); cbn; (split; [|done]).
    + constructor; [|done]. by intros l.
    + by destruct H2.
  - unfold value_ok in *. rewrite Ht in H3. by destruct (reserved_role (resource x)); cbn; rewrite Ht.
Qed.

Lemma stripped_amount name r : amount name (stripped_scalar r) = amount name r.
Proof. unfold stripped_scalar. by destruct (reserved_role r). Qed.

Lemma total_scalars name rs : total name (entries_where is_scalar rs) = total name rs.
Proof.
  induction rs as [|x rs IH]; [done|]. unfold entries_where in *. cbn. unfold is_scalar at 1.
  case_bool_decide as E; cbn; rewrite IH; [done|]. by rewrite amount_other.
Qed.

Lemma createStripped_spec rs : container_ok rs ->
  exists rs', createStrippedScalarQuantity rs = Ret rs' /\ container_ok rs' /\
    (forall name, total name rs' = total name rs) /\ (forall name u, ~ has_piece name rs' u).
Proof.
  intros [Ce _ Ct]. unfold createStrippedScalarQuantity. rewrite (stripped_loop rs Ce).
  set (l := map _ _). assert (forall name, total name l = total name rs) as Ht.
  { intros name. rewrite <- (total_scalars name rs). unfold l. clear. induction (entries_where is_scalar rs) as [|x ys IH]; [done|].
    cbn. by rewrite stripped_amount, IH. }
  assert (Hin : forall y, y ∈ l -> exists x, entry_ok x /\ r_type (resource x) = SCALAR /\ y = Resource_of (stripped_scalar (resource x))).
  { intros y (x & -> & Hx)%list_elem_of_fmap. exists x. apply list_elem_of_In, List.filter_In in Hx as [Hx Hs].
    rewrite Forall_forall in Ce. split_and!; [by apply Ce, list_elem_of_In|by apply bool_decide_eq_true in Hs|done]. }
  destruct (add_all_spec l []) as (rs' & E & H' & Hq & _ & Hp).
  - apply container_nil.
  - apply Forall_forall. intros y (x & Ex & Et & ->)%Hin. by apply stripped_operand.
  - intros y (x & _ & _ & ->)%Hin. done.
  - intros name. rewrite Ht. apply Ct.
  - exists rs'. split_and!; [done..|intros name; rewrite Hq, Ht; cbn; lia|]. intros name u.
    rewrite Hp. intros [?%has_piece_nil|(y & (x & _ & Et & ->)%Hin & _ & Hm)]; [done|]. revert Hm. unfold carries, stripped_scalar.
    by destruct u, (reserved_role (resource x)); cbn; rewrite Et.
Qed.

(** C38: [toUnreserved], [createStrippedScalarQuantity], sums of containers and sums of
    maps of containers lose and invent nothing.  On a container without shared
    resources the first keeps the thousandths of every scalar, the numbers of every
    ranges resource and the items of every set resource; the second keeps the scalars
    and drops the rest.  In a sum of containers without shared resources the
    thousandths of every scalar are the sum of those of the parts, as long as these
    sums are below 2^51, and the numbers and items of every other resource are those of the parts together; likewise
    in a sum of maps, key by key and in whatever order the right map is gone through.
    None of them aborts, and the results satisfy the container's invariant. *)
Theorem sums_conserve rs containers left right :
  (container_ok rs -> exists rs', createStrippedScalarQuantity rs = Ret rs' /\ container_ok rs' /\
     (forall name, total name rs' = total name rs) /\ (forall name u, ~ has_piece name rs' u)) /\
  (container_ok rs -> unshared rs -> exists rs', toUnreserved rs = Ret rs' /\ container_ok rs' /\ same_quantities rs rs' /\
     forall name u, has_piece name rs' u <-> has_piece name rs u) /\
  (Forall container_ok containers -> Forall unshared containers -> (forall name, total_all name containers < 2 ^ 51) ->
   exists rs', sum containers = Ret rs' /\ container_ok rs' /\ (forall name, total name rs' = total_all name containers) /\
     forall name u, has_piece name rs' u <-> exists c, c ∈ containers /\ has_piece name c u) /\
  (NoDup right.*1 -> map_ok left -> Forall (fun kr => container_ok kr.2 /\ unshared kr.2) right ->
   (forall name k, total_at name k left + total_at name k (list_to_map right) < 2 ^ 51) ->
   exists m, map_plus left right = Ret m /\ map_ok m /\
     (forall name k, total_at name k m = total_at name k left + total_at name k (list_to_map right)) /\
     forall name k u, piece_at name k m u <-> piece_at name k left u \/ piece_at name k (list_to_map right) u).
Proof.
  split_and!; [apply createStripped_spec|apply toUnreserved_spec| |apply map_plus_spec].
  intros Hc Hu Hb. destruct (sum_loop containers [] Hc Hu container_nil) as (rs' & E & H' & Ht & Hp); [done|].
  exists rs'. split_and!; [done..|intros name; by rewrite Ht|]. intros name u. rewrite Hp. pose proof (has_piece_nil name u). tauto.
Qed.

(** ** Sequences of operations *)

(** C1: a sequence of offer operations within the bounds of a single one never aborts:
    it stops with the error of the first operation that cannot be applied, or ends with
    a container in which every quantity is what it was. *)
Theorem apply_all_conserves {P : Platform} {PL : PlatformLaws P} ops : forall rs, container_ok rs -> Forall operation_ok ops ->
  exists res, apply_all rs ops = Ret res /\
    match res with
    | TryOk rs' => container_ok rs' /\ same_quantities rs rs'
    | TryError e => exists done op rest rs1, ops = done ++ op :: rest /\ apply_all rs done = Ret (TryOk rs1) /\
        apply rs1 op = Ret (TryError e)
    end.
Proof.
  induction ops as [|op ops IH]; intros rs Hc Ho; cbn [apply_all].
  { eexists. split; [done|]. split; [done|by apply conserves_refl]. }
  apply Forall_cons in Ho as [Hop Ho]. destruct (apply_returns rs op Hc Hop) as (res & E & H). rewrite E. cbn [obind].
  destruct res as [rs1|e].
  - destruct (H rs1 eq_refl) as [Hc1 Hq]. destruct (IH rs1 Hc1 Ho) as (res & E' & H'). exists res. split; [done|].
    destruct res as [rs'|e].
    + destruct H' as [? ?]. split; [done|]. by eapply same_quantities_trans.
    + destruct H' as (dn & op' & rest & rs2 & -> & E1 & E2). exists (op :: dn), op', rest, rs2.
      split_and!; [done| |done]. cbn [apply_all]. by rewrite E.
  - eexists. split; [done|]. by exists [], op, ops, rs.
Qed.

(** ** Examples *)

Module Example.

Definition four_cpus : list Resource_ := [Resource_of (scalar_resource "cpus" 4 [])].

Lemma four_cpus_ok : container_ok four_cpus.
Proof. apply sample_container. vm_compute. done. Qed.

Lemma filters_exact_witness :
  reserved four_cpus None = Ret [] /\ unreserved four_cpus = Ret four_cpus /\ allocatableTo four_cpus "eng" = Ret four_cpus.
Proof.
  destruct (filters_exact four_cpus "eng" four_cpus_ok) as (H1 & _ & H2 & H3 & _).
  split; [exact H1|]. split; [exact H2|exact H3].
Defined.

Lemma push_pop_allocate_witness :
  (exists rs', pushReservation four_cpus (dynamic_role "eng") = Ret rs' /\ popReservation rs' = Ret four_cpus) /\
  unallocate (allocate four_cpus "web") = four_cpus.
Proof.
  destruct (push_pop_allocate four_cpus (dynamic_role "eng") "web" four_cpus_ok) as [H1 H2]; [by intros l|].
  split.
  - destruct H1 as (rs' & E & _ & Hp & _); [|by exists rs']. intros x ->%list_elem_of_singleton. vm_compute. reflexivity.
  - destruct H2 as (_ & E & _); [|exact E]. intros x ->%list_elem_of_singleton. reflexivity.
Defined.

Lemma sums_conserve_witness :
  exists rs' stripped, sum [four_cpus; four_cpus] = Ret rs' /\ total "cpus" rs' = 8000 /\
    createStrippedScalarQuantity four_cpus = Ret stripped /\ total "cpus" stripped = 4000.
Proof.
  destruct (sums_conserve four_cpus [four_cpus; four_cpus] ∅ []) as (H1 & _ & H2 & _).
  destruct (H1 four_cpus_ok) as (stripped & Es & _ & Ts & _).
  destruct H2 as (rs' & E & _ & T & _).
  - do 2 (apply Forall_cons; split; [exact four_cpus_ok|]). constructor.
  - do 2 (apply Forall_cons; split; [by intros x ->%list_elem_of_singleton|]). constructor.
  - intros name. cbn [total_all total four_cpus resource Resource_of]. rewrite !sample_amount.
    destruct (String.eqb "cpus" name); vm_compute; reflexivity.
  - exists rs', stripped. rewrite T, Ts. split; [exact E|]. split; [vm_compute; reflexivity|]. split; [exact Es|vm_compute; reflexivity].
Defined.

Definition is_ok {A} (o : outcome (Try A)) : bool := match o with Ret (TryOk _) => true | _ => false end.

Definition one_reserved : Resource := scalar_resource "cpus" 1 [dynamic_role "eng"].
Definition some_operations : list Operation := [RESERVE [one_reserved]; RESERVE [one_reserved]; UNRESERVE [one_reserved]].

Lemma some_operations_ok : Forall operation_ok some_operations.
Proof.
  assert (request_ok one_reserved) as H by (apply sample_request; [vm_compute; done|repeat constructor]).
  repeat first [exact H|apply List.Forall_nil|apply List.Forall_cons].
Qed.

Lemma apply_all_conserves_witness :
  exists rs', apply_all (P := RefPlatform.platform) four_cpus some_operations = Ret (TryOk rs') /\ total "cpus" rs' = 4000.
Proof.
  assert (is_ok (apply_all (P := RefPlatform.platform) four_cpus some_operations) = true) as Hok by (vm_compute; reflexivity).
  destruct (apply_all_conserves (P := RefPlatform.platform) (PL := RefPlatform.laws) some_operations four_cpus four_cpus_ok
    some_operations_ok) as (res & E & H).
  rewrite E in Hok. destruct res as [rs'|e]; [|discriminate Hok]. exists rs'. split; [exact E|].
  destruct H as [_ [HT _]]. rewrite HT. vm_compute. reflexivity.
Defined.

Definition allocated_cpus (n : Z) (role : string) : Resource_ :=
  Resource_of (with_allocation (scalar_resource "cpus" n []) (Some (Some role))).
Definition two_roles : list Resource_ := [allocated_cpus 2 "a"; allocated_cpus 2 "b"].

(** [unallocate] (and [allocate]) do not merge entries that become alike: of four
    cpus allocated to two roles the unallocated container has two entries of two, in
    which three cpus are not found; adding them up again gives one entry that has them. *)
Theorem unallocate_leaves_apart :
  obind (ofold add (unallocate two_roles) [])
    (fun merged => contains (P := RefPlatform.platform) merged [Resource_of (scalar_resource "cpus" 3 [])]) = Ret true /\
  contains (P := RefPlatform.platform) (unallocate two_roles) [Resource_of (scalar_resource "cpus" 3 [])] = Ret false /\
  ~ container_ok (unallocate two_roles).
Proof.
  split; [vm_compute; reflexivity|]. split; [vm_compute; reflexivity|].
  assert (unallocate two_roles = [Resource_of (scalar_resource "cpus" 2 []); Resource_of (scalar_resource "cpus" 2 [])]) as -> by reflexivity.
  intros [_ H _]. rewrite !merge_keys_cons in H.
  assert (mergeable (resource (Resource_of (scalar_resource "cpus" 2 []))) = true) as E by reflexivity.
  rewrite E in H. apply NoDup_cons in H as [H _]. apply H. apply list_elem_of_here.
Qed.

End Example.
