(* ===== verification/ResourceParse.v ===== *)
(** * Resources from text (source/resources.cpp, 509-540, 593-766)

    [Resources::parse] reads a JSON array or the text form
    [name(role):value;...], validates every resource, converts it to the
    post-reservation-refinement format, adds it up, and refuses what may not
    come from a command line. *)
From stdpp Require Import pretty.
From Stdlib Require Import Ascii.
From S2P Require Import Prelude Binary64 Scalar Ranges Sets StoutStrings Values Roles Url Platform.
From S2P Require Import Resource ResourceFormat Resources Conservation.

Section WithPlatform.
  Context {P : Platform}.
  (** [JSON::parse<JSON::Array>] with [protobuf::parse<RepeatedPtrField<Resource>>]:
      none if the text is not a JSON array. *)
  Context (json_array : string -> option (Try (list Resource))).

Definition ValueType_name (t : ValueType) : string :=
  match t with SCALAR => "SCALAR" | RANGES => "RANGES" | SET => "SET" | TEXT => "TEXT" end.

(** [Resources::parse(name, value, role)] *)
Definition parse_resource (name value role : string) : Try Resource :=
  match Values.parse numify_uint64 numify_double value with
  | TryError e => TryError ("Failed to parse resource " +:+ name +:+ " value " +:+ value +:+ " error " +:+ e)
  | TryOk v =>
      let reservations :=
        if negb (String.eqb role "*") then [mkReservation (Some STATIC) (Some role) None None] else [] in
      match v_type v with
      | SCALAR => TryOk (mkResource None name SCALAR (Some (default Scalar_default (v_scalar v))) None None None None
                    None reservations None false false)
      | RANGES => TryOk (mkResource None name RANGES None (Some (default [] (v_ranges v))) None None None
                    None reservations None false false)
      | SET => TryOk (mkResource None name SET None None (Some (default [] (v_set v))) None None
                    None reservations None false false)
      | TEXT => TryError ("Bad type for resource " +:+ name +:+ " value " +:+ value +:+ " type " +:+
                          ValueType_name (v_type v))
      end
  end.

(** One token of [fromSimpleString]. *)
Definition parse_simple (defaultRole token : string) : Try Resource :=
  match tokenize token ":" None with
  | [p0; p1] =>
      match find_char p0 "(" with
      | None => parse_resource (trim p0 WHITESPACE) p1 defaultRole
      | Some openParen =>
          match find_char p0 ")" with
          | Some closeParen =>
              if (closeParen <? openParen)%nat then
                TryError ("Bad value for resources, mismatched parentheses in " +:+ token)
              else
                parse_resource (trim (substr p0 0 openParen) WHITESPACE) p1
                  (trim (substr p0 (openParen + 1) (closeParen - openParen - 1)) WHITESPACE)
          | None => TryError ("Bad value for resources, mismatched parentheses in " +:+ token)
          end
      end
  | _ => TryError ("Bad value for resources, missing or extra ':' in " +:+ token)
  end.

Fixpoint simple_loop (defaultRole : string) (tokens : list string) : Try (list Resource) :=
  match tokens with
  | [] => TryOk []
  | token :: rest =>
      match parse_simple defaultRole token with
      | TryError e => TryError e
      | TryOk r =>
          match simple_loop defaultRole rest with
          | TryError e => TryError e
          | TryOk l => TryOk (r :: l)
          end
      end
  end.

(** [Resources::fromSimpleString] *)
Definition fromSimpleString (text defaultRole : string) : Try (list Resource) :=
  simple_loop defaultRole (tokenize text ";" None).

(** [Resources::fromJSON] *)
Definition fromJSON (array : Try (list Resource)) (defaultRole : string) : Try (list Resource) :=
  match array with
  | TryError e => TryError ("Some JSON resources were not formatted properly: " +:+ e)
  | TryOk l =>
      TryOk (map (fun r =>
        if negb (has (r_role r)) && (length (r_reservations r) =? 0)%nat
        then with_role r (Some defaultRole) else r) l)
  end.

(** [Resources::fromString] *)
Definition fromString (text defaultRole : string) : Try (list Resource) :=
  match json_array text with
  | Some array => fromJSON array defaultRole
  | None => fromSimpleString text defaultRole
  end.

(** [internal::validateCommandLineResources] *)
Fixpoint command_line_loop (nameTypes : gmap string ValueType) (l : list Resource_) : outcome (option string) :=
  match l with
  | [] => Ret None
  | x :: rest =>
      let r := resource x in
      let! pv := isPersistentVolume r in
      if pv then Ret (Some "Persistent volumes cannot be specified at the command line") else
      let! rev := isRevocable r in
      if rev then Ret (Some ("Revocable resources cannot be specified at the command line; do" +:+
        " not include a 'revocable' key in the resources JSON")) else
      let! dyn := isDynamicallyReserved r in
      if dyn then Ret (Some ("Dynamic reservations cannot be specified at the command line; do" +:+
        " not include a reservation with DYNAMIC type in the resources JSON")) else
      match nameTypes !! r_name r with
      | Some t =>
          if negb (bool_decide (t = r_type r)) then
            Ret (Some ("Resources with the same name ('" +:+ r_name r +:+ "') but different types are not allowed"))
          else command_line_loop nameTypes rest
      | None => command_line_loop (<[r_name r := r_type r]> nameTypes) rest
      end
  end.

Definition validateCommandLineResources (l : list Resource_) : outcome (option string) := command_line_loop ∅ l.

(** The loop of [Resources::parse(text)]. *)
Fixpoint add_parsed (l : list Resource) (result : list Resource_) : outcome (Try (list Resource_)) :=
  match l with
  | [] => Ret (TryOk result)
  | r :: rest =>
      let! error := validate r in
      match error with
      | Some e => Ret (TryError e)
      | None =>
          let! r := convertResourceFormat r POST_RESERVATION_REFINEMENT in
          let! result := add result (Resource_of r) in
          add_parsed rest result
      end
  end.

(** [Resources::parse(text, defaultRole)] *)
Definition parse (text defaultRole : string) : outcome (Try (list Resource_)) :=
  match fromString text defaultRole with
  | TryError e => Ret (TryError e)
  | TryOk l =>
      let! parsed := add_parsed l [] in
      match parsed with
      | TryError e => Ret (TryError e)
      | TryOk result =>
          let! error := validateCommandLineResources result in
          match error with
          | Some e => Ret (TryError e)
          | None => Ret (TryOk result)
          end
      end
  end.

(** ** Lemmas *)

(** What the loop keeps: the format, and a count exactly for shared resources. *)
Definition tidy (x : Resource_) : Prop :=
  post_format (resource x) /\ has (sharedCount x) = r_shared (resource x).

Lemma addable_shared l r : addable l r = true -> r_shared l = r_shared r.
Proof. unfold addable. by destruct (r_shared l), (r_shared r). Qed.

Lemma add_tidy rs x : Forall tidy rs -> tidy x -> exists rs', add rs x = Ret rs' /\ Forall tidy rs'.
Proof.
  intros Hrs [Hp Hc]. unfold add.
  assert (He : exists b, isEmpty_ x = Ret b).
  { unfold isEmpty_, isEmpty. rewrite CHECK_post_ok by done.
    destruct (sharedCount x) as [n|]; [destruct (n =? 0)|]; by eexists. }
  destruct He as [[] ->]; cbn [obind]; [by exists rs|].
  destruct (add_loop_cases rs x) as [[_ ->]|(l1 & y & l2 & -> & Ha & ->)].
  { exists (rs ++ [x]). split; [done|]. apply Forall_app. split; [done|]. constructor; [by split|constructor]. }
  apply Forall_app in Hrs as [H1 H2]. apply Forall_cons in H2 as [[Hpy Hcy] H2].
  apply addable_shared in Ha. unfold add_. rewrite Ha, <- Hc in Hcy.
  destruct (sharedCount y) as [n|], (sharedCount x) as [m|]; cbn in Hcy; try done; cbn [obind];
    (eexists; split; [done|]); apply Forall_app; (split; [done|]); constructor; try done; split; cbn; try done.
  - by rewrite Ha, <- Hc.
  - by apply add_assign_frame.
  - destruct (add_assign_frame (resource y) (resource x)) as (_ & -> & _). by rewrite Ha, <- Hc.
Qed.

Lemma add_parsed_tidy l : forall rs, Forall tidy rs ->
  exists res, add_parsed l rs = Ret res /\ forall rs', res = TryOk rs' -> Forall tidy rs'.
Proof.
  induction l as [|r l IH]; intros rs Hrs; cbn [add_parsed].
  { eexists. split; [done|]. by intros rs' [= <-]. }
  destruct (validate_returns r) as [[e|] Hv]; rewrite Hv; cbn [obind]; [by eexists|].
  destruct (to_post_returns r Hv) as [r' Hr']. cbn [convertResourceFormat]. rewrite Hr'. cbn [obind].
  destruct (add_tidy rs (Resource_of r') Hrs) as (rs1 & E1 & H1).
  { split; [by eapply to_post_post|]. unfold Resource_of. cbn. by destruct (r_shared r'). }
  rewrite E1. cbn [obind]. by apply IH.
Qed.

(** What may come from a command line. *)
Definition from_command_line (r : Resource) : Prop :=
  post_format r /\ r_revocable r = false /\
  (forall d, r_disk r = Some d -> d_persistence d = None) /\
  (forall ri, last (r_reservations r) = Some ri -> reservation_type ri <> DYNAMIC).

Definition agrees (m : gmap string ValueType) (l : list Resource_) : Prop :=
  forall x t, x ∈ l -> m !! r_name (resource x) = Some t -> t = r_type (resource x).

Lemma dynamically_reserved r : post_format r -> isDynamicallyReserved r =
  Ret (match last (r_reservations r) with
       | Some ri => bool_decide (reservation_type ri = DYNAMIC)
       | None => false
       end).
Proof.
  intros Hp. unfold isDynamicallyReserved, isReserved, isUnreserved. rewrite !CHECK_post_ok by done. cbn [obind].
  by destruct (r_reservations r).
Qed.

Lemma command_line_loop_spec l : forall m, Forall tidy l ->
  exists e, command_line_loop m l = Ret e /\
    (e = None -> Forall (fun x => from_command_line (resource x)) l /\ agrees m l /\
       forall x y, x ∈ l -> y ∈ l -> r_name (resource x) = r_name (resource y) ->
         r_type (resource x) = r_type (resource y)).
Proof.
  induction l as [|x l IH]; intros m Hl; cbn [command_line_loop].
  { exists None. split; [done|]. intros _. split; [constructor|].
    split; [intros x t|intros x y]; by intros ?%not_elem_of_nil. }
  apply Forall_cons in Hl as [[Hp _] Hl]. unfold isPersistentVolume, isRevocable.
  rewrite CHECK_post_ok, dynamically_reserved by done. cbn [obind].
  destruct (match r_disk (resource x) with Some d => has (d_persistence d) | None => false end) eqn:Ep; [by eexists|].
  destruct (r_revocable (resource x)) eqn:Er; [by eexists|].
  destruct (match last _ with Some ri => _ | None => false end) eqn:Ed; [by eexists|].
  assert (Hx : from_command_line (resource x)).
  { split_and!; try done.
    - intros d Hd. rewrite Hd in Ep. by destruct (d_persistence d).
    - intros ri Hri. rewrite Hri in Ed. by apply bool_decide_eq_false in Ed. }
  assert (Hcons : forall m', (forall k t, m !! k = Some t -> m' !! k = Some t) ->
    m' !! r_name (resource x) = Some (r_type (resource x)) ->
    exists e, command_line_loop m' l = Ret e /\
      (e = None -> Forall (fun x => from_command_line (resource x)) (x :: l) /\ agrees m (x :: l) /\
         forall y z, y ∈ x :: l -> z ∈ x :: l -> r_name (resource y) = r_name (resource z) ->
           r_type (resource y) = r_type (resource z))).
  { intros m' Hm' Hxm. destruct (IH m' Hl) as (e & E & He). exists e. split; [done|]. intros ->.
    destruct (He eq_refl) as (H1 & H2 & H3). split; [by constructor|]. split.
    - intros y t [->|Hy]%elem_of_cons Ht; [apply Hm' in Ht; congruence|]. by apply (H2 y t), Hm'.
    - intros y z [->|Hy]%elem_of_cons [->|Hz]%elem_of_cons E'; [done| | |by apply H3].
      + apply (H2 z _ Hz). by rewrite <- E'.
      + symmetry. apply (H2 y _ Hy). by rewrite E'. }
  destruct (m !! r_name (resource x)) as [t|] eqn:Em.
  - case_bool_decide as Et; cbn [negb]; [|by eexists]. apply Hcons; [done|]. by rewrite Em, Et.
  - apply Hcons; [|by rewrite lookup_insert_eq]. intros k t Hk. rewrite lookup_insert_ne; [done|congruence].
Qed.

(** Parsing resources from a command line never aborts the process, and
    what it accepts is in the post-reservation-refinement format, is neither
    revocable, nor a persistent volume, nor dynamically reserved, and gives
    resources of the same name the same type. *)
Theorem parse_resources_sound text defaultRole :
  exists res, parse text defaultRole = Ret res /\
    forall rs, res = TryOk rs ->
      Forall (fun x => from_command_line (resource x)) rs /\
      (forall x y, x ∈ rs -> y ∈ rs -> r_name (resource x) = r_name (resource y) ->
        r_type (resource x) = r_type (resource y)).
Proof.
  unfold parse. destruct (fromString text defaultRole) as [l|e]; [|by eexists].
  destruct (add_parsed_tidy l [] (Forall_nil_2 _)) as ([rs|e] & E & H); rewrite E; cbn [obind]; [|by eexists].
  destruct (command_line_loop_spec rs ∅ (H rs eq_refl)) as ([e|] & Ec & Hc);
    unfold validateCommandLineResources; rewrite Ec; cbn [obind]; [by eexists|].
  eexists. split; [done|]. intros rs' [= <-]. by destruct (Hc eq_refl) as (H1 & _ & H2).
Qed.

End WithPlatform.

(** The text form, read on the reference platform. *)
Example parse_example :
  exists rs, parse (P := RefPlatform.platform) (fun _ => None) "cpus:4;mem(eng):1024;ports:[1-9];cpus:1" "*"
    = Ret (TryOk rs) /\
    map (fun x => (r_name (resource x), length (r_reservations (resource x)))) rs =
      [("cpus", 0%nat); ("mem", 1%nat); ("ports", 0%nat)].
Proof. eexists. split; vm_compute; reflexivity. Qed.
