(* ===== verification/Checkpoint.v ===== *)
(** * Checkpointed resources (source/resources_utils.cpp, 26-91)

    An agent's resources after a restart: the dynamic reservations and volumes
    that were checkpointed are carved out of the resources it was started
    with. *)
From S2P Require Import Prelude Binary64 Scalar Ranges Sets StoutStrings Values Roles Platform.
From S2P Require Import Resource ResourceFormat Resources Conservation Apply.

(** The resource of the agent that a checkpointed one was made from: without
    dynamic reservations, persistence, volume and sharing. *)
Definition strip_reservations (r : Resource) : Resource :=
  match r_reservations r with
  | first :: _ =>
      if bool_decide (reservation_type first = STATIC) then with_reservations r [first]
      else with_reservations r []
  | [] => with_reservations r []
  end.

Definition strip_disk (r : Resource) : Resource :=
  match r_disk r with
  | Some d =>
      match d_source d with
      | Some s => with_disk r (Some (mkDisk (Some s) None None))
      | None => with_disk r None
      end
  | None => with_disk r None
  end.

Definition strip_checkpoint (dynamic volume : bool) (r : Resource) : Resource :=
  let r := if dynamic then strip_reservations r else r in
  let r := if volume then strip_disk r else r in
  with_shared r false.

Section WithPlatform.
  Context {P : Platform}.

(** [needCheckpointing] *)
Definition needCheckpointing (r : Resource) : outcome bool :=
  let! dynamic := isDynamicallyReserved r in
  if dynamic then Ret true else isPersistentVolume r.

(** The body of the loop. *)
Definition checkpoint_step (total : list Resource_) (r : Resource) : outcome (Try (list Resource_)) :=
  let! need := needCheckpointing r in
  if negb need then
    let! text := Resource_print r in
    Ret (TryError ("Unexpected checkpointed resources " +:+ text))
  else
    let! dynamic := isDynamicallyReserved r in
    let! volume := isPersistentVolume r in
    let stripped := strip_checkpoint dynamic volume r in
    let! c := contains_resource total stripped in
    if negb c then
      let! all := Resources_print total in
      let! text := Resource_print stripped in
      Ret (TryError ("Incompatible agent resources: " +:+ all +:+ " does not contain " +:+ text))
    else
      let! total := minus_resource total stripped in
      let! total := plus_resource total r in
      Ret (TryOk total).

(** [applyCheckpointedResources] *)
Definition applyCheckpointedResources (resources checkpointed : list Resource_) :
    outcome (Try (list Resource_)) :=
  try_loop checkpoint_step (map resource checkpointed) resources.

End WithPlatform.

(** ** Lemmas *)

Lemma strip_reservations_request r : request_ok r ->
  request_ok (strip_reservations r) /\ same_value_as r (strip_reservations r).
Proof.
  intros [H1 [H2 H2'] H3 H4]. unfold strip_reservations.
  destruct (r_reservations r) as [|a l]; [|destruct (bool_decide _)]; (split; [|done]); split; try done;
    (split; [|done]); cbn; try constructor; try done. by apply Forall_cons in H2 as [? _].
Qed.

Lemma strip_disk_request r : request_ok r -> request_ok (strip_disk r) /\ same_value_as r (strip_disk r).
Proof.
  intros [H1 [H2 H2'] H3 H4]. unfold strip_disk.
  destruct (r_disk r) as [d|] eqn:Ed; [destruct (d_source d) as [s|] eqn:Es|]; (split; [|done]); split; try done;
    (split; [done|]); intros d' s' [= <-]; cbn; intros [= <-]; eauto.
Qed.

Lemma same_value_trans r1 r2 r3 : same_value_as r1 r2 -> same_value_as r2 r3 -> same_value_as r1 r3.
Proof. intros [] []. split; congruence. Qed.

Lemma strip_checkpoint_request dynamic volume r : request_ok r ->
  request_ok (strip_checkpoint dynamic volume r) /\ same_value_as r (strip_checkpoint dynamic volume r).
Proof.
  intros Hr. unfold strip_checkpoint.
  set (r1 := if dynamic then strip_reservations r else r). set (r2 := if volume then strip_disk r1 else r1).
  assert (H1 : request_ok r1 /\ same_value_as r r1) by (destruct dynamic; [by apply strip_reservations_request|by split]).
  assert (H2 : request_ok r2 /\ same_value_as r1 r2)
    by (destruct volume; [by apply strip_disk_request, H1|split; [apply H1|done]]).
  destruct H1 as [_ V1], H2 as [[A B C D] V2]. split.
  - by split.
  - eapply same_value_trans; [exact V1|]. eapply same_value_trans; [exact V2|]. done.
Qed.

Section Conserves.
  Context {P : Platform} {PL : PlatformLaws P}.

Lemma contains_resource_true rs r : contains_resource rs r = Ret true ->
  validate r = Ret None /\ _contains rs (Resource_of r) = true.
Proof.
  unfold contains_resource. destruct (validate_returns r) as [[e|] ->]; cbn [obind]; [done|]. by intros [= ->].
Qed.

Lemma validate_unshared r : request_ok r -> validate_ (Resource_of r) = validate r.
Proof. intros Hr. unfold validate_. cbn. by rewrite (q_shared _ Hr). Qed.

Lemma checkpoint_conserves rs r : container_ok rs -> request_ok r -> validate r = Ret None ->
  conserves checkpoint_step rs r.
Proof.
  intros Hrs Hr Hv. unfold conserves, checkpoint_step, needCheckpointing.
  destruct (isDynamicallyReserved_post r) as [dynamic ->]; [apply Hr|].
  destruct (isPersistentVolume_post r) as [volume ->]; [apply Hr|]. cbn [obind].
  assert (Hneed : (if dynamic then Ret true else Ret volume) = Ret (dynamic || volume)) by (by destruct dynamic).
  rewrite Hneed. cbn [obind]. destruct (dynamic || volume); cbn [negb]; cycle 1.
  { destruct (print_returns r) as [s ->]; [by apply value_ok_type, Hr|]. by eexists. }
  destruct (strip_checkpoint_request dynamic volume r Hr) as [Hs Hsv].
  destruct (contains_resource_returns rs (strip_checkpoint dynamic volume r)) as (b & Eb & _). rewrite Eb. cbn [obind].
  destruct b; cbn [negb].
  - destruct (contains_resource_true _ _ Eb) as [Hvs Hcs].
    destruct (move_amount rs _ r Hrs Hs Hr) as (rs1 & rs2 & E1 & _ & E2 & C2 & Q2); [by apply same_value_sym|done|].
    unfold minus_resource, minus_one. rewrite validate_unshared, Hvs by done. cbn [obind]. rewrite E1. cbn [obind].
    unfold plus_resource, plus_one. rewrite validate_unshared, Hv by done. cbn [obind]. rewrite E2. cbn [obind].
    eexists. split; [reflexivity|]. by intros rs' [= <-].
  - destruct (print_all_returns rs) as [a ->]; [apply Hrs|]. cbn [obind].
    destruct (print_returns (strip_checkpoint dynamic volume r)) as [s ->]; [by apply value_ok_type, Hs|].
    cbn [obind]. by eexists.
Qed.

(** C29: applying checkpointed resources that are valid and not shared to an
    agent's resources never aborts: it returns an error or resources with
    exactly the same amounts of every scalar and the same numbers of every
    ranges resource, so a restart neither creates nor loses any. *)
Theorem checkpoint_keeps_quantities rs checkpointed : container_ok rs ->
  Forall (fun x => request_ok (resource x) /\ validate (resource x) = Ret None) checkpointed ->
  exists res, applyCheckpointedResources rs checkpointed = Ret res /\
    forall rs', res = TryOk rs' -> container_ok rs' /\ same_quantities rs rs'.
Proof.
  intros Hrs Hc. apply try_loop_conserves; [apply checkpoint_conserves|done| |];
    apply Forall_forall; intros r (x & -> & Hx)%list_elem_of_fmap;
    by apply (proj1 (Forall_forall _ _) Hc).
Qed.

End Conserves.

Lemma checkpoint_keeps_quantities_witness :
  let rs := [Resource_of (scalar_resource "cpus" 4 [])] in
  exists rs', applyCheckpointedResources (P := RefPlatform.platform) rs
      [Resource_of (scalar_resource "cpus" 1 [dynamic_role "eng"])] = Ret (TryOk rs') /\
    length rs' = 2%nat /\ total "cpus" rs' = 4000.
Proof.
  pose proof RefPlatform.laws as PL.
  destruct (checkpoint_keeps_quantities (P := RefPlatform.platform) [Resource_of (scalar_resource "cpus" 4 [])]
    [Resource_of (scalar_resource "cpus" 1 [dynamic_role "eng"])]) as (res & E & H).
  - apply sample_container. vm_compute. done.
  - constructor; [|done]. split; [|by vm_compute]. apply sample_request; [vm_compute; done|repeat constructor].
  - revert E H. vm_compute (applyCheckpointedResources _ _). intros E H. injection E as <-.
    eexists. split; [reflexivity|]. split; [reflexivity|].
    destruct (H _ eq_refl) as [_ [HT _]]. rewrite HT. vm_compute. reflexivity.
Defined.
