(* ===== verification/Find.v ===== *)
(** * Looking for resources (source/resources.cpp, 1510-1526, 1895-1937)

    [Resources::find] looks for as much as a target asks for, first in the
    target's role, then among the unreserved resources, then anywhere. *)
From S2P Require Import Prelude Binary64 Scalar Ranges Sets StoutStrings Values Roles Platform.
From S2P Require Import Resource ResourceFormat Resources Conservation Apply.

Section WithPlatform.
  Context {P : Platform}.

(** [Resources(resource).toUnreserved()] *)
Definition unreserved_of (r : Resource) : outcome (list Resource_) :=
  let! rs := of_resource r in toUnreserved rs.

(** The predicates, in the order they are tried. *)
Definition find_predicates (target : Resource) : outcome (list (Resource -> outcome bool)) :=
  let! reserved := isReserved target None in
  let! first :=
    if reserved then
      let! role := reservationRole target in
      Ret [fun r => isReserved r (Some role)]
    else Ret [] in
  Ret (first ++ [isUnreserved; fun _ => Ret true]).

(** How a pass over the candidates ends: with a result, or with what was found
    so far, what may still be taken and what is still missing. *)
Inductive Pass :=
| Found (found : list Resource_)
| Missing (found total remaining : list Resource_).

(** [r.resource.mutable_reservations()->CopyFrom(resource_.resource.reservations())] *)
Definition copy_reservations (from : Resource_) : Resource_ -> Resource_ :=
  map_resource (fun r => with_reservations r (r_reservations (resource from))).

(** The inner loop: a candidate that covers what is missing ends the search, one
    that is a part of it is taken and ends the pass. *)
Fixpoint find_pass (candidates found total remaining : list Resource_) : outcome Pass :=
  match candidates with
  | [] => Ret (Missing found total remaining)
  | x :: rest =>
      let! unreserved := unreserved_of (resource x) in
      let! covers := contains unreserved remaining in
      if covers then
        let! found := ofold (fun found r => add found (copy_reservations x r)) remaining found in
        Ret (Found found)
      else
        let! part := contains remaining unreserved in
        if part then
          let! found := add found x in
          let! total := subtract total x in
          let! remaining := minus remaining unreserved in
          Ret (Missing found total remaining)
        else find_pass rest found total remaining
  end.

Fixpoint find_loop (predicates : list (Resource -> outcome bool)) (found total remaining : list Resource_) :
    outcome (option (list Resource_)) :=
  match predicates with
  | [] => Ret None
  | predicate :: rest =>
      let! candidates := filter_resources predicate total in
      let! pass := find_pass candidates found total remaining in
      match pass with
      | Found found => Ret (Some found)
      | Missing found total remaining => find_loop rest found total remaining
      end
  end.

(** [find(Resource)] *)
Definition find_resource (resources : list Resource_) (target : Resource) : outcome (option (list Resource_)) :=
  let! remaining := unreserved_of target in
  let! predicates := find_predicates target in
  find_loop predicates [] resources remaining.

Fixpoint find_targets (resources : list Resource_) (targets : list Resource) (total : list Resource_) :
    outcome (option (list Resource_)) :=
  match targets with
  | [] => Ret (Some total)
  | target :: rest =>
      let! found := find_resource resources target in
      match found with
      | None => Ret None
      | Some found => let! total := plus total found in find_targets resources rest total
      end
  end.

(** [find(Resources)] *)
Definition find (resources targets : list Resource_) : outcome (option (list Resource_)) :=
  find_targets resources (map resource targets) [].

End WithPlatform.

(** ** Lemmas *)

(** Taking a whole entry out of the container. *)
Lemma no_addable rs x : Forall entry_ok rs -> entry_ok x ->
  (mergeable (resource x) = true -> skey (resource x) ∉ merge_keys rs) ->
  forall y, y ∈ rs -> addable (resource y) (resource x) = false.
Proof.
  intros Hrs Hx Hk y Hy. apply not_true_iff_false. intros Ha.
  pose proof (proj1 (Forall_forall _ _) Hrs y Hy) as Ey.
  apply addable_iff in Ha as [Hs Hm]; [|apply Ey|apply Hx|apply Ey|apply Hx].
  rewrite (skey_mergeable _ _ Hs) in Hm. apply (Hk Hm). rewrite <- Hs.
  apply merge_keys_elem; [done|]. by rewrite (skey_mergeable _ _ Hs).
Qed.

Lemma add_fresh rs x : Forall entry_ok rs -> entry_ok x ->
  (mergeable (resource x) = true -> skey (resource x) ∉ merge_keys rs) -> add rs x = Ret (rs ++ [x]).
Proof.
  intros Hrs Hx Hk. unfold add. rewrite isEmpty_operand by (by apply entry_operand). cbn [obind].
  assert (Hz : is_zero_b (resource x) = false) by (apply not_true_iff_false; rewrite is_zero_b_iff; apply Hx).
  rewrite Hz. destruct (add_loop_cases rs x) as [[_ ->]|(l1 & y & l2 & -> & Ha & _)]; [done|].
  rewrite (no_addable _ x Hrs Hx Hk) in Ha; [done|]. apply elem_of_app. right. by left.
Qed.

Lemma container_fresh rs1 x rs2 : container_ok (rs1 ++ x :: rs2) ->
  mergeable (resource x) = true -> skey (resource x) ∉ merge_keys (rs1 ++ rs2).
Proof.
  rewrite <- Permutation_middle. intros [_ Ck _] Hm. rewrite merge_keys_cons, Hm in Ck.
  by apply NoDup_cons in Ck as [? _].
Qed.

Lemma container_app_l rs1 rs2 : container_ok (rs1 ++ rs2) -> container_ok rs1.
Proof.
  revert rs1. induction rs2 as [|x rs2 IH]; intros rs1; [by rewrite app_nil_r|].
  intros H. apply IH. by eapply container_shrink.
Qed.

(** Filtering keeps the entries as they are. *)
Lemma filter_resources_filter f p rs : container_ok rs ->
  (forall x, x ∈ rs -> p (resource x) = Ret (f x)) ->
  filter_resources p rs = Ret (List.filter f rs).
Proof.
  intros Hrs Hp. unfold filter_resources.
  enough (G : forall acc, container_ok (acc ++ rs) ->
    ofold (fun result x => let! keep := p (resource x) in if keep then add result x else Ret result) rs acc =
    Ret (acc ++ List.filter f rs)) by (by apply (G [])).
  clear Hrs. induction rs as [|x rs IH]; intros acc Hok; cbn [ofold List.filter]; [by rewrite app_nil_r|].
  rewrite (Hp x) by (by left). cbn [obind].
  assert (Hp' : forall y, y ∈ rs -> p (resource y) = Ret (f y)) by (intros y Hy; apply Hp; by right).
  destruct (f x).
  - assert (Ex : entry_ok x /\ Forall entry_ok acc).
    { destruct Hok as [Ce _ _]. by apply Forall_app in Ce as [? [? _]%Forall_cons]. }
    rewrite add_fresh; [|by destruct Ex..|].
    + cbn [obind]. rewrite IH; [by rewrite <- app_assoc|done|by rewrite <- app_assoc].
    + intros Hm Hin. apply (container_fresh _ _ _ Hok Hm). rewrite merge_keys_app. apply elem_of_app. by left.
  - cbn [obind]. apply IH; [done|]. by eapply container_shrink.
Qed.

Section Subtraction.
  Context {P : Platform} {PL : PlatformLaws P}.

Lemma covers_dec (l : list Range) p : covers l p \/ ~ covers l p.
Proof.
  induction l as [|a l IH]; [right; apply covers_nil|]. rewrite covers_cons.
  destruct (decide (start a <= p <= end_ a)); tauto.
Qed.

(** What is left of a value after subtracting a part of it: nothing exactly if
    the part was the whole. *)
Lemma sub_zero_iff l r : value_ok l -> value_ok r -> r_type l = r_type r -> r_name l = r_name r ->
  value_leb r l = true -> is_zero (Resource_sub_assign l r) <-> value_leb l r = true.
Proof.
  intros Hl Hr Ht Hn Hle. unfold is_zero, Resource_sub_assign, value_leb, value_ok in *. rewrite <- Ht in *.
  destruct (r_type l) eqn:E; [..|done]; cbn [r_type set_scalar set_ranges set_set]; rewrite E.
  - rewrite !Scalar_le_fixed in *. change (scalar (set_scalar l ?v)) with v. rewrite fixed_sub by lia. lia.
  - destruct (Ranges_sub_assign_spec (IS := iset) (ranges l) (ranges r) Hl Hr) as [Hc Hm].
    change (ranges (set_ranges l ?v)) with v. rewrite Ranges_le_covers by done. split.
    + intros E' x Hx. destruct (covers_dec (ranges r) x) as [|Hno]; [done|].
      exfalso. apply (covers_nil x). rewrite <- E'. by apply Hm.
    + intros Hsub. destruct (Ranges_sub_assign _ _) as [|a t]; [done|]. destruct Hc as [_ Hv].
      apply Forall_cons in Hv as [Ha _]. exfalso. destruct (proj1 (Hm (start a))) as [H1 H2]; [|auto].
      exists a. unfold valid_range in Ha. split; [by left|lia].
  - change (set (set_set l ?v)) with v. rewrite Set_sub_assign_filter, Set_le_spec by done. split.
    + intros E'. assert (Hsub : set l ⊆ set r).
      { intros x Hx. destruct (decide (x ∈ set r)) as [|Hno]; [done|]. exfalso.
        apply (not_elem_of_nil x). rewrite <- E'. by apply list_elem_of_filter. }
      split; [|done]. by apply submseteq_length, NoDup_submseteq.
    + intros [_ Hsub]. destruct (filter _ _) as [|a t] eqn:Ef; [done|]. exfalso.
      assert (Ha : a ∈ filter (.∉ set r) (set l)) by (rewrite Ef; by left).
      apply list_elem_of_filter in Ha as [H1 H2]. auto.
Qed.

Lemma value_leb_refl r : value_ok r -> value_leb r r = true.
Proof. intros H. by apply value_key_leb. Qed.

(** In a container the key of an entry that others can be merged into is its own. *)
Lemma entry_by_key l1 x l2 y : container_ok (l1 ++ x :: l2) -> mergeable (resource x) = true ->
  y ∈ l1 ++ x :: l2 -> skey (resource y) = skey (resource x) -> y = x.
Proof.
  intros Hrs Hm Hy Hk. apply elem_of_app in Hy. rewrite elem_of_cons in Hy.
  assert (Hin : y ∈ l1 ++ l2 \/ y = x) by (rewrite elem_of_app; tauto). destruct Hin as [Hin|]; [|done]. exfalso.
  apply (container_fresh _ _ _ Hrs Hm). rewrite <- Hk. apply merge_keys_elem; [done|].
  by rewrite (skey_mergeable _ _ Hk).
Qed.

Lemma container_entry rs x : container_ok rs -> x ∈ rs -> entry_ok x.
Proof. intros [Ce _ _]. by apply Forall_forall. Qed.

(** Subtracting such an entry removes it. *)
Lemma subtract_entry l1 x l2 : container_ok (l1 ++ x :: l2) -> sharedCount x = None ->
  mergeable (resource x) = true ->
  exists rs', subtract (l1 ++ x :: l2) x = Ret rs' /\ rs' ≡ₚ l1 ++ l2.
Proof.
  intros Hrs Hn Hm. set (rs := l1 ++ x :: l2) in *.
  assert (Hx : x ∈ rs) by (apply elem_of_app; right; by left).
  pose proof (container_entry _ _ Hrs Hx) as Ex. pose proof (entry_operand _ Ex) as Ox.
  destruct Ex as [E1 E2 E3 E4 E5 E6]. unfold subtract. rewrite isEmpty_operand by done. cbn [obind].
  destruct (is_zero_b (resource x)) eqn:Ez; [by apply is_zero_b_iff in Ez|].
  pose proof (find_subtractable_cases rs x) as Hf. destruct (find_subtractable rs x) as [[i y]|]; cycle 1.
  { assert (Hself : subtractable (resource x) (resource x) = true) by (by apply subtractable_iff).
    by rewrite Hf in Hself. }
  destruct Hf as (m1 & m2 & E & -> & Hy & _).
  assert (Hym : y ∈ rs) by (rewrite E; apply elem_of_app; right; by left).
  pose proof (container_entry _ _ Hrs Hym) as [Y1 Y2 Y3 Y4 Y5 Y6].
  apply subtractable_iff in Hy; [|done..]. assert (y = x) as -> by (by apply (entry_by_key l1 x l2)).
  destruct (subtracted_entry x x) as (Os & Neg & _); [by split|done|done|done|by apply value_leb_refl|].
  unfold sub_. rewrite Hn. cbn [obind]. rewrite Neg, isEmpty_operand by done. cbn [obind resource].
  rewrite (proj2 (is_zero_b_iff _)) by (apply sub_zero_iff; try done; by apply value_leb_refl).
  eexists. split; [reflexivity|]. rewrite E, swap_remove_perm. apply (Permutation_cons_inv (a := x)).
  rewrite !Permutation_middle. by rewrite <- E.
Qed.

(** *** Unreserved copies *)

Record valid_resource (r : Resource) : Prop := {
  v_post : post_format r;
  v_regular : regular r;
  v_value : value_ok r;
  v_nonzero : ~ is_zero r;
}.

Lemma valid_operand r : valid_resource r -> operand_ok (Resource_of r).
Proof.
  intros [H1 H2 H3 _]. split; [done..| |]; cbn.
  - by destruct (r_shared r).
  - destruct (r_shared r); [|done]. intros n [= <-]. lia.
Qed.

Lemma entry_valid x : entry_ok x -> valid_resource (resource x).
Proof. intros []. by split. Qed.

Lemma clear_valid r : valid_resource r -> valid_resource (clear_reservations r).
Proof. intros [H1 [_ H2] H3 H4]. split; try done. Qed.

Lemma add_singleton r : valid_resource r -> add [] (Resource_of r) = Ret [Resource_of r].
Proof.
  intros H. apply add_nil; [by apply valid_operand|]. apply not_true_iff_false. cbn [resource Resource_of].
  rewrite is_zero_b_iff. apply H.
Qed.

Lemma unreserved_of_valid r : valid_resource r -> validate r = Ret None ->
  unreserved_of r = Ret [Resource_of (clear_reservations r)].
Proof.
  intros Hr Hv. unfold unreserved_of, of_resource, plus_resource, plus_one.
  assert (Hv' : validate_ (Resource_of r) = Ret None)
    by (unfold validate_; cbn; destruct (r_shared r); done).
  rewrite Hv'. cbn [obind]. rewrite add_singleton by done. cbn [obind]. unfold toUnreserved. cbn [ofold].
  change (map_resource clear_reservations (Resource_of r)) with (Resource_of (clear_reservations r)).
  rewrite add_singleton by (by apply clear_valid). done.
Qed.

(** *** What is missing

    [t] is what remains of the target, without reservations. *)
Record missing_ok (t : Resource) : Prop := {
  m_valid : valid_resource t;
  m_unshared : r_shared t = false;
  m_unreserved : r_reservations t = [];
}.

Lemma missing_request t : missing_ok t -> request_ok t.
Proof. intros [[]]. by split. Qed.

Lemma amount_bound name r : value_ok r -> amount name r < 2 ^ 51.
Proof.
  unfold amount, value_ok. destruct (String.eqb _ _), (bool_decide_reflect (r_type r = SCALAR)) as [E|]; cbn; try lia.
  rewrite E. lia.
Qed.

Lemma singleton_ok r : valid_resource r -> container_ok [Resource_of r].
Proof.
  intros Hr. split.
  - constructor; [|done]. apply operand_entry; [by apply valid_operand|apply Hr].
  - unfold merge_keys. cbn. destruct (mergeable r); cbn; repeat constructor; set_solver.
  - intros name. cbn [total resource Resource_of]. pose proof (amount_bound name r (v_value _ Hr)). lia.
Qed.

Lemma contains_missing u t : valid_resource u -> missing_ok t ->
  contains [Resource_of u] [Resource_of t] = Ret (contains_ (Resource_of u) (Resource_of t)).
Proof.
  intros Hu Ht. rewrite contains_singleton; [|by apply singleton_ok|by apply missing_request].
  unfold _contains. cbn [existsb]. by rewrite orb_false_r.
Qed.

Lemma missing_contains u t : valid_resource u -> missing_ok t ->
  contains [Resource_of t] [Resource_of u] = Ret (contains_ (Resource_of t) (Resource_of u)).
Proof.
  intros Hu Ht. destruct (r_shared u) eqn:Es.
  - unfold contains. cbn [contains_loop _contains existsb]. unfold contains_. cbn.
    by rewrite Es, (m_unshared _ Ht).
  - rewrite contains_singleton; [|by apply singleton_ok, Ht|destruct Hu; by split].
    unfold _contains. cbn [existsb]. by rewrite orb_false_r.
Qed.

(** One resource contains another, neither shared. *)
Lemma contains_unshared l r : valid_resource l -> valid_resource r ->
  r_shared r = false -> contains_ (Resource_of l) (Resource_of r) = true <->
  skey l = skey r /\ value_leb r l = true.
Proof.
  intros [L1 L2 L3 L4] [R1 R2 R3 R4] Hr. unfold contains_. cbn. rewrite Hr. destruct (r_shared l) eqn:El.
  - split; [done|]. unfold skey. rewrite El, Hr. by intros [[= ] _].
  - by rewrite contains_parts, subtractable_iff.
Qed.

(** *** The search *)

(** What was found so far and what may still be taken make up the container,
    and together with what is missing they make up the target. *)
Record search_ok (rs : list Resource_) (target : Resource) (found tot : list Resource_) (t : Resource) : Prop := {
  s_split : found ++ tot ≡ₚ rs;
  s_missing : missing_ok t;
  s_amount : forall name, total name found + amount name t = amount name target;
  s_member : forall name p, holds name found p \/ member name t p <-> member name target p;
  s_contained : Forall (fun x => _contains rs x = true) found;
}.

(** A result that has exactly the quantities of the target, each part of which
    is in the container. *)
Record located (rs : list Resource_) (target : Resource) (found : list Resource_) : Prop := {
  l_container : container_ok found;
  l_amount : forall name, total name found = amount name target;
  l_member : forall name p, holds name found p <-> member name target p;
  l_contained : Forall (fun x => _contains rs x = true) found;
}.

Lemma skey_reservations a b l : skey a = skey b -> skey (with_reservations a l) = skey (with_reservations b l).
Proof.
  unfold skey, identity, exclusive, value_key, scalar, ranges, set. cbn.
  rewrite !pair_equal_spec. intros ([((((((H1 & H2) & H3) & H4) & H5) & H6) & H7) H8] & H9).
  by rewrite H1, H2, H3, H5, H6, H7, H8 in *.
Qed.

Lemma restore_reservations r : with_reservations (clear_reservations r) (r_reservations r) = r.
Proof. by destruct r. Qed.

Lemma contains_self x rs : entry_ok x -> sharedCount x = None -> x ∈ rs -> _contains rs x = true.
Proof.
  intros [E1 E2 E3 E4 E5 E6] Hn Hx. apply existsb_elem. exists x. split; [done|]. unfold contains_. rewrite Hn.
  apply contains_parts. split; [by apply subtractable_iff|by apply value_leb_refl].
Qed.

Lemma search_split rs target found tot t x : container_ok rs -> search_ok rs target found tot t -> x ∈ tot ->
  exists l1 l2, tot = l1 ++ x :: l2 /\ container_ok (found ++ tot) /\ entry_ok x /\ x ∈ rs /\ container_ok tot.
Proof.
  intros Hrs [Hp _ _ _ _] Hx. pose proof Hx as (l1 & l2 & E)%list_elem_of_split. exists l1, l2.
  assert (Hc : container_ok (found ++ tot)) by (by rewrite Hp).
  assert (Hin : x ∈ rs) by (rewrite <- Hp; apply elem_of_app; by right).
  split_and!; [done..|by apply (container_entry rs)|done|]. rewrite Permutation_app_comm in Hc. by eapply container_app_l.
Qed.

(** Keys in what may still be taken are not those of what was found. *)
Lemma search_fresh found tot x : container_ok (found ++ tot) -> x ∈ tot ->
  mergeable (resource x) = true -> skey (resource x) ∉ merge_keys found.
Proof.
  intros Hc (l1 & l2 & ->)%list_elem_of_split Hm Hin. rewrite app_assoc in Hc.
  apply (container_fresh _ _ _ Hc Hm). rewrite !merge_keys_app. rewrite !elem_of_app. by left; left.
Qed.

Lemma container_snoc rs x : container_ok rs -> entry_ok x ->
  (mergeable (resource x) = true -> skey (resource x) ∉ merge_keys rs) ->
  (forall name, total name rs + amount name (resource x) < 2 ^ 51) -> container_ok (rs ++ [x]).
Proof.
  intros [Ce Ck _] Ex Hfresh Hb. rewrite <- Permutation_cons_append. split; [by constructor| |].
  - rewrite merge_keys_cons. destruct (mergeable (resource x)); [constructor; auto|done].
  - intros name. specialize (Hb name). cbn [total]. lia.
Qed.

(** A candidate that covers what is missing completes the result. *)
Lemma search_covered rs target found tot t x : container_ok rs -> value_ok target ->
  search_ok rs target found tot t -> x ∈ tot ->
  contains_ (Resource_of (clear_reservations (resource x))) (Resource_of t) = true ->
  exists found', add found (copy_reservations x (Resource_of t)) = Ret found' /\ located rs target found'.
Proof.
  intros Hrs Hvt Hs Hx Hc. destruct (search_split _ _ _ _ _ _ Hrs Hs Hx) as (l1 & l2 & _ & Hok & Ex & Hin & _).
  destruct Hs as [Hp Hm Ha Hmem Hcon]. pose proof (missing_request _ Hm) as Rt.
  apply contains_unshared in Hc as [Hk Hle]; [|by apply clear_valid, entry_valid|apply Hm|apply Hm].
  set (r := with_reservations t (r_reservations (resource x))).
  change (copy_reservations x (Resource_of t)) with (Resource_of r).
  assert (Hkr : skey r = skey (resource x)).
  { unfold r. rewrite <- (skey_reservations _ _ _ Hk). by rewrite restore_reservations. }
  assert (Hr : valid_resource r).
  { destruct (m_valid _ Hm) as [V1 [_ V2] V3 V4]. split; [done| |done|done].
    split; [apply (e_regular _ Ex)|done]. }
  assert (Er : entry_ok (Resource_of r)) by (apply operand_entry; [by apply valid_operand|apply Hr]).
  pose proof (container_app_l _ _ Hok) as Fok. pose proof (c_entries _ Fok) as Fe.
  assert (Hfresh : mergeable r = true -> skey r ∉ merge_keys found).
  { intros Hmr. rewrite Hkr. apply (search_fresh found tot); [done..|]. by rewrite <- (skey_mergeable _ _ Hkr). }
  exists (found ++ [Resource_of r]). split; [by apply add_fresh|].
  assert (Hamt : forall name, total name (found ++ [Resource_of r]) = amount name target).
  { intros name. rewrite total_app. cbn [total resource Resource_of]. rewrite <- Ha.
    change (amount name r) with (amount name t). lia. }
  split; [|done| |].
  - apply container_snoc; [done..|]. intros name. specialize (Hamt name). rewrite total_app in Hamt.
    cbn [total] in Hamt. pose proof (amount_bound name _ Hvt). lia.
  - intros name p. rewrite <- Hmem. rewrite <- Permutation_cons_append, holds_cons.
    change (member name (resource (Resource_of r)) p) with (member name t p). tauto.
  - apply Forall_app. split; [done|]. constructor; [|done]. apply existsb_elem. exists x. split; [done|].
    assert (Hns : r_shared (resource x) = false).
    { unfold skey in Hkr. rewrite !pair_equal_spec in Hkr. destruct Hkr as [[_ <-] _]. apply Hm. }
    assert (Hxs : sharedCount x = None) by (apply has_None; rewrite (e_shared _ Ex); done).
    unfold contains_. rewrite Hxs. cbn. rewrite (m_unshared _ Hm). apply contains_parts. split; [|exact Hle].
    apply subtractable_iff; [apply Ex|apply Hr|apply Ex|apply Hr|by symmetry].
Qed.

(** What is left of the missing resource [t] after a part [u] of it was found. *)
Lemma minus_missing t u : missing_ok t -> valid_resource u -> r_shared u = false ->
  skey t = skey u -> value_leb u t = true -> value_leb t u = false ->
  exists t', minus [Resource_of t] [Resource_of u] = Ret [Resource_of t'] /\ missing_ok t' /\
    (forall name, amount name t' = amount name t - amount name u) /\
    (forall name p, member name t' p <-> member name t p /\ ~ member name u p).
Proof.
  intros Hm Hu Hns Hk Hle Hgt. pose proof Hm as [Hv Ht Hres].
  pose proof (valid_operand _ Hu) as Ou. pose proof (valid_operand _ Hv) as Ot.
  assert (Et : entry_ok (Resource_of t)) by (apply operand_entry; [done|apply Hv]).
  assert (Hn : sharedCount (Resource_of t) = None) by (cbn; by rewrite Ht).
  destruct (subtracted_entry (Resource_of t) (Resource_of u) Et Ou Hn Hk Hle) as (Ox & Neg & _ & _ & Ax & Px).
  destruct (sub_assign_frame t u) as (_ & F2 & _ & _ & _). cbn [resource Resource_of] in *.
  assert (Hnz : ~ is_zero (Resource_sub_assign t u)).
  { destruct (operand_of_entry_value (Resource_of t) (Resource_of u) Hk) as (_ & Hty & Hnm).
    rewrite sub_zero_iff; [congruence|apply Hv|apply Hu|done..]. }
  exists (Resource_sub_assign t u). split_and!; [|split|done|done].
  - unfold minus. cbn [ofold]. unfold subtract. rewrite isEmpty_operand by done. cbn [obind resource Resource_of].
    destruct (is_zero_b u) eqn:Ez; [apply is_zero_b_iff in Ez; by destruct (v_nonzero _ Hu)|].
    cbn [find_subtractable resource Resource_of].
    rewrite (proj2 (subtractable_iff t u (v_regular _ Hv) (v_regular _ Hu) (v_value _ Hv) (v_value _ Hu)) Hk).
    unfold sub_. cbn [resource Resource_of] in *. rewrite Hn. cbn [obind]. rewrite Neg, isEmpty_operand by done.
    cbn [obind resource]. destruct (is_zero_b (Resource_sub_assign t u)) eqn:Ez'; [by apply is_zero_b_iff in Ez'|].
    cbn. unfold Resource_of. by rewrite F2, Ht.
  - destruct Ox as [O1 O2 O3 _ _]. by split.
  - by rewrite F2.
  - unfold Resource_sub_assign. by destruct (r_type t).
Qed.

(** An exclusive resource has no proper parts. *)
Lemma part_mergeable t u : value_ok t -> value_ok u -> skey t = skey u -> value_leb t u = false ->
  mergeable u = true.
Proof.
  intros Vt Vu Hk Hgt. unfold mergeable. apply orb_true_iff. right. apply negb_true_iff, not_true_iff_false.
  intros Hex. apply not_true_iff_false in Hgt. apply Hgt.
  unfold skey in Hk. rewrite !pair_equal_spec in Hk. destruct Hk as [[Hi _] Hv].
  apply value_key_leb; [done|done|symmetry; by apply identity_type|].
  rewrite (identity_exclusive _ _ Hi), Hex, !orb_true_r in Hv. congruence.
Qed.

(** A candidate that is a proper part of what is missing is taken. *)
Lemma search_part rs target found tot t x : container_ok rs -> search_ok rs target found tot t -> x ∈ tot ->
  contains_ (Resource_of (clear_reservations (resource x))) (Resource_of t) = false ->
  contains_ (Resource_of t) (Resource_of (clear_reservations (resource x))) = true ->
  exists found' tot' t', add found x = Ret found' /\ subtract tot x = Ret tot' /\
    minus [Resource_of t] [Resource_of (clear_reservations (resource x))] = Ret [Resource_of t'] /\
    search_ok rs target found' tot' t'.
Proof.
  intros Hrs Hs Hx Hnc Hc.
  destruct (search_split _ _ _ _ _ _ Hrs Hs Hx) as (l1 & l2 & -> & Hok & Ex & Hin & Htot).
  destruct Hs as [Hp Hm Ha Hmem Hcon]. set (u := clear_reservations (resource x)) in *.
  assert (Hu : valid_resource u) by (by apply clear_valid, entry_valid).
  assert (Hns : r_shared u = false).
  { unfold contains_, Resource_of in Hc. cbn [sharedCount resource] in Hc. rewrite (m_unshared _ Hm) in Hc.
    by destruct (r_shared u). }
  apply contains_unshared in Hc as [Hk Hle]; [|apply Hm|done|done].
  assert (Hgt : value_leb t u = false).
  { apply not_true_iff_false. intros Hle'. apply not_true_iff_false in Hnc. apply Hnc.
    apply contains_unshared; [done|apply Hm|apply Hm|by split]. }
  destruct (operand_of_entry_value (Resource_of t) (Resource_of u) Hk) as (_ & Hty & Hnm).
  cbn [resource Resource_of] in Hty, Hnm.
  assert (Hmx : mergeable (resource x) = true) by (apply (part_mergeable t u); [apply Hm|apply Hu|done..]).
  assert (Hxs : sharedCount x = None) by (apply has_None; rewrite (e_shared _ Ex); exact Hns).
  destruct (subtract_entry l1 x l2 Htot Hxs Hmx) as (tot' & E2 & Ptot).
  destruct (minus_missing t u Hm Hu Hns Hk Hle Hgt) as (t' & E3 & Hm' & At' & Mt').
  exists (found ++ [x]), tot', t'. split_and!; [|done|done|split; [|done| | |]].
  - apply add_fresh; [apply (c_entries _ (container_app_l _ _ Hok))|done|]. intros Hm0.
    apply (search_fresh found (l1 ++ x :: l2)); [done| |done]. apply elem_of_app. right. by left.
  - rewrite Ptot, <- Hp. rewrite <- app_assoc. cbn. apply Permutation_app_head, Permutation_middle.
  - intros name. rewrite total_app, At', <- Ha. cbn [total]. change (amount name u) with (amount name (resource x)). lia.
  - intros name p. rewrite <- Hmem, Mt', <- Permutation_cons_append, holds_cons.
    change (member name u p) with (member name (resource x) p).
    destruct (member_dec_ranges name (resource x) p) as [Hd|Hd]; [|tauto]. split; [|tauto]. intros _.
    right. apply (member_contained name t u); [apply Hm|apply Hu|done..].
  - apply Forall_app. split; [done|]. constructor; [|done]. by apply contains_self.
Qed.

(** *** The loops *)

Lemma find_pass_ok rs target candidates found tot t : container_ok rs ->
  Forall (fun x => validate (resource x) = Ret None) rs -> value_ok target ->
  search_ok rs target found tot t -> candidates ⊆ tot ->
  exists pass, find_pass candidates found tot [Resource_of t] = Ret pass /\
    match pass with
    | Found found' => located rs target found'
    | Missing found' tot' remaining =>
        exists t', remaining = [Resource_of t'] /\ search_ok rs target found' tot' t'
    end.
Proof.
  intros Hrs Hval Hvt Hs. induction candidates as [|x rest IH]; intros Hsub; cbn [find_pass].
  { eexists. split; [reflexivity|]. by exists t. }
  assert (Hx : x ∈ tot) by (apply Hsub; by left).
  destruct (search_split _ _ _ _ _ _ Hrs Hs Hx) as (_ & _ & _ & _ & Ex & Hin & _).
  pose proof (entry_valid _ Ex) as Vx. pose proof (clear_valid _ Vx) as Vu. pose proof (s_missing _ _ _ _ _ Hs) as Hm.
  rewrite unreserved_of_valid by (done || by apply (proj1 (Forall_forall _ _) Hval)). cbn [obind].
  rewrite contains_missing by done. cbn [obind]. destruct (contains_ _ (Resource_of t)) eqn:Ec.
  - destruct (search_covered _ _ _ _ _ _ Hrs Hvt Hs Hx Ec) as (found' & E & L).
    cbn [ofold]. rewrite E. cbn [obind]. by eexists.
  - rewrite missing_contains by done. cbn [obind]. destruct (contains_ (Resource_of t) _) eqn:Ep.
    + destruct (search_part _ _ _ _ _ _ Hrs Hs Hx Ec Ep) as (found' & tot' & t' & E1 & E2 & E3 & Hs').
      rewrite E1. cbn [obind]. rewrite E2. cbn [obind]. rewrite E3. cbn [obind].
      eexists. split; [reflexivity|]. by exists t'.
    + apply IH. intros y Hy. apply Hsub. by right.
Qed.

(** A predicate that does not abort on resources in the current format. *)
Definition total_predicate (p : Resource -> outcome bool) : Prop :=
  forall r, post_format r -> exists b, p r = Ret b.

Lemma filter_candidates p rs : container_ok rs -> total_predicate p ->
  exists l, filter_resources p rs = Ret l /\ l ⊆ rs.
Proof.
  intros Hrs Hp.
  set (f := fun x => match p (resource x) with Ret b => b | Fatal _ => false end).
  assert (Hf : forall x, x ∈ rs -> p (resource x) = Ret (f x)).
  { intros x Hx. destruct (Hp (resource x)) as [b E]; [apply (container_entry _ _ Hrs Hx)|]. unfold f. by rewrite E. }
  rewrite (filter_resources_filter f p rs Hrs Hf).
  eexists. split; [reflexivity|]. intros x. rewrite !list_elem_of_In, List.filter_In. tauto.
Qed.

Lemma find_loop_ok rs target predicates : container_ok rs ->
  Forall (fun x => validate (resource x) = Ret None) rs -> value_ok target ->
  Forall total_predicate predicates -> forall found tot t, search_ok rs target found tot t ->
  exists res, find_loop predicates found tot [Resource_of t] = Ret res /\
    forall found', res = Some found' -> located rs target found'.
Proof.
  intros Hrs Hval Hvt. induction 1 as [|p rest Hp _ IH]; intros found tot t Hs; cbn [find_loop].
  { by eexists. }
  assert (Htot : container_ok tot).
  { apply (container_app_l tot found). rewrite Permutation_app_comm. by rewrite (s_split _ _ _ _ _ Hs). }
  destruct (filter_candidates p tot Htot Hp) as (l & -> & Hl). cbn [obind].
  destruct (find_pass_ok rs target l found tot t) as (pass & -> & Hpass); [done..|]. cbn [obind].
  destruct pass as [found'|found' tot' remaining].
  - eexists. split; [reflexivity|]. by intros ? [= <-].
  - destruct Hpass as (t' & -> & Hs'). by apply IH.
Qed.

Lemma isReserved_total role : total_predicate (fun r => isReserved r role).
Proof.
  intros r Hr. unfold isReserved, isUnreserved. rewrite !CHECK_post_ok by done. cbn [obind].
  destruct (r_reservations r) as [|a l] eqn:E; cbn [length Nat.eqb]; [by eexists|].
  destruct role; [|by eexists]. unfold reservationRole. rewrite E. cbn. by eexists.
Qed.

Lemma find_predicates_ok target : post_format target ->
  exists l, find_predicates target = Ret l /\ Forall total_predicate l.
Proof.
  intros Ht. unfold find_predicates. rewrite isReserved_post by done. cbn [obind].
  assert (Hu : Forall total_predicate [isUnreserved; fun _ => Ret true]).
  { constructor; [|constructor; [by eexists|constructor]]. intros r Hr. unfold isUnreserved.
    rewrite CHECK_post_ok by done. by eexists. }
  destruct (r_reservations target) as [|a l] eqn:E; cbn [length Nat.eqb negb obind].
  - eexists. split; [reflexivity|]. exact Hu.
  - unfold reservationRole. rewrite E. cbn. eexists. split; [reflexivity|].
    constructor; [apply isReserved_total|exact Hu].
Qed.

Lemma search_start rs target : request_ok target -> ~ is_zero target ->
  search_ok rs target [] rs (clear_reservations target).
Proof.
  intros [H1 H2 H3 H4] Hz. split; try done.
  - split; try done. apply clear_valid. by split.
  - intros name p. split; [|by right]. intros [(x & Hx & _)|?]; [by apply not_elem_of_nil in Hx|done].
Qed.

End Subtraction.

(** ** Properties *)

(** C17: take a container that satisfies the invariant and whose resources are
    valid, and a target that is valid, not zero, in the post-refinement format,
    not shared, with a value the operators treat exactly (less than 2^51
    thousandths, ranges that are not inverted and end below [UINT64_MAX], a set
    without duplicates), no label repeated in a reservation, and a disk source
    that has just the field of its type. Then [find] does
    not abort, and a result it gives has exactly the target's amount of every
    scalar and its numbers of every ranges resource, keeps the container's
    invariant, and each of its parts is contained in the resources it was
    looked for in. *)
Theorem find_exact {P : Platform} {PL : PlatformLaws P} rs target : container_ok rs ->
  Forall (fun x => validate (resource x) = Ret None) rs ->
  request_ok target -> validate target = Ret None -> ~ is_zero target ->
  exists res, find_resource rs target = Ret res /\
    forall found, res = Some found ->
      container_ok found /\ (forall name, total name found = amount name target) /\
      (forall name p, holds name found p <-> member name target p) /\
      Forall (fun x => _contains rs x = true) found.
Proof.
  intros Hrs Hval Ht Hv Hz. unfold find_resource.
  rewrite unreserved_of_valid by (done || destruct Ht; by split). cbn [obind].
  destruct (find_predicates_ok target) as (l & -> & Hl); [apply Ht|]. cbn [obind].
  destruct (find_loop_ok rs target l Hrs Hval (q_value _ Ht) Hl [] rs (clear_reservations target))
    as (res & E & H); [by apply search_start|].
  exists res. split; [done|]. intros found Hf. by destruct (H found Hf).
Qed.

Lemma find_exact_witness :
  exists found, find_resource (P := RefPlatform.platform) [Resource_of (scalar_resource "cpus" 4 [])]
      (scalar_resource "cpus" 3 [dynamic_role "eng"]) = Ret (Some found) /\
    total "cpus" found = 3000.
Proof.
  pose proof RefPlatform.laws as PL.
  destruct (find_exact (P := RefPlatform.platform) [Resource_of (scalar_resource "cpus" 4 [])]
    (scalar_resource "cpus" 3 [dynamic_role "eng"])) as (res & E & H).
  - apply sample_container. vm_compute. done.
  - constructor; [by vm_compute|constructor].
  - apply sample_request; [vm_compute; done|repeat constructor].
  - by vm_compute.
  - change (fixed (Scalar_of_Z 3) <> 0). vm_compute. done.
  - assert (E0 : find_resource (P := RefPlatform.platform) [Resource_of (scalar_resource "cpus" 4 [])]
      (scalar_resource "cpus" 3 [dynamic_role "eng"]) = Ret (Some [Resource_of (scalar_resource "cpus" 3 [])]))
      by (vm_compute; reflexivity).
    rewrite E0 in E. injection E as <-. eexists. split; [exact E0|].
    destruct (H _ eq_refl) as (_ & HT & _). rewrite HT. vm_compute. reflexivity.
Defined.

(** [find] takes at most one part per pass: four cpus of one role cover a target
    of three, and are missed because the one cpu of another role before them
    was taken as a part in the last pass. *)
Theorem find_misses_covering :
  let rs := [Resource_of (scalar_resource "cpus" 1 [dynamic_role "a"]);
             Resource_of (scalar_resource "cpus" 4 [dynamic_role "b"])] in
  find_resource (P := RefPlatform.platform) rs (scalar_resource "cpus" 3 []) = Ret None /\
  (exists found, find_resource (P := RefPlatform.platform) (rev rs) (scalar_resource "cpus" 3 []) = Ret (Some found)).
Proof. split; [by vm_compute|]. eexists. vm_compute. reflexivity. Qed.

(** [find] for several targets looks for each of them in all the resources,
    so that one resource serves two targets: of the four cpus of a container
    it finds three unreserved and three more for a role, six in all. *)
Theorem find_overcommits :
  let rs := [Resource_of (scalar_resource "cpus" 4 [])] in
  exists found, find (P := RefPlatform.platform) rs
      [Resource_of (scalar_resource "cpus" 3 []); Resource_of (scalar_resource "cpus" 3 [dynamic_role "eng"])] =
      Ret (Some found) /\
    total "cpus" found = 6000 /\ total "cpus" rs = 4000 /\
    contains (P := RefPlatform.platform) rs found = Ret false.
Proof. eexists. split; [vm_compute; reflexivity|]. split_and!; vm_compute; reflexivity. Qed.
