(* ===== verification/Normalize.v ===== *)
(** * Normalising offer operations (source/resources_utils.cpp, 199-431)

    [validateAndNormalizeResources] checks the resources an operation names and
    brings them into the post-reservation-refinement format in place;
    [downgradeResources] converts resources back. *)
From S2P Require Import Prelude Binary64 Scalar Ranges Sets StoutStrings Values Roles Platform.
From S2P Require Import Resource ResourceFormat Resources Conservation Apply.

(** ** Data *)

(** [TaskInfo] and [ExecutorInfo], by the resources they carry. *)
Record TaskInfo := mkTaskInfo {
  task_resources : list Resource;
  task_executor : option (list Resource);
}.

(** [Offer::Operation::LaunchGroup] *)
Record LaunchGroup := mkLaunchGroup {
  group_executor : option (list Resource);
  group_tasks : list TaskInfo;
}.

Inductive OperationType :=
| T_UNKNOWN | T_LAUNCH | T_LAUNCH_GROUP | T_RESERVE | T_UNRESERVE | T_CREATE | T_DESTROY.

(** [Offer::Operation]: a type, and optional fields of which that of the type
    should be set. *)
Record OfferOperation := mkOfferOperation {
  op_type : OperationType;
  op_launch : option (list TaskInfo);
  op_launch_group : option LaunchGroup;
  op_reserve : option (list Resource);
  op_unreserve : option (list Resource);
  op_create : option (list Resource);
  op_destroy : option (list Resource);
}.

(** [mutable_reserve()] and the like *)
Definition set_launch (op : OfferOperation) (v : list TaskInfo) : OfferOperation :=
  mkOfferOperation (op_type op) (Some v) (op_launch_group op) (op_reserve op) (op_unreserve op) (op_create op) (op_destroy op).
Definition set_launch_group (op : OfferOperation) (v : LaunchGroup) : OfferOperation :=
  mkOfferOperation (op_type op) (op_launch op) (Some v) (op_reserve op) (op_unreserve op) (op_create op) (op_destroy op).
Definition set_reserve (op : OfferOperation) (v : list Resource) : OfferOperation :=
  mkOfferOperation (op_type op) (op_launch op) (op_launch_group op) (Some v) (op_unreserve op) (op_create op) (op_destroy op).
Definition set_unreserve (op : OfferOperation) (v : list Resource) : OfferOperation :=
  mkOfferOperation (op_type op) (op_launch op) (op_launch_group op) (op_reserve op) (Some v) (op_create op) (op_destroy op).
Definition set_create (op : OfferOperation) (v : list Resource) : OfferOperation :=
  mkOfferOperation (op_type op) (op_launch op) (op_launch_group op) (op_reserve op) (op_unreserve op) (Some v) (op_destroy op).
Definition set_destroy (op : OfferOperation) (v : list Resource) : OfferOperation :=
  mkOfferOperation (op_type op) (op_launch op) (op_launch_group op) (op_reserve op) (op_unreserve op) (op_create op) (Some v).

Definition normalize (l : list Resource) : outcome (list Resource) :=
  convertResourceFormats l POST_RESERVATION_REFINEMENT.

(** An optional executor: [if (has_executor())]. *)
Definition normalize_executor (executor : option (list Resource)) : outcome (option (list Resource)) :=
  match executor with
  | Some l => let! l := normalize l in Ret (Some l)
  | None => Ret None
  end.

Definition normalize_task (task : TaskInfo) : outcome TaskInfo :=
  let! l := normalize (task_resources task) in
  let! e := normalize_executor (task_executor task) in
  Ret (mkTaskInfo l e).

Definition normalize_group (group : LaunchGroup) : outcome LaunchGroup :=
  let! e := normalize_executor (group_executor group) in
  let! l := omapM normalize_task (group_tasks group) in
  Ret (mkLaunchGroup e l).

Section WithPlatform.
  Context {P : Platform}.

Definition validate_executor (executor : option (list Resource)) : outcome (option string) :=
  match executor with Some l => validate_all l | None => Ret None end.

Fixpoint validate_tasks (tasks : list TaskInfo) : outcome (option string) :=
  match tasks with
  | [] => Ret None
  | task :: rest =>
      validate_all (task_resources task) |>! validate_executor (task_executor task) |>! validate_tasks rest
  end.

Definition validate_group (group : LaunchGroup) : outcome (option string) :=
  validate_executor (group_executor group) |>! validate_tasks (group_tasks group).

(** A case of the switch: the field must be set and valid, then it is normalised
    in place. *)
Definition normalize_field {A} (field : option A) (missing : string) (check : A -> outcome (option string))
    (normal : A -> outcome A) (store : A -> OfferOperation) (op : OfferOperation) :
    outcome (option string * OfferOperation) :=
  match field with
  | None => Ret (Some missing, op)
  | Some v =>
      let! error := check v in
      match error with
      | Some e => Ret (Some e, op)
      | None => let! v := normal v in Ret (None, store v)
      end
  end.

(** [validateAndNormalizeResources]: the error, and the operation afterwards. *)
Definition validateAndNormalizeResources (op : OfferOperation) : outcome (option string * OfferOperation) :=
  match op_type op with
  | T_RESERVE => normalize_field (op_reserve op)
      "A RESERVE offer operation must have the Offer.Operation.reserve field set."
      validate_all normalize (set_reserve op) op
  | T_UNRESERVE => normalize_field (op_unreserve op)
      "An UNRESERVE offer operation must have the Offer.Operation.unreserve field set."
      validate_all normalize (set_unreserve op) op
  | T_CREATE => normalize_field (op_create op)
      "A CREATE offer operation must have the Offer.Operation.create field set."
      validate_all normalize (set_create op) op
  | T_DESTROY => normalize_field (op_destroy op)
      "A DESTROY offer operation must have the Offer.Operation.destroy field set."
      validate_all normalize (set_destroy op) op
  | T_LAUNCH => normalize_field (op_launch op)
      "A LAUNCH offer operation must have the Offer.Operation.launch field set."
      validate_tasks (omapM normalize_task) (set_launch op) op
  | T_LAUNCH_GROUP => normalize_field (op_launch_group op)
      "A LAUNCH_GROUP offer operation must have the Offer.Operation.launch_group field set."
      validate_group normalize_group (set_launch_group op) op
  | T_UNKNOWN => Ret (Some "Unknown offer operation", op)
  end.

(** The first two loops of [downgradeResources]. *)
Fixpoint check_formats (l : list Resource) : outcome unit :=
  match l with
  | [] => Ret tt
  | r :: rest => CHECK_post r ;;! check_formats rest
  end.

Fixpoint find_refined (l : list Resource) : outcome (option string) :=
  match l with
  | [] => Ret None
  | r :: rest =>
      let! refined := hasRefinedReservations r in
      if refined then
        let! text := Resource_print r in
        Ret (Some ("Invalid resources downgrade: resource " +:+ text +:+
          " with refined reservations cannot be downgraded"))
      else find_refined rest
  end.

(** [downgradeResources]: the error, and the resources afterwards. *)
Definition downgradeResources (l : list Resource) : outcome (option string * list Resource) :=
  check_formats l ;;!
  let! error := find_refined l in
  match error with
  | Some e => Ret (Some e, l)
  | None => let! l := convertResourceFormats l PRE_RESERVATION_REFINEMENT in Ret (None, l)
  end.

End WithPlatform.

(** ** What an operation names *)

Definition valid (r : Resource) : Prop := validate r = Ret None.
Definition converts (r r' : Resource) : Prop := convertResourceFormat r POST_RESERVATION_REFINEMENT = Ret r'.

Definition executor_resources (e : option (list Resource)) : list Resource := default [] e.
Definition named_by_task (t : TaskInfo) : list Resource := task_resources t ++ executor_resources (task_executor t).
Definition named_by_tasks (l : list TaskInfo) : list Resource := concat (map named_by_task l).
Definition named_by_group (g : LaunchGroup) : list Resource :=
  executor_resources (group_executor g) ++ named_by_tasks (group_tasks g).

(** The resources in the field of the operation's type, if it is set. *)
Definition named (op : OfferOperation) : option (list Resource) :=
  match op_type op with
  | T_RESERVE => op_reserve op
  | T_UNRESERVE => op_unreserve op
  | T_CREATE => op_create op
  | T_DESTROY => op_destroy op
  | T_LAUNCH => named_by_tasks <$> op_launch op
  | T_LAUNCH_GROUP => named_by_group <$> op_launch_group op
  | T_UNKNOWN => None
  end.

(** ** Lemmas *)

(** A check that finds invalid resources, and a normalisation that converts all of
    them and does nothing the second time. *)
Record normalizes {P : Platform} {A} (res : A -> list Resource) (check : A -> outcome (option string))
    (normal : A -> outcome A) (a : A) : Prop := {
  n_check : Forall (fun r => r_type r <> TEXT) (res a) ->
    exists e, check a = Ret e /\ (e = None <-> Forall valid (res a));
  n_normal : Forall valid (res a) ->
    exists a', normal a = Ret a' /\ Forall2 converts (res a) (res a') /\ check a' = Ret None /\ normal a' = Ret a';
}.

Lemma converts_valid r : valid r -> exists r', converts r r' /\ valid r' /\ post_format r' /\ converts r' r'.
Proof.
  intros H. destruct (to_post_returns r H) as [r' E]. pose proof (to_post_post _ _ E) as Hp.
  exists r'. split_and!; [done|by eapply to_post_valid|done|by apply to_post_id].
Qed.

Section Laws.
  Context {P : Platform}.

Lemma validate_all_valid l : validate_all l = Ret None <-> Forall valid l.
Proof.
  induction l as [|r l IH]; cbn [validate_all]; [by split|]. rewrite Forall_cons, <- IH. unfold valid.
  destruct (validate_returns r) as [[e|] ->]; cbn [obind]; [|tauto].
  destruct (Resource_print r); cbn [obind]; split; try done; by intros [? _].
Qed.

Lemma normalize_list l : normalizes (fun l => l) validate_all normalize l.
Proof.
  split.
  - intros Ht. assert (He : exists e, validate_all l = Ret e).
    { induction Ht as [|r l Hr _ [e IH]]; cbn [validate_all]; [by eexists|].
      destruct (validate_returns r) as [[m|] ->]; cbn [obind]; [|by exists e].
      destruct (print_returns r Hr) as [s ->]. by eexists. }
    destruct He as [e He]. exists e. split; [done|]. rewrite <- validate_all_valid, He.
    split; [by intros ->|by intros [= ->]].
  - intros Hl. enough (exists l', normalize l = Ret l' /\ Forall2 converts l l' /\ Forall valid l' /\ normalize l' = Ret l')
      as (l' & ? & ? & ? & ?) by (exists l'; by rewrite validate_all_valid).
    unfold normalize, convertResourceFormats. induction Hl as [|r l Hr _ (l' & IH1 & IH2 & IH3 & IH4)]; [by exists []|].
    destruct (converts_valid r Hr) as (r' & C1 & C2 & _ & C3). exists (r' :: l'). unfold converts in *.
    cbn [omapM]. rewrite C1, C3. cbn [obind]. rewrite IH1, IH4. split_and!; try done; by constructor.
Qed.

Lemma normalize_executor_ok e : normalizes executor_resources validate_executor normalize_executor e.
Proof.
  destruct e as [l|]; cycle 1.
  { split; intros _; [by exists None|by exists None]. }
  destruct (normalize_list l) as [Hc Hn]. split; [exact Hc|]. intros H. destruct (Hn H) as (l' & E1 & E2 & E3 & E4).
  exists (Some l'). cbn. rewrite E1, E4. by split_and!.
Qed.

(** Two checks in a row, on the concatenation of what they name. *)
Lemma check_both (l1 l2 : list Resource) c1 c2 :
  (Forall (fun r => r_type r <> TEXT) l1 -> exists e, c1 = Ret e /\ (e = None <-> Forall valid l1)) ->
  (Forall (fun r => r_type r <> TEXT) l2 -> exists e, c2 = Ret e /\ (e = None <-> Forall valid l2)) ->
  Forall (fun r => r_type r <> TEXT) (l1 ++ l2) ->
  exists e, or_error c1 c2 = Ret e /\ (e = None <-> Forall valid (l1 ++ l2)).
Proof.
  intros H1 H2 [Ht1 Ht2]%Forall_app. destruct (H1 Ht1) as (e1 & -> & I1), (H2 Ht2) as (e2 & -> & I2).
  destruct e1; cbn; eexists; (split; [reflexivity|]); rewrite Forall_app, <- I1, <- I2;
    [split; [done|by intros [? _]]|tauto].
Qed.

Lemma normalize_tasks_ok l : normalizes named_by_tasks validate_tasks (omapM normalize_task) l.
Proof.
  induction l as [|t l [IHc IHn]].
  { split; intros _; [by exists None|by exists []]. }
  destruct (normalize_list (task_resources t)) as [Rc Rn], (normalize_executor_ok (task_executor t)) as [Ec En].
  split; unfold named_by_tasks, named_by_task in *; cbn [map concat validate_tasks omapM].
  - rewrite <- app_assoc. apply check_both; [done|]. by apply check_both.
  - intros [[H1 H2]%Forall_app H3]%Forall_app.
    destruct (Rn H1) as (r' & R1 & R2 & R3 & R4), (En H2) as (e' & E1 & E2 & E3 & E4), (IHn H3) as (l' & L1 & L2 & L3 & L4).
    assert (T1 : normalize_task t = Ret (mkTaskInfo r' e')) by (unfold normalize_task; rewrite R1; cbn; by rewrite E1).
    assert (T2 : normalize_task (mkTaskInfo r' e') = Ret (mkTaskInfo r' e'))
      by (unfold normalize_task; cbn [task_resources task_executor]; rewrite R4; cbn [obind]; by rewrite E4).
    exists (mkTaskInfo r' e' :: l'). cbn [validate_tasks omapM task_resources task_executor].
    rewrite T1, T2, R3, E3, L3. cbn [obind or_error]. rewrite L1, L4. cbn [obind].
    split_and!; try done. cbn [map concat]. by repeat apply Forall2_app.
Qed.

Lemma normalize_group_ok g : normalizes named_by_group validate_group normalize_group g.
Proof.
  destruct (normalize_executor_ok (group_executor g)) as [Ec En], (normalize_tasks_ok (group_tasks g)) as [Tc Tn].
  split; unfold named_by_group, validate_group.
  - by apply check_both.
  - intros [H1 H2]%Forall_app. destruct (En H1) as (e' & E1 & E2 & E3 & E4), (Tn H2) as (l' & L1 & L2 & L3 & L4).
    exists (mkLaunchGroup e' l'). unfold normalize_group. cbn [group_executor group_tasks].
    rewrite E1, E3, E4. cbn [obind or_error]. rewrite L1, L3, L4. cbn [obind]. split_and!; try done. by apply Forall2_app.
Qed.

(** A case of the switch. *)
Lemma normalize_field_ok {A} (res : A -> list Resource) check normal missing store (field : option A) op :
  (forall a, normalizes res check normal a) ->
  Forall (fun r => r_type r <> TEXT) (default [] (res <$> field)) ->
  exists e op', normalize_field field missing check normal store op = Ret (e, op') /\
    (e = None <-> exists a, field = Some a /\ Forall valid (res a)) /\
    (e <> None -> op' = op) /\
    (e = None -> exists a a', field = Some a /\ op' = store a' /\ Forall2 converts (res a) (res a') /\
       forall op'', normalize_field (Some a') missing check normal store op'' = Ret (None, store a')).
Proof.
  intros Hn Ht. destruct field as [a|]; cbn [normalize_field]; cycle 1.
  { exists (Some missing), op. split_and!; [done| |done|done]. split; [done|]. by intros (? & ? & _). }
  destruct (n_check _ _ _ _ (Hn a) Ht) as (e & -> & He). cbn [obind]. destruct e as [e|].
  - exists (Some e), op. split_and!; [done| |done|done]. split; [done|]. by intros (b & [= <-] & H%He).
  - pose proof (proj1 He eq_refl) as Hv.
    destruct (n_normal _ _ _ _ (Hn a) Hv) as (a' & -> & Hc & Hk & Hi). cbn [obind].
    exists None, (store a'). split_and!; [done| |done|].
    + split; [|done]. intros _. by exists a.
    + intros _. exists a, a'. split_and!; try done. intros op''. by rewrite Hk, Hi.
Qed.

Lemma converts_all l l' : Forall2 converts l l' -> Forall valid l ->
  Forall (fun r => post_format r /\ valid r) l'.
Proof.
  induction 1 as [|r r' l l' Hr _ IH]; intros Hl; [done|]. apply Forall_cons in Hl as [H1 H2]. constructor; [|auto].
  split; [by eapply to_post_post|by eapply to_post_valid].
Qed.

(** What [validateAndNormalizeResources] promises. *)
Definition normalized (op : OfferOperation) (e : option string) (op' : OfferOperation) : Prop :=
  (e = None <-> exists l, named op = Some l /\ Forall valid l) /\
  (e <> None -> op' = op) /\
  (e = None -> exists l l', named op = Some l /\ named op' = Some l' /\ Forall2 converts l l' /\
     Forall (fun r => post_format r /\ valid r) l' /\ op_type op' = op_type op /\
     validateAndNormalizeResources op' = Ret (None, op')).

Lemma switch_case {A} (res : A -> list Resource) check normal missing store (field : option A) op :
  (forall a, normalizes res check normal a) -> named op = res <$> field ->
  (forall a, op_type (store a) = op_type op /\ named (store a) = Some (res a) /\
     validateAndNormalizeResources (store a) = normalize_field (Some a) missing check normal store (store a)) ->
  validateAndNormalizeResources op = normalize_field field missing check normal store op ->
  Forall (fun r => r_type r <> TEXT) (default [] (named op)) ->
  exists e op', validateAndNormalizeResources op = Ret (e, op') /\ normalized op e op'.
Proof.
  intros Hn Hnm Hst -> Ht. rewrite Hnm in Ht.
  destruct (normalize_field_ok res check normal missing store field op Hn Ht) as (e & op' & E & He & Herr & Hok).
  exists e, op'. split; [done|]. unfold normalized. rewrite Hnm. split_and!; [|done|].
  - rewrite He. split; [intros (a & -> & Ha); by eexists|]. intros (l & H & Hl).
    destruct field as [a|]; [|done]. injection H as <-. by exists a.
  - intros H. destruct (Hok H) as (a & a' & -> & -> & Hc & Hi). destruct (Hst a') as (S1 & S2 & S3).
    exists (res a), (res a'). rewrite S3. split_and!; try done. apply (converts_all (res a)); [done|].
    apply He in H as (b & [= <-] & ?). done.
Qed.

End Laws.

(** ** Properties *)

(** C26: unless an operation names a text resource, [validateAndNormalizeResources]
    returns without an assertion failing: it reports no error exactly if the
    field of the operation's type is set and all its resources are valid,
    leaves the operation alone when it reports one, and otherwise converts
    each named resource, after which all of them are valid and in the
    post-reservation-refinement format and a second call changes nothing. *)
Theorem normalize_operation {P : Platform} op :
  Forall (fun r => r_type r <> TEXT) (default [] (named op)) ->
  exists e op', validateAndNormalizeResources op = Ret (e, op') /\ normalized op e op'.
Proof.
  destruct op as [ty la lg re un cr de]. destruct ty; intros Ht; set (op := mkOfferOperation _ _ _ _ _ _ _) in *.
  - exists (Some "Unknown offer operation"), op.
    split; [done|]. unfold normalized. split_and!; [|done|done]. split; [done|]. by intros (l & ? & _).
  - by eapply (switch_case named_by_tasks _ _ _ (set_launch op) la op normalize_tasks_ok).
  - by eapply (switch_case named_by_group _ _ _ (set_launch_group op) lg op normalize_group_ok).
  - by eapply (switch_case _ _ _ _ (set_reserve op) re op normalize_list (eq_sym (option_fmap_id re))).
  - by eapply (switch_case _ _ _ _ (set_unreserve op) un op normalize_list (eq_sym (option_fmap_id un))).
  - by eapply (switch_case _ _ _ _ (set_create op) cr op normalize_list (eq_sym (option_fmap_id cr))).
  - by eapply (switch_case _ _ _ _ (set_destroy op) de op normalize_list (eq_sym (option_fmap_id de))).
Qed.

Lemma normalize_operation_witness :
  let op := mkOfferOperation T_LAUNCH (Some [mkTaskInfo [old_format] None]) None None None None None in
  exists op', validateAndNormalizeResources (P := RefPlatform.platform) op = Ret (None, op') /\
    exists l, named op' = Some l /\ Forall (fun r => post_format r /\ valid r) l /\ length l = 1%nat.
Proof.
  intros op.
  destruct (normalize_operation (P := RefPlatform.platform) op) as (e & op' & E & H1 & _ & H3).
  { cbn. constructor; [done|constructor]. }
  assert (e = None) as ->.
  { apply H1. exists [old_format]. split; [done|]. constructor; [by vm_compute|constructor]. }
  exists op'. split; [exact E|]. destruct (H3 eq_refl) as (l & l' & Hl & Hl' & Hc & Hv & _).
  exists l'. split_and!; [done..|]. apply Forall2_length in Hc. rewrite <- Hc. by injection Hl as <-.
Defined.

Definition downgradable (r : Resource) : Prop := post_format r /\ r_type r <> TEXT.

Lemma check_formats_ok l : Forall downgradable l -> check_formats l = Ret tt.
Proof. induction 1 as [|r l [Hr _] _ IH]; cbn [check_formats]; [done|]. by rewrite CHECK_post_ok. Qed.

Lemma find_refined_ok {P : Platform} l : Forall downgradable l ->
  exists e, find_refined l = Ret e /\ (e = None <-> Forall (fun r => (length (r_reservations r) <= 1)%nat) l).
Proof.
  induction 1 as [|r l [Hr Ht] _ (e & IH1 & IH2)]; cbn [find_refined]; [by exists None|].
  unfold hasRefinedReservations. rewrite CHECK_post_ok by done. cbn [obind].
  destruct (Nat.ltb_spec 1 (length (r_reservations r))) as [E|E].
  - destruct (print_returns r Ht) as [s ->]. cbn [obind]. eexists. split; [reflexivity|]. split; [done|].
    intros [? _]%Forall_cons. lia.
  - exists e. split; [done|]. rewrite IH2, Forall_cons. tauto.
Qed.

Lemma downgrade_convert l : Forall downgradable l -> Forall (fun r => (length (r_reservations r) <= 1)%nat) l ->
  exists l', convertResourceFormats l PRE_RESERVATION_REFINEMENT = Ret l' /\
    Forall2 (fun r r' => convertResourceFormat r PRE_RESERVATION_REFINEMENT = Ret r' /\
       is_Some (r_role r') /\ r_reservations r' = []) l l'.
Proof.
  unfold convertResourceFormats. induction 1 as [|r l [[H1 H2] _] _ IH]; intros Hn; [by exists []|].
  apply Forall_cons in Hn as [Hr Hn]. destruct (IH Hn) as (l' & E & HF).
  assert (Hc : exists r', convertResourceFormat r PRE_RESERVATION_REFINEMENT = Ret r' /\
            is_Some (r_role r') /\ r_reservations r' = []).
  { cbn [convertResourceFormat]. unfold to_pre. rewrite H1, H2. cbn [has negb CHECK obind].
    destruct (r_reservations r) as [|a [|b t]] eqn:Er; [| |cbn in Hr; lia]; (eexists; split; [reflexivity|]).
    - split; [by eexists|done].
    - rewrite bool_decide_true by done. destruct (bool_decide (reservation_type a = DYNAMIC)); split; done || by eexists. }
  destruct Hc as (r' & Er & Hr'). exists (r' :: l'). cbn [omapM]. rewrite Er. cbn [obind]. rewrite E. split; [done|].
  by constructor.
Qed.

(** On resources in the post-reservation-refinement format that are not text,
    [downgradeResources] is all or nothing: it reports an error, and changes
    nothing, exactly if some resource has refined reservations, and otherwise
    converts every one of them, to a role and no stack of reservations. *)
Theorem downgrade_all_or_nothing {P : Platform} l :
  Forall downgradable l ->
  exists e l', downgradeResources l = Ret (e, l') /\
    (e = None <-> Forall (fun r => (length (r_reservations r) <= 1)%nat) l) /\
    (e <> None -> l' = l) /\
    (e = None -> Forall2 (fun r r' => convertResourceFormat r PRE_RESERVATION_REFINEMENT = Ret r' /\
       is_Some (r_role r') /\ r_reservations r' = []) l l').
Proof.
  intros Hl. unfold downgradeResources. rewrite check_formats_ok by done. cbn [obind].
  destruct (find_refined_ok l Hl) as (e & -> & He). cbn [obind]. destruct e as [e|].
  - exists (Some e), l. by split_and!.
  - destruct (downgrade_convert l Hl (proj1 He eq_refl)) as (l' & -> & H). exists None, l'. by split_and!.
Qed.

Lemma downgrade_all_or_nothing_witness :
  exists l', downgradeResources (P := RefPlatform.platform) [scalar_resource "cpus" 4 [dynamic_role "eng"]] =
    Ret (None, l') /\ map r_reservations l' = [[]].
Proof.
  destruct (downgrade_all_or_nothing (P := RefPlatform.platform) [scalar_resource "cpus" 4 [dynamic_role "eng"]])
    as (e & l' & E & H1 & _ & H3); [by repeat constructor|].
  assert (e = None) as -> by (apply H1; by repeat constructor).
  exists l'. split; [exact E|]. specialize (H3 eq_refl). inversion H3 as [|? r' ? t [_ [_ Hr]] Ht]; subst.
  inversion Ht; subst. cbn. by rewrite Hr.
Defined.
