(* ===== verification/TypeUtils.v ===== *)
(** * Comparing, hashing and printing messages (source/type_utils.cpp, include/mesos/type_utils.hpp)

    The operators the protobuf compiler does not generate.  A field that is not
    set reads as its default, so that [operator==] does not tell the two apart
    unless it asks for the presence of the field.  Enumerations are their
    numbers. *)
From Stdlib Require Import Ascii SpecFloat.
From S2P Require Import Prelude Binary64 Scalar Ranges Sets StoutStrings Values Roles Platform.
From S2P Require Import Resource ResourceFormat Resources.
From S2P Require Attributes.

(** ** Data *)

(** [CommandInfo::URI] *)
Record URI := mkURI {
  uri_value : string;
  uri_executable : option bool;
  uri_extract : option bool;
  uri_cache : option bool;
  uri_output_file : option string;
}.
Definition executable (u : URI) : bool := default false (uri_executable u).
Definition extract (u : URI) : bool := default true (uri_extract u).

(** [Environment::Variable]; an [Environment] is its variables. *)
Record Variable_ := mkVariable { var_name : string; var_value : option string }.

Record CommandInfo := mkCommandInfo {
  ci_uris : list URI;
  ci_environment : list Variable_;
  ci_shell : option bool;
  ci_value : option string;
  ci_arguments : list string;
  ci_user : option string;
}.
Definition text (s : option string) : string := default "" s.

#[warnings="-register-all"]
Inductive ContainerID := mkContainerID (value : string) (parent : option ContainerID).

Record Credential := mkCredential { principal_ : string; secret : option string }.

(** [ContainerInfo::DockerInfo] and what it holds *)
Record PortMapping := mkPortMapping { host_port : Z; container_port : Z; pm_protocol : option string }.
Record Parameter_ := mkParameter { param_key : string; param_value : string }.
Record DockerInfo := mkDockerInfo {
  di_image : string;
  di_network : option Z;
  di_port_mappings : list PortMapping;
  di_privileged : option bool;
  di_parameters : list Parameter_;
  di_force_pull_image : option bool;
}.
Definition default_docker : DockerInfo := mkDockerInfo "" None [] None [] None.

Record ContainerInfo := mkContainerInfo {
  co_type : Z;
  co_volumes : list Volume;
  co_hostname : option string;
  co_docker : option DockerInfo;
  co_mesos_image : option string;     (** the image of [MesosInfo], by name *)
}.

Record Port := mkPort {
  port_number : Z;
  port_name : option string;
  port_protocol : option string;
  port_visibility : option Z;
}.

Record DiscoveryInfo := mkDiscoveryInfo {
  disc_visibility : Z;
  disc_name : option string;
  disc_environment : option string;
  disc_location : option string;
  disc_version : option string;
  disc_ports : list Port;
  disc_labels : list Label;
}.
Definition default_discovery : DiscoveryInfo := mkDiscoveryInfo 0 None None None None [] [].
Definition default_command : CommandInfo := mkCommandInfo [] [] None None [] None.
Definition default_container : ContainerInfo := mkContainerInfo 1 [] None None None.

Record ExecutorInfo := mkExecutorInfo {
  ex_type : option Z;
  ex_executor_id : string;
  ex_framework_id : option string;
  ex_command : option CommandInfo;
  ex_container : option ContainerInfo;
  ex_resources : list Resource;
  ex_name : option string;
  ex_source : option string;
  ex_data : option string;
  ex_discovery : option DiscoveryInfo;
}.

Record MasterInfo := mkMasterInfo {
  ms_id : string; ms_ip : Z; ms_port : Z;
  ms_pid : option string; ms_hostname : option string; ms_version : option string;
}.

Record SlaveInfo := mkSlaveInfo {
  sl_hostname : string;
  sl_port : option Z;
  sl_resources : list Resource;
  sl_attributes : list Attributes.Attribute;
  sl_id : option string;
  sl_checkpoint : option bool;
}.

Record TaskStatus := mkTaskStatus {
  ts_task_id : string; ts_state : Z; ts_message : option string; ts_source : option Z; ts_reason : option Z;
  ts_data : option string; ts_slave_id : option string; ts_executor_id : option string;
  ts_timestamp : option double; ts_uuid : option string; ts_healthy : option bool;
}.

Record Task := mkTask {
  tk_name : string; tk_task_id : string; tk_framework_id : string; tk_executor_id : option string;
  tk_slave_id : string; tk_state : Z; tk_resources : list Resource; tk_statuses : list TaskStatus;
  tk_status_update_state : option Z; tk_status_update_uuid : option string;
  tk_labels : list Label; tk_discovery : option DiscoveryInfo; tk_user : option string;
}.

Record MachineID := mkMachineID { mc_hostname : option string; mc_ip : option string }.

(** ** Equality *)

(** The loop over a repeated field whose order does not matter. *)
Definition repeated_eq {A} (eqb : A -> A -> bool) (left right : list A) : bool :=
  if negb (length left =? length right)%nat then false
  else forallb (fun l => existsb (fun r => eqb l r) right) left.

(** The loop over one whose order does. *)
Fixpoint ordered_loop {A} (eqb : A -> A -> bool) (left right : list A) : bool :=
  match left, right with
  | l :: left', r :: right' => if negb (eqb l r) then false else ordered_loop eqb left' right'
  | _, _ => true
  end.
Definition ordered_eq {A} (eqb : A -> A -> bool) (left right : list A) : bool :=
  if negb (length left =? length right)%nat then false else ordered_loop eqb left right.

Definition URI_eq (left right : URI) : bool :=
  String.eqb (uri_value left) (uri_value right) && Bool.eqb (executable left) (executable right) &&
  Bool.eqb (extract left) (extract right).

Definition Variable_eq (left right : Variable_) : bool :=
  String.eqb (var_name left) (var_name right) && String.eqb (text (var_value left)) (text (var_value right)).

Definition Environment_eq (left right : list Variable_) : bool := repeated_eq Variable_eq left right.

Definition CommandInfo_eq (left right : CommandInfo) : bool :=
  if negb (repeated_eq URI_eq (ci_uris left) (ci_uris right)) then false
  else if negb (ordered_eq String.eqb (ci_arguments left) (ci_arguments right)) then false
  else
    Environment_eq (ci_environment left) (ci_environment right) &&
    String.eqb (text (ci_value left)) (text (ci_value right)) &&
    String.eqb (text (ci_user left)) (text (ci_user right)) &&
    Bool.eqb (default true (ci_shell left)) (default true (ci_shell right)).

Fixpoint ContainerID_eq (left right : ContainerID) : bool :=
  let '(mkContainerID lv lp) := left in
  let '(mkContainerID rv rp) := right in
  String.eqb lv rv && Bool.eqb (has lp) (has rp) &&
  match lp, rp with
  | Some l, Some r => ContainerID_eq l r
  | _, _ => true
  end.

Definition Credential_eq (left right : Credential) : bool :=
  String.eqb (principal_ left) (principal_ right) && String.eqb (text (secret left)) (text (secret right)).

Definition mode_number (m : option VolumeMode) : Z := match m with Some RO => 2 | _ => 1 end.
Definition Volume_eq (left right : Volume) : bool :=
  String.eqb (vol_container_path left) (vol_container_path right) &&
  String.eqb (text (vol_host_path left)) (text (vol_host_path right)) &&
  (mode_number (vol_mode left) =? mode_number (vol_mode right)).

Definition PortMapping_eq (left right : PortMapping) : bool :=
  (host_port left =? host_port right) && (container_port left =? container_port right) &&
  String.eqb (text (pm_protocol left)) (text (pm_protocol right)).

Definition Parameter_eq (left right : Parameter_) : bool :=
  String.eqb (param_key left) (param_key right) && String.eqb (param_value left) (param_value right).

Definition DockerInfo_eq (left right : DockerInfo) : bool :=
  if negb (repeated_eq PortMapping_eq (di_port_mappings left) (di_port_mappings right)) then false
  else if negb (repeated_eq Parameter_eq (di_parameters left) (di_parameters right)) then false
  else
    String.eqb (di_image left) (di_image right) &&
    (default 1 (di_network left) =? default 1 (di_network right)) &&
    Bool.eqb (default false (di_privileged left)) (default false (di_privileged right)) &&
    Bool.eqb (default false (di_force_pull_image left)) (default false (di_force_pull_image right)).

Definition ContainerInfo_eq (left right : ContainerInfo) : bool :=
  if negb (repeated_eq Volume_eq (co_volumes left) (co_volumes right)) then false
  else
    (co_type left =? co_type right) &&
    String.eqb (text (co_hostname left)) (text (co_hostname right)) &&
    DockerInfo_eq (default default_docker (co_docker left)) (default default_docker (co_docker right)).

Definition Port_eq (left right : Port) : bool :=
  (port_number left =? port_number right) &&
  String.eqb (text (port_name left)) (text (port_name right)) &&
  String.eqb (text (port_protocol left)) (text (port_protocol right)) &&
  (default 0 (port_visibility left) =? default 0 (port_visibility right)).

Definition Ports_eq (left right : list Port) : bool := repeated_eq Port_eq left right.

Definition DiscoveryInfo_eq (left right : DiscoveryInfo) : bool :=
  (disc_visibility left =? disc_visibility right) &&
  String.eqb (text (disc_name left)) (text (disc_name right)) &&
  String.eqb (text (disc_environment left)) (text (disc_environment right)) &&
  String.eqb (text (disc_location left)) (text (disc_location right)) &&
  String.eqb (text (disc_version left)) (text (disc_version right)) &&
  Ports_eq (disc_ports left) (disc_ports right) &&
  Labels_eq (disc_labels left) (disc_labels right).

Definition MasterInfo_eq (left right : MasterInfo) : bool :=
  String.eqb (ms_id left) (ms_id right) && (ms_ip left =? ms_ip right) && (ms_port left =? ms_port right) &&
  String.eqb (text (ms_pid left)) (text (ms_pid right)) &&
  String.eqb (text (ms_hostname left)) (text (ms_hostname right)) &&
  String.eqb (text (ms_version left)) (text (ms_version right)).

(** Doubles compare as doubles: a NaN differs from itself. *)
Definition zero : double := S754_zero false.
Definition TaskStatus_eq (left right : TaskStatus) : bool :=
  String.eqb (ts_task_id left) (ts_task_id right) && (ts_state left =? ts_state right) &&
  String.eqb (text (ts_data left)) (text (ts_data right)) &&
  String.eqb (text (ts_message left)) (text (ts_message right)) &&
  String.eqb (text (ts_slave_id left)) (text (ts_slave_id right)) &&
  SFeqb (default zero (ts_timestamp left)) (default zero (ts_timestamp right)) &&
  String.eqb (text (ts_executor_id left)) (text (ts_executor_id right)) &&
  Bool.eqb (default false (ts_healthy left)) (default false (ts_healthy right)) &&
  (default 0 (ts_source left) =? default 0 (ts_source right)) &&
  (default 0 (ts_reason left) =? default 0 (ts_reason right)) &&
  String.eqb (text (ts_uuid left)) (text (ts_uuid right)).

(** [strings::lower] *)
Definition lower_char (c : ascii) : ascii :=
  let n := nat_of_ascii c in if (65 <=? n)%nat && (n <=? 90)%nat then ascii_of_nat (n + 32) else c.
Fixpoint lower (s : string) : string :=
  match s with "" => "" | String c r => String (lower_char c) (lower r) end.

Definition MachineID_eq (left right : MachineID) : bool :=
  Bool.eqb (has (mc_hostname left)) (has (mc_hostname right)) &&
  String.eqb (lower (text (mc_hostname left))) (lower (text (mc_hostname right))) &&
  Bool.eqb (has (mc_ip left)) (has (mc_ip right)) &&
  String.eqb (text (mc_ip left)) (text (mc_ip right)).

(** [TaskInfo]s compare by their serialisations, which protobuf provides. *)
Definition TaskGroupInfo_eq {T} (SerializeAsString : T -> string) (left right : list T) : bool :=
  repeated_eq (fun l r => String.eqb (SerializeAsString l) (SerializeAsString r)) left right.

Section WithPlatform.
  Context {P : Platform}.

(** [Resources(left) == Resources(right)] *)
Definition same_resources (left right : list Resource) : outcome bool :=
  let! l := of_resources left in
  let! r := of_resources right in
  Resources_eq l r.

(** [a && b], where evaluating [b] may abort *)
Definition and_then (a : bool) (b : outcome bool) : outcome bool := if a then b else Ret false.

Definition ExecutorInfo_eq (left right : ExecutorInfo) : outcome bool :=
  if match ex_type left, ex_type right with
     | Some l, Some r => negb (l =? r)
     | _, _ => false
     end then Ret false
  else
    and_then (Bool.eqb (has (ex_type left)) (has (ex_type right)) &&
              String.eqb (ex_executor_id left) (ex_executor_id right) &&
              String.eqb (text (ex_data left)) (text (ex_data right)))
    (let! same := same_resources (ex_resources left) (ex_resources right) in
     Ret (same &&
      CommandInfo_eq (default default_command (ex_command left)) (default default_command (ex_command right)) &&
      String.eqb (text (ex_framework_id left)) (text (ex_framework_id right)) &&
      String.eqb (text (ex_name left)) (text (ex_name right)) &&
      String.eqb (text (ex_source left)) (text (ex_source right)) &&
      ContainerInfo_eq (default default_container (ex_container left)) (default default_container (ex_container right)) &&
      DiscoveryInfo_eq (default default_discovery (ex_discovery left)) (default default_discovery (ex_discovery right)))).

Definition SlaveInfo_eq (left right : SlaveInfo) : outcome bool :=
  and_then (String.eqb (sl_hostname left) (sl_hostname right))
  (let! same := same_resources (sl_resources left) (sl_resources right) in
   and_then same
   (let! attributes := Attributes.Attributes_eq (sl_attributes left) (sl_attributes right) in
    Ret (attributes &&
      String.eqb (text (sl_id left)) (text (sl_id right)) &&
      Bool.eqb (default false (sl_checkpoint left)) (default false (sl_checkpoint right)) &&
      (default 5051 (sl_port left) =? default 5051 (sl_port right))))).

Definition Task_eq (left right : Task) : outcome bool :=
  if negb (ordered_eq TaskStatus_eq (tk_statuses left) (tk_statuses right)) then Ret false
  else
    and_then (String.eqb (tk_name left) (tk_name right) && String.eqb (tk_task_id left) (tk_task_id right) &&
              String.eqb (tk_framework_id left) (tk_framework_id right) &&
              String.eqb (text (tk_executor_id left)) (text (tk_executor_id right)) &&
              String.eqb (tk_slave_id left) (tk_slave_id right) && (tk_state left =? tk_state right))
    (let! same := same_resources (tk_resources left) (tk_resources right) in
     Ret (same &&
      (default 6 (tk_status_update_state left) =? default 6 (tk_status_update_state right)) &&
      String.eqb (text (tk_status_update_uuid left)) (text (tk_status_update_uuid right)) &&
      Labels_eq (tk_labels left) (tk_labels right) &&
      DiscoveryInfo_eq (default default_discovery (tk_discovery left)) (default default_discovery (tk_discovery right)) &&
      String.eqb (text (tk_user left)) (text (tk_user right)))).

End WithPlatform.

(** ** Order, hashing, printing *)

Definition id_value (c : ContainerID) : string := let '(mkContainerID v _) := c in v.

(** [operator<] on the identifiers, and on containers *)
Definition ID_lt (left right : string) : bool := String.ltb left right.
Definition ContainerID_lt (left right : ContainerID) : bool := String.ltb (id_value left) (id_value right).

Section Hash.
  (** [boost::hash_combine] on a string and on a [size_t]. *)
  Context (hash_combine : Z -> string -> Z) (hash_combine_size : Z -> Z -> Z).

Definition URI_hash (u : URI) : Z :=
  let seed := 0 in
  let seed := if extract u then seed + 11 else seed in
  let seed := if executable u then seed + 2003 else seed in
  hash_combine seed (uri_value u).

Fixpoint ContainerID_hash (c : ContainerID) : Z :=
  let '(mkContainerID v parent) := c in
  let seed := hash_combine 0 v in
  match parent with
  | Some p => hash_combine_size seed (ContainerID_hash p)
  | None => seed
  end.

Definition ID_hash (id : string) : Z := hash_combine 0 id.

(** [std::pair<FrameworkID, ExecutorID>] *)
Definition pair_hash (framework executor : string) : Z :=
  hash_combine_size (hash_combine_size 0 (ID_hash framework)) (ID_hash executor).

Definition MachineID_hash (m : MachineID) : Z :=
  hash_combine (hash_combine 0 (lower (text (mc_hostname m)))) (text (mc_ip m)).

End Hash.

Fixpoint ContainerID_print (c : ContainerID) : string :=
  let '(mkContainerID v parent) := c in
  match parent with Some p => ContainerID_print p +:+ "." +:+ v | None => v end.

Definition MachineID_print (m : MachineID) : string :=
  match mc_hostname m, mc_ip m with
  | Some h, Some ip => h +:+ " (" +:+ ip +:+ ")"
  | Some h, None => h
  | None, ip => "(" +:+ text ip +:+ ")"
  end.

(** The separator before every element but the first. *)
Fixpoint print_rest (l : list string) : string :=
  match l with [] => "" | s :: r => ", " +:+ s +:+ print_rest r end.
Definition print_list (l : list string) : string :=
  "[ " +:+ match l with [] => "" | s :: r => s +:+ print_rest r end +:+ " ]".

(** [operator<<] on a [StatusUpdate], by the fields it prints; [uuid] is
    converted with [UUID::fromBytes(...).get()]. *)
Record StatusUpdate := mkStatusUpdate {
  su_state : string; su_uuid : option string; su_task_id : string; su_healthy : option bool; su_framework_id : string;
}.

Section Update.
  (** [stringify(UUID::fromBytes(bytes))] *)
  Context (uuid_of_bytes : string -> Try string).

Definition StatusUpdate_print (u : StatusUpdate) : outcome string :=
  let! uuid :=
    match su_uuid u with
    | None => Ret ""
    | Some bytes =>
        match uuid_of_bytes bytes with
        | TryOk s => Ret (" (UUID: " +:+ s +:+ ")")
        | TryError e => Fatal e
        end
    end in
  Ret (su_state u +:+ uuid +:+ " for task " +:+ su_task_id u +:+
    match su_healthy u with
    | Some h => " in health state " +:+ (if h then "healthy" else "unhealthy")
    | None => ""
    end +:+ " of framework " +:+ su_framework_id u).

End Update.

(** ** What the operators compare *)

Definition uri_key (u : URI) := (uri_value u, executable u, extract u).
Definition variable_key (v : Variable_) := (var_name v, text (var_value v)).
Definition volume_key (v : Volume) := (vol_container_path v, text (vol_host_path v), mode_number (vol_mode v)).
Definition mapping_key (m : PortMapping) := (host_port m, container_port m, text (pm_protocol m)).
Definition parameter_key (p : Parameter_) := (param_key p, param_value p).
Definition port_key (p : Port) :=
  (port_number p, text (port_name p), text (port_protocol p), default 0 (port_visibility p)).

(** The elements of a repeated field whose order does not matter. *)
Definition unordered {A K} `{Countable K} (f : A -> K) (l : list A) : gset K := list_to_set (map f l).
Definition no_duplicates {A K} (f : A -> K) (l : list A) : Prop := NoDup (map f l).

Definition command_key (c : CommandInfo) :=
  (unordered uri_key (ci_uris c), ci_arguments c, unordered variable_key (ci_environment c), text (ci_value c),
   text (ci_user c), default true (ci_shell c)).
Definition docker_key (d : DockerInfo) :=
  (unordered mapping_key (di_port_mappings d), unordered parameter_key (di_parameters d), di_image d,
   default 1 (di_network d), default false (di_privileged d), default false (di_force_pull_image d)).
Definition container_key (c : ContainerInfo) :=
  (unordered volume_key (co_volumes c), co_type c, text (co_hostname c), docker_key (default default_docker (co_docker c))).
Definition discovery_key (d : DiscoveryInfo) :=
  (disc_visibility d, text (disc_name d), text (disc_environment d), text (disc_location d), text (disc_version d),
   unordered port_key (disc_ports d), label_set (disc_labels d)).

Definition regular_command (c : CommandInfo) : Prop :=
  no_duplicates uri_key (ci_uris c) /\ no_duplicates variable_key (ci_environment c).
Definition regular_container (c : ContainerInfo) : Prop :=
  let d := default default_docker (co_docker c) in
  no_duplicates volume_key (co_volumes c) /\ no_duplicates mapping_key (di_port_mappings d) /\
  no_duplicates parameter_key (di_parameters d).
Definition regular_discovery (d : DiscoveryInfo) : Prop :=
  no_duplicates port_key (disc_ports d) /\ regular_labels (disc_labels d).

(** ** Lemmas *)

Lemma repeated_eq_elem {A K} (eqb : A -> A -> bool) (f : A -> K) l r :
  (forall a b, eqb a b = true <-> f a = f b) ->
  repeated_eq eqb l r = true <-> length l = length r /\ map f l ⊆ map f r.
Proof.
  intros Hf. unfold repeated_eq.
  assert (Hall : forallb (fun a => existsb (fun b => eqb a b) r) l = true <-> map f l ⊆ map f r).
  { rewrite (forallb_Forall _ (fun a => f a ∈ map f r)).
    - rewrite Forall_forall. unfold subseteq, list_subseteq. setoid_rewrite list_elem_of_fmap.
      split; [intros H x (a & -> & Ha); by apply H|]. intros H a Ha. apply H. eauto.
    - intros a _. rewrite existsb_elem, list_elem_of_fmap. setoid_rewrite Hf.
      split; intros (b & H1 & H2); eauto. }
  destruct (Nat.eqb_spec (length l) (length r)); cbn [negb]; [rewrite Hall; tauto|].
  split; [done|]. by intros [? _].
Qed.

Lemma repeated_eq_iff {A K} `{Countable K} (eqb : A -> A -> bool) (f : A -> K) l r :
  (forall a b, eqb a b = true <-> f a = f b) -> no_duplicates f l -> no_duplicates f r ->
  repeated_eq eqb l r = true <-> unordered f l = unordered f r.
Proof.
  intros Hf Hl Hr. rewrite (repeated_eq_elem _ f) by done. unfold unordered, no_duplicates in *. split.
  - intros [E Hsub]. apply list_to_set_perm_L. apply submseteq_length_Permutation; [by apply NoDup_submseteq|].
    rewrite !length_map. lia.
  - intros Hs. split.
    + apply (f_equal size) in Hs. by rewrite !size_list_to_set, !length_map in Hs.
    + intros x Hx. apply (elem_of_list_to_set (C := gset K)). rewrite <- Hs. by apply elem_of_list_to_set.
Qed.

Lemma ordered_eq_iff {A} (eqb : A -> A -> bool) l r : (forall a b, eqb a b = true <-> a = b) ->
  ordered_eq eqb l r = true <-> l = r.
Proof.
  intros Hf. unfold ordered_eq. revert r. induction l as [|a l IH]; intros [|b r]; cbn; try done.
  specialize (IH r). destruct (length l =? length r)%nat; cbn [negb] in *.
  - destruct (eqb a b) eqn:E; cbn [negb].
    + apply Hf in E as ->. rewrite IH. split; [by intros ->|by intros [= ->]].
    + split; [done|]. intros [= -> _]. by rewrite (proj2 (Hf b b) eq_refl) in E.
  - split; [done|]. intros [= _ Hl]. by apply IH in Hl.
Qed.

(** Turns a conjunction of comparisons into an equality of keys. *)
Ltac compare_keys :=
  rewrite ?andb_true_iff, ?String.eqb_eq, ?Z.eqb_eq, ?eqb_true_iff, ?pair_equal_spec; try tauto.

Lemma URI_eq_key a b : URI_eq a b = true <-> uri_key a = uri_key b.
Proof. unfold URI_eq, uri_key. compare_keys. Qed.
Lemma Variable_eq_key a b : Variable_eq a b = true <-> variable_key a = variable_key b.
Proof. unfold Variable_eq, variable_key. compare_keys. Qed.
Lemma Volume_eq_key a b : Volume_eq a b = true <-> volume_key a = volume_key b.
Proof. unfold Volume_eq, volume_key. compare_keys. Qed.
Lemma PortMapping_eq_key a b : PortMapping_eq a b = true <-> mapping_key a = mapping_key b.
Proof. unfold PortMapping_eq, mapping_key. compare_keys. Qed.
Lemma Parameter_eq_key a b : Parameter_eq a b = true <-> parameter_key a = parameter_key b.
Proof. unfold Parameter_eq, parameter_key. compare_keys. Qed.
Lemma Port_eq_key a b : Port_eq a b = true <-> port_key a = port_key b.
Proof. unfold Port_eq, port_key. compare_keys. Qed.

Create HintDb keys.
#[export] Hint Resolve URI_eq_key Variable_eq_key Volume_eq_key PortMapping_eq_key Parameter_eq_key Port_eq_key : keys.

Lemma if_negb (a b : bool) : (if negb a then false else b) = a && b.
Proof. by destruct a. Qed.

Lemma DockerInfo_eq_key l r :
  no_duplicates mapping_key (di_port_mappings l) -> no_duplicates parameter_key (di_parameters l) ->
  no_duplicates mapping_key (di_port_mappings r) -> no_duplicates parameter_key (di_parameters r) ->
  DockerInfo_eq l r = true <-> docker_key l = docker_key r.
Proof.
  intros L1 L2 R1 R2. unfold DockerInfo_eq, docker_key. rewrite !if_negb, !andb_true_iff.
  rewrite (repeated_eq_iff _ mapping_key), (repeated_eq_iff _ parameter_key) by auto with keys. compare_keys.
Qed.

(** ** Properties *)

(** C37: on messages without repeated entries in the fields whose order does not
    matter, [operator==] on commands, containers and discovery information
    decides equality of what it looks at (arguments in order, the other
    repeated fields as sets, unset fields as their defaults), and so is an
    equivalence. *)
Theorem message_equality_keys :
  (forall l r, regular_command l -> regular_command r ->
     CommandInfo_eq l r = true <-> command_key l = command_key r) /\
  (forall l r, regular_container l -> regular_container r ->
     ContainerInfo_eq l r = true <-> container_key l = container_key r) /\
  (forall l r, regular_discovery l -> regular_discovery r ->
     DiscoveryInfo_eq l r = true <-> discovery_key l = discovery_key r).
Proof.
  split_and!.
  - intros l r [L1 L2] [R1 R2]. unfold CommandInfo_eq, command_key, Environment_eq. rewrite !if_negb, !andb_true_iff.
    rewrite (repeated_eq_iff _ uri_key), (repeated_eq_iff _ variable_key) by auto with keys.
    rewrite ordered_eq_iff by apply String.eqb_eq. compare_keys.
  - intros l r (L1 & L2 & L3) (R1 & R2 & R3). unfold ContainerInfo_eq, container_key. rewrite if_negb, !andb_true_iff.
    rewrite (repeated_eq_iff _ volume_key) by auto with keys. rewrite DockerInfo_eq_key by done. compare_keys.
  - intros l r [L1 L2] [R1 R2]. unfold DiscoveryInfo_eq, discovery_key, Ports_eq. rewrite !andb_true_iff.
    rewrite (repeated_eq_iff _ port_key) by auto with keys. rewrite Labels_eq_iff by done. compare_keys.
Qed.

Lemma message_equality_keys_witness :
  let u a := mkURI a None None None None in
  let c uris := mkCommandInfo uris [] None (Some "run") ["-x"] None in
  CommandInfo_eq (c [u "a"; u "b"]) (c [u "b"; u "a"]) = true.
Proof.
  intros u c. destruct message_equality_keys as [H _]. apply H.
  - split; unfold no_duplicates; cbn; [|constructor]. apply NoDup_ListNoDup. repeat constructor; cbn; intuition discriminate.
  - split; unfold no_duplicates; cbn; [|constructor]. apply NoDup_ListNoDup. repeat constructor; cbn; intuition discriminate.
  - vm_compute. reflexivity.
Defined.

(** With repeated entries [operator==] is not symmetric: each entry of the
    left operand is looked for on the right only, so that an environment that
    sets one variable twice equals any other of two variables that sets it,
    and two commands compare differently in the two orders. *)
Theorem repeated_equality_asymmetric :
  let a := mkVariable "A" (Some "1") in
  let b := mkVariable "B" (Some "2") in
  let c env := mkCommandInfo [] env None None [] None in
  CommandInfo_eq (c [a; a]) (c [a; b]) = true /\ CommandInfo_eq (c [a; b]) (c [a; a]) = false.
Proof. split; vm_compute; reflexivity. Qed.

(** Containers that differ in the image they run compare equal. *)
Theorem container_equality_ignores_image i1 i2 :
  let c i := mkContainerInfo 2 [] None None i in
  ContainerInfo_eq (c i1) (c i2) = true.
Proof. vm_compute. reflexivity. Qed.

(** A URI's name for the downloaded file does not take part in its comparison. *)
Theorem uri_equality_ignores_output v f1 f2 :
  URI_eq (mkURI v None None None f1) (mkURI v None None None f2) = true.
Proof. unfold URI_eq. cbn. by rewrite String.eqb_refl. Qed.

(** *** Identifiers *)

Lemma ContainerID_eq_iff : forall l r, ContainerID_eq l r = true <-> l = r.
Proof.
  fix IH 1. intros [lv [lp|]] [rv [rp|]]; cbn; rewrite ?andb_true_iff, ?String.eqb_eq; cbn.
  - rewrite IH. split; [by intros [[-> _] ->]|by intros [= -> ->]].
  - split; [by intros [[_ ?] _]|by intros [= ]].
  - split; [by intros [[_ ?] _]|by intros [= ]].
  - split; [by intros [[-> _] _]|by intros [= ->]].
Qed.

(** Identifiers that compare equal have the same hash, whatever hash
    functions Boost provides: URIs, container identifiers with all their
    parents, and machines, whose host names compare without regard to case. *)
Theorem hash_respects_equality (hash_combine : Z -> string -> Z) (hash_combine_size : Z -> Z -> Z) :
  (forall u v, URI_eq u v = true -> URI_hash hash_combine u = URI_hash hash_combine v) /\
  (forall c d, ContainerID_eq c d = true ->
     ContainerID_hash hash_combine hash_combine_size c = ContainerID_hash hash_combine hash_combine_size d) /\
  (forall m n, MachineID_eq m n = true -> MachineID_hash hash_combine m = MachineID_hash hash_combine n).
Proof.
  split_and!.
  - intros u v [= H1 H2 H3]%URI_eq_key. unfold URI_hash. by rewrite H1, H2, H3.
  - by intros c d ->%ContainerID_eq_iff.
  - intros m n. unfold MachineID_eq, MachineID_hash. rewrite !andb_true_iff, !String.eqb_eq.
    by intros (((_ & ->) & _) & ->).
Qed.

Lemma hash_respects_equality_witness :
  let combine seed s := seed * 31 + Z.of_nat (String.length s) in
  MachineID_hash combine (mkMachineID (Some "Host") None) = MachineID_hash combine (mkMachineID (Some "hOST") None).
Proof.
  intros combine. destruct (hash_respects_equality combine Z.add) as (_ & _ & H). apply H. vm_compute. reflexivity.
Defined.

Lemma ltb_irreflexive (a : string) : ID_lt a a = false.
Proof.
  unfold ID_lt, String.ltb. pose proof (String.compare_antisym a a) as H. by destruct (String.compare a a).
Qed.

(** The order on container identifiers looks at the last component only: two
    containers of different parents are neither equal nor ordered, and a
    sorted container keyed by them holds one of the two. *)
Theorem container_order_conflates v p q : p <> q ->
  let c := mkContainerID v (Some p) in let d := mkContainerID v (Some q) in
  ContainerID_eq c d = false /\ ContainerID_lt c d = false /\ ContainerID_lt d c = false.
Proof.
  intros Hpq c d. split_and!.
  - apply not_true_iff_false. rewrite ContainerID_eq_iff. by intros [= ->].
  - apply ltb_irreflexive.
  - apply ltb_irreflexive.
Qed.

(** *** Printed identifiers *)

Definition dot_free (s : string) : bool := all_chars (fun c => negb (Ascii.eqb c ".")) s.
Fixpoint plain_id (c : ContainerID) : Prop :=
  let '(mkContainerID v parent) := c in
  dot_free v = true /\ match parent with Some p => plain_id p | None => True end.

Lemma dot_free_app s t : dot_free (s +:+ "." +:+ t) = false.
Proof.
  apply not_true_iff_false. unfold dot_free. rewrite all_chars_app. intros [_ H].
  by apply all_chars_cons in H as [? _].
Qed.

Lemma last_component a b v w : dot_free v = true -> dot_free w = true ->
  a +:+ "." +:+ v = b +:+ "." +:+ w -> a = b /\ v = w.
Proof.
  intros Hv Hw. revert b. induction a as [|x a IH]; intros [|y b] E; rewrite ?append_cons in E; injection E; clear E.
  - intros E. change (v = w) in E. by subst.
  - intros E _. change (v = b +:+ "." +:+ w) in E. subst v. by rewrite dot_free_app in Hv.
  - intros E _. change (a +:+ "." +:+ v = w) in E. subst w. by rewrite dot_free_app in Hw.
  - intros E ->. by destruct (IH b E) as [-> ->].
Qed.

(** The printed form of a container identifier determines it, with all its
    parents, as long as no component contains a dot. *)
Theorem container_print_injective : forall c d, plain_id c -> plain_id d ->
  ContainerID_print c = ContainerID_print d -> c = d.
Proof.
  fix IH 1. intros [v [p|]] [w [q|]]; cbn; intros [Hv Hp] [Hw Hq] E.
  - apply last_component in E as [E ->]; [|done..]. by rewrite (IH p q Hp Hq E).
  - subst w. by rewrite dot_free_app in Hw.
  - subst v. by rewrite dot_free_app in Hv.
  - by subst.
Qed.

Lemma container_print_injective_witness :
  ContainerID_print (mkContainerID "b" (Some (mkContainerID "a" None))) <> ContainerID_print (mkContainerID "ab" None).
Proof.
  intros H. apply container_print_injective in H; [discriminate H|repeat split|repeat split].
Defined.

(** A status update whose UUID is malformed cannot be printed. *)
Theorem status_update_print_aborts (uuid_of_bytes : string -> Try string) u bytes e :
  su_uuid u = Some bytes -> uuid_of_bytes bytes = TryError e ->
  StatusUpdate_print uuid_of_bytes u = Fatal e.
Proof. intros Hu He. unfold StatusUpdate_print. by rewrite Hu, He. Qed.
