(* ===== verification/Identifiers.v ===== *)
(** * Identifiers as keys (include/mesos/type_utils.hpp, include/mesos/v1/mesos.hpp)

    The identifiers of frameworks, executors, offers, agents, tasks and resource
    providers, and machines, containers, times and fault domains, are compared, ordered
    and hashed so that they can be the keys of maps.  A message that consists of one
    required string is that string here.  [V1] has the operators of the second
    interface. *)
From Stdlib Require Import Ascii OrdersEx.
From S2P Require Import Prelude Values Resource TypeUtils.

(** ** The first interface *)

(** [operator==] on ExecutorID and FrameworkID; on OfferID, ResourceProviderID,
    SlaveID and TaskID; and on an identifier and a string *)
Definition ExecutorID_eq (left right : string) : bool := String.eqb left right.
Definition OfferID_eq (left right : string) : bool := String.eqb left right.
Definition ID_is (left right : string) : bool := String.eqb left right.

(** [operator==] on FrameworkInfo, by the fields it looks at *)
Definition FrameworkInfo_eq (left right : string * string) : bool :=
  String.eqb left.1 right.1 && String.eqb left.2 right.2.

(** [operator==] and [operator!=] on TimeInfo and DurationInfo *)
Definition Nanoseconds_eq (left right : Z) : bool := left =? right.
Definition Nanoseconds_ne (left right : Z) : bool := negb (Nanoseconds_eq left right).

(** [DomainInfo::FaultDomain], a region and a zone, and [DomainInfo] *)
Record FaultDomain := mkFaultDomain { region : string; zone : string }.
Definition Region_eq (left right : string) : bool := String.eqb left right.
Definition Region_ne (left right : string) : bool := negb (String.eqb left right).
Definition FaultDomain_eq (left right : FaultDomain) : bool :=
  Region_eq (region left) (region right) && Region_eq (zone left) (zone right).
Definition no_domain : FaultDomain := mkFaultDomain "" "".
Definition DomainInfo_eq (left right : option FaultDomain) : bool :=
  FaultDomain_eq (default no_domain left) (default no_domain right).

(** [operator!=] on containers and on the other identifiers *)
Definition ContainerID_ne (left right : ContainerID) : bool := negb (ContainerID_eq left right).
Definition ID_ne (left right : string) : bool := negb (String.eqb left right).

(** [hash] of TaskState, TaskStatus_Source, TaskStatus_Reason and Image::Type:
    [static_cast<size_t>], of the number of the enumerator *)
Definition enum_hash (number : Z) : Z := number mod 2 ^ 64.

Section Hash0.
  Context (hash_combine : Z -> string -> Z).
Definition ResourceProviderID_hash (id : string) : Z := hash_combine 0 id.
End Hash0.

(** ** The second interface *)

Module V1.

(** [operator==], [operator!=] and [operator<] on containers look at the value only. *)
Definition ContainerID_eq (left right : ContainerID) : bool := String.eqb (id_value left) (id_value right).
Definition ContainerID_ne (left right : ContainerID) : bool := negb (String.eqb (id_value left) (id_value right)).
Definition ContainerID_lt (left right : ContainerID) : bool := String.ltb (id_value left) (id_value right).

(** ExecutorID and FrameworkID; OfferID, ResourceProviderID, AgentID and TaskID *)
Definition ExecutorID_eq (left right : string) : bool := String.eqb left right.
Definition OfferID_eq (left right : string) : bool := String.eqb left right.
Definition ID_is (left right : string) : bool := String.eqb left right.
Definition ID_ne (left right : string) : bool := negb (String.eqb left right).
Definition ID_lt (left right : string) : bool := String.ltb left right.

Definition FrameworkInfo_eq (left right : string * string) : bool :=
  String.eqb left.1 right.1 && String.eqb left.2 right.2.
Definition Nanoseconds_eq (left right : Z) : bool := left =? right.
Definition Nanoseconds_ne (left right : Z) : bool := negb (Nanoseconds_eq left right).
Definition Region_eq (left right : string) : bool := String.eqb left right.
Definition Region_ne (left right : string) : bool := negb (String.eqb left right).
Definition FaultDomain_eq (left right : FaultDomain) : bool :=
  Region_eq (region left) (region right) && Region_eq (zone left) (zone right).
Definition DomainInfo_eq (left right : option FaultDomain) : bool :=
  FaultDomain_eq (default no_domain left) (default no_domain right).
Definition MachineID_eq (left right : MachineID) : bool :=
  Bool.eqb (has (mc_hostname left)) (has (mc_hostname right)) &&
  String.eqb (lower (text (mc_hostname left))) (lower (text (mc_hostname right))) &&
  Bool.eqb (has (mc_ip left)) (has (mc_ip right)) &&
  String.eqb (text (mc_ip left)) (text (mc_ip right)).

Section Hash.
  Context (hash_combine : Z -> string -> Z) (hash_combine_size : Z -> Z -> Z).

Definition URI_hash (u : URI) : Z :=
  let seed := 0 in
  let seed := if extract u then seed + 11 else seed in
  let seed := if executable u then seed + 2003 else seed in
  hash_combine seed (uri_value u).
Definition ContainerID_hash (c : ContainerID) : Z := hash_combine 0 (id_value c).
Definition ID_hash (id : string) : Z := hash_combine 0 id.
Definition enum_hash (number : Z) : Z := number mod 2 ^ 64.
Definition pair_hash (framework executor : string) : Z :=
  hash_combine_size (hash_combine_size 0 (ID_hash framework)) (ID_hash executor).
Definition MachineID_hash (m : MachineID) : Z :=
  hash_combine (hash_combine 0 (lower (text (mc_hostname m)))) (text (mc_ip m)).

End Hash.

(** [operator<<] on repeated fields and on vectors of messages, by what the
    elements print *)
Fixpoint print_rest (l : list string) : string :=
  match l with [] => "" | s :: r => ", " +:+ s +:+ print_rest r end.
Definition print_list (l : list string) : string :=
  "[ " +:+ match l with [] => "" | s :: r => s +:+ print_rest r end +:+ " ]".

End V1.

(** ** Keys *)

(** What a hash map asks of its keys: the comparison decides equality of what
    [key] reads of them, and so do the hashes respect it. *)
Record HashKey {A K} (key : A -> K) (eq : A -> A -> bool) (hash : A -> Z) : Prop := {
  hk_eq : forall a b, eq a b = true <-> key a = key b;
  hk_hash : forall a b, eq a b = true -> hash a = hash b;
}.

(** What an ordered map asks: a strict order that is total up to [key]. *)
Record OrderKey {A K} (key : A -> K) (lt : A -> A -> bool) : Prop := {
  ok_irreflexive : forall a b, key a = key b -> lt a b = false;
  ok_transitive : forall a b c, lt a b = true -> lt b c = true -> lt a c = true;
  ok_total : forall a b, key a <> key b -> lt a b = true \/ lt b a = true;
}.

Lemma hash_key {A K} (key : A -> K) (eq : A -> A -> bool) (hash : A -> Z) (h : K -> Z) :
  (forall a b, eq a b = true <-> key a = key b) -> (forall a, hash a = h (key a)) -> HashKey key eq hash.
Proof. intros H1 H2. split; [done|]. intros a b E%H1. by rewrite !H2, E. Qed.

Lemma string_compare_ot a : forall b, String.compare a b = String_as_OT.compare a b.
Proof. induction a as [|c a IH]; intros [|d b]; cbn; [done..|]. by rewrite IH. Qed.

Lemma ltb_ot a b : String.ltb a b = true <-> String_as_OT.lt a b.
Proof. unfold String.ltb, String_as_OT.lt. rewrite string_compare_ot. by destruct (String_as_OT.compare a b). Qed.

Lemma string_order {A} (key : A -> string) : OrderKey key (fun a b => String.ltb (key a) (key b)).
Proof.
  split.
  - intros a b ->. apply not_true_iff_false. rewrite ltb_ot. apply (@StrictOrder_Irreflexive _ _ String_as_OT.lt_strorder).
  - intros a b c. rewrite !ltb_ot. apply (@StrictOrder_Transitive _ _ String_as_OT.lt_strorder).
  - intros a b Hne. rewrite !ltb_ot. by destruct (String_as_OT.compare_spec (key a) (key b)); [|left|right].
Qed.

Definition machine_key (m : MachineID) :=
  (has (mc_hostname m), lower (text (mc_hostname m)), has (mc_ip m), text (mc_ip m)).

Lemma MachineID_eq_key a b : MachineID_eq a b = true <-> machine_key a = machine_key b.
Proof.
  unfold MachineID_eq, machine_key. rewrite !andb_true_iff, !eqb_true_iff, !String.eqb_eq, !pair_equal_spec. tauto.
Qed.

(** The identifiers can be keys, in both interfaces.  Their comparisons decide
    equality (of the host name without regard to case, for machines), [!=] is its
    negation, equal identifiers have equal hashes whatever Boost computes, and the
    orders are strict and total: container identifiers alone differ, which the first
    interface compares and hashes with all their parents and the second by their last
    component; both order them by that, so that only the second has an order that
    fits its comparison. *)
Theorem identifiers_are_keys (combine : Z -> string -> Z) (combine_size : Z -> Z -> Z) :
  HashKey (fun id : string => id) ExecutorID_eq (ID_hash combine) /\ HashKey (fun id : string => id) OfferID_eq (ID_hash combine) /\
  HashKey (fun id : string => id) OfferID_eq (ResourceProviderID_hash combine) /\
  HashKey (fun id : string => id) V1.ExecutorID_eq (V1.ID_hash combine) /\ HashKey (fun id : string => id) V1.OfferID_eq (V1.ID_hash combine) /\
  (forall a b, ID_ne a b = negb (OfferID_eq a b) /\ V1.ID_ne a b = negb (V1.OfferID_eq a b)) /\
  OrderKey (fun id : string => id) ID_lt /\ OrderKey (fun id : string => id) V1.ID_lt /\
  HashKey machine_key MachineID_eq (MachineID_hash combine) /\ HashKey machine_key V1.MachineID_eq (V1.MachineID_hash combine) /\
  HashKey (fun c : ContainerID => c) ContainerID_eq (ContainerID_hash combine combine_size) /\
  HashKey id_value V1.ContainerID_eq (V1.ContainerID_hash combine) /\
  OrderKey id_value ContainerID_lt /\ OrderKey id_value V1.ContainerID_lt /\
  ~ OrderKey (fun c : ContainerID => c) ContainerID_lt.
Proof.
  assert (forall a b, String.eqb a b = true <-> a = b) as Hs by (intros; apply String.eqb_eq).
  split_and!; try (by apply (hash_key _ _ _ (combine 0))); try apply string_order; [by split|..].
  - apply (hash_key _ _ _ (fun k => combine (combine 0 k.1.1.2) k.2)); [apply MachineID_eq_key|done].
  - apply (hash_key _ _ _ (fun k => combine (combine 0 k.1.1.2) k.2)); [apply MachineID_eq_key|done].
  - by apply (hash_key _ _ _ (ContainerID_hash combine combine_size)); [apply ContainerID_eq_iff|].
  - apply (hash_key _ _ _ (combine 0)); [|done]. intros a b. apply String.eqb_eq.
  - intros [_ _ Ht]. set (c := mkContainerID "x" None). set (d := mkContainerID "x" (Some c)).
    destruct (Ht c d) as [E|E]; [done|discriminate E..].
Qed.

(** The two interfaces agree on containers that are not nested; a nested one the
    second takes for every other with its last component. *)
Theorem v1_agrees_unless_nested (combine : Z -> string -> Z) (combine_size : Z -> Z -> Z) v w p :
  (V1.ContainerID_eq (mkContainerID v None) (mkContainerID w None) = ContainerID_eq (mkContainerID v None) (mkContainerID w None)) /\
  V1.ContainerID_hash combine (mkContainerID v None) = ContainerID_hash combine combine_size (mkContainerID v None) /\
  V1.ContainerID_eq (mkContainerID v None) (mkContainerID v (Some p)) = true /\
  ContainerID_eq (mkContainerID v None) (mkContainerID v (Some p)) = false.
Proof.
  split_and!; [|done| |].
  - unfold V1.ContainerID_eq. cbn. by rewrite !andb_true_r.
  - apply String.eqb_refl.
  - apply not_true_iff_false. by rewrite ContainerID_eq_iff.
Qed.

(** A [DomainInfo] without a fault domain equals one with an unnamed region and zone,
    and otherwise the comparison decides equality. *)
Lemma DomainInfo_eq_iff a b : DomainInfo_eq a b = true <-> default no_domain a = default no_domain b.
Proof.
  unfold DomainInfo_eq, FaultDomain_eq, Region_eq. rewrite andb_true_iff, !String.eqb_eq.
  destruct (default no_domain a), (default no_domain b). cbn. split; [by intros [-> ->]|by intros [= -> ->]].
Qed.

(** Frameworks compare equal by name and user alone: neither identifiers nor roles count. *)
Lemma FrameworkInfo_eq_iff a b : FrameworkInfo_eq a b = true <-> a = b.
Proof.
  unfold FrameworkInfo_eq. rewrite andb_true_iff, !String.eqb_eq. destruct a, b. cbn.
  split; [by intros [-> ->]|by intros [= -> ->]].
Qed.

(** The hash of an enumerator is its number. *)
Lemma enum_hash_small n : 0 <= n < 2 ^ 64 -> enum_hash n = n.
Proof. apply Z.mod_small. Qed.
