(* ===== verification/FetcherUri.v ===== *)
(** * URIs and paths of the fetcher
    (include/slave/containerizer/fetcher.cpp, 103-208; stout/path.hpp, stout/strings.hpp)

    What the fetcher program takes from a URI: the name of the file it is
    downloaded to, and whether it is a local path or to be read from the
    network. *)
From Stdlib Require Import Ascii.
From S2P Require Import Prelude StoutStrings Url.

(** ** Strings and paths *)

(** [from.find_last_not_of(c)] *)
Definition find_last_not_of (s : string) (c : ascii) : option nat :=
  find_last_pred (fun d => negb (Ascii.eqb d c)) s.

(** [strings::remove] in the modes PREFIX and SUFFIX *)
Definition remove_prefix (from sub : string) : string :=
  if startsWith from sub then sdrop (String.length sub) from else from.
Definition remove_suffix (from sub : string) : string :=
  if endsWith from sub then stake (String.length from - String.length sub) from else from.

(** [strings::trim(from, PREFIX)] *)
Definition trim_prefix (from : string) : string :=
  match find_first_not_of from WHITESPACE 0 with
  | None => ""
  | Some start => sdrop start from
  end.

(** [path::join] *)
Definition path_join (path1 path2 : string) : string :=
  remove_suffix path1 "/" +:+ "/" +:+ remove_prefix path2 "/".

(** [Path(path).basename()] *)
Definition Path_basename (path : string) : string :=
  let value := remove_prefix path "file://" in
  if String.eqb value "" then "."
  else
    let end_ := (String.length value - 1)%nat in
    match if endsWith_char value "/" then find_last_not_of value "/" else Some end_ with
    | None => "/"
    | Some end_ =>
        let start := match find_last_of (stake (end_ + 1) value) "/" with None => O | Some i => S i end in
        substr value start (end_ + 1 - start)
    end.

(** ** URIs *)

Definition has_char (s : string) (c : ascii) : bool :=
  match find_char s c with Some _ => true | None => false end.

(** [Fetcher::basename] *)
Definition basename (uri : string) : Try string :=
  if has_char uri "\" || has_char uri "'" || has_char uri (ascii_of_nat 0) then
    TryError "Illegal characters in URI"
  else
    let as_path := TryOk (Path_basename uri) in
    match String.index 0 "://" uri with
    | None => as_path
    | Some index =>
        if (1 <? index)%nat then
          let path := sdrop (index + 3) uri in
          match find_char path "/" with
          | None => TryError ("Malformed URI (missing path): " +:+ uri)
          | Some slash =>
              if (String.length path <=? slash + 1)%nat then TryError ("Malformed URI (missing path): " +:+ uri)
              else TryOk (match find_last_of path "/" with Some i => sdrop (i + 1) path | None => path end)
          end
        else as_path
    end.

(** [Fetcher::validateUri]: none if the URI is valid *)
Definition validateUri (uri : string) : option string :=
  match basename uri with TryError e => Some e | TryOk _ => None end.

(** [validateUris] *)
Fixpoint validateUris (uris : list string) : option string :=
  match uris with
  | [] => None
  | uri :: rest => match validateUri uri with Some e => Some e | None => validateUris rest end
  end.

Definition FILE_URI_PREFIX : string := "file://".
Definition FILE_URI_LOCALHOST : string := "file://localhost".

(** Stout's [Result<T>]: a value, nothing, or an error. *)
Inductive Result (A : Type) : Type :=
| Some_ (a : A)
| None_
| Error_ (message : string).
Arguments Some_ {A} a.
Arguments None_ {A}.
Arguments Error_ {A} message.

Definition relative_error : string :=
  "A relative path was passed for the resource but the Mesos framework home was not specified. " +:+
  "Please either provide this config option or avoid using a relative path".

(** [Fetcher::uriToLocalPath] *)
Definition uriToLocalPath (uri : string) (frameworksHome : option string) : Result string :=
  if negb (startsWith uri "file://") && contains uri "://" then None_
  else
    let '(path, fileUri) :=
      if startsWith uri FILE_URI_LOCALHOST then (sdrop (String.length FILE_URI_LOCALHOST) uri, true)
      else if startsWith uri FILE_URI_PREFIX then (sdrop (String.length FILE_URI_PREFIX) uri, true)
      else (uri, false) in
    if fileUri && negb (startsWith path "/") then Error_ "File URI only supports absolute paths"
    else
      match find_char path "/" with
      | Some O => Some_ path
      | _ =>
          match frameworksHome with
          | None => Error_ relative_error
          | Some home => if String.eqb home "" then Error_ relative_error else Some_ (path_join home path)
          end
      end.

(** [Fetcher::isNetUri] *)
Definition isNetUri (uri : string) : bool :=
  startsWith uri "http://" || startsWith uri "https://" || startsWith uri "ftp://" || startsWith uri "ftps://".

Example basename_1 : basename "http://1.2.3.4:5050/a/b/c/d.txt" = TryOk "d.txt".
Proof. reflexivity. Qed.
Example basename_2 : basename "http://host" = TryError "Malformed URI (missing path): http://host".
Proof. reflexivity. Qed.
Example basename_3 : (Path_basename "/usr/lib", Path_basename "/usr/", Path_basename "usr", Path_basename "/") = ("lib", "usr", "usr", "/").
Proof. reflexivity. Qed.

(** ** Lemmas *)

Lemma lacks_sdrop c n s : lacks c s -> lacks c (sdrop n s).
Proof. unfold lacks. rewrite <- (stake_sdrop n s) at 1. rewrite all_chars_app. by intros [_ ?]. Qed.
Lemma lacks_stake c n s : lacks c s -> lacks c (stake n s).
Proof. unfold lacks. rewrite <- (stake_sdrop n s) at 1. rewrite all_chars_app. by intros [? _]. Qed.
Lemma lacks_app c s t : lacks c s -> lacks c t -> lacks c (s +:+ t).
Proof. unfold lacks. rewrite all_chars_app. done. Qed.
Lemma lacks_substr c s i n : lacks c s -> lacks c (substr s i n).
Proof. intros H. by apply lacks_stake, lacks_sdrop. Qed.
Lemma lacks_prefix c s t : lacks c s -> lacks c (remove_prefix s t).
Proof. intros H. unfold remove_prefix. destruct (startsWith s t); [by apply lacks_sdrop|done]. Qed.
Lemma lacks_suffix c s t : lacks c s -> lacks c (remove_suffix s t).
Proof. intros H. unfold remove_suffix. destruct (endsWith s t); [by apply lacks_stake|done]. Qed.
Lemma lacks_trim c s : lacks c s -> lacks c (trim_prefix s).
Proof. intros H. unfold trim_prefix. destruct (find_first_not_of s WHITESPACE 0); [by apply lacks_sdrop|done]. Qed.
Lemma lacks_join c s t : c <> "/"%char -> lacks c s -> lacks c t -> lacks c (path_join s t).
Proof.
  intros Hc Hs Ht. unfold path_join. apply lacks_app; [by apply lacks_suffix|]. apply lacks_app; [|by apply lacks_prefix].
  unfold lacks. rewrite all_chars_cons. split; [|done]. destruct (Ascii.eqb_spec "/"%char c); [congruence|done].
Qed.

Create HintDb lacks.
#[export] Hint Resolve lacks_sdrop lacks_stake lacks_app lacks_substr lacks_prefix lacks_suffix lacks_trim lacks_join : lacks.

Lemma has_char_lacks s c : has_char s c = false <-> lacks c s.
Proof.
  unfold has_char, find_char, lacks.
  pose proof (find_pred_none_iff (fun d => Ascii.eqb d c) s) as H. destruct (find_pred _ s 0); [|tauto].
  split; [done|]. by intros ?%H.
Qed.

Lemma stake_le e i s : stake (e - i) (sdrop i s) = sdrop i (stake e s).
Proof.
  assert (Hn : forall n, stake n "" = "") by (by intros []). assert (Hd : forall n, sdrop n "" = "") by (by intros []).
  revert e i. induction s as [|c s IH]; intros e i; [by rewrite Hd, !Hn, Hd|].
  destruct e as [|e], i as [|i]; cbn [Nat.sub sdrop stake]; try done; apply IH.
Qed.

Lemma Path_basename_lacks c path : c <> "/"%char -> c <> "."%char -> lacks c path -> lacks c (Path_basename path).
Proof.
  intros H1 H2 Hp. unfold Path_basename. destruct (String.eqb _ "").
  { unfold lacks. rewrite all_chars_cons. split; [|done]. destruct (Ascii.eqb_spec "."%char c); [congruence|done]. }
  destruct (if endsWith_char _ _ then _ else _) as [e|]; [auto with lacks|].
  unfold lacks. rewrite all_chars_cons. split; [|done]. destruct (Ascii.eqb_spec "/"%char c); [congruence|done].
Qed.

Lemma after_last_slash s : lacks "/" (match find_last_of s "/" with Some i => sdrop (i + 1) s | None => s end).
Proof.
  unfold lacks, find_last_of. destruct (find_last_pred _ s) as [i|] eqn:E; [|by apply find_last_none].
  destruct (find_last_at _ _ _ E) as (c & _ & _ & H). by rewrite Nat.add_1_r.
Qed.

Lemma Path_basename_component path : lacks "/" (Path_basename path) \/ Path_basename path = "/".
Proof.
  unfold Path_basename. destruct (String.eqb _ ""); [by left|].
  set (value := remove_prefix path "file://"). destruct (if endsWith_char _ _ then _ else _) as [e|]; [left|by right].
  unfold substr. rewrite stake_le. pose proof (after_last_slash (stake (e + 1) value)) as H.
  destruct (find_last_of (stake (e + 1) value) "/"); [by rewrite Nat.add_1_r in H|done].
Qed.

(** ** Properties *)

(** The characters a URI may not contain. *)
Definition illegal (c : ascii) : Prop := c = "\"%char \/ c = "'"%char \/ c = ascii_of_nat 0.

Lemma basename_legal uri b : basename uri = TryOk b -> forall c, illegal c -> lacks c uri.
Proof.
  unfold basename. destruct (_ || has_char uri (ascii_of_nat 0)) eqn:E; [done|]. rewrite !orb_false_iff in E.
  destruct E as [[E1 E2] E3]. intros _ c [-> | [-> | ->]]; by apply has_char_lacks.
Qed.

Lemma basename_parts uri b : basename uri = TryOk b ->
  b = Path_basename uri \/ exists i, b = match find_last_of (sdrop i uri) "/" with
    | Some j => sdrop (j + 1) (sdrop i uri) | None => sdrop i uri end.
Proof.
  unfold basename. destruct (_ || has_char uri (ascii_of_nat 0)); [done|].
  destruct (String.index 0 "://" uri) as [i|]; [|by intros [= <-]; left].
  destruct (1 <? i)%nat; [|by intros [= <-]; left].
  destruct (find_char _ _) as [slash|]; [|done]. destruct (_ <=? _)%nat; [done|]. intros [= <-]. right. by eexists.
Qed.

Lemma basename_name uri b : basename uri = TryOk b ->
  (forall c, illegal c -> lacks c b) /\ (lacks "/" b \/ b = "/").
Proof.
  intros H. pose proof (basename_legal _ _ H) as Hl. destruct (basename_parts _ _ H) as [->|[i ->]]; split.
  - intros c Hc. apply Path_basename_lacks; [..|auto]; by destruct Hc as [-> | [-> | ->]].
  - apply Path_basename_component.
  - intros c Hc. destruct (find_last_of _ _); auto with lacks.
  - left. apply after_last_slash.
Qed.

Lemma basename_errors uri : basename uri = TryError "Illegal characters in URI" ->
  exists c, illegal c /\ has_char uri c = true.
Proof.
  unfold basename. destruct (has_char uri "\" || has_char uri "'" || has_char uri (ascii_of_nat 0)) eqn:E.
  - intros _. unfold illegal. rewrite !orb_true_iff in E.
    destruct E as [[E|E]|E]; eexists; (split; [|exact E]); tauto.
  - destruct (String.index 0 "://" uri) as [i|]; [|done]. destruct (1 <? i)%nat; [|done].
    destruct (find_char _ _) as [slash|]; [destruct (_ <=? _)%nat|]; intros [=].
Qed.

(** The file name taken from a URI contains no quote, backslash or NUL and is
    a single path component (or the root, for a path that is nothing but
    slashes), so that it names an entry of the directory it is joined to; a
    URI is refused for such a character exactly if it contains one. *)
Theorem basename_component uri :
  (forall b, basename uri = TryOk b ->
     (forall c, illegal c -> lacks c uri /\ lacks c b) /\ (lacks "/" b \/ b = "/")) /\
  (basename uri = TryError "Illegal characters in URI" <-> exists c, illegal c /\ has_char uri c = true).
Proof.
  split.
  - intros b H. destruct (basename_name _ _ H) as [H1 H2]. split; [|done]. intros c Hc.
    split; [by apply (basename_legal _ _ H)|auto].
  - split; [apply basename_errors|]. intros (c & Hc & Hh). unfold basename.
    assert (Hi : has_char uri "\" || has_char uri "'" || has_char uri (ascii_of_nat 0) = true)
      by (rewrite !orb_true_iff; destruct Hc as [-> | [-> | ->]]; tauto).
    by rewrite Hi.
Qed.

Lemma basename_component_witness : lacks "/" "d.txt" /\ lacks "'" "d.txt".
Proof.
  destruct (basename_component "http://1.2.3.4:5050/a/b/c/d.txt") as [H _].
  destruct (H "d.txt" eq_refl) as [H1 [H2|H2]]; [|discriminate H2]. split; [exact H2|].
  apply (H1 "'"%char). right. left. reflexivity.
Defined.

Lemma prefix_app p : forall s, String.prefix p s = true -> exists r, s = p +:+ r.
Proof.
  induction p as [|c p IH]; intros s; [by exists s|]. destruct s as [|d s]; [done|]. cbn.
  destruct (Ascii.ascii_dec c d) as [->|]; [|done]. intros [r ->]%IH. by exists r.
Qed.

Lemma net_scheme uri : isNetUri uri = true -> contains uri "://" = true /\ startsWith uri "file://" = false.
Proof.
  unfold isNetUri, startsWith, contains. rewrite !orb_true_iff.
  intros [[[H|H]|H]|H]; apply prefix_app in H as [r ->]; by destruct r.
Qed.

Lemma slash_first s : find_char s "/" = Some O <-> startsWith s "/" = true.
Proof.
  destruct s as [|c s]; [done|]. unfold find_char, startsWith. cbn [find_pred String.prefix].
  destruct (Ascii.eqb_spec c "/") as [->|Hc].
  - destruct (Ascii.ascii_dec "/" "/"); [by destruct s|done].
  - destruct (Ascii.ascii_dec "/" c) as [<-|]; [done|]. destruct (find_pred _ s 0); by split.
Qed.

Lemma local_path_lacks c uri home p : c <> "/"%char -> uriToLocalPath uri home = Some_ p ->
  lacks c uri -> (forall h, home = Some h -> lacks c h) -> lacks c p.
Proof.
  intros Hc. unfold uriToLocalPath. destruct (negb _ && _); [done|]. intros H Hu Hh.
  destruct (if startsWith uri FILE_URI_LOCALHOST then _ else _) as [path fileUri] eqn:E.
  assert (Hp : lacks c path) by (repeat case_match; simplify_eq; auto with lacks).
  destruct (fileUri && _); [done|].
  destruct (find_char path "/") as [[|n]|]; [by simplify_eq|..];
    (destruct home as [h|]; [|done]; destruct (String.eqb h ""); [done|]; injection H as <-; auto with lacks).
Qed.

(** [uriToLocalPath] leaves alone exactly the URIs with a scheme other than
    [file://], among them all that are read from the network; a path it gives
    is absolute, or the URI itself below the frameworks' home directory. *)
Theorem local_path_classified uri home :
  (isNetUri uri = true -> uriToLocalPath uri home = None_) /\
  (uriToLocalPath uri home = None_ <-> startsWith uri "file://" = false /\ contains uri "://" = true) /\
  (forall p, uriToLocalPath uri home = Some_ p ->
     startsWith p "/" = true \/ exists h, home = Some h /\ h <> "" /\ p = path_join h uri).
Proof.
  assert (Hnone : uriToLocalPath uri home = None_ <-> startsWith uri "file://" = false /\ contains uri "://" = true).
  { unfold uriToLocalPath. destruct (startsWith uri "file://"), (contains uri "://"); cbn [negb andb]; try tauto;
      destruct (startsWith uri FILE_URI_LOCALHOST), (startsWith uri FILE_URI_PREFIX); cbv zeta;
      (split; [|by intros []]); destruct (_ && _); try done; destruct (find_char _ "/") as [[|]|]; try done;
      destruct home as [h|]; try done; destruct (String.eqb h ""); done. }
  split_and!; [|done|].
  - intros [Hc Hf]%net_scheme. by apply Hnone.
  - intros p. unfold uriToLocalPath. destruct (negb _ && _); [done|].
    destruct (if startsWith uri FILE_URI_LOCALHOST then _ else _) as [path fileUri] eqn:E.
    destruct (fileUri && negb (startsWith path "/")) eqn:Ef; [done|].
    destruct (decide (find_char path "/" = Some O)) as [Es|Es].
    + rewrite Es. intros [= <-]. left. by apply slash_first.
    + assert (path = uri) as ->.
      { destruct fileUri; [|by repeat case_match; simplify_eq]. apply negb_false_iff in Ef.
        exfalso. apply Es. by apply slash_first. }
      intros Hp. right. assert (Hh : match home with
        | None => Error_ relative_error
        | Some home => if String.eqb home "" then Error_ relative_error else Some_ (path_join home uri)
        end = Some_ p) by (destruct (find_char uri "/") as [[|]|]; done).
      destruct home as [h|]; [|done]. destruct (String.eqb_spec h ""); [done|]. injection Hh as <-. by exists h.
Qed.

Lemma local_path_classified_witness : uriToLocalPath "https://host/x" (Some "/home") = None_.
Proof. destruct (local_path_classified "https://host/x" (Some "/home")) as [H _]. apply H. reflexivity. Defined.
