(* ===== verification/Fetcher.v ===== *)
(** * The fetcher program (mesos/fetcher.cpp; include/hdfs/hdfs.hpp)

    The program that brings the URIs of a task into its sandbox directory.  The
    operating system is a parameter: [Answers] says how it answers each request,
    given all requests made before, and the program's state is that history. *)
From Stdlib Require Import Ascii.
From stdpp Require Import pretty.
From S2P Require Import Prelude StoutStrings Url FetcherUri TypeUtils.

(** ** The operating system *)

Inductive Action :=
| System (command : string)                  (** [os::system] *)
| Shell (command : string)                   (** [os::shell] *)
| NetDownload (uri path : string)            (** [net::download] *)
| Mkdir (directory : string)
| Chmod (path : string)
| Chown (user directory : string).

Abbreviation History := (list Action) (only parsing).

Record Answers := {
  a_system : History -> string -> Z;
  a_shell : History -> string -> Try string;
  a_download : History -> string -> string -> Try Z;
  a_mkdir : History -> string -> option string;
  a_chmod : History -> string -> option string;
  a_chown : History -> string -> string -> option string;
  a_hadoop_home : option string;             (** [HADOOP_HOME] *)
}.

(** A computation that makes requests, and may abort. *)
Definition Fetch (A : Type) : Type := list Action -> outcome (A * list Action).
Definition freturn {A} (a : A) : Fetch A := fun h => Ret (a, h).
Definition fbind {A B} (c : Fetch A) (k : A -> Fetch B) : Fetch B :=
  fun h => let! r := c h in k r.1 r.2.
Definition fcheck (b : bool) (why : string) : Fetch unit := fun h => if b then Ret (tt, h) else Fatal why.

Declare Scope fetch_scope.
Delimit Scope fetch_scope with fetch.
#[warnings="-at-level-200-changed"] Notation "'let&' x ':=' c 'in' k" := (fbind c (fun x => k))
  (at level 200, x binder, c at level 100, k at level 200, right associativity) : fetch_scope.
(** ... and its error, if any, is returned. *)
#[warnings="-at-level-200-changed"] Notation "'let?' x ':=' c 'in' k" :=
  (fbind c (fun r => match r with TryOk x => k | TryError e => freturn (TryError e) end))
  (at level 200, x binder, c at level 100, k at level 200, right associativity) : fetch_scope.
Open Scope fetch_scope.

(** ** Messages *)

Inductive ItemAction := BYPASS_CACHE | DOWNLOAD_AND_CACHE | RETRIEVE_FROM_CACHE.

(** [FetcherInfo::Item] and [FetcherInfo] *)
Record Item := mkItem { it_uri : URI; it_action : ItemAction; it_cache_filename : option string }.
Record FetcherInfo := mkFetcherInfo {
  fi_sandbox_directory : string;
  fi_cache_directory : option string;
  fi_items : list Item;
  fi_user : option string;
  fi_frameworks_home : option string;
}.

Section WithSystem.
  Context (os : Answers).

Definition os_system (command : string) : Fetch Z := fun h => Ret (a_system os h command, h ++ [System command]).
Definition os_shell (command : string) : Fetch (Try string) :=
  fun h => Ret (a_shell os h command, h ++ [Shell command]).
Definition net_download (uri path : string) : Fetch (Try Z) :=
  fun h => Ret (a_download os h uri path, h ++ [NetDownload uri path]).
Definition os_mkdir (directory : string) : Fetch (option string) :=
  fun h => Ret (a_mkdir os h directory, h ++ [Mkdir directory]).
Definition os_chmod (path : string) : Fetch (option string) := fun h => Ret (a_chmod os h path, h ++ [Chmod path]).
Definition os_chown (user directory : string) : Fetch (option string) :=
  fun h => Ret (a_chown os h user directory, h ++ [Chown user directory]).

(** ** HDFS *)

(** [HDFS()] *)
Definition hadoop : string :=
  match a_hadoop_home os with Some home => path_join home "bin/hadoop" | None => "hadoop" end.

Definition hdfs_available : Fetch (Try bool) :=
  let? out := os_shell (hadoop +:+ " version" +:+ " 2>&1") in freturn (TryOk true).

Definition copy_to_local_command (from to : string) : string :=
  hadoop +:+ " fs -copyToLocal '" +:+ from +:+ "' '" +:+ to +:+ "'".

Definition hdfs_copyToLocal (from to : string) : Fetch (Try unit) :=
  let? out := os_shell (copy_to_local_command from to) in freturn (TryOk tt).

(** ** Fetching *)

(** The command [extract] runs, if it recognises an archive. *)
Definition extract_command (sourcePath destinationDirectory : string) : option string :=
  let ends := endsWith sourcePath in
  let command :=
    if ends ".tar" || ends ".tgz" || ends ".tar.gz" || ends ".tbz2" || ends ".tar.bz2" || ends ".txz" || ends ".tar.xz"
    then Some ("tar -C '" +:+ destinationDirectory +:+ "' -xf")
    else if ends ".gz" then
      let pathWithoutExtension := stake (String.length sourcePath - 3) sourcePath in
      let filename := Path_basename pathWithoutExtension in
      Some ("gzip -dc > '" +:+ destinationDirectory +:+ "/" +:+ filename +:+ "' <")
    else if ends ".zip" then Some ("unzip -o -d '" +:+ destinationDirectory +:+ "'")
    else None in
  (fun c => c +:+ " '" +:+ sourcePath +:+ "'") <$> command.

(** [extract] *)
Definition extract_archive (sourcePath destinationDirectory : string) : Fetch (Try bool) :=
  match extract_command sourcePath destinationDirectory with
  | None => freturn (TryOk false)
  | Some command =>
      let& status := os_system command in
      if negb (status =? 0) then
        freturn (TryError ("Failed to extract: command " +:+ command +:+ " exited with status: " +:+ pretty status))
      else freturn (TryOk true)
  end.

Definition downloadWithHadoopClient (sourceUri destinationPath : string) : Fetch (Try string) :=
  let& available := hdfs_available in
  match available with
  | TryError e => freturn (TryError ("Skipping fetch with Hadoop client: " +:+ e))
  | TryOk false => freturn (TryError ("Skipping fetch with Hadoop client: " +:+ " client not found"))
  | TryOk true =>
      let& result := hdfs_copyToLocal sourceUri destinationPath in
      match result with
      | TryError e => freturn (TryError ("HDFS copyToLocal failed: " +:+ e))
      | TryOk _ => freturn (TryOk destinationPath)
      end
  end.

Definition downloadWithNet (sourceUri destinationPath : string) : Fetch (Try string) :=
  let& _ := fcheck (startsWith sourceUri "http://" || startsWith sourceUri "https://" ||
                    startsWith sourceUri "ftp://" || startsWith sourceUri "ftps://") "unsupported protocol" in
  let& code := net_download sourceUri destinationPath in
  match code with
  | TryError e => freturn (TryError ("Error downloading resource: " +:+ e))
  | TryOk code =>
      if startsWith sourceUri "ftp://" || startsWith sourceUri "ftps://" then
        if negb (code =? 226) then
          freturn (TryError ("Error downloading resource, received FTP return code " +:+ pretty code))
        else freturn (TryOk destinationPath)
      else if negb (code =? 200) then
        freturn (TryError ("Error downloading resource, received HTTP return code " +:+ pretty code))
      else freturn (TryOk destinationPath)
  end.

Definition copy_command (sourcePath destinationPath : string) : string :=
  "cp '" +:+ sourcePath +:+ "' '" +:+ destinationPath +:+ "'".

Definition copyFile (sourcePath destinationPath : string) : Fetch (Try string) :=
  let command := copy_command sourcePath destinationPath in
  let& status := os_system command in
  if negb (status =? 0) then
    freturn (TryError ("Failed to copy with command '" +:+ command +:+ "', exit status: " +:+ pretty status))
  else freturn (TryOk destinationPath).

Definition download (_sourceUri destinationPath : string) (frameworksHome : option string) : Fetch (Try string) :=
  let sourceUri := trim_prefix _sourceUri in
  match validateUri sourceUri with
  | Some e => freturn (TryError e)
  | None =>
      match uriToLocalPath sourceUri frameworksHome with
      | Error_ e => freturn (TryError e)
      | Some_ sourcePath => copyFile sourcePath destinationPath
      | None_ =>
          if isNetUri sourceUri then downloadWithNet sourceUri destinationPath
          else downloadWithHadoopClient sourceUri destinationPath
      end
  end.

Definition chmodExecutable (filePath : string) : Fetch (Try string) :=
  let& chmod := os_chmod filePath in
  match chmod with
  | Some e => freturn (TryError ("Failed to chmod executable '" +:+ filePath +:+ "': " +:+ e))
  | None => freturn (TryOk filePath)
  end.

Definition fetchBypassingCache (uri : URI) (sandboxDirectory : string) (frameworksHome : option string) :
    Fetch (Try string) :=
  match basename (uri_value uri) with
  | TryError e => freturn (TryError ("Failed to determine the basename of the URI '" +:+ uri_value uri +:+
      "' with error: " +:+ e))
  | TryOk name =>
      let path := path_join sandboxDirectory name in
      let? downloaded := download (uri_value uri) path frameworksHome in
      if executable uri then chmodExecutable downloaded
      else if extract uri then
        let? extracted := extract_archive path sandboxDirectory in freturn (TryOk downloaded)
      else freturn (TryOk downloaded)
  end.

Definition cache_filename (item : Item) : string := default "" (it_cache_filename item).

Definition fetchFromCache (item : Item) (cacheDirectory sandboxDirectory : string) : Fetch (Try string) :=
  match basename (uri_value (it_uri item)) with
  | TryError e => freturn (TryError e)
  | TryOk name =>
      let destinationPath := path_join sandboxDirectory name in
      let& _ := fcheck (negb (String.eqb (cache_filename item) "")) "!item.cache_filename().empty()" in
      let sourcePath := path_join cacheDirectory (cache_filename item) in
      if executable (it_uri item) then
        let? copied := copyFile sourcePath destinationPath in chmodExecutable copied
      else if extract (it_uri item) then
        let? extracted := extract_archive sourcePath sandboxDirectory in
        if extracted then freturn (TryOk sandboxDirectory) else copyFile sourcePath destinationPath
      else copyFile sourcePath destinationPath
  end.

Definition fetchThroughCache (item : Item) (cacheDirectory : option string) (sandboxDirectory : string)
    (frameworksHome : option string) : Fetch (Try string) :=
  let cache := default "" cacheDirectory in
  if String.eqb cache "" then freturn (TryError "Cache directory not specified")
  else if String.eqb (cache_filename item) "" then
    freturn (TryError ("No cache file name for: " +:+ uri_value (it_uri item)))
  else
    match it_action item with
    | RETRIEVE_FROM_CACHE => fetchFromCache item cache sandboxDirectory
    | action =>
        let& _ := fcheck (match action with DOWNLOAD_AND_CACHE => true | _ => false end)
          "Unexpected fetcher action selector" in
        let& mkdir := os_mkdir cache in
        match mkdir with
        | Some e => freturn (TryError ("Failed to create fetcher cache directory '" +:+ cache +:+ "': " +:+ e))
        | None =>
            let? downloaded := download (uri_value (it_uri item)) (path_join cache (cache_filename item)) frameworksHome in
            fetchFromCache item cache sandboxDirectory
        end
    end.

Definition fetch (item : Item) (cacheDirectory : option string) (sandboxDirectory : string)
    (frameworksHome : option string) : Fetch (Try string) :=
  match it_action item with
  | BYPASS_CACHE => fetchBypassingCache (it_uri item) sandboxDirectory frameworksHome
  | _ => fetchThroughCache item cacheDirectory sandboxDirectory frameworksHome
  end.

(** The loop of [main]: [EXIT(1)] at the first URI that cannot be fetched. *)
Fixpoint fetch_all (items : list Item) (info : FetcherInfo) : Fetch bool :=
  match items with
  | [] => freturn true
  | item :: rest =>
      let& fetched := fetch item (fi_cache_directory info) (fi_sandbox_directory info) (fi_frameworks_home info) in
      match fetched with
      | TryError _ => freturn false
      | TryOk _ => fetch_all rest info
      end
  end.

(** [main], from the parsed [FetcherInfo] to the exit code *)
Definition main (info : FetcherInfo) : Fetch Z :=
  let& _ := fcheck (negb (String.eqb (fi_sandbox_directory info) "")) "Missing sandbox directory" in
  let& fetched := fetch_all (fi_items info) info in
  if negb fetched then freturn 1
  else
    match fi_user info with
    | None => freturn 0
    | Some user =>
        let& chowned := os_chown user (fi_sandbox_directory info) in
        match chowned with Some _ => freturn 1 | None => freturn 0 end
    end.

End WithSystem.
