(* ===== verification/FetcherProperties.v ===== *)
(** * Properties of the fetcher program

    The program is run against an arbitrary operating system.  [safe] is what a
    computation promises for every history: it does not abort, every request it
    makes satisfies one predicate, and its result another. *)
From Stdlib Require Import Ascii.
From S2P Require Import Prelude StoutStrings Url FetcherUri TypeUtils Fetcher.

(** ** Shell commands *)

(** The words of a command, for a shell that knows blanks, single quotes and
    redirections; none if any other character that a shell may interpret
    occurs outside quotes, or a quote is not closed. *)
Definition plain_char (c : ascii) : bool :=
  let n := nat_of_ascii c in
  ((48 <=? n) && (n <=? 57) || (65 <=? n) && (n <=? 90) || (97 <=? n) && (n <=? 122))%nat || char_in c "-./_".

Definition flush (word : option string) (rest : option (list string)) : option (list string) :=
  match word with Some w => cons w <$> rest | None => rest end.

Fixpoint lex (s : string) (quoted : bool) (word : option string) : option (list string) :=
  match s with
  | "" => if quoted then None else flush word (Some [])
  | String c r =>
      if quoted then
        if Ascii.eqb c "'" then lex r false word else lex r true (Some (default "" word +:+ String c ""))
      else if Ascii.eqb c "'" then lex r true (Some (default "" word))
      else if Ascii.eqb c " " then flush word (lex r false None)
      else if char_in c "<>" then flush word (cons (String c "") <$> lex r false None)
      else if plain_char c then lex r false (Some (default "" word +:+ String c ""))
      else None
  end.
Definition shell_words (command : string) : option (list string) := lex command false None.

Abbreviation quote_free := (lacks "'") (only parsing).

Lemma snoc_append w c q : (w +:+ String c "") +:+ q = w +:+ String c q.
Proof. by rewrite append_assoc. Qed.

(** What is in quotes is one word. *)
Lemma lex_quoted q : forall w r, quote_free q ->
  lex (q +:+ String "'" r) true (Some w) = lex r false (Some (w +:+ q)).
Proof.
  induction q as [|c q IH]; intros w r Hq.
  - by rewrite append_nil_r.
  - apply all_chars_cons in Hq as [Hc Hq]. apply negb_true_iff in Hc. rewrite append_cons. cbn [lex].
    rewrite Hc. cbn [default from_option id]. by rewrite IH, snoc_append.
Qed.

Lemma lex_plain p : forall w r, all_chars plain_char p = true ->
  lex (p +:+ String " " r) false (Some w) = cons (w +:+ p) <$> lex r false None.
Proof.
  induction p as [|c p IH]; intros w r Hp.
  - by rewrite append_nil_r.
  - apply all_chars_cons in Hp as [Hc Hp]. rewrite append_cons. cbn [lex].
    assert (Hq : Ascii.eqb c "'" = false /\ Ascii.eqb c " " = false /\ char_in c "<>" = false).
    { split_and!; apply not_true_iff_false; intros H; cbn [char_in] in H; rewrite ?orb_true_iff, ?Ascii.eqb_eq in H;
        destruct_or? H; by subst. }
    destruct Hq as (-> & -> & ->). rewrite Hc. cbn [default from_option id]. by rewrite IH, snoc_append.
Qed.

Lemma copy_words a b : quote_free a -> quote_free b -> shell_words (copy_command a b) = Some ["cp"; a; b].
Proof.
  intros Ha Hb. unfold shell_words, copy_command.
  change (cons "cp" <$> lex (a +:+ String "'" (" '" +:+ b +:+ "'")) true (Some "") = Some ["cp"; a; b]).
  rewrite lex_quoted by done.
  change (cons "cp" <$> (cons a <$> lex (b +:+ String "'" "") true (Some "")) = Some ["cp"; a; b]).
  by rewrite lex_quoted.
Qed.

(** A name of an entry of a directory, of neither the directory itself nor its
    parent. *)
Definition entry (name : string) : Prop := lacks "/" name /\ name ∉ [""; "."; ".."; "/"].

(** The file name that [extract] lets gzip write. *)
Definition unpacked (archive : string) : string := Path_basename (stake (String.length archive - 3) archive).

(** The commands that work on files: copying to a target, and extracting into
    the sandbox. *)
Inductive file_command (sandbox : string) (target : string -> Prop) : list string -> Prop :=
| cmd_copy source destination : target destination -> file_command sandbox target ["cp"; source; destination]
| cmd_tar archive : file_command sandbox target ["tar"; "-C"; sandbox; "-xf"; archive]
| cmd_gzip name archive : entry name ->
    file_command sandbox target ["gzip"; "-dc"; ">"; sandbox +:+ "/" +:+ name; "<"; archive]
| cmd_unzip archive : file_command sandbox target ["unzip"; "-o"; "-d"; sandbox; archive].

Lemma tar_words d a : quote_free d -> quote_free a ->
  shell_words ("tar -C '" +:+ d +:+ "' -xf" +:+ " '" +:+ a +:+ "'") = Some ["tar"; "-C"; d; "-xf"; a].
Proof.
  intros Hd Ha. unfold shell_words.
  change (cons "tar" <$> (cons "-C" <$> lex (d +:+ String "'" (" -xf" +:+ " '" +:+ a +:+ "'")) true (Some "")) =
          Some ["tar"; "-C"; d; "-xf"; a]).
  rewrite lex_quoted by done.
  change (cons "tar" <$> (cons "-C" <$> (cons d <$> (cons "-xf" <$> lex (a +:+ String "'" "") true (Some "")))) =
          Some ["tar"; "-C"; d; "-xf"; a]).
  by rewrite lex_quoted.
Qed.

Lemma gzip_words f a : quote_free f -> quote_free a ->
  shell_words ("gzip -dc > '" +:+ f +:+ "' <" +:+ " '" +:+ a +:+ "'") = Some ["gzip"; "-dc"; ">"; f; "<"; a].
Proof.
  intros Hf Ha. unfold shell_words.
  change (cons "gzip" <$> (cons "-dc" <$> (cons ">" <$> lex (f +:+ String "'" (" <" +:+ " '" +:+ a +:+ "'")) true (Some ""))) =
          Some ["gzip"; "-dc"; ">"; f; "<"; a]).
  rewrite lex_quoted by done.
  change (cons "gzip" <$> (cons "-dc" <$> (cons ">" <$> (cons f <$> (cons "<" <$> lex (a +:+ String "'" "") true (Some ""))))) =
          Some ["gzip"; "-dc"; ">"; f; "<"; a]).
  by rewrite lex_quoted.
Qed.

Lemma unzip_words d a : quote_free d -> quote_free a ->
  shell_words ("unzip -o -d '" +:+ d +:+ "'" +:+ " '" +:+ a +:+ "'") = Some ["unzip"; "-o"; "-d"; d; a].
Proof.
  intros Hd Ha. unfold shell_words.
  change (cons "unzip" <$> (cons "-o" <$> (cons "-d" <$> lex (d +:+ String "'" (" '" +:+ a +:+ "'")) true (Some ""))) =
          Some ["unzip"; "-o"; "-d"; d; a]).
  rewrite lex_quoted by done.
  change (cons "unzip" <$> (cons "-o" <$> (cons "-d" <$> (cons d <$> lex (a +:+ String "'" "") true (Some "")))) =
          Some ["unzip"; "-o"; "-d"; d; a]).
  by rewrite lex_quoted.
Qed.

Lemma entry_component name : lacks "/" name \/ name = "/" -> name ∉ [""; "."; ".."; "/"] -> entry name.
Proof. intros [H| ->] Hn; [done|]. destruct Hn. do 3 apply list_elem_of_further. by left. Qed.

Lemma extract_words sandbox target source command : quote_free source -> quote_free sandbox ->
  (endsWith source ".gz" = true -> unpacked source ∉ [""; "."; ".."; "/"]) ->
  extract_command source sandbox = Some command ->
  exists words, shell_words command = Some words /\ file_command sandbox target words.
Proof.
  intros Hs Hd Hu. unfold extract_command.
  destruct (_ || _); [|destruct (endsWith source ".gz") eqn:Eg; [|destruct (endsWith source ".zip"); [|done]]];
    cbn [fmap option_fmap option_map]; intros [= <-]; rewrite !append_assoc.
  - eexists. split; [by apply tar_words|apply cmd_tar].
  - set (name := Path_basename _).
    assert (Hn : quote_free name) by (apply Path_basename_lacks; [done|done|auto with lacks]).
    exists ["gzip"; "-dc"; ">"; sandbox +:+ "/" +:+ name; "<"; source]. split.
    + pose proof (gzip_words (sandbox +:+ "/" +:+ name) source) as H. rewrite !append_assoc in H. apply H; [|done].
      apply lacks_app; [done|by apply lacks_app].
    + apply cmd_gzip, entry_component; [apply Path_basename_component|by apply Hu].
  - eexists. split; [by apply unzip_words|apply cmd_unzip].
Qed.

Lemma copy_to_local_words os a b : all_chars plain_char (hadoop os) = true -> hadoop os <> "" ->
  quote_free a -> quote_free b ->
  shell_words (copy_to_local_command os a b) = Some [hadoop os; "fs"; "-copyToLocal"; a; b].
Proof.
  intros Hh Hne Ha Hb. unfold shell_words, copy_to_local_command. destruct (hadoop os) as [|c p] eqn:E; [done|].
  pose proof (lex_plain (String c p) "" ("fs -copyToLocal '" +:+ a +:+ "' '" +:+ b +:+ "'") Hh) as H.
  assert (Hstart : forall r, lex (String c r) false None = lex (String c r) false (Some "")).
  { intros r. cbn [lex]. apply all_chars_cons in Hh as [Hc _]. rewrite Hc.
    destruct (Ascii.eqb_spec c "'"), (Ascii.eqb_spec c " "), (char_in c "<>") eqn:Ec; subst; try done.
    cbn [char_in] in Ec. rewrite !orb_true_iff, !Ascii.eqb_eq in Ec. destruct_or? Ec; by subst. }
  rewrite append_cons, Hstart, <- append_cons.
  change (" fs -copyToLocal '" +:+ ?x) with (String " " ("fs -copyToLocal '" +:+ x)). rewrite H.
  change (cons (String c p) <$> (cons "fs" <$> (cons "-copyToLocal" <$> lex (a +:+ String "'" (" '" +:+ b +:+ "'")) true (Some ""))) = Some [String c p; "fs"; "-copyToLocal"; a; b]).
  rewrite lex_quoted by done.
  change (cons (String c p) <$> (cons "fs" <$> (cons "-copyToLocal" <$> (cons a <$> lex (b +:+ String "'" "") true (Some "")))) = Some [String c p; "fs"; "-copyToLocal"; a; b]).
  by rewrite lex_quoted.
Qed.

(** ** A logic for the program *)

Definition safe {A} (Q : Action -> Prop) (c : Fetch A) (R : A -> Prop) : Prop :=
  forall h, exists a new, c h = Ret (a, h ++ new) /\ Forall Q new /\ R a.

Section Rules.
  Context {Q : Action -> Prop}.

Lemma safe_return {A} (a : A) (R : A -> Prop) : R a -> safe Q (freturn a) R.
Proof. intros H h. exists a, []. by rewrite app_nil_r. Qed.

Lemma safe_bind {A B} (c : Fetch A) (k : A -> Fetch B) (R1 : A -> Prop) (R2 : B -> Prop) :
  safe Q c R1 -> (forall a, R1 a -> safe Q (k a) R2) -> safe Q (fbind c k) R2.
Proof.
  intros Hc Hk h. destruct (Hc h) as (a & n1 & E1 & F1 & HR). destruct (Hk a HR (h ++ n1)) as (b & n2 & E2 & F2 & HR2).
  exists b, (n1 ++ n2). unfold fbind. rewrite E1. cbn. rewrite E2, app_assoc. split_and!; [done| |done].
  by apply Forall_app.
Qed.

(** Errors are passed on, so only the case of success needs a proof. *)
Lemma safe_try {A B} (c : Fetch (Try A)) (k : A -> Fetch (Try B)) (R1 : A -> Prop) (R2 : Try B -> Prop) :
  safe Q c (fun r => forall a, r = TryOk a -> R1 a) -> (forall e, R2 (TryError e)) ->
  (forall a, R1 a -> safe Q (k a) R2) -> safe Q (let? x := c in k x) R2.
Proof.
  intros Hc He Hk. eapply safe_bind; [exact Hc|]. intros [a|e] Ha; [by apply Hk, Ha|]. by apply safe_return.
Qed.

Lemma safe_check b why : b = true -> safe Q (fcheck b why) (fun _ => True).
Proof. intros -> h. exists tt, []. by rewrite app_nil_r. Qed.

Lemma safe_weaken {A} (c : Fetch A) (R1 R2 : A -> Prop) : safe Q c R1 -> (forall a, R1 a -> R2 a) -> safe Q c R2.
Proof. intros Hc HR h. destruct (Hc h) as (a & n & E & F & H). exists a, n. auto. Qed.

Lemma safe_request {A} (answer : list Action -> A) (request : Action) :
  Q request -> safe Q (fun h => Ret (answer h, h ++ [request])) (fun _ => True).
Proof. intros H h. exists (answer h), [request]. split_and!; [done|by constructor|done]. Qed.

End Rules.

(** ** What the program may do *)

(** Where files go: to an entry of the sandbox, or to the cache file of an item
    that is to be cached. *)
Inductive target (info : FetcherInfo) : string -> Prop :=
| in_sandbox name : entry name -> target info (path_join (fi_sandbox_directory info) name)
| in_cache cache item : fi_cache_directory info = Some cache -> item ∈ fi_items info ->
    it_action item = DOWNLOAD_AND_CACHE -> target info (path_join cache (cache_filename item)).

Inductive allowed (os : Answers) (info : FetcherInfo) : Action -> Prop :=
| al_system command words : shell_words command = Some words ->
    file_command (fi_sandbox_directory info) (target info) words -> allowed os info (System command)
| al_version : allowed os info (Shell (hadoop os +:+ " version" +:+ " 2>&1"))
| al_hdfs command from to : shell_words command = Some [hadoop os; "fs"; "-copyToLocal"; from; to] ->
    target info to -> allowed os info (Shell command)
| al_download uri path : isNetUri uri = true -> target info path -> allowed os info (NetDownload uri path)
| al_mkdir cache : fi_cache_directory info = Some cache -> allowed os info (Mkdir cache)
| al_chmod path : target info path -> allowed os info (Chmod path)
| al_chown user : fi_user info = Some user -> allowed os info (Chown user (fi_sandbox_directory info)).

(** The archives that can be made of an item. *)
Inductive archive_of (info : FetcherInfo) (item : Item) : string -> Prop :=
| sandbox_archive name : basename (uri_value (it_uri item)) = TryOk name ->
    archive_of info item (path_join (fi_sandbox_directory info) name)
| cache_archive cache : fi_cache_directory info = Some cache ->
    archive_of info item (path_join cache (cache_filename item)).

(** The directories and cache file names the caller passes contain no quote, the
    path of the Hadoop client nothing a shell interprets, and no URI ends in a name
    of a directory itself or of its parent, nor does decompressing an archive give
    one. *)
Record careful (os : Answers) (info : FetcherInfo) : Prop := {
  k_sandbox : fi_sandbox_directory info <> "";
  k_sandbox_quotes : quote_free (fi_sandbox_directory info);
  k_cache : forall c, fi_cache_directory info = Some c -> quote_free c;
  k_home : forall h, fi_frameworks_home info = Some h -> quote_free h;
  k_entries : forall item name, item ∈ fi_items info -> basename (uri_value (it_uri item)) = TryOk name ->
    name ∉ [""; "."; ".."; "/"];
  k_unpacked : forall item archive, item ∈ fi_items info -> archive_of info item archive ->
    endsWith archive ".gz" = true -> unpacked archive ∉ [""; "."; ".."; "/"];
  k_names : forall item, item ∈ fi_items info -> quote_free (cache_filename item);
  k_hadoop : all_chars plain_char (hadoop os) = true;
  k_hadoop_set : hadoop os <> "";
}.

Section Program.
  Context (os : Answers) (info : FetcherInfo) (Hk : careful os info).

Abbreviation may c R := (safe (allowed os info) c R) (only parsing).

Lemma quote_illegal : illegal "'".
Proof. right. by left. Qed.

Lemma entry_target item name : item ∈ fi_items info -> basename (uri_value (it_uri item)) = TryOk name ->
  target info (path_join (fi_sandbox_directory info) name) /\ quote_free (path_join (fi_sandbox_directory info) name).
Proof.
  intros Hi H. destruct (basename_name _ _ H) as [H1 H2].
  split; [apply in_sandbox, entry_component; [done|by apply (k_entries _ _ Hk item)]|].
  apply lacks_join; [done|apply Hk|apply H1, quote_illegal].
Qed.

Lemma copyFile_safe source destination : quote_free source -> quote_free destination -> target info destination ->
  may (copyFile os source destination) (fun r => forall p, r = TryOk p -> p = destination).
Proof.
  intros Hs Hd Ht. unfold copyFile. eapply safe_bind.
  { apply safe_request. eapply al_system; [by apply copy_words|by constructor]. }
  intros status _. destruct (negb _); apply safe_return; [done|]. by intros p [= <-].
Qed.

Lemma extract_safe item source : quote_free source -> item ∈ fi_items info -> archive_of info item source ->
  may (extract_archive os source (fi_sandbox_directory info)) (fun _ => True).
Proof.
  intros Hs Hi Ha. unfold extract_archive. destruct (extract_command _ _) as [command|] eqn:E; [|by apply safe_return].
  destruct (extract_words _ (target info) _ _ Hs (k_sandbox_quotes _ _ Hk) (k_unpacked _ _ Hk item _ Hi Ha) E)
    as (words & Hw & Hf).
  eapply safe_bind; [apply safe_request; by eapply al_system|].
  intros status _. destruct (negb _); by apply safe_return.
Qed.

Lemma chmod_safe path : target info path -> may (chmodExecutable os path) (fun _ => True).
Proof.
  intros Ht. unfold chmodExecutable. eapply safe_bind; [apply safe_request; by constructor|].
  intros [e|] _; by apply safe_return.
Qed.

Lemma hadoop_safe uri destination : quote_free uri -> quote_free destination -> target info destination ->
  may (downloadWithHadoopClient os uri destination) (fun r => forall p, r = TryOk p -> p = destination).
Proof.
  intros Hu Hd Ht. unfold downloadWithHadoopClient. eapply safe_bind.
  { apply (safe_try _ _ (fun _ => True) (fun _ => True)); [|done|by intros; apply safe_return].
    eapply safe_weaken; [apply safe_request, al_version|done]. }
  intros [[|]|e] _; [|by apply safe_return..]. eapply safe_bind.
  { apply (safe_try _ _ (fun _ => True) (fun _ => True)); [|done|by intros; apply safe_return].
    eapply safe_weaken; [apply safe_request; eapply al_hdfs; [|exact Ht]|done].
    apply copy_to_local_words; [apply Hk|apply Hk|done..]. }
  intros [u|e] _; apply safe_return; [|done]. by intros p [= <-].
Qed.

Lemma net_safe uri destination : isNetUri uri = true -> target info destination ->
  may (downloadWithNet os uri destination) (fun r => forall p, r = TryOk p -> p = destination).
Proof.
  intros Hn Ht. unfold downloadWithNet. eapply safe_bind; [by apply safe_check|]. intros _ _.
  eapply safe_bind; [apply safe_request; by constructor|]. intros [code|e] _; [|by apply safe_return].
  destruct (_ || _); destruct (negb _); apply safe_return; by intros p [= <-].
Qed.

Lemma download_safe uri destination : quote_free destination -> target info destination ->
  may (download os uri destination (fi_frameworks_home info)) (fun r => forall p, r = TryOk p -> p = destination).
Proof.
  intros Hd Ht. unfold download. set (source := trim_prefix uri).
  unfold validateUri. destruct (basename source) as [name|e] eqn:Eb; [|by apply safe_return].
  assert (Hq : quote_free source) by (apply (basename_legal _ _ Eb), quote_illegal).
  destruct (uriToLocalPath source (fi_frameworks_home info)) as [path| |e] eqn:Ep; [| |by apply safe_return].
  - apply copyFile_safe; [|done..]. eapply local_path_lacks; [done|exact Ep|done|apply Hk].
  - destruct (isNetUri source) eqn:En; [by apply net_safe|by apply hadoop_safe].
Qed.

Lemma bypass_safe item : item ∈ fi_items info ->
  may (fetchBypassingCache os (it_uri item) (fi_sandbox_directory info) (fi_frameworks_home info)) (fun _ => True).
Proof.
  intros Hi. unfold fetchBypassingCache.
  destruct (basename (uri_value (it_uri item))) as [name|e] eqn:E; [|by apply safe_return].
  destruct (entry_target item _ Hi E) as [Ht Hq].
  apply (safe_try _ _ (fun p => p = path_join (fi_sandbox_directory info) name)); [by apply download_safe|done|].
  intros p ->. destruct (executable (it_uri item)); [by apply chmod_safe|].
  destruct (extract (it_uri item)); [|by apply safe_return].
  apply (safe_try _ _ (fun _ => True)); [|done|by intros; apply safe_return].
  eapply safe_weaken; [apply (extract_safe item); [done|done|by apply sandbox_archive]|done].
Qed.

Lemma from_cache_safe item cache : fi_cache_directory info = Some cache -> item ∈ fi_items info ->
  cache_filename item <> "" -> may (fetchFromCache os item cache (fi_sandbox_directory info)) (fun _ => True).
Proof.
  intros Hc Hi Hne. unfold fetchFromCache.
  destruct (basename (uri_value (it_uri item))) as [name|e] eqn:E; [|by apply safe_return].
  destruct (entry_target item _ Hi E) as [Ht Hq].
  assert (Hs : quote_free (path_join cache (cache_filename item)))
    by (apply lacks_join; [done|by apply (k_cache _ _ Hk)|by apply (k_names _ _ Hk)]).
  eapply safe_bind; [apply safe_check; by destruct (String.eqb_spec (cache_filename item) "")|]. intros _ _.
  assert (Hcopy : may (copyFile os (path_join cache (cache_filename item)) (path_join (fi_sandbox_directory info) name)) (fun _ => True))
    by (eapply safe_weaken; [by apply copyFile_safe|done]).
  destruct (executable (it_uri item)).
  - apply (safe_try _ _ (fun p => p = path_join (fi_sandbox_directory info) name)); [by apply copyFile_safe|done|].
    intros p ->. by apply chmod_safe.
  - destruct (extract (it_uri item)); [|done].
    apply (safe_try _ _ (fun _ => True)); [eapply safe_weaken; [apply (extract_safe item); [done|done|by apply cache_archive]|done]|done|].
    intros [|] _; [by apply safe_return|done].
Qed.

Lemma through_cache_safe item : item ∈ fi_items info -> it_action item <> BYPASS_CACHE ->
  may (fetchThroughCache os item (fi_cache_directory info) (fi_sandbox_directory info) (fi_frameworks_home info))
    (fun _ => True).
Proof.
  intros Hi Ha. unfold fetchThroughCache.
  destruct (fi_cache_directory info) as [cache|] eqn:Ec; [|by apply safe_return]. cbn [default from_option id].
  destruct (String.eqb_spec cache "") as [|Hne]; [by apply safe_return|].
  destruct (String.eqb_spec (cache_filename item) "") as [|Hf]; [by apply safe_return|].
  destruct (it_action item) eqn:Eact; [done| |by apply from_cache_safe].
  eapply safe_bind; [by apply safe_check|]. intros _ _.
  eapply safe_bind; [apply safe_request; by constructor|]. intros [e|] _; [by apply safe_return|].
  apply (safe_try _ _ (fun _ => True)); [|done|by intros; apply from_cache_safe].
  eapply safe_weaken; [apply download_safe|done].
  - apply lacks_join; [done|by apply (k_cache _ _ Hk)|by apply (k_names _ _ Hk)].
  - by apply (in_cache info cache item).
Qed.

Lemma fetch_safe item : item ∈ fi_items info ->
  may (fetch os item (fi_cache_directory info) (fi_sandbox_directory info) (fi_frameworks_home info)) (fun _ => True).
Proof.
  intros Hi. unfold fetch. destruct (it_action item) eqn:E; [by apply bypass_safe|..];
    apply through_cache_safe; [done|congruence|done|congruence].
Qed.

Lemma fetch_all_safe items : items ⊆ fi_items info -> may (fetch_all os items info) (fun _ => True).
Proof.
  induction items as [|item rest IH]; intros Hsub; cbn [fetch_all]; [by apply safe_return|].
  eapply safe_bind; [apply fetch_safe; apply Hsub; by left|]. intros [p|e] _; [|by apply safe_return].
  apply IH. intros x Hx. apply Hsub. by right.
Qed.

Lemma main_safe : may (main os info) (fun code => code = 0 \/ code = 1).
Proof.
  unfold main. eapply safe_bind; [apply safe_check; destruct (String.eqb_spec (fi_sandbox_directory info) "") as [E|]; [by destruct (k_sandbox _ _ Hk)|done]|].
  intros _ _. eapply safe_bind; [by apply fetch_all_safe|]. intros [|] _; cbn [negb]; [|apply safe_return; by right].
  destruct (fi_user info) as [user|] eqn:Eu; [|apply safe_return; by left].
  eapply safe_bind; [apply safe_request; by constructor|]. intros [e|] _; apply safe_return; [by right|by left].
Qed.

End Program.

(** ** Properties *)

(** C16: suppose the sandbox directory is given; the sandbox, the cache and the
    frameworks' home directory and the cache file names contain no single quote;
    the path of the Hadoop client is set and has only characters a shell does not
    interpret; and no file name the program takes from a URI, or that
    decompressing an archive [.gz] gives, is empty, ".", ".." or "/". Then
    whatever the operating system answers, the fetcher program exits with 0 or 1
    and no assertion fails; every command it runs on files consists, as a shell
    reads it, of one of the known commands and the names it was given as single
    words, whatever else the URIs contain; and the paths it copies and downloads
    to, makes executable or lets gzip write are entries of the sandbox other than
    its parent and itself, or the cache files of items that are to be cached;
    tar and unzip are told to extract into the sandbox. *)
Theorem fetcher_confined os info h : careful os info ->
  exists code new, main os info h = Ret (code, h ++ new) /\ (code = 0 \/ code = 1) /\
    Forall (allowed os info) new.
Proof.
  intros Hk. destruct (main_safe os info Hk h) as (code & new & E & F & R). by exists code, new.
Qed.

(** An operating system on which everything succeeds. *)
Definition obliging : Answers := {|
  a_system _ _ := 0; a_shell _ _ := TryOk ""; a_download _ _ _ := TryOk 200;
  a_mkdir _ _ := None; a_chmod _ _ := None; a_chown _ _ _ := None; a_hadoop_home := None |}.

Definition sample_info : FetcherInfo :=
  mkFetcherInfo "/sandbox" (Some "/cache")
    [mkItem (mkURI "http://host/a.tar.gz" None None None None) BYPASS_CACHE None;
     mkItem (mkURI "/opt/run; rm -r /" (Some true) None None None) BYPASS_CACHE None;
     mkItem (mkURI "http://host/data" None None (Some true) None) DOWNLOAD_AND_CACHE (Some "c1-data")]
    (Some "user") None.

Lemma sample_careful : careful obliging sample_info.
Proof.
  split; try done.
  - by intros c [= <-].
  - intros item name Hi. unfold sample_info in Hi. cbn [fi_items] in Hi. rewrite !elem_of_cons in Hi.
    destruct Hi as [->|[->|[->|Hi]]]; [intros E; vm_compute in E; injection E as <-..|by apply not_elem_of_nil in Hi];
      by rewrite <- (bool_decide_eq_false (_ ∈ _)).
  - intros item archive Hi Ha. unfold sample_info in Hi. cbn [fi_items] in Hi. rewrite !elem_of_cons in Hi.
    destruct Hi as [->|[->|[->|Hi]]]; [destruct Ha as [name E|cache E]; vm_compute in E; injection E as <-..|by apply not_elem_of_nil in Hi];
      intros Eg; first [discriminate Eg|by rewrite <- (bool_decide_eq_false (_ ∈ _))].
  - intros item Hi. unfold sample_info in Hi. cbn [fi_items] in Hi. rewrite !elem_of_cons in Hi.
    destruct Hi as [->|[->|[->|Hi]]]; [reflexivity..|by apply not_elem_of_nil in Hi].
Qed.

Lemma fetcher_confined_witness : exists new, main obliging sample_info [] = Ret (0, new) /\
  Forall (allowed obliging sample_info) new /\ length new = 8%nat.
Proof.
  destruct (fetcher_confined obliging sample_info [] sample_careful) as (code & new & E & _ & F).
  exists new. assert (E0 : match main obliging sample_info [] with
    | Ret (c, l) => c = 0 /\ length l = 8%nat | Fatal _ => False end) by (vm_compute; split; reflexivity).
  rewrite E in E0. destruct E0 as [-> Hl]. split_and!; [exact E|exact F|exact Hl].
Defined.

(** A URI that ends in ".." leads out of the sandbox: what is downloaded into the
    cache is copied into the sandbox's parent directory. *)
Theorem fetcher_escapes :
  basename "http://host/.." = TryOk ".." /\
  main obliging (mkFetcherInfo "/sandbox" (Some "/cache")
      [mkItem (mkURI "http://host/.." None None (Some true) None) DOWNLOAD_AND_CACHE (Some "c1")] None None) [] =
    Ret (0, [Mkdir "/cache"; NetDownload "http://host/.." "/cache/c1"; System "cp '/cache/c1' '/sandbox/..'"]).
Proof. split; vm_compute; reflexivity. Qed.

(** Items fetched one after the other. *)
Inductive fetched (os : Answers) (info : FetcherInfo) : list Item -> list Action -> list Action -> Prop :=
| fetched_nil h : fetched os info [] h h
| fetched_cons item rest h h1 h2 path :
    fetch os item (fi_cache_directory info) (fi_sandbox_directory info) (fi_frameworks_home info) h = Ret (TryOk path, h1) ->
    fetched os info rest h1 h2 -> fetched os info (item :: rest) h h2.

Lemma fetch_all_true os info items : forall h h', fetch_all os items info h = Ret (true, h') <-> fetched os info items h h'.
Proof.
  induction items as [|item rest IH]; intros h h'; cbn [fetch_all]; unfold freturn, fbind.
  - split; [intros [= <-]; constructor|]. inversion 1; by subst.
  - split.
    + destruct (fetch _ _ _ _ _ h) as [[[p|e] h1]|] eqn:E; cbn; [|done|done]. intros H. econstructor; [done|]. by apply IH.
    + inversion 1 as [|? ? ? h1 ? p E Hr]; subst. rewrite E. cbn. by apply IH.
Qed.

Lemma fetch_all_false os info items : forall h h', fetch_all os items info h = Ret (false, h') <->
  exists l1 item l2 h1 e, items = l1 ++ item :: l2 /\ fetched os info l1 h h1 /\
    fetch os item (fi_cache_directory info) (fi_sandbox_directory info) (fi_frameworks_home info) h1 = Ret (TryError e, h').
Proof.
  induction items as [|item rest IH]; intros h h'; cbn [fetch_all]; unfold freturn, fbind.
  - split; [done|]. by intros ([] & ? & ? & ? & ? & ? & _).
  - split.
    + destruct (fetch _ _ _ _ _ h) as [[[p|e] h1]|] eqn:E; cbn; [|intros [= <-]|done].
      * intros (l1 & it & l2 & h2 & e & -> & Hf & He)%IH. exists (item :: l1), it, l2, h2, e.
        split_and!; [done| |done]. by econstructor.
      * exists [], item, rest, h, e. split_and!; [done|constructor|done].
    + intros ([|x l1] & it & l2 & h1 & e & [= -> ->] & Hf & He).
      * inversion Hf; subst. by rewrite He.
      * inversion Hf as [|? ? ? h2 ? p E Hr]; subst. rewrite E. cbn. apply IH. by exists l1, it, l2, h1, e.
Qed.

(** C36: the fetcher program exits with 0 exactly if it fetched every URI, in the
    order given, and then gave the sandbox to the user, if there is one; if a
    URI cannot be fetched it exits with 1 at that URI, having fetched those
    before it and requested nothing after. *)
Theorem fetcher_exit_code os info h code h' : main os info h = Ret (code, h') ->
  (code = 0 <-> exists h1, fetched os info (fi_items info) h h1 /\
     match fi_user info with
     | None => h' = h1
     | Some user => a_chown os h1 user (fi_sandbox_directory info) = None /\
         h' = h1 ++ [Chown user (fi_sandbox_directory info)]
     end) /\
  (forall l1 item l2 h1 e h2, fi_items info = l1 ++ item :: l2 -> fetched os info l1 h h1 ->
     fetch os item (fi_cache_directory info) (fi_sandbox_directory info) (fi_frameworks_home info) h1 = Ret (TryError e, h2) ->
     code = 1 /\ h' = h2).
Proof.
  unfold main, fcheck. unfold fbind at 1. destruct (negb _); [|done]. cbn [obind fst snd]. unfold fbind at 1.
  destruct (fetch_all os (fi_items info) info h) as [[b h1]|] eqn:E; [|done]. cbn [obind fst snd]. intros Hm. split.
  - destruct b; cbn [negb] in Hm.
    + apply fetch_all_true in E. assert (Huniq : forall h2, fetched os info (fi_items info) h h2 -> h2 = h1).
      { intros h2 H. apply fetch_all_true in E, H. congruence. }
      destruct (fi_user info) as [user|]; unfold fbind, os_chown, freturn in Hm; cbn in Hm.
      * destruct (a_chown os h1 user _) eqn:Ec; injection Hm as <- <-.
        -- split; [done|]. intros (h2 & ->%Huniq & ? & _). congruence.
        -- split; [|done]. intros _. by exists h1.
      * injection Hm as <- <-. split; [|done]. intros _. by exists h1.
    + injection Hm as <- <-. split; [done|]. intros (h2 & H & _). apply fetch_all_true in H. congruence.
  - intros l1 item l2 h2 e h3 Hi Hf He.
    assert (Hfalse : fetch_all os (fi_items info) info h = Ret (false, h3))
      by (apply fetch_all_false; by exists l1, item, l2, h2, e).
    rewrite Hfalse in E. injection E as <- <-. by injection Hm as <- <-.
Qed.

Lemma fetcher_exit_code_witness : exists h1 new, fetched obliging sample_info (fi_items sample_info) [] h1 /\
  main obliging sample_info [] = Ret (0, new).
Proof.
  destruct (main obliging sample_info []) as [[code new]|] eqn:E; cycle 1.
  { exfalso. revert E. vm_compute. discriminate. }
  assert (code = 0) as ->.
  { pose proof (f_equal (fun r => match r with Ret (c, _) => c | Fatal _ => 2 end) E) as E0. cbn [fst] in E0.
    rewrite <- E0. vm_compute. reflexivity. }
  destruct (proj1 (proj1 (fetcher_exit_code obliging sample_info [] 0 new E)) eq_refl) as (h1 & Hf & _).
  exists h1, new. split; [exact Hf|reflexivity].
Defined.
