(* ===== verification/Hdfs.v ===== *)
(** * Sizes of downloads and the HDFS client (include/slave/containerizer/fetcher.cpp; include/hdfs/hdfs.hpp)

    [fetchSize] finds out how large a download is: from the file system, from the
    server, or from the Hadoop client, whose further operations are here too.  As
    for the fetcher program, the operating system is a parameter that sees all
    earlier requests. *)
From Stdlib Require Import Ascii.
From S2P Require Import Prelude StoutStrings Url Roles FetcherUri Fetcher FetcherProperties.

(** What is asked of the system without a request that changes it. *)
Record Files := {
  f_exists : list Action -> string -> bool;            (** [os::exists] *)
  f_size : list Action -> string -> Try Z;             (** [os::stat::size], following links *)
  f_content_length : list Action -> string -> Try Z;   (** [net::contentLength] *)
  f_numify : string -> Try Z;                          (** [numify<size_t>] *)
}.

Section WithFiles.
  Context (os : Answers) (fs : Files).

Definition ask {A} (f : list Action -> A) : Fetch A := fun h => Ret (f h, h).

(** ** HDFS *)

(** [HDFS(_hadoop)] *)
Definition hadoop_at (proposed : string) (h : list Action) : string :=
  if f_exists fs h proposed then proposed else hadoop os.

Definition exists_command (path : string) : string := hadoop os +:+ " fs -test -e '" +:+ path +:+ "'".
Definition du_command (path : string) : string := hadoop os +:+ " fs -du -h '" +:+ path +:+ "'".
Definition rm_command (path : string) : string := hadoop os +:+ " fs -rm '" +:+ path +:+ "'".
Definition copy_from_local_command (from to : string) : string :=
  hadoop os +:+ " fs -copyFromLocal '" +:+ from +:+ "' '" +:+ to +:+ "'".

Definition hdfs_exists (path : string) : Fetch (Try bool) :=
  let path := path_join "" path in
  let? out := os_shell os (exists_command path +:+ " 2>&1") in freturn (TryOk true).

(** What [du] makes of the client's output. *)
Definition du_result (out : string) : Try Z :=
  match split out " " None with
  | [size; _] =>
      match f_numify fs size with
      | TryError e => TryError ("HDFS du returned unexpected format: " +:+ e)
      | TryOk n => TryOk n
      end
  | _ => TryError ("HDFS du returned an unexpected number of results: '" +:+ out +:+ "'")
  end.

Definition hdfs_du (path : string) : Fetch (Try Z) :=
  let path := path_join "" path in
  let& out := os_shell os (du_command path +:+ " 2>&1") in
  freturn (match out with TryError e => TryError ("HDFS du failed: " +:+ e) | TryOk out => du_result out end).

Definition hdfs_rm (path : string) : Fetch (Try unit) :=
  let path := path_join "" path in
  let? out := os_shell os (rm_command path) in freturn (TryOk tt).

Definition hdfs_copyFromLocal (from to : string) : Fetch (Try unit) :=
  let& found := ask (fun h => f_exists fs h from) in
  if negb found then freturn (TryError ("Failed to find " +:+ from))
  else
    let to := path_join "" to in
    let? out := os_shell os (copy_from_local_command from to) in freturn (TryOk tt).

(** ** [fetchSize] *)

(** [available.error()] is an abort when there is no error. *)
Definition fetchSize (uri : string) (frameworksHome : option string) : Fetch (Try Z) :=
  match uriToLocalPath uri frameworksHome with
  | Error_ e => freturn (TryError e)
  | Some_ path =>
      let& size := ask (fun h => f_size fs h path) in
      freturn (match size with
        | TryError e => TryError ("Could not determine file size for: '" +:+ path +:+ "', error: " +:+ e)
        | TryOk n => TryOk n
        end)
  | None_ =>
      if isNetUri uri then
        let& size := ask (fun h => f_content_length fs h uri) in
        freturn (match size with
          | TryError e => TryError e
          | TryOk n => if n =? 0 then TryError ("URI reported content-length 0: " +:+ uri) else TryOk n
          end)
      else
        let& available := hdfs_available os in
        match available with
        | TryError e => freturn (TryError ("Hadoop client not available: " +:+ e))
        | TryOk false => fun _ => Fatal "Try::error()"
        | TryOk true =>
            let& size := hdfs_du uri in
            freturn (match size with
              | TryError e => TryError ("Hadoop client could not determine size: " +:+ e)
              | TryOk n => TryOk n
              end)
        end
  end.

(** ** Commands *)

(** A client that a shell reads as one word. *)
Definition plain_client : Prop := all_chars plain_char (hadoop os) = true /\ hadoop os <> "".

Lemma client_words r : plain_client -> shell_words (hadoop os +:+ String " " r) = cons (hadoop os) <$> lex r false None.
Proof.
  intros [Hh Hne]. unfold shell_words. destruct (hadoop os) as [|c p]; [done|].
  etrans; [|exact (lex_plain (String c p) "" r Hh)]. rewrite append_cons. cbn [lex].
  apply all_chars_cons in Hh as [Hc _]. rewrite Hc.
  destruct (Ascii.eqb_spec c "'"), (Ascii.eqb_spec c " "), (char_in c "<>") eqn:Ec; subst; try done.
  cbn [char_in] in Ec. rewrite !orb_true_iff, !Ascii.eqb_eq in Ec. destruct_or? Ec; by subst.
Qed.

(** The commands hand the client the paths they are given, each as one word. *)
Lemma hdfs_words path from to : plain_client -> quote_free path -> quote_free from -> quote_free to ->
  shell_words (exists_command path) = Some [hadoop os; "fs"; "-test"; "-e"; path] /\
  shell_words (du_command path) = Some [hadoop os; "fs"; "-du"; "-h"; path] /\
  shell_words (rm_command path) = Some [hadoop os; "fs"; "-rm"; path] /\
  shell_words (copy_from_local_command from to) = Some [hadoop os; "fs"; "-copyFromLocal"; from; to].
Proof.
  intros Hc Hp Hf Ht. unfold exists_command, du_command, rm_command, copy_from_local_command. split_and!.
  - change (" fs -test -e '" +:+ ?x) with (String " " ("fs -test -e '" +:+ x)). rewrite client_words by done.
    change (lex _ false None) with (cons "fs" <$> (cons "-test" <$> (cons "-e" <$> lex (path +:+ String "'" "") true (Some "")))).
    by rewrite lex_quoted.
  - change (" fs -du -h '" +:+ ?x) with (String " " ("fs -du -h '" +:+ x)). rewrite client_words by done.
    change (lex _ false None) with (cons "fs" <$> (cons "-du" <$> (cons "-h" <$> lex (path +:+ String "'" "") true (Some "")))).
    by rewrite lex_quoted.
  - change (" fs -rm '" +:+ ?x) with (String " " ("fs -rm '" +:+ x)). rewrite client_words by done.
    change (lex _ false None) with (cons "fs" <$> (cons "-rm" <$> lex (path +:+ String "'" "") true (Some ""))).
    by rewrite lex_quoted.
  - change (" fs -copyFromLocal '" +:+ ?x) with (String " " ("fs -copyFromLocal '" +:+ x)). rewrite client_words by done.
    change (lex _ false None) with (cons "fs" <$> (cons "-copyFromLocal" <$> lex (from +:+ String "'" (" '" +:+ to +:+ "'")) true (Some ""))).
    rewrite lex_quoted by done.
    change (lex _ false _) with (cons from <$> lex (to +:+ String "'" "") true (Some "")). by rewrite lex_quoted.
Qed.

(** ** Sizes *)

Lemma pieces_lack c s : Forall (lacks c) (piece_list (fun d => Ascii.eqb d c) s).
Proof.
  unfold piece_list. induction s as [|d s IH]; cbn [pieces]; [by repeat constructor|].
  destruct (pieces (fun d => Ascii.eqb d c) s) as [h t]. apply Forall_cons in IH as [Hh Ht].
  destruct (Ascii.eqb d c) eqn:E; apply Forall_cons; split; try done.
  - apply Forall_cons. by split.
  - unfold lacks. apply all_chars_cons. by rewrite E.
Qed.

(** [du] accepts an output exactly when it is a number, one blank and a rest
    without blanks. *)
Theorem du_result_iff out n : du_result out = TryOk n <->
  exists size rest, out = size +:+ " " +:+ rest /\ lacks " " size /\ lacks " " rest /\ f_numify fs size = TryOk n.
Proof.
  unfold du_result. rewrite split_pieces, (piece_list_ext _ (fun d => Ascii.eqb d " ")) by apply is_delim_single.
  split.
  - pose proof (join_pieces " " out) as Hj. pose proof (pieces_lack " " out) as Hl.
    destruct (piece_list _ out) as [|a [|b [|c l]]]; try done. cbn in Hj. intros H.
    apply Forall_cons in Hl as [Ha [Hb _]%Forall_cons]. exists a, b. split_and!; try done.
    destruct (f_numify fs a); by simplify_eq.
  - intros (a & b & -> & Ha & Hb & Hn). unfold piece_list. rewrite pieces_app by done. change (" " +:+ b) with (String " " b). cbn [pieces].
    rewrite <- (append_nil_r b), pieces_app by done. cbn. rewrite append_nil_r. by rewrite Hn.
Qed.

(** How [fetchSize] comes to a size: it never aborts; a local file is asked of the
    file system and a net URI of its server, which must not say 0, without any
    command being run; for all other URIs the Hadoop client is run twice, and
    its answer must have the form that [du] reads. *)
Theorem fetchSize_spec uri home h :
  let version := hadoop os +:+ " version 2>&1" in
  let du := du_command (path_join "" uri) +:+ " 2>&1" in
  (forall e, uriToLocalPath uri home = Error_ e -> fetchSize uri home h = Ret (TryError e, h)) /\
  (forall p, uriToLocalPath uri home = Some_ p ->
   exists r, fetchSize uri home h = Ret (r, h) /\ forall n, r = TryOk n <-> f_size fs h p = TryOk n) /\
  (uriToLocalPath uri home = None_ -> isNetUri uri = true ->
   exists r, fetchSize uri home h = Ret (r, h) /\ forall n, r = TryOk n <-> f_content_length fs h uri = TryOk n /\ n <> 0) /\
  (uriToLocalPath uri home = None_ -> isNetUri uri = false ->
   exists r h', fetchSize uri home h = Ret (r, h ++ Shell version :: h') /\ h' ⊆ [Shell du] /\
     forall n, r = TryOk n <-> exists v size rest, a_shell os h version = TryOk v /\
       a_shell os (h ++ [Shell version]) du = TryOk (size +:+ " " +:+ rest) /\
       lacks " " size /\ lacks " " rest /\ f_numify fs size = TryOk n).
Proof.
  intros version du. unfold fetchSize. destruct (uriToLocalPath uri home) as [p| |e] eqn:Ep.
  - split_and!; try done. intros p' [= <-]. cbn. eexists. split; [done|]. intros n. by destruct (f_size fs h p).
  - split_and!; try done; intros _ ->.
    + cbn. eexists. split; [done|]. intros n. destruct (f_content_length fs h uri) as [m|]; [|naive_solver].
      destruct (Z.eqb_spec m 0); naive_solver.
    + unfold hdfs_available, fbind, os_shell, freturn, hdfs_du, fbind, os_shell. cbn.
      replace (hadoop os +:+ " version" +:+ " 2>&1") with version by done.
      replace (hadoop os +:+ " version 2>&1") with version by done.
      destruct (a_shell os h version) as [v|e] eqn:Ev; cbn.
      2: { exists (TryError ("Hadoop client not available: " +:+ e)), []. split_and!; [done|apply list_subseteq_nil|naive_solver]. }
      eexists _, [Shell du]. split; [by rewrite <- app_assoc|]. split; [done|]. intros n.
      fold du. destruct (a_shell os (h ++ [Shell version]) du) as [out|e]; cbn; [|naive_solver].
      pose proof (du_result_iff out n) as H. destruct (du_result out) as [m|e]; [|naive_solver].
      rewrite H. naive_solver.
  - by split_and!; [intros e' [= <-]|..].
Qed.

End WithFiles.

(** [du] puts a slash before a path that has none, also before a URI: the client
    is asked for the size of "/hdfs://...", where [copyToLocal] hands it the URI. *)
Definition no_hadoop_home : Answers :=
  {| a_system := fun _ _ => 0; a_shell := fun _ _ => TryError ""; a_download := fun _ _ _ => TryOk 200;
     a_mkdir := fun _ _ => None; a_chmod := fun _ _ => None; a_chown := fun _ _ _ => None; a_hadoop_home := None |}.

Theorem du_of_uri :
  shell_words (du_command no_hadoop_home (path_join "" "hdfs://name/file")) =
    Some ["hadoop"; "fs"; "-du"; "-h"; "/hdfs://name/file"] /\
  shell_words (copy_to_local_command no_hadoop_home "hdfs://name/file" "/sandbox/file") =
    Some ["hadoop"; "fs"; "-copyToLocal"; "hdfs://name/file"; "/sandbox/file"].
Proof. split; vm_compute; reflexivity. Qed.

(** An output with aligned columns is not read. *)
Theorem du_aligned_output fs : du_result fs "1024  /file" =
  TryError "HDFS du returned an unexpected number of results: '1024  /file'".
Proof. reflexivity. Qed.
