(* ===== verification/Scheduler.v ===== *)
(** * The scheduler driver and its process (source/sched.cpp, source/scheduler_process.cpp)

    The driver guards its API by its status; the process talks to the master
    through the notify channel and calls the framework's scheduler back.  The
    framework's scheduler is arbitrary code: it is the parameter [reacts], the
    driver calls it makes from inside a callback, which run before the handler
    continues (the driver's mutex is recursive).  Every operation maps a state
    to a state, with the messages sent and the callbacks made recorded in
    [trace], or aborts. *)
From S2P Require Import Prelude Values Platform Resource.

(** ** Messages *)

Inductive TaskState :=
| TASK_STAGING | TASK_STARTING | TASK_RUNNING | TASK_KILLING | TASK_FINISHED | TASK_FAILED | TASK_KILLED
| TASK_ERROR | TASK_LOST | TASK_DROPPED | TASK_UNREACHABLE | TASK_GONE | TASK_GONE_BY_OPERATOR
| TASK_UNKNOWN.
#[export] Instance TaskState_eq_dec : EqDecision TaskState.
Proof. solve_decision. Defined.

Record FrameworkInfo := mkFramework { fw_name : string; fw_id : option string }.

(** [framework_.id().value()] *)
Definition fw_id_value (f : FrameworkInfo) : string := default "" (fw_id f).

Record TaskStatus := mkTaskStatus {
  ts_task_id : string;
  ts_state : TaskState;
  ts_message : option string;
  ts_slave_id : option string;
  ts_uuid : option string;
}.

Record StatusUpdate := mkStatusUpdate {
  su_framework_id : string;
  su_slave_id : option string;
  su_status : TaskStatus;
  su_timestamp : Z;
  su_uuid : string;
}.

Record ExecutorInfo := mkExecutorInfo { ei_executor_id : string; ei_framework_id : option string }.

Record TaskInfo := mkTaskInfo {
  ti_task_id : string;
  ti_slave_id : string;
  ti_executor : option ExecutorInfo;
  ti_command : bool;
  ti_labels : option (list Label);
}.

Definition Offer := string.
Definition Request := string.
Definition Filters := string.

(** What the process sends to the master. *)
Inductive OutMessage :=
| RegisterFramework (framework : FrameworkInfo) (job_submit_options : option string)
| ReregisterFramework (framework : FrameworkInfo) (failover : bool)
| StatusUpdateAcknowledgement (framework_id slave_id task_id uuid : string)
| UnregisterFramework (framework_id : string)
| DeactivateFramework (framework_id : string)
| KillTask (framework_id task_id : string)
| ResourceRequest (framework_id : string) (requests : list Request)
| LaunchTasks (framework_id : string) (offer_ids : list string) (tasks : list TaskInfo) (filters : Filters)
| ReviveOffers (framework_id : string)
| FrameworkToExecutor (slave_id framework_id executor_id data : string)
| ReconcileTasks (framework_id : string) (statuses : list TaskStatus).

(** The calls to the framework's scheduler. *)
Inductive Callback :=
| CbRegistered (framework_id master_info : string)
| CbReregistered (master_info : string)
| CbResourceOffers (offers : list Offer)
| CbOfferRescinded (offer_id : string)
| CbStatusUpdate (status : TaskStatus)
| CbSlaveLost (slave_id : string)
| CbFrameworkMessage (executor_id slave_id data : string)
| CbError (message : string).

Inductive Event := Sent (m : OutMessage) | Called (c : Callback).

(** [Offer::Operation] as far as [acceptOffers] looks at it. *)
Inductive OfferOperation := OpLaunch (tasks : list TaskInfo) | OpOther (type : nat).

(** The driver API. *)
Inductive Call :=
| DStart
| DStop (failover : bool)
| DAbort
| DKillTask (task_id : string)
| DLaunchTasks (offer_ids : list string) (tasks : list TaskInfo) (filters : Filters)
| DAcceptOffers (offer_ids : list string) (operations : list OfferOperation) (filters : Filters)
| DDeclineOffer (offer_id : string) (filters : Filters)
| DReviveOffers
| DSuppressOffers
| DAcknowledgeStatusUpdate (status : TaskStatus)
| DSendFrameworkMessage (executor_id slave_id data : string)
| DReconcileTasks (statuses : list TaskStatus)
| DRequestResources (requests : list Request).

(** What arrives on the notify channel: a broker error, or a message with a
    target and the fields of its payload. *)
Record Payload := mkPayload {
  in_framework_id : string;
  in_master_info : string;
  in_error : string;
  in_slave_id : string;
  in_offer_id : string;
  in_offers : list Offer;
  in_executor_id : string;
  in_data : string;
  in_update : StatusUpdate;
}.
Inductive Incoming := BrokerError | Incoming_message (target : string) (payload : Payload).

(** ** State *)

Inductive Status := DRIVER_NOT_STARTED | DRIVER_RUNNING | DRIVER_ABORTED | DRIVER_STOPPED.
#[export] Instance Status_eq_dec : EqDecision Status.
Proof. solve_decision. Defined.

Record State := mkState {
  status : Status;                        (** the driver's status *)
  process : bool;                         (** [process != NULL] *)
  channelsCreated : bool;
  framework : FrameworkInfo;
  failover : bool;
  master : string;
  connected : bool;
  aborted : bool;
  savedSlavePids : gmap string string;
  activeTasks : gmap string TaskState;
  registrationTimers : nat;               (** pending timers *)
  reconcileTimers : nat;
  heartbeat : option string;              (** the framework id in the heartbeat *)
  clock : nat;                            (** calls of [uuid_generate] and [time] so far *)
  trace : list Event;
}.

Definition set_status v s := mkState v (process s) (channelsCreated s) (framework s) (failover s) (master s)
  (connected s) (aborted s) (savedSlavePids s) (activeTasks s) (registrationTimers s) (reconcileTimers s)
  (heartbeat s) (clock s) (trace s).
Definition set_channels v s := mkState (status s) (process s) v (framework s) (failover s) (master s)
  (connected s) (aborted s) (savedSlavePids s) (activeTasks s) (registrationTimers s) (reconcileTimers s)
  (heartbeat s) (clock s) (trace s).
Definition set_framework v s := mkState (status s) (process s) (channelsCreated s) v (failover s) (master s)
  (connected s) (aborted s) (savedSlavePids s) (activeTasks s) (registrationTimers s) (reconcileTimers s)
  (heartbeat s) (clock s) (trace s).
Definition set_failover v s := mkState (status s) (process s) (channelsCreated s) (framework s) v (master s)
  (connected s) (aborted s) (savedSlavePids s) (activeTasks s) (registrationTimers s) (reconcileTimers s)
  (heartbeat s) (clock s) (trace s).
Definition set_connected v s := mkState (status s) (process s) (channelsCreated s) (framework s) (failover s)
  (master s) v (aborted s) (savedSlavePids s) (activeTasks s) (registrationTimers s) (reconcileTimers s)
  (heartbeat s) (clock s) (trace s).
Definition set_aborted v s := mkState (status s) (process s) (channelsCreated s) (framework s) (failover s)
  (master s) (connected s) v (savedSlavePids s) (activeTasks s) (registrationTimers s) (reconcileTimers s)
  (heartbeat s) (clock s) (trace s).
Definition set_savedSlavePids v s := mkState (status s) (process s) (channelsCreated s) (framework s)
  (failover s) (master s) (connected s) (aborted s) v (activeTasks s) (registrationTimers s)
  (reconcileTimers s) (heartbeat s) (clock s) (trace s).
Definition set_activeTasks v s := mkState (status s) (process s) (channelsCreated s) (framework s)
  (failover s) (master s) (connected s) (aborted s) (savedSlavePids s) v (registrationTimers s)
  (reconcileTimers s) (heartbeat s) (clock s) (trace s).
Definition set_registrationTimers v s := mkState (status s) (process s) (channelsCreated s) (framework s)
  (failover s) (master s) (connected s) (aborted s) (savedSlavePids s) (activeTasks s) v
  (reconcileTimers s) (heartbeat s) (clock s) (trace s).
Definition set_reconcileTimers v s := mkState (status s) (process s) (channelsCreated s) (framework s)
  (failover s) (master s) (connected s) (aborted s) (savedSlavePids s) (activeTasks s)
  (registrationTimers s) v (heartbeat s) (clock s) (trace s).
Definition set_heartbeat v s := mkState (status s) (process s) (channelsCreated s) (framework s)
  (failover s) (master s) (connected s) (aborted s) (savedSlavePids s) (activeTasks s)
  (registrationTimers s) (reconcileTimers s) v (clock s) (trace s).
Definition set_clock v s := mkState (status s) (process s) (channelsCreated s) (framework s)
  (failover s) (master s) (connected s) (aborted s) (savedSlavePids s) (activeTasks s)
  (registrationTimers s) (reconcileTimers s) (heartbeat s) v (trace s).
Definition emit e s := mkState (status s) (process s) (channelsCreated s) (framework s)
  (failover s) (master s) (connected s) (aborted s) (savedSlavePids s) (activeTasks s)
  (registrationTimers s) (reconcileTimers s) (heartbeat s) (clock s) (trace s ++ [e]).

(** The constructor [UrbSchedulerProcess(...)], which arms the reconcile timer. *)
Definition new_process (s : State) : State :=
  mkState (status s) true false (framework s)
    (match fw_id (framework s) with Some v => negb (String.eqb v "") | None => false end)
    (master s) false false ∅ ∅ (registrationTimers s) (S (reconcileTimers s)) None (clock s) (trace s).

(** The driver before [start]. *)
Definition new_driver (f : FrameworkInfo) (m : string) : State :=
  mkState DRIVER_NOT_STARTED false false f false m false false ∅ ∅ 0 0 None 0 [].

Section Process.
  (** [uuid_generate], [time] and the environment variable
      [URB_job_submit_options]. *)
  Context (new_uuid : nat -> string) (now : nat -> Z) (job_submit_options : option string).
  (** How a callback into the framework's scheduler runs. *)
  Context (callback : Callback -> State -> outcome State).

(** [sendMesosMessage]: writes to the notify channel, which must exist. *)
Definition sendMessage (m : OutMessage) (s : State) : outcome State :=
  CHECK (channelsCreated s) "pNotifyChannel_ is not initialised" ;;!
  Ret (emit (Sent m) s).

Definition CHECK_master (s : State) : outcome unit :=
  CHECK (negb (String.eqb (master s) "")) "master_ != ''".

(** [registrationTimer_.delay(...)] and [startRegistration] *)
Definition startRegistration (s : State) : State := set_registrationTimers (S (registrationTimers s)) s.

Definition createChannels (s : State) : State :=
  if channelsCreated s then s else set_channels true s.

Definition startHeartbeat (frameworkId : string) (s : State) : outcome State :=
  CHECK (channelsCreated s) "pNotifyChannel_ is not initialised" ;;!
  Ret (set_heartbeat (Some frameworkId) s).

Definition registered (from frameworkId masterInfo : string) (s : State) : outcome State :=
  if aborted s then Ret s
  else if connected s then Ret s
  else if negb (String.eqb (master s) from) then Ret s
  else
    let s := set_framework (mkFramework (fw_name (framework s)) (Some frameworkId)) s in
    let s := set_failover false (set_connected true s) in
    let! s := startHeartbeat frameworkId s in
    callback (CbRegistered frameworkId masterInfo) s.

Definition reregistered (from frameworkId masterInfo : string) (s : State) : outcome State :=
  if aborted s then Ret s
  else if connected s then Ret s
  else if negb (String.eqb (master s) from) then Ret s
  else
    CHECK (String.eqb (fw_id_value (framework s)) frameworkId)
      "framework_.id().value() == frameworkId.value()" ;;!
    let s := set_failover false (set_connected true s) in
    let! s := startHeartbeat frameworkId s in
    callback (CbReregistered masterInfo) s.

(** [doReliableRegistration]; [broker_ok] is false if the broker throws, which it
    does before the channels exist: that it throws after is not followed. *)
Definition doReliableRegistration (broker_ok : bool) (s : State) : outcome State :=
  if connected s || String.eqb (master s) "" then Ret s
  else if aborted s then Ret (set_connected true (set_aborted false s))
  else if broker_ok then
    let s := createChannels s in
    if match fw_id (framework s) with Some v => String.eqb v "" | None => true end || failover s then
      sendMessage (RegisterFramework (framework s) job_submit_options) s
    else sendMessage (ReregisterFramework (framework s) (failover s)) s
  else Ret (startRegistration s).

(** The guards shared by the handlers of messages from the master. *)
Definition from_master (from : string) (s : State) (body : outcome State) : outcome State :=
  if aborted s then Ret s
  else if negb (connected s) then Ret s
  else CHECK_master s ;;! (if negb (String.eqb from (master s)) then Ret s else body).

Definition resourceOffers (from : string) (offers : list Offer) (s : State) : outcome State :=
  from_master from s (callback (CbResourceOffers offers) s).
Definition rescindOffer (from offerId : string) (s : State) : outcome State :=
  from_master from s (callback (CbOfferRescinded offerId) s).
Definition lostSlave (from slaveId : string) (s : State) : outcome State :=
  from_master from s
    (callback (CbSlaveLost slaveId) (set_savedSlavePids (delete slaveId (savedSlavePids s)) s)).

Definition statusUpdateAcknowledgement (update : StatusUpdate) (s : State) : outcome State :=
  if aborted s then Ret s
  else
    sendMessage (StatusUpdateAcknowledgement (fw_id_value (framework s))
      (match su_slave_id update with
       | Some v => v
       | None => default "" (ts_slave_id (su_status update))
       end) (ts_task_id (su_status update)) (su_uuid update)) s.

(** The states after which [statusUpdate] forgets a task. *)
Definition removes_task (st : TaskState) : bool :=
  match st with
  | TASK_FINISHED | TASK_FAILED | TASK_KILLED | TASK_LOST => true
  | _ => false
  end.

Definition track_task (st : TaskStatus) (s : State) : State :=
  if removes_task (ts_state st) then set_activeTasks (delete (ts_task_id st) (activeTasks s)) s
  else set_activeTasks (<[ts_task_id st := ts_state st]> (activeTasks s)) s.

(** [statusUpdate]; [from] is empty for updates of the driver itself. *)
Definition statusUpdate (from : string) (update : StatusUpdate) (s : State) : outcome State :=
  if aborted s then Ret s
  else
    let deliver :=
      CHECK (String.eqb (fw_id_value (framework s)) (su_framework_id update))
        "framework_.id().value() == update.framework_id().value()" ;;!
      let! s := callback (CbStatusUpdate (su_status update)) s in
      let! s := statusUpdateAcknowledgement update s in
      Ret (track_task (su_status update) s) in
    if negb (String.eqb from "") then
      if negb (connected s) then Ret s
      else CHECK_master s ;;! (if negb (String.eqb from (master s)) then Ret s else deliver)
    else deliver.

Definition frameworkMessage (slaveId executorId data : string) (s : State) : outcome State :=
  if aborted s then Ret s else callback (CbFrameworkMessage executorId slaveId data) s.

Definition stop (failover : bool) (s : State) : outcome State :=
  if connected s && negb failover then
    CHECK_master s ;;!
    let! s := sendMessage (UnregisterFramework (fw_id_value (framework s))) s in
    Ret (set_connected false s)
  else Ret s.

Definition abort (s : State) : outcome State :=
  if negb (connected s) then Ret s
  else
    CHECK_master s ;;!
    let! s := sendMessage (DeactivateFramework (fw_id_value (framework s))) s in
    Ret (set_aborted true (set_connected false s)).

(** [if (!connected_) return; ... CHECK(master_ != ""); sendMessage(message)] *)
Definition send_connected (m : OutMessage) (s : State) : outcome State :=
  if negb (connected s) then Ret s else CHECK_master s ;;! sendMessage m s.

Definition killTask (taskId : string) (s : State) : outcome State :=
  send_connected (KillTask (fw_id_value (framework s)) taskId) s.
Definition requestResources (requests : list Request) (s : State) : outcome State :=
  send_connected (ResourceRequest (fw_id_value (framework s)) requests) s.
Definition reviveOffers (s : State) : outcome State :=
  send_connected (ReviveOffers (fw_id_value (framework s))) s.
Definition sendFrameworkMessage (executorId slaveId data : string) (s : State) : outcome State :=
  send_connected (FrameworkToExecutor slaveId (fw_id_value (framework s)) executorId data) s.
Definition reconcileTasks (statuses : list TaskStatus) (s : State) : outcome State :=
  send_connected (ReconcileTasks (fw_id_value (framework s)) statuses) s.

(** A driver-generated update that reports a task as lost. *)
Definition lose_task (taskId message : string) (s : State) : outcome State :=
  let update := mkStatusUpdate (fw_id_value (framework s)) None
    (mkTaskStatus taskId TASK_LOST (Some message) None None) (now (clock s)) (new_uuid (clock s)) in
  statusUpdate "" update (set_clock (S (clock s)) s).

(** [TaskInfo copy = task; ...] *)
Definition launch_copy (f : FrameworkInfo) (task : TaskInfo) : TaskInfo :=
  mkTaskInfo (ti_task_id task) (ti_slave_id task)
    (match ti_executor task with
     | Some e => Some (match ei_framework_id e with
                       | None => mkExecutorInfo (ei_executor_id e) (Some (fw_id_value f))
                       | Some _ => e
                       end)
     | None => None
     end)
    (ti_command task)
    (match ti_labels task with Some [] => None | l => l end).

(** The loop of [launchTasks] while connected: the tasks to launch. *)
Fixpoint launch_loop (tasks : list TaskInfo) (result : list TaskInfo) (s : State) :
    outcome (list TaskInfo * State) :=
  match tasks with
  | [] => Ret (result, s)
  | task :: rest =>
      if Bool.eqb (has (ti_executor task)) (ti_command task) then
        let! s := lose_task (ti_task_id task) "TaskInfo must have either an 'executor' or a 'command'" s in
        launch_loop rest result s
      else
        match ti_executor task with
        | Some (mkExecutorInfo _ (Some id)) =>
            if negb (String.eqb id (fw_id_value (framework s))) then
              let! s := lose_task (ti_task_id task)
                ("ExecutorInfo has an invalid FrameworkID (Actual: " +:+ id +:+ " vs Expected: " +:+
                 fw_id_value (framework s) +:+ ")") s in
              launch_loop rest result s
            else
              launch_loop rest (result ++ [launch_copy (framework s) task])
                (set_activeTasks (<[ti_task_id task := TASK_STAGING]> (activeTasks s)) s)
        | _ =>
            launch_loop rest (result ++ [launch_copy (framework s) task])
              (set_activeTasks (<[ti_task_id task := TASK_STAGING]> (activeTasks s)) s)
        end
  end.

Definition launchTasks (offerIds : list string) (tasks : list TaskInfo) (filters : Filters) (s : State) :
    outcome State :=
  if negb (connected s) then
    ofold (fun s task => lose_task (ti_task_id task) "Master Disconnected" s) tasks s
  else
    let! r := launch_loop tasks [] s in
    let '(result, s) := r in
    CHECK_master s ;;!
    sendMessage (LaunchTasks (fw_id_value (framework s)) offerIds result filters) s.

Definition acceptOffers (offerIds : list string) (operations : list OfferOperation) (filters : Filters)
    (s : State) : outcome State :=
  ofold (fun s operation =>
    match operation with
    | OpLaunch tasks => launchTasks offerIds tasks filters s
    | OpOther _ => Ret s
    end) operations s.

Definition acknowledgeStatusUpdate (st : TaskStatus) (s : State) : outcome State :=
  if negb (connected s) then Ret s
  else
    CHECK_master s ;;!
    match ts_uuid st, ts_slave_id st with
    | Some uuid, Some slave =>
        sendMessage (StatusUpdateAcknowledgement (fw_id_value (framework s)) slave (ts_task_id st) uuid) s
    | _, _ => Ret s
    end.

(** [checkReconcile], which arms its timer again. *)
Definition checkReconcile (s : State) : outcome State :=
  let staging := List.filter (fun kv => bool_decide (kv.2 = TASK_STAGING)) (map_to_list (activeTasks s)) in
  let statuses := map (fun kv => mkTaskStatus kv.1 TASK_STAGING None None None) staging in
  let! s := if (0 <? length statuses)%nat then reconcileTasks statuses s else Ret s in
  Ret (set_reconcileTimers (S (reconcileTimers s)) s).

(** ** The driver *)

(** [if (status == DRIVER_RUNNING) { CHECK(process != NULL); ... }] *)
Definition when_running (body : State -> outcome State) (s : State) : outcome State :=
  if bool_decide (status s = DRIVER_RUNNING) then CHECK (process s) "process != NULL" ;;! body s else Ret s.

Definition driver_start (s : State) : outcome State :=
  if negb (bool_decide (status s = DRIVER_NOT_STARTED)) then
    let! s := if bool_decide (status s = DRIVER_STOPPED) then
                CHECK (process s) "process dereferenced" ;;! Ret (startRegistration s)
              else Ret s in
    Ret (set_status DRIVER_RUNNING s)
  else
    CHECK (negb (process s)) "process == NULL" ;;!
    Ret (set_status DRIVER_RUNNING (startRegistration (new_process s))).

Definition driver_stop (failover : bool) (s : State) : outcome State :=
  if bool_decide (status s = DRIVER_RUNNING) || bool_decide (status s = DRIVER_ABORTED) then
    CHECK (process s) "process dereferenced" ;;!
    let! s := stop failover s in Ret (set_status DRIVER_STOPPED s)
  else Ret s.

Definition driver_abort (s : State) : outcome State :=
  when_running (fun s => let! s := abort s in Ret (set_status DRIVER_ABORTED s)) s.

(** The status [stop] returns, from the states before and after it. *)
Definition driver_stop_result (before after : State) : Status :=
  if bool_decide (status before = DRIVER_ABORTED) then DRIVER_ABORTED else status after.

(** [MesosSchedulerDriver::join]: none while it waits. *)
Definition driver_join (s : State) : option Status :=
  if bool_decide (status s = DRIVER_RUNNING) then None else Some (status s).

(** [MesosSchedulerDriver::run]: starts the driver and joins it. *)
Definition driver_run (s : State) : outcome (State * option Status) :=
  let! s := driver_start s in
  Ret (s, if negb (bool_decide (status s = DRIVER_RUNNING)) then Some (status s) else driver_join s).

Definition driver_call (c : Call) (s : State) : outcome State :=
  match c with
  | DStart => driver_start s
  | DStop f => driver_stop f s
  | DAbort => driver_abort s
  | DKillTask t => when_running (killTask t) s
  | DLaunchTasks o t f => when_running (launchTasks o t f) s
  | DAcceptOffers o ops f => when_running (acceptOffers o ops f) s
  | DDeclineOffer o f => when_running (launchTasks [o] [] f) s
  | DReviveOffers => when_running reviveOffers s
  | DSuppressOffers => when_running (fun s => Ret s) s
  | DAcknowledgeStatusUpdate st => when_running (acknowledgeStatusUpdate st) s
  | DSendFrameworkMessage e sl d => when_running (sendFrameworkMessage e sl d) s
  | DReconcileTasks sts => when_running (reconcileTasks sts) s
  | DRequestResources rs => when_running (requestResources rs) s
  end.

(** [error]: aborts the driver, then reports. *)
Definition error (message : string) (s : State) : outcome State :=
  if aborted s then Ret s
  else let! s := driver_abort s in callback (CbError message) s.

(** ** Messages from the broker *)

Inductive Messages :=
| FRAMEWORK_REGISTERED | FRAMEWORK_REREGISTERED | RESOURCE_OFFERS | RESCIND_RESOURCE_OFFER
| STATUS_UPDATE | LOST_SLAVE | EXECUTOR_TO_FRAMEWORK | FRAMEWORK_ERROR | SERVICE_DISCONNECTED.

#[export] Instance Messages_eq_dec : EqDecision Messages.
Proof. solve_decision. Defined.

Definition messages_ : list (string * Messages) :=
  [("FrameworkRegisteredMessage", FRAMEWORK_REGISTERED);
   ("FrameworkReregisteredMessage", FRAMEWORK_REREGISTERED);
   ("ResourceOffersMessage", RESOURCE_OFFERS);
   ("ExecutorToFrameworkMessage", EXECUTOR_TO_FRAMEWORK);
   ("StatusUpdateMessage", STATUS_UPDATE);
   ("RescindResourceOfferMessage", RESCIND_RESOURCE_OFFER);
   ("LostSlaveMessage", LOST_SLAVE);
   ("FrameworkErrorMessage", FRAMEWORK_ERROR);
   ("ServiceDisconnectedMessage", SERVICE_DISCONNECTED)].

Fixpoint find_target (target : string) (l : list (string * Messages)) : option Messages :=
  match l with
  | [] => None
  | (t, m) :: rest => if String.eqb target t then Some m else find_target target rest
  end.

(** [SchedulerNotifyCallback::onInput] *)
Definition onInput (i : Incoming) (s : State) : outcome State :=
  match i with
  | BrokerError => Ret (startRegistration (set_connected false s))
  | Incoming_message target p =>
      match find_target target messages_ with
      | None => Ret s
      | Some FRAMEWORK_REGISTERED => registered (master s) (in_framework_id p) (in_master_info p) s
      | Some FRAMEWORK_REREGISTERED => reregistered (master s) (in_framework_id p) (in_master_info p) s
      | Some FRAMEWORK_ERROR => error (in_error p) s
      | Some LOST_SLAVE => lostSlave (master s) (in_slave_id p) s
      | Some RESCIND_RESOURCE_OFFER => rescindOffer (master s) (in_offer_id p) s
      | Some RESOURCE_OFFERS => resourceOffers (master s) (in_offers p) s
      | Some EXECUTOR_TO_FRAMEWORK => frameworkMessage (in_slave_id p) (in_executor_id p) (in_data p) s
      | Some STATUS_UPDATE => statusUpdate (master s) (in_update p) s
      | Some SERVICE_DISCONNECTED => sendMessage (ReregisterFramework (framework s) (failover s)) s
      end
  end.

End Process.
