(* ===== verification/SchedulerSafety.v ===== *)
(** * Safety of the scheduler driver

    The whole system (driver, process, timers, the framework's scheduler with
    the calls it makes from callbacks) as a step function on inputs, its
    reachable states, and the invariant that makes the assertions of the
    process hold. *)
From S2P Require Import Prelude Contract Values Platform Resource Scheduler.

(** ** The system *)

Inductive Input :=
| ICall (c : Call)                    (** the application calls the driver *)
| IMessage (i : Incoming)             (** the broker delivers a message *)
| IRegistration (broker_ok : bool)    (** a registration timer fires *)
| IReconcile.                         (** a reconcile timer fires *)

Section System.
  Context (new_uuid : nat -> string) (now : nat -> Z) (job_submit_options : option string).
  (** The driver calls the framework's scheduler makes from a callback. *)
  Context (reacts : Callback -> list Call).
  (** How the model fails when callbacks nest more deeply than it follows. *)
  Context (nested : string).

(** Runs a callback and the driver calls it makes, up to a nesting depth. *)
Fixpoint run_callback (depth : nat) (c : Callback) (s : State) : outcome State :=
  let s := emit (Called c) s in
  match depth with
  | O => match reacts c with [] => Ret s | _ :: _ => Fatal nested end
  | S depth' => ofold (fun s call => driver_call new_uuid now (run_callback depth') call s) (reacts c) s
  end.

(** A message can only arrive once the channel's callback is registered, and a
    timer only fires if it is pending. *)
Definition step (depth : nat) (i : Input) (s : State) : outcome State :=
  match i with
  | ICall c => driver_call new_uuid now (run_callback depth) c s
  | IMessage m => if channelsCreated s then onInput (run_callback depth) m s else Ret s
  | IRegistration broker_ok =>
      match registrationTimers s with
      | O => Ret s
      | S n => doReliableRegistration job_submit_options broker_ok (set_registrationTimers n s)
      end
  | IReconcile =>
      match reconcileTimers s with
      | O => Ret s
      | S n => checkReconcile (set_reconcileTimers n s)
      end
  end.

Inductive reachable (f : FrameworkInfo) (m : string) : State -> Prop :=
| reach_init : reachable f m (new_driver f m)
| reach_step depth i s s' : reachable f m s -> step depth i s = Ret s' -> reachable f m s'.

(** ** The invariant *)

Record Inv (s : State) : Prop := {
  inv_process : process s = negb (bool_decide (status s = DRIVER_NOT_STARTED));
  inv_channel_process : channelsCreated s = true -> process s = true;
  inv_channel_master : channelsCreated s = true -> master s <> "";
  inv_connected : connected s = true -> channelsCreated s = true;
  inv_aborted : aborted s = true -> channelsCreated s = true;
  inv_exclusive : connected s = true -> aborted s = false;
  inv_timers : registrationTimers s <> O -> process s = true;
}.

(** What an operation may not undo. *)
Record ext (s s' : State) : Prop := {
  ext_framework : framework s' = framework s;
  ext_master : master s' = master s;
  ext_channel : channelsCreated s = true -> channelsCreated s' = true;
  ext_trace : trace s `prefix_of` trace s';
}.

Lemma ext_refl s : ext s s.
Proof. by split. Qed.

Lemma ext_trans s1 s2 s3 : ext s1 s2 -> ext s2 s3 -> ext s1 s3.
Proof. intros [A1 A2 A3 A4] [B1 B2 B3 B4]. split; [congruence|congruence|auto|by etrans]. Qed.

(** The process is armed once its notify channel exists. *)
#[export] Instance scheduler_contract : Contract State := {|
  c_inv := Inv; c_ext := ext; c_armed := channelsCreated;
  c_refl := ext_refl; c_trans := ext_trans; c_mono s s' E := ext_channel s s' E;
|}.

#[local] Abbreviation good := (Contract.good nested).

(** Rewriting the fields an operation does not touch. *)
Ltac frame := split; cbn; try done; auto; try (by intros; congruence); try (by eexists).

Lemma Inv_emit e s : Inv s -> Inv (emit e s).
Proof. intros [H1 H2 H3 H4 H5 H6 H7]. by split. Qed.

Lemma ext_emit e s : ext s (emit e s).
Proof. split; cbn; try done. by exists [e]. Qed.

Lemma good_send m s : Inv s -> good s (sendMessage m s).
Proof.
  intros Hs. apply good_check; [done|]. apply good_ret; [by apply Inv_emit|apply ext_emit].
Qed.

Lemma good_master s k : Inv s -> good s k -> good s (CHECK_master s ;;! k).
Proof.
  intros Hs Hk. unfold CHECK_master. apply good_check; [|done].
  intros Hc. apply negb_true_iff, String.eqb_neq. by apply Hs.
Qed.

Create HintDb sched.
#[local] Hint Resolve good_id good_send good_master good_check good_ret ext_refl : sched.

Lemma good_send_connected m s : Inv s -> good s (send_connected m s).
Proof. intros Hs. unfold send_connected. destruct (connected s); cbn; auto with sched. Qed.

Lemma good_stop f s : Inv s -> good s (stop f s).
Proof.
  intros Hs. unfold stop. destruct (connected s && negb f); auto with sched.
  apply good_master; [done|]. apply good_bind; [by apply good_send|].
  intros s' [] _. apply good_ret; frame.
Qed.

Lemma good_abort s : Inv s -> good s (abort s).
Proof.
  intros Hs. unfold abort. destruct (connected s) eqn:Ec; cbn [negb]; auto with sched.
  apply good_master; [done|]. unfold sendMessage.
  rewrite (inv_connected _ Hs Ec). cbn. split.
  - destruct Hs as [H1 H2 H3 H4 H5 H6 H7]. split; cbn; auto; done.
  - split; cbn; try done. by eexists.
Qed.

Section Callbacks.
  Context (callback : Callback -> State -> outcome State).
  Hypothesis callback_good : forall c s, Inv s -> good s (callback c s).

Lemma good_registered from fid mi s : Inv s -> channelsCreated s = true ->
  match registered callback from fid mi s with
  | Ret s' => Inv s'
  | Fatal w => w = nested
  end.
Proof.
  intros Hs Hc. unfold registered.
  destruct (aborted s) eqn:Ea; [done|]. destruct (connected s) eqn:Eco; [done|].
  destruct (negb _); [done|]. unfold startHeartbeat. cbn. rewrite Hc. cbn.
  set (s1 := set_heartbeat _ _).
  assert (H1 : Inv s1) by (destruct Hs; split; cbn; auto).
  pose proof (callback_good (CbRegistered fid mi) s1 H1) as Hg.
  destruct (callback _ s1); cbn in Hg; [apply Hg|by apply Hg].
Qed.

Lemma good_reregistered from fid mi s : Inv s -> channelsCreated s = true ->
  fw_id_value (framework s) = fid ->
  match reregistered callback from fid mi s with
  | Ret s' => Inv s'
  | Fatal w => w = nested
  end.
Proof.
  intros Hs Hc Hid. unfold reregistered.
  destruct (aborted s) eqn:Ea; [done|]. destruct (connected s) eqn:Eco; [done|].
  destruct (negb _); [done|]. rewrite Hid, String.eqb_refl. unfold startHeartbeat. cbn. rewrite Hc. cbn.
  set (s1 := set_heartbeat _ _).
  assert (H1 : Inv s1) by (destruct Hs; split; cbn; auto).
  pose proof (callback_good (CbReregistered mi) s1 H1) as Hg.
  destruct (callback _ s1); cbn in Hg; [apply Hg|by apply Hg].
Qed.

Lemma good_from_master from s body : Inv s -> good s body -> good s (from_master from s body).
Proof.
  intros Hs Hb. unfold from_master. destruct (aborted s), (connected s); cbn; auto with sched.
  apply good_master; [done|]. destruct (negb _); auto with sched.
Qed.

Lemma good_ack u s : Inv s -> good s (statusUpdateAcknowledgement u s).
Proof. intros Hs. unfold statusUpdateAcknowledgement. destruct (aborted s); auto with sched. Qed.

Lemma good_track st s : Inv s -> good s (Ret (track_task st s)).
Proof. intros Hs. unfold track_task. destruct (removes_task _), Hs; apply good_ret; frame. Qed.

Lemma good_statusUpdate from u s : Inv s -> su_framework_id u = fw_id_value (framework s) ->
  good s (statusUpdate callback from u s).
Proof.
  intros Hs Hid. unfold statusUpdate. destruct (aborted s); auto with sched.
  set (deliver := CHECK _ _ ;;! _).
  assert (Hd : good s deliver).
  { unfold deliver. rewrite Hid, String.eqb_refl. cbn [CHECK obind].
    apply good_bind; [by apply callback_good|]. intros s1 Hs1 _.
    apply good_bind; [by apply good_ack|]. intros s2 Hs2 _. by apply good_track. }
  destruct (negb (String.eqb from "")); [|done]. destruct (connected s); cbn [negb]; auto with sched.
  apply good_master; [done|]. destruct (negb _); auto with sched.
Qed.

Lemma good_lose_task t m s : Inv s -> good s (lose_task new_uuid now callback t m s).
Proof.
  intros Hs. unfold lose_task. set (s1 := set_clock _ _).
  assert (H1 : Inv s1) by (destruct Hs; by split).
  assert (E1 : ext s s1) by (by split).
  pose proof (good_statusUpdate "" (mkStatusUpdate (fw_id_value (framework s)) None
    (mkTaskStatus t TASK_LOST (Some m) None None) (now (clock s)) (new_uuid (clock s))) s1 H1 eq_refl) as Hg.
  destruct (statusUpdate _ _ _ s1); cbn in *; [|done].
  destruct Hg as [? ?]. split; [done|]. by eapply ext_trans.
Qed.

Lemma good_stage t s : Inv s ->
  let s' := set_activeTasks (<[t := TASK_STAGING]> (activeTasks s)) s in Inv s' /\ ext s s'.
Proof. intros []. split; [by split|by split]. Qed.

(** The loop of [launchTasks]: as [good], with the collected tasks. *)
Definition good_pair (s : State) (c : outcome (list TaskInfo * State)) : Prop :=
  match c with
  | Ret (_, s') => Inv s' /\ ext s s'
  | Fatal w => channelsCreated s = true -> w = nested
  end.

Lemma good_pair_ext s s1 c : ext s s1 -> good_pair s1 c -> good_pair s c.
Proof.
  intros E. destruct c as [[l s2]|w]; cbn; [|by intros H Hc; apply H, E].
  intros [H1 H2]. split; [done|]. by eapply ext_trans.
Qed.

Lemma good_pair_bind s c k : good s c -> (forall s', Inv s' -> good_pair s' (k s')) ->
  good_pair s (obind c k).
Proof.
  destruct c as [s1|w]; cbn; [|done]. intros [H1 H2] Hk. by apply (good_pair_ext s s1), Hk.
Qed.

Lemma good_launch_loop tasks : forall result s, Inv s ->
  good_pair s (launch_loop new_uuid now callback tasks result s).
Proof.
  induction tasks as [|t tasks IH]; intros result s Hs; cbn [launch_loop].
  { split; [done|apply ext_refl]. }
  assert (Hstage : forall r, good_pair s (launch_loop new_uuid now callback tasks r
     (set_activeTasks (<[ti_task_id t := TASK_STAGING]> (activeTasks s)) s))).
  { intros r. destruct (good_stage (ti_task_id t) s Hs) as [H1 H2].
    eapply good_pair_ext; [exact H2|]. by apply IH. }
  destruct (Bool.eqb _ _).
  { apply good_pair_bind; [by apply good_lose_task|]. auto. }
  destruct (ti_executor t) as [[eid [id|]]|]; auto.
  destruct (negb _); auto. apply good_pair_bind; [by apply good_lose_task|]. auto.
Qed.

Lemma good_launchTasks o t f s : Inv s -> good s (launchTasks new_uuid now callback o t f s).
Proof.
  intros Hs. unfold launchTasks. destruct (connected s); cbn [negb].
  - pose proof (good_launch_loop t [] s Hs) as Hg.
    destruct (launch_loop _ _ _ t [] s) as [[r s1]|w]; cbn in *; [|done].
    destruct Hg as [H1 H2].
    pose proof (good_master s1 _ H1 (good_send (LaunchTasks (fw_id_value (framework s1)) o r f) s1 H1)) as Hm.
    destruct (CHECK_master s1 ;;! _) as [s2|w]; cbn in *; [|by intros Hc; apply Hm, H2].
    destruct Hm as [H3 H4]. split; [done|]. by eapply ext_trans.
  - apply good_ofold; [|done]. intros s' a _ Hs'. by apply good_lose_task.
Qed.

Lemma good_acceptOffers o ops f s : Inv s -> good s (acceptOffers new_uuid now callback o ops f s).
Proof.
  intros Hs. apply good_ofold; [|done]. intros s' [ts|n] _ Hs'; [by apply good_launchTasks|by apply good_id].
Qed.

Lemma good_acknowledge st s : Inv s -> good s (acknowledgeStatusUpdate st s).
Proof.
  intros Hs. unfold acknowledgeStatusUpdate. destruct (connected s); cbn [negb]; auto with sched.
  apply good_master; [done|]. destruct (ts_uuid st), (ts_slave_id st); auto with sched.
Qed.

Lemma good_when_running body s : Inv s -> (forall s, Inv s -> good s (body s)) ->
  good s (when_running body s).
Proof.
  intros Hs Hb. unfold when_running. case_bool_decide as E; auto with sched.
  apply good_check; [|by apply Hb]. by apply Hs.
Qed.

Lemma Inv_not_started s : Inv s -> status s = DRIVER_NOT_STARTED ->
  process s = false /\ channelsCreated s = false /\ connected s = false /\ aborted s = false.
Proof.
  intros [H1 H2 H3 H4 H5 H6 H7] E. rewrite bool_decide_true in H1 by done. cbn in H1.
  assert (Hc : channelsCreated s = false) by (destruct (channelsCreated s); [rewrite H2 in H1|]; done).
  split_and!; try done; apply not_true_is_false; intros H; [specialize (H4 H)|specialize (H5 H)]; congruence.
Qed.

Lemma good_start s : Inv s -> good s (driver_start s).
Proof.
  intros Hs. unfold driver_start. case_bool_decide as E; cbn [negb].
  - destruct (Inv_not_started s Hs E) as (Hp & Hc & _ & _). rewrite Hp. cbn. split.
    + split; cbn; try done.
    + split; cbn; try done. intros; congruence.
  - assert (Hrun : forall s', Inv s' -> process s' = true -> Inv (set_status DRIVER_RUNNING s')).
    { intros s' [] Hp. split; cbn; auto. }
    assert (Hp : process s = true) by (rewrite (inv_process _ Hs), bool_decide_false; done).
    destruct (bool_decide (status s = DRIVER_STOPPED)); cbn.
    + rewrite Hp. cbn. split; [apply Hrun; [destruct Hs; by split|done]|by split].
    + split; [by apply Hrun|by split].
Qed.

Lemma good_driver_stop f s : Inv s -> good s (driver_stop f s).
Proof.
  intros Hs. unfold driver_stop. destruct (bool_decide _ || bool_decide _) eqn:E; auto with sched.
  assert (Hp : process s = true).
  { rewrite (inv_process _ Hs). apply orb_prop in E as [E%bool_decide_eq_true|E%bool_decide_eq_true];
      by rewrite E. }
  apply good_check; [done|].
  pose proof (good_stop f s Hs) as Hg. destruct (stop f s) as [s1|w] eqn:Es; cbn in *; [|done].
  destruct Hg as [H1 H2]. split; [|destruct H2; by split].
  assert (Hp1 : process s1 = true).
  { unfold stop, sendMessage in Es. destruct (connected s && negb f); [|by injection Es as <-].
    unfold CHECK_master in Es. destruct (negb _); cbn in Es; [|done].
    destruct (channelsCreated s); cbn in Es; [|done]. by injection Es as <-. }
  destruct H1. split; cbn; auto.
Qed.

Lemma abort_process s s' : abort s = Ret s' -> process s' = process s.
Proof.
  unfold abort, CHECK_master, sendMessage. destruct (negb (connected s)); [by intros [= <-]|].
  destruct (negb _); cbn; [|done]. destruct (channelsCreated s); cbn; [|done]. by intros [= <-].
Qed.

Lemma good_driver_abort s : Inv s -> good s (driver_abort s).
Proof.
  intros Hs. unfold driver_abort, when_running. case_bool_decide as E; auto with sched.
  assert (Hp : process s = true) by (rewrite (inv_process _ Hs), E; done).
  apply good_check; [done|].
  pose proof (good_abort s Hs) as Hg. destruct (abort s) as [s1|w] eqn:Ea; cbn in *; [|done].
  destruct Hg as [H1 H2]. apply abort_process in Ea. split; [|destruct H2; by split].
  destruct H1. split; cbn; auto. by rewrite Ea, Hp.
Qed.

Lemma good_driver_call c s : Inv s -> good s (driver_call new_uuid now callback c s).
Proof.
  intros Hs. destruct c; cbn [driver_call];
    first [by apply good_start | by apply good_driver_stop | by apply good_driver_abort
          | apply good_when_running; [done|]; intros s' Hs';
            first [by apply good_send_connected | by apply good_launchTasks | by apply good_acceptOffers
                  | by apply good_acknowledge | by apply good_id]].
Qed.

Lemma good_error m s : Inv s -> good s (error callback m s).
Proof.
  intros Hs. unfold error. destruct (aborted s); auto with sched.
  apply good_bind; [by apply good_driver_abort|]. intros s1 Hs1 _. by apply callback_good.
Qed.

End Callbacks.

(** Callbacks meet their contract, at every depth. *)
Lemma run_callback_good depth : forall c s, Inv s -> good s (run_callback depth c s).
Proof.
  induction depth as [|depth IH]; intros c s Hs; cbn [run_callback].
  - destruct (reacts c); [|done]. apply good_ret; [by apply Inv_emit|apply ext_emit].
  - pose proof (Inv_emit (Called c) s Hs) as H1.
    pose proof (good_ofold (fun s call => driver_call new_uuid now (run_callback depth) call s) (reacts c)
      (fun s a _ Hs => good_driver_call _ IH a s Hs) _ H1) as Hg.
    destruct (ofold _ _ _); cbn in *; [|done]. destruct Hg as [H2 H3]. split; [done|].
    eapply ext_trans; [apply ext_emit|done].
Qed.

(** Messages whose framework id is the one the process registered with. *)
Definition honest (s : State) (i : Input) : Prop :=
  match i with
  | IMessage (Incoming_message target p) =>
      (target = "StatusUpdateMessage" -> su_framework_id (in_update p) = fw_id_value (framework s)) /\
      (target = "FrameworkReregisteredMessage" -> in_framework_id p = fw_id_value (framework s))
  | _ => True
  end.

Definition safe (c : outcome State) : Prop :=
  match c with Ret s' => Inv s' | Fatal w => w = nested end.

Lemma good_safe s c : channelsCreated s = true -> good s c -> safe c.
Proof. exact (good_armed s c). Qed.

Lemma onInput_safe depth m s : Inv s -> channelsCreated s = true -> honest s (IMessage m) ->
  safe (onInput (run_callback depth) m s).
Proof.
  intros Hs Hc Hh. pose proof (run_callback_good depth) as Hcb. destruct m as [|target p]; cbn [onInput].
  { destruct Hs. split; cbn; auto. done. }
  destruct (find_target target messages_) as [k|] eqn:Ek; [|done].
  assert (Htarget : forall t, find_target t messages_ = Some k ->
    (k = STATUS_UPDATE -> t = "StatusUpdateMessage") /\
    (k = FRAMEWORK_REREGISTERED -> t = "FrameworkReregisteredMessage")).
  { clear. intros t. unfold messages_. cbn [find_target].
    repeat match goal with
    | |- context [String.eqb t ?x] => destruct (String.eqb_spec t x) as [->|]; [by intros [= <-]|]
    end. done. }
  destruct (Htarget target Ek) as [Ht1 Ht2]. destruct Hh as [Hh1 Hh2]. destruct k.
  - by apply good_registered.
  - apply good_reregistered; auto. symmetry. auto.
  - apply (good_safe s); [done|]. apply good_from_master; [done|]. by apply Hcb.
  - apply (good_safe s); [done|]. apply good_from_master; [done|]. by apply Hcb.
  - apply (good_safe s); [done|]. apply good_statusUpdate; auto.
  - set (s1 := set_savedSlavePids (delete (in_slave_id p) (savedSlavePids s)) s).
    assert (H1 : Inv s1) by (destruct Hs; by split).
    apply (good_safe s); [done|]. apply good_from_master; [done|].
    pose proof (Hcb (CbSlaveLost (in_slave_id p)) s1 H1) as Hg.
    fold s1. destruct (run_callback depth _ s1) as [s2|w]; cbn in *; [|done].
    destruct Hg as [? []]. split; [done|]. by split.
  - unfold frameworkMessage. destruct (aborted s); [done|]. apply (good_safe s); [done|]. by apply Hcb.
  - apply (good_safe s); [done|]. by apply good_error.
  - apply (good_safe s); [done|]. by apply good_send.
Qed.

Lemma registration_safe ok s : Inv s -> process s = true ->
  match doReliableRegistration job_submit_options ok s with Ret s' => Inv s' | Fatal _ => False end.
Proof.
  intros Hs Hp. unfold doReliableRegistration. destruct (connected s) eqn:Ec; [done|]. cbn [orb].
  destruct (String.eqb_spec (master s) "") as [|Hm]; [done|].
  destruct (aborted s) eqn:Ea; [destruct Hs; split; cbn; auto|].
  destruct ok; [|destruct Hs; by split].
  set (s1 := createChannels s).
  assert (H1 : Inv s1 /\ channelsCreated s1 = true).
  { unfold s1, createChannels. destruct (channelsCreated s) eqn:Ech; [done|].
    split; [|done]. destruct Hs. split; cbn; auto. }
  destruct H1 as [H1 Hc1]. unfold sendMessage. rewrite Hc1. cbn [CHECK obind].
  destruct (_ || failover s1); by apply Inv_emit.
Qed.

(** A foreign framework id is either ignored or fatal. *)
Lemma statusUpdate_foreign callback from u s : su_framework_id u <> fw_id_value (framework s) ->
  statusUpdate callback from u s = Ret s \/ exists w, statusUpdate callback from u s = Fatal w.
Proof.
  intros Hid. unfold statusUpdate.
  rewrite (proj2 (String.eqb_neq (fw_id_value (framework s)) (su_framework_id u))) by congruence. cbn [CHECK obind].
  destruct (aborted s); [by left|]. destruct (negb (String.eqb from "")); [|right; by eexists].
  destruct (negb (connected s)); [by left|]. unfold CHECK_master.
  destruct (negb (String.eqb (master s) "")); cbn; [|right; by eexists].
  destruct (negb _); [by left|right; by eexists].
Qed.

Lemma reregistered_foreign callback from fid mi s : fw_id_value (framework s) <> fid ->
  reregistered callback from fid mi s = Ret s \/ exists w, reregistered callback from fid mi s = Fatal w.
Proof.
  intros Hid. unfold reregistered.
  rewrite (proj2 (String.eqb_neq (fw_id_value (framework s)) fid)) by done. cbn [CHECK obind].
  destruct (aborted s); [by left|]. destruct (connected s); [by left|].
  destruct (negb (String.eqb (master s) from)); [by left|]. right. by eexists.
Qed.

(** Whatever a message says, a state it leads to satisfies the invariant. *)
Definition keeps (s : State) (c : outcome State) : Prop := forall s', c = Ret s' -> Inv s'.

Lemma statusUpdate_keeps depth from u s : Inv s -> keeps s (statusUpdate (run_callback depth) from u s).
Proof.
  intros Hs s' E. destruct (decide (su_framework_id u = fw_id_value (framework s))) as [Hid|Hid].
  - pose proof (good_statusUpdate _ (run_callback_good depth) from u s Hs Hid) as Hg. rewrite E in Hg. apply Hg.
  - destruct (statusUpdate_foreign (run_callback depth) from u s Hid) as [H|[w H]]; congruence.
Qed.

Lemma reregistered_keeps depth from fid mi s : Inv s -> channelsCreated s = true ->
  keeps s (reregistered (run_callback depth) from fid mi s).
Proof.
  intros Hs Hc s' E. destruct (decide (fw_id_value (framework s) = fid)) as [Hid|Hid].
  - pose proof (good_reregistered _ (run_callback_good depth) from fid mi s Hs Hc Hid) as Hg.
    by rewrite E in Hg.
  - destruct (reregistered_foreign (run_callback depth) from fid mi s Hid) as [H|[w H]]; congruence.
Qed.

Lemma onInput_keeps depth m s : Inv s -> channelsCreated s = true ->
  keeps s (onInput (run_callback depth) m s).
Proof.
  intros Hs Hc. destruct m as [|target p].
  { intros s' E. pose proof (onInput_safe depth BrokerError s Hs Hc I) as H. by rewrite E in H. }
  destruct (find_target target messages_) as [k|] eqn:Ek; cycle 1.
  { intros s' E. cbn [onInput] in E. rewrite Ek in E. by injection E as <-. }
  destruct (decide (k = STATUS_UPDATE)) as [->|N1].
  { cbn [onInput]. rewrite Ek. by apply statusUpdate_keeps. }
  destruct (decide (k = FRAMEWORK_REREGISTERED)) as [->|N2].
  { cbn [onInput]. rewrite Ek. by apply reregistered_keeps. }
  intros s' E. assert (Hh : honest s (IMessage (Incoming_message target p))).
  { split; intros ->; vm_compute in Ek; congruence. }
  pose proof (onInput_safe depth _ s Hs Hc Hh) as H. by rewrite E in H.
Qed.

Lemma reconcile_good s : Inv s -> good s (checkReconcile s).
Proof.
  intros Hs. unfold checkReconcile. apply good_bind.
  - destruct (0 <? _)%nat; [by apply good_send_connected|by apply good_id].
  - intros s1 [] _. apply good_ret; by split.
Qed.

Lemma step_inv depth i s s' : Inv s -> step depth i s = Ret s' -> Inv s'.
Proof.
  intros Hs. destruct i as [c|m|ok|]; cbn [step].
  - intros E. pose proof (good_driver_call _ (run_callback_good depth) c s Hs) as Hg. rewrite E in Hg. apply Hg.
  - destruct (channelsCreated s) eqn:Ec; [|by intros [= <-]]. by apply onInput_keeps.
  - destruct (registrationTimers s) as [|n] eqn:Et; [by intros [= <-]|]. intros E.
    assert (Hp : process s = true) by (apply (inv_timers _ Hs); by rewrite Et).
    pose proof (registration_safe ok (set_registrationTimers n s)) as H. rewrite E in H. apply H; [|done].
    destruct Hs. by split.
  - destruct (reconcileTimers s) as [|n]; [by intros [= <-]|]. intros E.
    assert (H1 : Inv (set_reconcileTimers n s)) by (destruct Hs; by split).
    pose proof (reconcile_good _ H1) as Hg. rewrite E in Hg. apply Hg.
Qed.

Lemma new_driver_inv f m : Inv (new_driver f m).
Proof. split; cbn; done. Qed.

Lemma reachable_Inv f m s : reachable f m s -> Inv s.
Proof. induction 1 as [|depth i s s' _ IH E]; [apply new_driver_inv|by eapply step_inv]. Qed.

Lemma step_no_abort depth i s : Inv s -> channelsCreated s = true -> honest s i -> safe (step depth i s).
Proof.
  intros Hs Hc Hh. destruct i as [c|m|ok|]; cbn [step].
  - apply (good_safe s); [done|]. apply good_driver_call; [apply run_callback_good|done].
  - rewrite Hc. by apply onInput_safe.
  - destruct (registrationTimers s) as [|n]; [done|].
    pose proof (inv_channel_process _ Hs Hc) as Hp.
    assert (H1 : Inv (set_registrationTimers n s)) by (destruct Hs; by split).
    pose proof (registration_safe ok _ H1 Hp) as H.
    by destruct (doReliableRegistration _ _ _).
  - destruct (reconcileTimers s) as [|n]; [done|].
    assert (H1 : Inv (set_reconcileTimers n s)) by (destruct Hs; by split).
    apply (good_safe (set_reconcileTimers n s)); [done|]. by apply reconcile_good.
Qed.

End System.
