(* ===== verification/SchedulerProperties.v ===== *)
(** * What the scheduler driver guarantees

    The properties of the system of [SchedulerSafety]: its invariant and the
    assertions it discharges, the fate of status updates, of the tasks to
    launch, and of an aborted driver. *)
From Stdlib Require Import FunctionalExtensionality.
From S2P Require Import Prelude Contract Values Platform Resource Scheduler SchedulerSafety.

(** ** Frameworks whose callbacks do not nest *)

(** A driver call that runs no callback itself. *)
Definition calm (c : Call) : bool :=
  match c with
  | DLaunchTasks _ _ _ | DAcceptOffers _ _ _ => false
  | _ => true
  end.

Section Guarantees.
  Context (new_uuid : nat -> string) (now : nat -> Z) (job_submit_options : option string).
  Context (reacts : Callback -> list Call).

Lemma calm_driver_call cb cb' c s : calm c = true ->
  driver_call new_uuid now cb c s = driver_call new_uuid now cb' c s.
Proof. by destruct c. Qed.

Lemma calm_ofold cb cb' l : Forall (fun c => calm c = true) l -> forall s,
  ofold (fun s c => driver_call new_uuid now cb c s) l s =
  ofold (fun s c => driver_call new_uuid now cb' c s) l s.
Proof.
  induction 1 as [|c l Hc _ IH]; intros s; cbn [ofold]; [done|].
  rewrite (calm_driver_call cb cb') by done. destruct (driver_call _ _ _ c s); cbn; auto.
Qed.

(** With such a framework the depth limit is never reached, so it cannot be
    seen in the result. *)
Lemma calm_run_callback depth W W' : (forall c, Forall (fun c => calm c = true) (reacts c)) ->
  run_callback new_uuid now reacts W (S depth) = run_callback new_uuid now reacts W' (S depth).
Proof.
  intros Hc. extensionality c. extensionality s. cbn [run_callback]. by apply calm_ofold.
Qed.

Lemma calm_step W W' depth i s :
  (forall c, Forall (fun c => calm c = true) (reacts c)) -> (forall c, i = ICall c -> calm c = true) ->
  step new_uuid now job_submit_options reacts W (S depth) i s =
  step new_uuid now job_submit_options reacts W' (S depth) i s.
Proof.
  intros Hc Hi. destruct i as [c|m|ok|]; cbn [step]; [|by rewrite (calm_run_callback depth W W' Hc)|done|done].
  apply calm_driver_call. auto.
Qed.

(** C8: in every state the driver can reach, whatever the application, the
    framework's callbacks and the broker do: the process exists unless the
    driver was never started, a connected or an aborted process has a notify
    channel and a master, it is never both connected and aborted, and no
    registration timer is pending without a process. *)
Theorem scheduler_invariant W f m s :
  reachable new_uuid now job_submit_options reacts W f m s -> Inv s.
Proof. apply reachable_Inv. Qed.


(** ** Status updates *)

Definition ack_of (s : State) (u : StatusUpdate) : OutMessage :=
  StatusUpdateAcknowledgement (fw_id_value (framework s))
    (match su_slave_id u with Some v => v | None => default "" (ts_slave_id (su_status u)) end)
    (ts_task_id (su_status u)) (su_uuid u).

(** A callback is made once, and what it does comes after it. *)
Lemma run_callback_called W depth c s s' : Inv s -> run_callback new_uuid now reacts W depth c s = Ret s' ->
  Inv s' /\ ext (emit (Called c) s) s'.
Proof.
  intros Hs E. pose proof (Inv_emit (Called c) s Hs) as H1. destruct depth as [|depth]; cbn [run_callback] in E.
  - destruct (reacts c); [|done]. injection E as <-. split; [done|apply ext_refl].
  - pose proof (good_ofold (nested := W) (fun s call => driver_call new_uuid now (run_callback new_uuid now reacts W depth) call s)
      (reacts c) (fun s a _ Hs => good_driver_call _ _ _ _ (run_callback_good _ _ _ _ depth) a s Hs) _ H1) as Hg.
    by rewrite E in Hg.
Qed.

(** The states that mesos.proto documents as those of a task that may still run;
    LOST is not among them: the task failed but can be rescheduled. *)
Definition still_runs (st : TaskState) : bool :=
  match st with
  | TASK_STAGING | TASK_STARTING | TASK_RUNNING | TASK_KILLING | TASK_UNREACHABLE | TASK_UNKNOWN => true
  | _ => false
  end.

(** The states an executor ends a task with, and the driver's own for a task
    it could not launch. *)
Definition ended (st : TaskState) : bool :=
  match st with
  | TASK_FINISHED | TASK_FAILED | TASK_KILLED | TASK_LOST => true
  | _ => false
  end.

(** The list of active tasks after an update. *)
Definition tracking (st : TaskStatus) (before after : gmap string TaskState) : Prop :=
  (forall id, id <> ts_task_id st -> after !! id = before !! id) /\
  (ended (ts_state st) = true -> after !! ts_task_id st = None) /\
  (still_runs (ts_state st) = true -> after !! ts_task_id st = Some (ts_state st)).

Lemma track_task_trace st s : trace (track_task st s) = trace s.
Proof. unfold track_task. by destruct (removes_task _). Qed.

Lemma track_task_tracking st s : tracking st (activeTasks s) (activeTasks (track_task st s)).
Proof.
  unfold tracking, track_task. destruct (ts_state st); cbn; split_and!; intros; try done;
    first [by rewrite lookup_delete_ne|by rewrite lookup_insert_ne|by rewrite lookup_delete_eq|by rewrite lookup_insert_eq].
Qed.


(** A task that is over for another reason keeps its entry. *)
Theorem over_but_tracked st s :
  ts_state st ∈ [TASK_ERROR; TASK_DROPPED; TASK_GONE; TASK_GONE_BY_OPERATOR] ->
  activeTasks (track_task st s) !! ts_task_id st = Some (ts_state st).
Proof.
  intros H. unfold track_task. destruct (ts_state st); cbn; try by rewrite lookup_insert_eq.
  all: repeat (apply elem_of_cons in H as [?|H]; [done|]); by apply not_elem_of_nil in H.
Qed.

(** ** Launching tasks *)

(** A framework whose callbacks make no driver calls. *)
Definition quiet : Callback -> State -> outcome State := run_callback new_uuid now (fun _ => []) "nested" 0.

(** Which tasks are launched: an executor or a command but not both, and no
    executor of another framework. *)
Definition accepts (f : FrameworkInfo) (t : TaskInfo) : bool :=
  xorb (has (ti_executor t)) (ti_command t) &&
  match ti_executor t with
  | Some (mkExecutorInfo _ (Some id)) => String.eqb id (fw_id_value f)
  | _ => true
  end.

Definition refusal (f : FrameworkInfo) (t : TaskInfo) : string :=
  if xorb (has (ti_executor t)) (ti_command t) then
    match ti_executor t with
    | Some (mkExecutorInfo _ (Some id)) =>
        "ExecutorInfo has an invalid FrameworkID (Actual: " +:+ id +:+ " vs Expected: " +:+ fw_id_value f +:+ ")"
    | _ => ""
    end
  else "TaskInfo must have either an 'executor' or a 'command'".

(** The framework is told that each of these tasks is lost, and each report is
    acknowledged. *)
Fixpoint loss_events (f : FrameworkInfo) (n : nat) (l : list (string * string)) : list Event :=
  match l with
  | [] => []
  | (id, msg) :: l =>
      Called (CbStatusUpdate (mkTaskStatus id TASK_LOST (Some msg) None None)) ::
      Sent (StatusUpdateAcknowledgement (fw_id_value f) "" id (new_uuid n)) :: loss_events f (S n) l
  end.

Definition refused (f : FrameworkInfo) (ts : list TaskInfo) : list (string * string) :=
  map (fun t => (ti_task_id t, refusal f t)) (List.filter (fun t => negb (accepts f t)) ts).

(** The tasks tracked after the loop. *)
Definition track_launch (f : FrameworkInfo) (tasks : gmap string TaskState) (ts : list TaskInfo) :=
  foldl (fun m t => if accepts f t then <[ti_task_id t := TASK_STAGING]> m else delete (ti_task_id t) m) tasks ts.

(** A report of a lost task by a quiet framework. *)
Lemma quiet_lose_task id msg s : aborted s = false -> channelsCreated s = true ->
  lose_task new_uuid now quiet id msg s = Ret (set_activeTasks (delete id (activeTasks s))
    (emit (Sent (StatusUpdateAcknowledgement (fw_id_value (framework s)) "" id (new_uuid (clock s))))
    (emit (Called (CbStatusUpdate (mkTaskStatus id TASK_LOST (Some msg) None None)))
    (set_clock (S (clock s)) s)))).
Proof.
  intros Ha Hc. unfold lose_task, statusUpdate. cbn. rewrite Ha, String.eqb_refl. cbn.
  unfold statusUpdateAcknowledgement. cbn. rewrite Ha. unfold sendMessage. cbn. by rewrite Hc.
Qed.

Lemma launch_loop_task t rest r s : launch_loop new_uuid now quiet (t :: rest) r s =
  if accepts (framework s) t then
    launch_loop new_uuid now quiet rest (r ++ [launch_copy (framework s) t])
      (set_activeTasks (<[ti_task_id t := TASK_STAGING]> (activeTasks s)) s)
  else let! s' := lose_task new_uuid now quiet (ti_task_id t) (refusal (framework s) t) s in
       launch_loop new_uuid now quiet rest r s'.
Proof.
  cbn [launch_loop]. unfold accepts, refusal.
  destruct (ti_executor t) as [[eid [id|]]|], (ti_command t); cbn; try done.
  by destruct (String.eqb _ _).
Qed.

Lemma quiet_launch_loop ts : forall r s, aborted s = false -> channelsCreated s = true ->
  exists s', launch_loop new_uuid now quiet ts r s =
    Ret (r ++ map (launch_copy (framework s)) (List.filter (accepts (framework s)) ts), s') /\
  framework s' = framework s /\ master s' = master s /\ channelsCreated s' = true /\
  activeTasks s' = track_launch (framework s) (activeTasks s) ts /\
  trace s' = trace s ++ loss_events (framework s) (clock s) (refused (framework s) ts).
Proof.
  induction ts as [|t ts IH]; intros r s Ha Hc.
  { exists s. cbn. by rewrite !app_nil_r. }
  rewrite launch_loop_task. unfold refused. cbn [List.filter]. destruct (accepts (framework s) t) eqn:Et; cbn [negb].
  - destruct (IH (r ++ [launch_copy (framework s) t])
      (set_activeTasks (<[ti_task_id t := TASK_STAGING]> (activeTasks s)) s) Ha Hc) as (s' & E & H).
    exists s'. rewrite E. cbn in H |- *. rewrite Et, <- app_assoc. exact (conj eq_refl H).
  - rewrite quiet_lose_task by done. cbn [obind].
    match goal with |- context [launch_loop _ _ _ ts r ?s1] => destruct (IH r s1 Ha Hc) as (s' & E & H) end.
    exists s'. rewrite E. cbn in H |- *. rewrite Et. split; [done|].
    destruct H as (H1 & H2 & H3 & H4 & H5). split_and!; try done. by rewrite H5, <- !app_assoc.
Qed.

Lemma track_launch_other f ts : forall m id, id ∉ map ti_task_id ts -> track_launch f m ts !! id = m !! id.
Proof.
  induction ts as [|t ts IH]; intros m id Hid; [done|]. cbn in Hid. apply not_elem_of_cons in Hid as [H1 H2].
  unfold track_launch. cbn [foldl]. fold (track_launch f). setoid_rewrite IH; [|done].
  destruct (accepts f t); [by rewrite lookup_insert_ne|by rewrite lookup_delete_ne].
Qed.

Lemma track_launch_lookup f ts : forall m t, NoDup (map ti_task_id ts) -> t ∈ ts ->
  track_launch f m ts !! ti_task_id t = if accepts f t then Some TASK_STAGING else None.
Proof.
  induction ts as [|t' ts IH]; intros m t Hnd Ht; [by apply elem_of_nil in Ht|].
  cbn [map] in Hnd. apply NoDup_cons in Hnd as [Hni Hnd]. unfold track_launch. cbn [foldl].
  apply elem_of_cons in Ht as [->|Ht]; [|by apply IH].
  setoid_rewrite track_launch_other; [|done].
  destruct (accepts f t'); [by rewrite lookup_insert_eq|by rewrite lookup_delete_eq].
Qed.


Lemma quiet_disconnected ts : forall s, aborted s = false -> channelsCreated s = true ->
  exists s', ofold (fun s task => lose_task new_uuid now quiet (ti_task_id task) "Master Disconnected" s) ts s
      = Ret s' /\
    trace s' = trace s ++
      loss_events (framework s) (clock s) (map (fun t => (ti_task_id t, "Master Disconnected")) ts).
Proof.
  induction ts as [|t ts IH]; intros s Ha Hc; cbn [ofold].
  { exists s. cbn. by rewrite app_nil_r. }
  rewrite quiet_lose_task by done. cbn [obind].
  match goal with |- context [ofold _ ts ?s1] => destruct (IH s1 Ha Hc) as (s' & E & H) end.
  exists s'. split; [done|]. rewrite H. cbn. by rewrite <- !app_assoc.
Qed.

(** While disconnected, [launchTasks] reports every task lost and sends
    no launch message, provided the process has registered with the broker
    before; before that, a launch of any task writes to a channel that does
    not exist yet. *)
Theorem launch_disconnected offers ts filters s : connected s = false -> aborted s = false -> ts <> [] ->
  if channelsCreated s then
    exists s', launchTasks new_uuid now quiet offers ts filters s = Ret s' /\
      trace s' = trace s ++
        loss_events (framework s) (clock s) (map (fun t => (ti_task_id t, "Master Disconnected")) ts)
  else exists w, launchTasks new_uuid now quiet offers ts filters s = Fatal w.
Proof.
  intros Hc Ha Hts. unfold launchTasks. rewrite Hc. cbn [negb]. destruct (channelsCreated s) eqn:Hch.
  - by apply quiet_disconnected.
  - destruct ts as [|t ts]; [done|]. cbn [ofold]. unfold lose_task, statusUpdate. cbn. rewrite Ha, String.eqb_refl.
    cbn. unfold statusUpdateAcknowledgement. cbn. rewrite Ha. unfold sendMessage. cbn. rewrite Hch. cbn. by eexists.
Qed.

(** ** An aborted driver *)

(** The driver was aborted and not stopped since: whatever its status says,
    the process is aborted and no registration is pending. *)
Record deaf (s : State) : Prop := {
  deaf_aborted : aborted s = true;
  deaf_connected : connected s = false;
  deaf_timers : registrationTimers s = 0%nat;
  deaf_process : process s = true;
  deaf_status : status s = DRIVER_ABORTED \/ status s = DRIVER_RUNNING;
}.

(** Everything but stopping the driver, losing the broker and the broker's
    notice that the service is gone. *)
Definition ordinary (i : Input) : bool :=
  match i with
  | ICall (DStop _) => false
  | IMessage BrokerError => false
  | IMessage (Incoming_message t _) => negb (String.eqb t "ServiceDisconnectedMessage")
  | _ => true
  end.

Lemma deaf_lose_task cb id msg s : aborted s = true ->
  lose_task new_uuid now cb id msg s = Ret (set_clock (S (clock s)) s).
Proof. intros Ha. unfold lose_task, statusUpdate. cbn. by rewrite Ha. Qed.

Lemma deaf_losses cb msg ts : forall s, deaf s -> exists s',
  ofold (fun s task => lose_task new_uuid now cb (ti_task_id task) msg s) ts s = Ret s' /\
  deaf s' /\ trace s' = trace s.
Proof.
  induction ts as [|t ts IH]; intros s Hs; cbn [ofold]; [by exists s|].
  rewrite deaf_lose_task by apply Hs. cbn [obind].
  destruct (IH (set_clock (S (clock s)) s)) as (s' & E & H1 & H2); [by destruct Hs|]. by exists s'.
Qed.

Lemma deaf_launch cb o ts f s : deaf s -> exists s',
  launchTasks new_uuid now cb o ts f s = Ret s' /\ deaf s' /\ trace s' = trace s.
Proof. intros Hs. unfold launchTasks. rewrite (deaf_connected _ Hs). by apply deaf_losses. Qed.

Lemma deaf_accept cb o ops f : forall s, deaf s -> exists s',
  acceptOffers new_uuid now cb o ops f s = Ret s' /\ deaf s' /\ trace s' = trace s.
Proof.
  induction ops as [|[ts|n] ops IH]; intros s Hs.
  - by exists s.
  - destruct (deaf_launch cb o ts f s Hs) as (s1 & E1 & H1 & T1). destruct (IH s1 H1) as (s2 & E2 & H2 & T2).
    exists s2. unfold acceptOffers in *. cbn [ofold]. rewrite E1. cbn [obind]. split_and!; congruence.
  - destruct (IH s Hs) as (s2 & E2 & H2). by exists s2.
Qed.

Lemma deaf_send m s : deaf s -> send_connected m s = Ret s.
Proof. intros Hs. unfold send_connected. by rewrite (deaf_connected _ Hs). Qed.

Lemma deaf_driver_call cb c s : deaf s -> ordinary (ICall c) = true -> exists s',
  driver_call new_uuid now cb c s = Ret s' /\ deaf s' /\ trace s' = trace s.
Proof.
  intros Hs Ho.
  assert (Hrun : forall body, (exists s', body s = Ret s' /\ deaf s' /\ trace s' = trace s) ->
    exists s', when_running body s = Ret s' /\ deaf s' /\ trace s' = trace s).
  { intros body Hb. unfold when_running. case_bool_decide; [|by exists s]. by rewrite (deaf_process _ Hs). }
  destruct c; try done; cbn [driver_call];
    try (apply Hrun; first [by apply deaf_launch | by apply deaf_accept | exists s; split_and!; try done;
      first [by apply deaf_send | done | unfold acknowledgeStatusUpdate; by rewrite (deaf_connected _ Hs)]]).
  - exists (set_status DRIVER_RUNNING s). destruct Hs as [? ? ? ? [Es|Es]];
      unfold driver_start; rewrite Es; cbn; split_and!; try done; split; cbn; auto.
  - apply Hrun. unfold abort. rewrite (deaf_connected _ Hs). cbn. eexists. split_and!; [done| |done].
    destruct Hs. split; cbn; auto.
Qed.

Lemma find_service_disconnected t : find_target t messages_ = Some SERVICE_DISCONNECTED ->
  t = "ServiceDisconnectedMessage".
Proof.
  unfold messages_. cbn [find_target].
  repeat match goal with
  | |- context [String.eqb t ?x] => destruct (String.eqb_spec t x) as [->|]; [done|]
  end. done.
Qed.

Lemma deaf_message cb i s : deaf s -> ordinary (IMessage i) = true -> onInput cb i s = Ret s.
Proof.
  intros Hs Ho. destruct i as [|t p]; [done|]. cbn [onInput].
  destruct (find_target t messages_) as [k|] eqn:Ek; [|done].
  destruct k; cbn;
    try (unfold registered, reregistered, resourceOffers, rescindOffer, lostSlave, from_master, statusUpdate,
           frameworkMessage, error; by rewrite (deaf_aborted _ Hs)).
  by apply find_service_disconnected in Ek as ->.
Qed.

Lemma deaf_step W depth i s : deaf s -> ordinary i = true -> exists s',
  step new_uuid now job_submit_options reacts W depth i s = Ret s' /\ deaf s' /\ trace s' = trace s.
Proof.
  intros Hs Ho. destruct i as [c|i|ok|]; cbn [step].
  - by apply deaf_driver_call.
  - exists s. rewrite deaf_message by done. by destruct (channelsCreated s).
  - rewrite (deaf_timers _ Hs). by exists s.
  - destruct (reconcileTimers s) as [|n]; [by exists s|]. set (s1 := set_reconcileTimers n s).
    assert (H1 : deaf s1) by (by destruct Hs). unfold checkReconcile, reconcileTasks.
    rewrite deaf_send by done. destruct (0 <? _)%nat; cbn [obind]; eexists; (split_and!; [done| |done]); by destruct Hs.
Qed.

(** Once aborted and with no registration pending, the driver sends
    nothing and calls nothing back, whatever calls, timers and messages
    follow, until it is stopped or the broker reports a loss; starting it
    again only changes the status it reports. *)
Theorem aborted_stays_deaf W depth l s : deaf s -> Forall (fun i => ordinary i = true) l ->
  exists s', ofold (fun s i => step new_uuid now job_submit_options reacts W depth i s) l s = Ret s' /\
    deaf s' /\ trace s' = trace s.
Proof.
  intros Hs Hl. revert s Hs. induction Hl as [|i l Hi _ IH]; intros s Hs; cbn [ofold]; [by exists s|].
  destruct (deaf_step W depth i s Hs Hi) as (s1 & E1 & H1 & T1). rewrite E1. cbn [obind].
  destruct (IH s1 H1) as (s2 & E2 & H2 & T2). exists s2. split_and!; congruence.
Qed.

End Guarantees.

(** ** A concrete run *)

Definition demo_update : StatusUpdate :=
  mkStatusUpdate "f-1" (Some "s-1") (mkTaskStatus "t-1" TASK_FINISHED None (Some "s-1") (Some "u")) 7 "u".
Definition demo_payload : Payload :=
  mkPayload "f-1" "master" "boom" "s-1" "o-1" ["offer"] "e-1" "data" demo_update.
Definition demo_message (target : string) : Input := IMessage (Incoming_message target demo_payload).
Definition demo_uuid (_ : nat) : string := "u".
Definition demo_now (_ : nat) : Z := 7.
Definition demo_quiet (_ : Callback) : list Call := [].
(** A framework that aborts the driver when a task ends. *)
Definition demo_aborts (c : Callback) : list Call :=
  match c with CbStatusUpdate _ => [DAbort] | _ => [] end.

Definition demo_run (reacts : Callback -> list Call) (l : list Input) : outcome State :=
  ofold (fun s i => step demo_uuid demo_now None reacts "nested" 1 i s) l
    (new_driver (mkFramework "demo" None) "urb://localhost").

Definition demo_registered : list Input :=
  [ICall DStart; IRegistration true; demo_message "FrameworkRegisteredMessage"].

Definition demo_state (reacts : Callback -> list Call) (l : list Input) : State :=
  match demo_run reacts l with Ret s => s | Fatal _ => new_driver (mkFramework "demo" None) "urb://localhost" end.

Lemma ofold_reachable reacts l : forall s0 s,
  reachable demo_uuid demo_now None reacts "nested" (mkFramework "demo" None) "urb://localhost" s0 ->
  ofold (fun s i => step demo_uuid demo_now None reacts "nested" 1 i s) l s0 = Ret s ->
  reachable demo_uuid demo_now None reacts "nested" (mkFramework "demo" None) "urb://localhost" s.
Proof.
  induction l as [|i l IH]; intros s0 s Hr E; cbn [ofold] in E; [by injection E as <-|].
  destruct (step _ _ _ _ _ 1 i s0) as [s1|w] eqn:E1; [|done]. eapply IH; [|exact E]. by eapply reach_step.
Qed.

Lemma demo_state_reachable reacts l :
  reachable demo_uuid demo_now None reacts "nested" (mkFramework "demo" None) "urb://localhost"
    (demo_state reacts l).
Proof.
  unfold demo_state. destruct (demo_run reacts l) as [s|w] eqn:E; [|apply reach_init].
  eapply ofold_reachable; [apply reach_init|exact E].
Qed.

Lemma scheduler_invariant_witness :
  connected (demo_state demo_quiet demo_registered) = true /\ Inv (demo_state demo_quiet demo_registered).
Proof.
  split; [by vm_compute|].
  exact (scheduler_invariant _ _ _ _ _ _ _ _ (demo_state_reachable demo_quiet demo_registered)).
Defined.



(** A task with a command, one with an executor of the framework, one with
    neither and one with another framework's executor. *)
Definition demo_tasks : list TaskInfo :=
  [mkTaskInfo "a" "s-1" None true (Some []);
   mkTaskInfo "b" "s-1" (Some (mkExecutorInfo "e" None)) false None;
   mkTaskInfo "c" "s-1" None false None;
   mkTaskInfo "d" "s-1" (Some (mkExecutorInfo "e" (Some "other"))) false None].


Lemma launch_disconnected_witness :
  exists w, launchTasks demo_uuid demo_now (quiet demo_uuid demo_now) ["o-1"] demo_tasks ""
    (demo_state demo_quiet [ICall DStart]) = Fatal w.
Proof.
  exact (launch_disconnected demo_uuid demo_now ["o-1"] demo_tasks "" (demo_state demo_quiet [ICall DStart])
    ltac:(by vm_compute) ltac:(by vm_compute) ltac:(done)).
Defined.

Lemma aborted_stays_deaf_witness :
  exists s', ofold (fun s i => step demo_uuid demo_now None demo_quiet "nested" 1 i s)
      [ICall DStart; demo_message "ResourceOffersMessage"; ICall (DKillTask "t-1")]
      (demo_state demo_quiet (demo_registered ++ [ICall DAbort])) = Ret s' /\
    deaf s' /\ trace s' = trace (demo_state demo_quiet (demo_registered ++ [ICall DAbort])).
Proof.
  apply (aborted_stays_deaf demo_uuid demo_now None demo_quiet).
  - split; [by vm_compute|by vm_compute|by vm_compute|by vm_compute|left; by vm_compute].
  - repeat constructor.
Defined.
