(* ===== verification/Executor.v ===== *)
(** * The executor driver and its process (source/exec.cpp, source/executor_process.cpp)

    The driver guards its API by its status; the process registers with the
    service, runs and kills tasks through the framework's executor, and keeps
    the updates that have not been acknowledged and the tasks that have not
    finished, to send them again when it reconnects.  As for the scheduler,
    [callback] runs the framework's executor, [trace] records what was handed
    to the channel and which callbacks were made. *)
From Stdlib Require Import Ascii.
From S2P Require Import Prelude Values Platform Resource Scheduler.

(** ** Stout's [LinkedHashMap]: entries in insertion order, one per key. *)
Module LinkedHashMap.

Definition t (V : Type) : Type := list (string * V).

Definition get {V} (key : string) (m : t V) : option V :=
  snd <$> List.find (fun kv => String.eqb (fst kv) key) m.
Definition contains {V} (key : string) (m : t V) : bool :=
  existsb (fun kv => String.eqb (fst kv) key) m.
(** [m[key] = value]: an update in place, or a new entry at the end. *)
Definition set {V} (key : string) (value : V) (m : t V) : t V :=
  if contains key m then map (fun kv => if String.eqb (fst kv) key then (key, value) else kv) m
  else m ++ [(key, value)].
(** [m[key]] as a value: a missing key is added with the default value. *)
Definition index {V} (key : string) (dflt : V) (m : t V) : V * t V :=
  match get key m with
  | Some v => (v, m)
  | None => (dflt, m ++ [(key, dflt)])
  end.
Definition erase {V} (key : string) (m : t V) : t V :=
  List.filter (fun kv => negb (String.eqb (fst kv) key)) m.
Definition values {V} (m : t V) : list V := map snd m.

End LinkedHashMap.

(** ** Messages *)

Record ExecutorStatus := mkExecutorStatus {
  es_task_id : string;
  es_state : TaskState;
  es_message : option string;
  es_slave_id : option string;
  es_timestamp : option Z;
}.

Record ExecutorUpdate := mkExecutorUpdate {
  eu_framework_id : string;
  eu_executor_id : string;
  eu_slave_id : string;
  eu_status : ExecutorStatus;
  eu_timestamp : Z;
  eu_uuid : string;
}.

(** [StatusUpdate()]: an unset state reads as the first enumerator. *)
Definition default_update : ExecutorUpdate :=
  mkExecutorUpdate "" "" "" (mkExecutorStatus "" TASK_STAGING None None None) 0 "".

Inductive OutMessage :=
| RegisterExecutor (framework_id executor_id : string) (reply_to : option string)
| ReregisterExecutor (executor_id framework_id : string) (updates : list ExecutorUpdate)
    (tasks : list TaskInfo) (reply_to : option string)
| StatusUpdateMessage (update : ExecutorUpdate)
| ExecutorToFramework (slave_id framework_id executor_id data : string).

Inductive Callback :=
| CbRegistered (executor_info framework_info slave_info : string)
| CbReregistered (slave_info : string)
| CbLaunchTask (task : TaskInfo)
| CbKillTask (task_id : string)
| CbFrameworkMessage (data : string)
| CbShutdown
| CbError (message : string).

Inductive Event := Sent (m : OutMessage) | Called (c : Callback) | BrokerShutdown.

Inductive Call :=
| DStart
| DStop
| DAbort
| DSendStatusUpdate (status : ExecutorStatus)
| DSendFrameworkMessage (data : string).

(** What arrives on the notify channel. *)
Record Payload := mkPayload {
  in_executor_info : string;
  in_framework_info : string;
  in_slave_info : string;
  in_task : TaskInfo;
  in_task_id : string;
  in_uuid : string;
  in_data : string;
}.

(** ** State *)

Record State := mkState {
  status : Status;
  process : bool;
  channelsCreated : bool;
  frameworkId : string;
  executorId : string;
  slaveId : string;
  updates : LinkedHashMap.t ExecutorUpdate;
  tasks : LinkedHashMap.t TaskInfo;
  registrationTimers : nat;
  aborted : bool;
  connected : bool;
  heartbeat : bool;          (** the heartbeat payload is set *)
  killScheduled : bool;      (** a child process will kill this one *)
  clock : nat;
  trace : list Event;
}.

Definition set_status v s := mkState v (process s) (channelsCreated s) (frameworkId s) (executorId s)
  (slaveId s) (updates s) (tasks s) (registrationTimers s) (aborted s) (connected s) (heartbeat s)
  (killScheduled s) (clock s) (trace s).
Definition set_channels v s := mkState (status s) (process s) v (frameworkId s) (executorId s)
  (slaveId s) (updates s) (tasks s) (registrationTimers s) (aborted s) (connected s) (heartbeat s)
  (killScheduled s) (clock s) (trace s).
Definition set_updates v s := mkState (status s) (process s) (channelsCreated s) (frameworkId s)
  (executorId s) (slaveId s) v (tasks s) (registrationTimers s) (aborted s) (connected s) (heartbeat s)
  (killScheduled s) (clock s) (trace s).
Definition set_tasks v s := mkState (status s) (process s) (channelsCreated s) (frameworkId s)
  (executorId s) (slaveId s) (updates s) v (registrationTimers s) (aborted s) (connected s) (heartbeat s)
  (killScheduled s) (clock s) (trace s).
Definition set_registrationTimers v s := mkState (status s) (process s) (channelsCreated s) (frameworkId s)
  (executorId s) (slaveId s) (updates s) (tasks s) v (aborted s) (connected s) (heartbeat s)
  (killScheduled s) (clock s) (trace s).
Definition set_aborted v s := mkState (status s) (process s) (channelsCreated s) (frameworkId s)
  (executorId s) (slaveId s) (updates s) (tasks s) (registrationTimers s) v (connected s) (heartbeat s)
  (killScheduled s) (clock s) (trace s).
Definition set_connected v s := mkState (status s) (process s) (channelsCreated s) (frameworkId s)
  (executorId s) (slaveId s) (updates s) (tasks s) (registrationTimers s) (aborted s) v (heartbeat s)
  (killScheduled s) (clock s) (trace s).
Definition set_heartbeat v s := mkState (status s) (process s) (channelsCreated s) (frameworkId s)
  (executorId s) (slaveId s) (updates s) (tasks s) (registrationTimers s) (aborted s) (connected s) v
  (killScheduled s) (clock s) (trace s).
Definition set_killScheduled v s := mkState (status s) (process s) (channelsCreated s) (frameworkId s)
  (executorId s) (slaveId s) (updates s) (tasks s) (registrationTimers s) (aborted s) (connected s)
  (heartbeat s) v (clock s) (trace s).
Definition set_clock v s := mkState (status s) (process s) (channelsCreated s) (frameworkId s)
  (executorId s) (slaveId s) (updates s) (tasks s) (registrationTimers s) (aborted s) (connected s)
  (heartbeat s) (killScheduled s) v (trace s).
Definition emit e s := mkState (status s) (process s) (channelsCreated s) (frameworkId s)
  (executorId s) (slaveId s) (updates s) (tasks s) (registrationTimers s) (aborted s) (connected s)
  (heartbeat s) (killScheduled s) (clock s) (trace s ++ [e]).

(** The driver before [start]. *)
Definition new_driver : State :=
  mkState DRIVER_NOT_STARTED false false "" "" "" [] [] 0 false false false false 0 [].

(** The constructor [UrbExecutorProcess(...)]. *)
Definition new_process (framework executor slave : string) (s : State) : State :=
  mkState (status s) true false framework executor slave [] [] (registrationTimers s) false false false
    (killScheduled s) (clock s) (trace s).

(** [s.rfind(":")] and [s.substr(pos + 1)] *)
Fixpoint after_last_colon (s : string) : option string :=
  match s with
  | "" => None
  | String c rest =>
      match after_last_colon rest with
      | Some r => Some r
      | None => if Ascii.eqb c ":"%char then Some rest else None
      end
  end.

(** Reading memory as a C string: up to the first NUL. *)
Fixpoint as_c_string (s : string) : string :=
  match s with
  | "" => ""
  | String c rest => if Ascii.eqb c "000"%char then "" else String c (as_c_string rest)
  end.

Section Process.
  (** The bytes of the n-th [uuid_generate] with the memory that follows them,
      [time], and the environment. *)
  Context (uuid_memory : nat -> string) (now : nat -> Z).
  Context (urb_master urb_slave_id urb_framework_id urb_executor_id : option string).
  Context (callback : Callback -> State -> outcome State).

(** [sendMesosMessage] and the writes of the overloads of [sendMessage] *)
Definition sendMessage (m : OutMessage) (s : State) : outcome State :=
  CHECK (channelsCreated s) "pNotifyChannel_ is not initialised" ;;!
  Ret (emit (Sent m) s).

Definition startRegistration (s : State) : State := set_registrationTimers (S (registrationTimers s)) s.

Definition createChannels (s : State) : State := if channelsCreated s then s else set_channels true s.

(** [doReliableRegistration]; [broker_ok] is false if the broker throws, which it
    does before the channels exist: that it throws after is not followed. *)
Definition doReliableRegistration (broker_ok : bool) (s : State) : outcome State :=
  match urb_master with
  | None => Ret s
  | Some _ =>
      if broker_ok then
        let s := createChannels s in
        sendMessage (RegisterExecutor (frameworkId s) (executorId s) (after_last_colon (slaveId s))) s
      else Ret (startRegistration s)
  end.

Definition startHeartbeat (s : State) : outcome State :=
  CHECK (channelsCreated s) "pNotifyChannel_ is not initialised" ;;! Ret (set_heartbeat true s).

Definition registered (executorInfo frameworkInfo slaveInfo : string) (s : State) : outcome State :=
  if aborted s then Ret s
  else
    let! s := startHeartbeat (set_connected true s) in
    callback (CbRegistered executorInfo frameworkInfo slaveInfo) s.

Definition reregistered (slaveInfo : string) (s : State) : outcome State :=
  if aborted s then Ret s
  else
    let! s := startHeartbeat (set_connected true s) in
    callback (CbReregistered slaveInfo) s.

Definition reconnect (s : State) : outcome State :=
  if aborted s then Ret s
  else
    sendMessage (ReregisterExecutor (executorId s) (frameworkId s) (LinkedHashMap.values (updates s))
      (LinkedHashMap.values (tasks s)) (after_last_colon (slaveId s))) s.

Definition runTask (task : TaskInfo) (s : State) : outcome State :=
  if aborted s then Ret s
  else if negb (connected s) then Ret s
  else
    CHECK (negb (LinkedHashMap.contains (ti_task_id task) (tasks s))) "Unexpected duplicate task" ;;!
    callback (CbLaunchTask task) (set_tasks (LinkedHashMap.set (ti_task_id task) task (tasks s)) s).

Definition killTask (taskId : string) (s : State) : outcome State :=
  if aborted s then Ret s else callback (CbKillTask taskId) s.

Definition statusUpdateAcknowledgement (taskId uuid : string) (s : State) : outcome State :=
  if aborted s then Ret s
  else if negb (connected s) then Ret s
  else
    let '(update, m) := LinkedHashMap.index uuid default_update (updates s) in
    let eraseTasks := bool_decide (es_state (eu_status update) = TASK_FINISHED) in
    let s := set_updates (LinkedHashMap.erase uuid m) s in
    Ret (if eraseTasks then set_tasks (LinkedHashMap.erase taskId (tasks s)) s else s).

Definition frameworkMessage (data : string) (s : State) : outcome State :=
  if aborted s then Ret s
  else if negb (connected s) then Ret s
  else callback (CbFrameworkMessage data) s.

(** [shutdown]; [forked] is false if [fork] fails, which runs the parent's
    branch without a child that kills it. *)
Definition shutdown (forked : bool) (s : State) : outcome State :=
  if aborted s then Ret s
  else
    let! s := callback CbShutdown (set_killScheduled (forked || killScheduled s) s) in
    Ret (set_aborted true (emit BrokerShutdown s)).

Definition abort (s : State) : State := set_aborted true s.

(** [MesosExecutorDriver::abort] *)
Definition driver_abort (s : State) : outcome State :=
  if negb (bool_decide (status s = DRIVER_RUNNING)) then Ret s
  else CHECK (process s) "process != NULL" ;;! Ret (set_status DRIVER_ABORTED (abort s)).

(** The update [sendStatusUpdate] captures. *)
Definition make_update (st : ExecutorStatus) (s : State) : ExecutorUpdate :=
  mkExecutorUpdate (frameworkId s) (executorId s) (slaveId s)
    (mkExecutorStatus (es_task_id st) (es_state st) (es_message st) (Some (slaveId s)) (Some (now (clock s))))
    (now (clock s)) (as_c_string (uuid_memory (clock s))).

Definition sendStatusUpdate (st : ExecutorStatus) (s : State) : outcome State :=
  if bool_decide (es_state st = TASK_STAGING) then
    let! s := driver_abort s in
    callback (CbError "Attempted to send TASK_STAGING status update") s
  else
    let update := make_update st s in
    let s := set_clock (S (clock s)) s in
    let s := set_updates (LinkedHashMap.set (eu_uuid update) update (updates s)) s in
    sendMessage (StatusUpdateMessage update) s.

Definition sendFrameworkMessage (data : string) (s : State) : outcome State :=
  sendMessage (ExecutorToFramework (slaveId s) (frameworkId s) (executorId s) data) s.

(** ** The driver *)

(** [MesosExecutorDriver::start]: the process is created before the status is
    looked at. *)
Definition driver_start (s : State) : outcome State :=
  CHECK (negb (process s)) "process == NULL" ;;!
  let s := startRegistration
    (new_process (default "" urb_framework_id) (default "" urb_executor_id) (default "" urb_slave_id) s) in
  if negb (bool_decide (status s = DRIVER_NOT_STARTED)) then Ret s
  else Ret (set_status DRIVER_RUNNING s).

(** [MesosExecutorDriver::stop]: the state and the status it returns. *)
Definition driver_stop (s : State) : outcome (State * Status) :=
  if negb (bool_decide (status s = DRIVER_RUNNING)) && negb (bool_decide (status s = DRIVER_ABORTED))
  then Ret (s, status s)
  else
    CHECK (process s) "process != NULL" ;;!
    let wasAborted := bool_decide (status s = DRIVER_ABORTED) in
    Ret (set_status DRIVER_STOPPED s, if wasAborted then DRIVER_ABORTED else DRIVER_STOPPED).

(** [MesosExecutorDriver::join]: none while it waits. *)
Definition driver_join (s : State) : option Status :=
  if negb (bool_decide (status s = DRIVER_RUNNING)) then Some (status s) else None.

(** [MesosExecutorDriver::run] *)
Definition driver_run (s : State) : outcome (State * option Status) :=
  let! s := driver_start s in
  Ret (s, if negb (bool_decide (status s = DRIVER_RUNNING)) then Some (status s) else driver_join s).

Definition when_running (body : State -> outcome State) (s : State) : outcome State :=
  if negb (bool_decide (status s = DRIVER_RUNNING)) then Ret s
  else CHECK (process s) "process != NULL" ;;! body s.

Definition driver_call (c : Call) (s : State) : outcome State :=
  match c with
  | DStart => driver_start s
  | DStop => let! r := driver_stop s in Ret (fst r)
  | DAbort => driver_abort s
  | DSendStatusUpdate st => when_running (sendStatusUpdate st) s
  | DSendFrameworkMessage d => when_running (sendFrameworkMessage d) s
  end.

(** ** Messages from the broker *)

Inductive Messages :=
| EXECUTOR_REGISTERED | EXECUTOR_REREGISTERED | RECONNECT_EXECUTOR | RUN_TASK | KILL_TASK
| STATUS_UPDATE_ACKNOWLEDGE | FRAMEWORK_TO_EXECUTOR | SHUTDOWN_EXECUTOR | SERVICE_DISCONNECTED.

Definition messages : list (string * Messages) :=
  [("ExecutorRegisteredMessage", EXECUTOR_REGISTERED);
   ("RunTaskMessage", RUN_TASK);
   ("KillTaskMessage", KILL_TASK);
   ("FrameworkToExecutorMessage", FRAMEWORK_TO_EXECUTOR);
   ("ShutdownExecutorMessage", SHUTDOWN_EXECUTOR);
   ("ExecutorReregisteredMessage", EXECUTOR_REREGISTERED);
   ("ReconnectExecutorMessage", RECONNECT_EXECUTOR);
   ("ServiceDisconnectedMessage", SERVICE_DISCONNECTED);
   ("StatusUpdateAcknowledgementMessage", STATUS_UPDATE_ACKNOWLEDGE)].

Fixpoint find_message (target : string) (l : list (string * Messages)) : option Messages :=
  match l with
  | [] => None
  | (t, m) :: rest => if String.eqb target t then Some m else find_message target rest
  end.

(** [ExecutorNotifyCallback::onInput] *)
Definition onInput (target : string) (forked : bool) (p : Payload) (s : State) : outcome State :=
  match find_message target messages with
  | None => Ret s
  | Some EXECUTOR_REGISTERED => registered (in_executor_info p) (in_framework_info p) (in_slave_info p) s
  | Some EXECUTOR_REREGISTERED => reregistered (in_slave_info p) s
  | Some RECONNECT_EXECUTOR => reconnect s
  | Some SERVICE_DISCONNECTED => reconnect s
  | Some STATUS_UPDATE_ACKNOWLEDGE => statusUpdateAcknowledgement (in_task_id p) (in_uuid p) s
  | Some KILL_TASK => killTask (in_task_id p) s
  | Some RUN_TASK => runTask (in_task p) s
  | Some FRAMEWORK_TO_EXECUTOR => frameworkMessage (in_data p) s
  | Some SHUTDOWN_EXECUTOR => shutdown forked s
  end.

End Process.
