(* ===== verification/LinkedMap.v ===== *)
(** * The linked hash map (3rdparty/stout/linkedhashmap.hpp)

    The executor keeps its unacknowledged updates and tasks in a map that
    remembers the order of insertion: a linked list of entries, and a hash map
    from each key to its node in that list.  [Executor.LinkedHashMap] is what its
    clients rely on, a list of entries; here is the structure itself, with its
    nodes, and the proof that it behaves like that list. *)
From stdpp Require Import gmap strings.
From S2P Require Import Prelude Executor.

Section Map.
  Context {V : Type} (dflt : V).        (** [Value()] *)

(** A node is named by a number that is never used again. *)
Record LinkedMap := mkLinked {
  entries_ : list (nat * (string * V));
  keys_ : gmap string nat;
  fresh : nat;
}.

Definition empty_map : LinkedMap := mkLinked [] ∅ 0.

(** The entry an iterator points to, and an assignment to its value. *)
Definition deref (i : nat) (entries : list (nat * (string * V))) : option (string * V) :=
  snd <$> List.find (fun e => Nat.eqb e.1 i) entries.
Definition assign (i : nat) (v : V) (e : nat * (string * V)) : nat * (string * V) :=
  if Nat.eqb e.1 i then (e.1, (e.2.1, v)) else e.

Definition contains (key : string) (m : LinkedMap) : bool := bool_decide (is_Some (keys_ m !! key)).

(** The first half of [operator[]]: a missing key gets a node at the end. *)
Definition touch (key : string) (m : LinkedMap) : LinkedMap :=
  if contains key m then m
  else mkLinked (entries_ m ++ [(fresh m, (key, dflt))]) (<[key := fresh m]> (keys_ m)) (S (fresh m)).

(** [keys_.at(key)->second]; none: [std::out_of_range] *)
Definition at_ (key : string) (m : LinkedMap) : option V :=
  match keys_ m !! key with Some i => snd <$> deref i (entries_ m) | None => None end.

Definition get (key : string) (m : LinkedMap) : option V := if contains key m then at_ key m else None.

(** [m[key]] read, and [m[key] = value] *)
Definition index (key : string) (m : LinkedMap) : option V * LinkedMap := let m := touch key m in (at_ key m, m).
Definition set (key : string) (v : V) (m : LinkedMap) : LinkedMap :=
  let m := touch key m in
  match keys_ m !! key with
  | Some i => mkLinked (map (assign i v) (entries_ m)) (keys_ m) (fresh m)
  | None => m
  end.

Definition erase (key : string) (m : LinkedMap) : nat * LinkedMap :=
  match keys_ m !! key with
  | Some i => (1%nat, mkLinked (List.filter (fun e => negb (Nat.eqb e.1 i)) (entries_ m)) (delete key (keys_ m)) (fresh m))
  | None => (0%nat, m)
  end.

Definition keys (m : LinkedMap) : list string := map (fun e => e.2.1) (entries_ m).
Definition values (m : LinkedMap) : list V := map (fun e => e.2.2) (entries_ m).
Definition size_ (m : LinkedMap) : nat := size (keys_ m).
Definition empty_ (m : LinkedMap) : bool := bool_decide (size (keys_ m) = 0)%nat.
Definition clear (m : LinkedMap) : LinkedMap := mkLinked [] ∅ (fresh m).

(** ** What the list stands for *)

Definition abs (m : LinkedMap) : LinkedHashMap.t V := map snd (entries_ m).

(** The hash map points every key to the one node that holds it. *)
Record linked_ok (m : LinkedMap) : Prop := {
  lo_nodes : NoDup (entries_ m).*1;
  lo_fresh : forall i e, (i, e) ∈ entries_ m -> (i < fresh m)%nat;
  lo_keys : forall k i, keys_ m !! k = Some i <-> exists v, (i, (k, v)) ∈ entries_ m;
}.

Lemma empty_ok : linked_ok empty_map.
Proof.
  split; cbn; [constructor|by intros i e ?%not_elem_of_nil|].
  intros k i. rewrite lookup_empty. split; [done|]. by intros [v ?%not_elem_of_nil].
Qed.

(** A node has one entry, and a key one node. *)
Lemma node_unique m i e e' : linked_ok m -> (i, e) ∈ entries_ m -> (i, e') ∈ entries_ m -> e = e'.
Proof.
  intros [Hn _ _] H1 H2. revert Hn H1 H2. induction (entries_ m) as [|[j f] l IH]; cbn; [by intros _ ?%not_elem_of_nil|].
  assert (Hj : forall f', (j, f') ∈ l -> j ∈ l.*1) by (intros f' H; apply list_elem_of_fmap; by exists (j, f')).
  intros [Hn' Hn]%NoDup_cons [E1|H1]%elem_of_cons [E2|H2]%elem_of_cons; simplify_eq; [done|..|by apply IH].
  - by apply Hj in H2.
  - by apply Hj in H1.
Qed.

Lemma key_node m i j k v w : linked_ok m -> (i, (k, v)) ∈ entries_ m -> (j, (k, w)) ∈ entries_ m -> i = j.
Proof.
  intros Hm H1 H2. assert (H1' : keys_ m !! k = Some i) by (apply (lo_keys m Hm); by exists v).
  assert (H2' : keys_ m !! k = Some j) by (apply (lo_keys m Hm); by exists w). congruence.
Qed.

(** An entry is at the node of its key exactly if it has the key. *)
Lemma node_iff m i k e : linked_ok m -> keys_ m !! k = Some i -> e ∈ entries_ m -> Nat.eqb e.1 i = String.eqb e.2.1 k.
Proof.
  intros Hm Hk He. destruct e as [j [k' v']]. pose proof Hk as [v Hv]%(lo_keys m Hm). cbn.
  destruct (Nat.eqb_spec j i) as [->|Hne], (String.eqb_spec k' k) as [->|Hne']; try done.
  - pose proof (node_unique m _ _ _ Hm He Hv) as [= -> ->]. done.
  - by destruct (Hne (key_node m _ _ _ _ _ Hm He Hv)).
Qed.

Lemma contains_abs m k : linked_ok m -> contains k m = LinkedHashMap.contains k (abs m).
Proof.
  intros Hm. unfold contains, LinkedHashMap.contains, abs. apply Bool.eq_iff_eq_true.
  rewrite bool_decide_eq_true, existsb_exists. split.
  - intros [i [v Hv]%(lo_keys m Hm)]. exists (k, v). cbn. rewrite String.eqb_refl. split; [|done].
    apply in_map_iff. exists (i, (k, v)). split; [done|]. by apply list_elem_of_In.
  - intros ([k' v] & Hin & E%String.eqb_eq). cbn in E. subst k'. apply in_map_iff in Hin as ([i e] & E & Hin). cbn in E. subst e.
    exists i. apply (lo_keys m Hm). exists v. by apply list_elem_of_In.
Qed.

Lemma find_abs p q (l : list (nat * (string * V))) : (forall e, e ∈ l -> p e = q e.2) ->
  snd <$> List.find p l = List.find q (map snd l).
Proof.
  induction l as [|e l IH]; intros H; [done|]. cbn. rewrite <- (H e) by by left.
  destruct (p e); [done|]. apply IH. intros f Hf. apply H. by right.
Qed.

Lemma at_abs m k : linked_ok m -> at_ k m = LinkedHashMap.get k (abs m).
Proof.
  intros Hm. unfold at_, LinkedHashMap.get. destruct (keys_ m !! k) as [i|] eqn:E.
  - unfold deref. f_equal. apply find_abs. intros e He. by apply (node_iff m).
  - pose proof (contains_abs m k Hm) as Hc. unfold contains in Hc. rewrite E in Hc.
    symmetry. destruct (List.find _ (abs m)) as [e|] eqn:Ef; [|done]. apply find_some in Ef as [Hin He].
    assert (LinkedHashMap.contains k (abs m) = true) as H by (apply existsb_exists; by exists e). by rewrite H in Hc.
Qed.

Lemma touch_ok m k : linked_ok m -> linked_ok (touch k m).
Proof.
  intros Hm. unfold touch. destruct (contains k m) eqn:E; [done|]. apply bool_decide_eq_false, eq_None_not_Some in E.
  pose proof Hm as [Hn Hf Hk]. split; cbn.
  - rewrite fmap_app. apply NoDup_app. split_and!; [done| |apply NoDup_singleton].
    intros i ([j e] & E' & Hi)%list_elem_of_fmap ->%list_elem_of_singleton. apply Hf in Hi. cbn in E'. lia.
  - intros i e [Hi|[= -> ->]%list_elem_of_singleton]%elem_of_app; [|lia]. apply Hf in Hi. lia.
  - intros k' i. destruct (decide (k' = k)) as [->|Hne].
    + rewrite lookup_insert_eq. split.
      * intros [= <-]. exists dflt. apply elem_of_app. right. by left.
      * intros [v [Hv|[= -> ->]%list_elem_of_singleton]%elem_of_app]; [|done].
        assert (keys_ m !! k = Some i) by (apply Hk; by exists v). congruence.
    + rewrite lookup_insert_ne, Hk by done. split; intros [v Hv]; exists v; [by apply elem_of_app; left|].
      apply elem_of_app in Hv as [Hv|Hv]; [done|]. apply list_elem_of_singleton in Hv as [= -> -> ->]. done.
Qed.

Lemma touch_abs m k : linked_ok m -> abs (touch k m) = (LinkedHashMap.index k dflt (abs m)).2.
Proof.
  intros Hm. unfold touch, LinkedHashMap.index. rewrite <- at_abs by done. unfold contains, at_.
  destruct (keys_ m !! k) as [i|] eqn:E; cbn; [|by unfold abs; rewrite map_app].
  destruct (snd <$> deref i (entries_ m)) eqn:Ed; [done|]. exfalso.
  pose proof E as [v Hv]%(lo_keys m Hm). unfold deref in Ed. destruct (List.find _ (entries_ m)) eqn:Ef; [done|].
  apply list_elem_of_In in Hv. apply (find_none _ _ Ef) in Hv. cbn in Hv. by rewrite Nat.eqb_refl in Hv.
Qed.

Lemma touch_at m k : linked_ok m -> is_Some (keys_ (touch k m) !! k).
Proof.
  intros Hm. unfold touch. destruct (contains k m) eqn:E; [by apply bool_decide_eq_true in E|].
  cbn. rewrite lookup_insert_eq. by eexists.
Qed.

Lemma assign_key i (v : V) e : (assign i v e).1 = e.1 /\ (assign i v e).2.1 = e.2.1.
Proof. unfold assign. by destruct (Nat.eqb e.1 i). Qed.

Lemma assign_elem i (v : V) l j k : (exists w, (j, (k, w)) ∈ map (assign i v) l) <-> (exists w, (j, (k, w)) ∈ l).
Proof.
  split; intros [w Hw].
  - apply list_elem_of_In, in_map_iff in Hw as ([j' [k' w']] & E & Hin%list_elem_of_In).
    destruct (assign_key i v (j', (k', w'))) as [E1 E2]. rewrite E in E1, E2. cbn in E1, E2. subst. by exists w'.
  - exists (assign i v (j, (k, w))).2.2. apply list_elem_of_In, in_map_iff. exists (j, (k, w)).
    split; [|by apply list_elem_of_In]. unfold assign. cbn. by destruct (Nat.eqb j i).
Qed.

Lemma set_ok m k v : linked_ok m -> linked_ok (set k v m).
Proof.
  intros Hm%(touch_ok m k). unfold set. destruct (keys_ (touch k m) !! k) as [i|]; [|done].
  destruct Hm as [Hn Hf Hk]. split; cbn.
  - replace (map (assign i v) (entries_ (touch k m))).*1 with (entries_ (touch k m)).*1; [done|].
    rewrite <- list_fmap_compose. apply list_fmap_ext. intros ? e _. cbn. by destruct (assign_key i v e) as [-> _].
  - intros j [k' w] Hin. destruct (proj1 (assign_elem i v (entries_ (touch k m)) j k')) as [w' Hw]; [by exists w|]. by eapply Hf.
  - intros k' j. by rewrite Hk, assign_elem.
Qed.

Lemma map_absent k v (l : list (string * V)) : existsb (fun kv => String.eqb kv.1 k) l = false ->
  map (fun kv => if String.eqb kv.1 k then (k, v) else kv) l = l.
Proof. induction l as [|[k' w] l IH]; cbn; [done|]. intros [-> H]%orb_false_iff. by rewrite IH. Qed.

Lemma get_contains k (l : LinkedHashMap.t V) : LinkedHashMap.contains k l = bool_decide (is_Some (LinkedHashMap.get k l)).
Proof.
  unfold LinkedHashMap.contains, LinkedHashMap.get. induction l as [|[k' w] l IH]; [done|]. cbn. by destruct (String.eqb k' k).
Qed.

Lemma set_abs m k v : linked_ok m -> abs (set k v m) = LinkedHashMap.set k v (abs m).
Proof.
  intros Hm. pose proof (touch_ok m k Hm) as Hm'. destruct (touch_at m k Hm) as [i Hi].
  transitivity (map (fun kv => if String.eqb kv.1 k then (k, v) else kv) (abs (touch k m))).
  { unfold set. rewrite Hi. unfold abs. cbn [entries_]. rewrite !map_map. apply map_ext_in. intros e He%list_elem_of_In.
    unfold assign. rewrite (node_iff _ _ _ e Hm' Hi He). by destruct (String.eqb_spec e.2.1 k) as [->|]. }
  rewrite touch_abs by done. unfold LinkedHashMap.index, LinkedHashMap.set. rewrite get_contains.
  destruct (LinkedHashMap.get k (abs m)) eqn:E; cbn.
  - apply map_ext_in. by intros e _.
  - rewrite map_app. cbn. rewrite String.eqb_refl. f_equal. apply map_absent.
    change (LinkedHashMap.contains k (abs m) = false). by rewrite get_contains, E.
Qed.

Lemma filter_nodes p (l : list (nat * (string * V))) : NoDup l.*1 -> NoDup (List.filter p l).*1.
Proof.
  induction l as [|e l IH]; cbn; [done|]. intros [He Hl]%NoDup_cons. destruct (p e); [|by apply IH]. cbn.
  apply NoDup_cons. split; [|by apply IH]. intros (f & E & Hf)%list_elem_of_fmap. apply He, list_elem_of_fmap.
  exists f. split; [done|]. apply list_elem_of_In. apply list_elem_of_In, filter_In in Hf. apply Hf.
Qed.

Lemma erase_ok m k : linked_ok m -> linked_ok (erase k m).2.
Proof.
  intros Hm. unfold erase. destruct (keys_ m !! k) as [i|] eqn:E; [|done]. pose proof Hm as [Hn Hf Hk].
  assert (Hin : forall e, e ∈ List.filter (fun e => negb (Nat.eqb e.1 i)) (entries_ m) <-> e ∈ entries_ m /\ String.eqb e.2.1 k = false).
  { intros e. rewrite list_elem_of_In, filter_In, <- list_elem_of_In, negb_true_iff. split; intros [He H]; split; try done;
      [rewrite <- (node_iff m i k)|rewrite (node_iff m i k)]; done. }
  split; cbn.
  - by apply filter_nodes.
  - intros j e [He _]%Hin. by eapply Hf.
  - intros k' j. destruct (decide (k' = k)) as [->|Hne].
    + rewrite lookup_delete_eq. split; [done|]. intros [v [_ He]%Hin]. cbn in He. by rewrite String.eqb_refl in He.
    + rewrite lookup_delete_ne, Hk by done. split; intros [v Hv]; exists v; [|by apply Hin in Hv as [? _]].
      apply Hin. split; [done|]. cbn. by apply String.eqb_neq.
Qed.

Lemma erase_abs m k : linked_ok m -> abs (erase k m).2 = LinkedHashMap.erase k (abs m) /\
  (erase k m).1 = if LinkedHashMap.contains k (abs m) then 1%nat else 0%nat.
Proof.
  intros Hm. rewrite <- contains_abs by done. unfold erase, contains. destruct (keys_ m !! k) as [i|] eqn:E; cbn; [split; [|done]|].
  - unfold abs, LinkedHashMap.erase. cbn. assert (H : forall e, e ∈ entries_ m -> Nat.eqb e.1 i = String.eqb e.2.1 k)
      by (intros; by apply (node_iff m)). revert H. induction (entries_ m) as [|e l IH]; intros H; [done|]. cbn.
    rewrite (H e) by by left. destruct (String.eqb e.2.1 k); cbn; [|f_equal]; apply IH; intros f Hf; apply H; by right.
  - split; [|done]. pose proof (contains_abs m k Hm) as Hc. unfold contains in Hc. rewrite E in Hc. symmetry in Hc.
    cbn in Hc. unfold LinkedHashMap.contains in Hc. unfold LinkedHashMap.erase.
    induction (abs m) as [|kv l IH]; [done|]. cbn in *. apply orb_false_iff in Hc as [Hc Hc']. rewrite Hc. cbn. by rewrite <- IH.
Qed.

Lemma keys_nodup m : linked_ok m -> NoDup (keys m).
Proof.
  intros Hm. pose proof (lo_nodes m Hm) as Hn. unfold keys.
  assert (H : forall i j k v w, (i, (k, v)) ∈ entries_ m -> (j, (k, w)) ∈ entries_ m -> i = j)
    by (intros i j k v w; by apply key_node).
  revert Hn H. induction (entries_ m) as [|[i [k v]] l IH]; cbn; [constructor|]. intros [Hi Hn]%NoDup_cons H.
  apply NoDup_cons. split; [|apply IH; [done|]].
  - intros ([j [k' w]] & -> & Hin)%list_elem_of_fmap. cbn in H. rewrite (H i j k' v w) in Hi by by (left||right).
    apply Hi, list_elem_of_fmap. by exists (j, (k', w)).
  - intros j j' k' w w' H1 H2. by eapply H; right.
Qed.

Lemma size_abs m : linked_ok m -> size_ m = length (abs m).
Proof.
  intros Hm. unfold size_. rewrite <- (size_dom (D := gset string)).
  replace (dom (keys_ m)) with (list_to_set (keys m) : gset string).
  - rewrite size_list_to_set by by apply keys_nodup. unfold keys, abs. by rewrite !length_map.
  - apply set_eq. intros k. rewrite elem_of_list_to_set, elem_of_dom. unfold keys. split.
    + intros ([i [k' v]] & -> & Hin)%list_elem_of_fmap. exists i. apply (lo_keys m Hm). by exists v.
    + intros [i [v Hv]%(lo_keys m Hm)]. apply list_elem_of_fmap. by exists (i, (k, v)).
Qed.

(** ** The operations of a client *)

Inductive Operation :=
| OSet (key : string) (value : V) | OIndex (key : string) | OGet (key : string) | OAt (key : string)
| OContains (key : string) | OErase (key : string) | OKeys | OValues | OSize | OEmpty | OClear.

Inductive Answer :=
| AnNothing | AnValue (v : option V) | AnBool (b : bool) | AnNumber (n : nat) | AnKeys (l : list string) | AnValues (l : list V).

Definition perform (o : Operation) (m : LinkedMap) : Answer * LinkedMap :=
  match o with
  | OSet key value => (AnNothing, set key value m)
  | OIndex key => let (v, m) := index key m in (AnValue v, m)
  | OGet key => (AnValue (get key m), m)
  | OAt key => (AnValue (at_ key m), m)
  | OContains key => (AnBool (contains key m), m)
  | OErase key => let (n, m) := erase key m in (AnNumber n, m)
  | OKeys => (AnKeys (keys m), m)
  | OValues => (AnValues (values m), m)
  | OSize => (AnNumber (size_ m), m)
  | OEmpty => (AnBool (empty_ m), m)
  | OClear => (AnNothing, clear m)
  end.

(** The same on the list of entries that [Executor] works with. *)
Definition perform_list (o : Operation) (l : LinkedHashMap.t V) : Answer * LinkedHashMap.t V :=
  match o with
  | OSet key value => (AnNothing, LinkedHashMap.set key value l)
  | OIndex key => let (v, l) := LinkedHashMap.index key dflt l in (AnValue (Some v), l)
  | OGet key | OAt key => (AnValue (LinkedHashMap.get key l), l)
  | OContains key => (AnBool (LinkedHashMap.contains key l), l)
  | OErase key => (AnNumber (if LinkedHashMap.contains key l then 1 else 0)%nat, LinkedHashMap.erase key l)
  | OKeys => (AnKeys (map fst l), l)
  | OValues => (AnValues (LinkedHashMap.values l), l)
  | OSize => (AnNumber (length l), l)
  | OEmpty => (AnBool (bool_decide (l = [])), l)
  | OClear => (AnNothing, [])
  end.

Fixpoint perform_all {S} (f : Operation -> S -> Answer * S) (l : list Operation) (s : S) : list Answer * S :=
  match l with
  | [] => ([], s)
  | o :: r => let (a, s) := f o s in let (q, s) := perform_all f r s in (a :: q, s)
  end.

Lemma index_get k (l : LinkedHashMap.t V) :
  LinkedHashMap.get k (LinkedHashMap.index k dflt l).2 = Some (LinkedHashMap.index k dflt l).1.
Proof.
  unfold LinkedHashMap.index. destruct (LinkedHashMap.get k l) as [v|] eqn:E; [done|]. cbn. unfold LinkedHashMap.get in *.
  induction l as [|[k' w] l IH]; cbn in *; [by rewrite String.eqb_refl|]. destruct (String.eqb k' k); [done|by apply IH].
Qed.

Lemma perform_refines o m : linked_ok m ->
  linked_ok (perform o m).2 /\ (perform o m).1 = (perform_list o (abs m)).1 /\ abs (perform o m).2 = (perform_list o (abs m)).2.
Proof.
  intros Hm. destruct o as [k v|k|k|k|k|k| | | | |]; cbn.
  - split_and!; [by apply set_ok|done|by apply set_abs].
  - pose proof (touch_ok m k Hm) as Hm'. rewrite at_abs, touch_abs by done.
    pose proof (index_get k (abs m)) as Hi. destruct (LinkedHashMap.index k dflt (abs m)) as [v l]. cbn in *.
    split_and!; [done|by rewrite Hi|done].
  - unfold get. rewrite contains_abs, at_abs, get_contains by done. by destruct (LinkedHashMap.get k (abs m)).
  - by rewrite at_abs.
  - by rewrite contains_abs.
  - destruct (erase k m) as [n m'] eqn:E. pose proof (erase_abs m k Hm) as [H1 H2]. pose proof (erase_ok m k Hm) as H3.
    rewrite E in *. cbn in *. by subst n.
  - split_and!; [done| |done]. unfold keys, abs. by rewrite map_map.
  - split_and!; [done| |done]. unfold values, LinkedHashMap.values, abs. by rewrite map_map.
  - by rewrite size_abs.
  - split_and!; [done| |done]. unfold empty_. change (size (keys_ m)) with (size_ m). rewrite size_abs by done.
    by destruct (abs m).
  - split_and!; [|done..]. split; cbn; [constructor|by intros i e ?%not_elem_of_nil|].
    intros k i. rewrite lookup_empty. split; [done|]. by intros [v ?%not_elem_of_nil].
Qed.

Lemma perform_all_refines l : forall m, linked_ok m ->
  linked_ok (perform_all perform l m).2 /\ (perform_all perform l m).1 = (perform_all perform_list l (abs m)).1 /\
  abs (perform_all perform l m).2 = (perform_all perform_list l (abs m)).2.
Proof.
  induction l as [|o l IH]; intros m Hm; [done|]. cbn. destruct (perform_refines o m Hm) as (H1 & H2 & H3).
  destruct (perform o m) as [a m1], (perform_list o (abs m)) as [a' l1]. cbn in *. subst a' l1.
  destruct (IH m1 H1) as (I1 & I2 & I3).
  destruct (perform_all perform l m1) as [q m2], (perform_all perform_list l (abs m1)) as [q' l2]. cbn in *. by subst.
Qed.

(** The linked hash map is a list of entries in the order of their insertion.
    For every sequence of operations on a new map, assignments to new and to
    present keys, reads that insert a default, erasures and [clear] included,
    it gives the answers of the list that the executor's model works with; its two
    structures stay consistent throughout, so that no operation follows a dangling
    iterator, and no key has two entries. *)
Theorem linked_map_refines l :
  let (answers, m) := perform_all perform l empty_map in
  (answers, abs m) = perform_all perform_list l [] /\ linked_ok m /\ NoDup (keys m).
Proof.
  destruct (perform_all_refines l empty_map empty_ok) as (H1 & H2 & H3). cbn in *.
  destruct (perform_all perform l empty_map) as [q m], (perform_all perform_list l []) as [q' l']. cbn in *. subst.
  split_and!; [done..|by apply keys_nodup].
Qed.
End Map.

(** An update does not move its entry; an entry that was erased comes back at the end. *)
Example linked_map_example :
  (perform_all (perform 0) [OSet "a" 1; OSet "b" 2; OSet "a" 3; OKeys; OErase "a"; OIndex "a"; OKeys; OValues; OSize]
    empty_map).1 =
  [AnNothing; AnNothing; AnNothing; AnKeys ["a"; "b"]; AnNumber 1; AnValue (Some 0); AnKeys ["b"; "a"];
   AnValues [2; 0]; AnNumber 2].
Proof. vm_compute. reflexivity. Qed.
