(* ===== verification/ExecutorProperties.v ===== *)
(** * What the executor driver guarantees

    The executor driver with its process and timers as a step function on
    inputs, the invariant of its reachable states, the assertions that cannot
    fail, and what becomes of unacknowledged updates and unfinished tasks. *)
From Stdlib Require Import FunctionalExtensionality.
From S2P Require Import Prelude Contract Values Platform Resource Scheduler Executor.

(** ** Linked hash maps *)
Module LHM.
Import LinkedHashMap.

Section Lemmas.
  Context {V : Type}.
  Implicit Types (m : t V) (k : string) (v : V).

Lemma contains_elem k m : contains k m = true <-> k ∈ map fst m.
Proof.
  unfold contains. rewrite existsb_elem. rewrite list_elem_of_fmap. split.
  - intros ((k' & v) & H & E%String.eqb_eq). by exists (k', v).
  - intros ((k' & v) & -> & H). exists (k', v). split; [done|]. apply String.eqb_refl.
Qed.

Lemma set_keys k v m : map fst (set k v m) = if contains k m then map fst m else map fst m ++ [k].
Proof.
  unfold set. destruct (contains k m).
  - rewrite map_map. apply map_ext. intros [k' v']. cbn. by destruct (String.eqb_spec k' k) as [->|].
  - by rewrite map_app.
Qed.

Lemma set_fresh k v m : k ∉ map fst m -> set k v m = m ++ [(k, v)].
Proof. intros Hk. unfold set. destruct (contains k m) eqn:E; [by apply contains_elem in E|done]. Qed.

Lemma set_nodup k v m : NoDup (map fst m) -> NoDup (map fst (set k v m)).
Proof.
  intros H. rewrite set_keys. destruct (contains k m) eqn:E; [done|].
  apply NoDup_app. split_and!; [done| |apply NoDup_singleton].
  intros x Hx ->%list_elem_of_singleton. apply contains_elem in Hx. congruence.
Qed.

Lemma set_Forall (P : string * V -> Prop) k v m : Forall P m -> P (k, v) -> Forall P (set k v m).
Proof.
  intros Hm Hv. unfold set. destruct (contains k m).
  - apply Forall_fmap. eapply Forall_impl; [exact Hm|]. intros kv Hkv. cbn. by destruct (String.eqb _ _).
  - apply Forall_app. split; [done|]. by constructor.
Qed.

Lemma erase_elem k kv m : kv ∈ erase k m <-> kv ∈ m /\ fst kv <> k.
Proof.
  unfold erase. rewrite list_elem_of_In, filter_In, <- list_elem_of_In.
  by rewrite negb_true_iff, String.eqb_neq.
Qed.

Lemma erase_Forall (P : string * V -> Prop) k m : Forall P m -> Forall P (erase k m).
Proof. rewrite !Forall_forall. intros H kv [Hkv _]%erase_elem. auto. Qed.

Lemma erase_sublist k m : erase k m `sublist_of` m.
Proof. induction m as [|kv m IH]; cbn; [done|]. destruct (negb _); by constructor. Qed.

Lemma erase_nodup k m : NoDup (map fst m) -> NoDup (map fst (erase k m)).
Proof. intros H. eapply sublist_NoDup; [exact H|]. apply (fmap_sublist fst), erase_sublist. Qed.

(** Reading a missing key before erasing it leaves no trace. *)
Lemma erase_index k dflt m : erase k (index k dflt m).2 = erase k m.
Proof.
  unfold index. destruct (get k m); cbn; [done|]. unfold erase. rewrite List.filter_app. cbn.
  by rewrite String.eqb_refl, app_nil_r.
Qed.

Lemma get_Some k v m : get k m = Some v -> (k, v) ∈ m.
Proof.
  unfold get. destruct (List.find _ m) as [[k' v']|] eqn:E; cbn; [|done]. intros [= ->].
  apply find_some in E as [H1 H2%String.eqb_eq]. cbn in H2. subst. by apply list_elem_of_In.
Qed.

Lemma get_last k v m : k ∉ map fst m -> get k (m ++ [(k, v)]) = Some v.
Proof.
  intros Hk. unfold get. induction m as [|[k' v'] m IH]; cbn; [by rewrite String.eqb_refl|].
  destruct (String.eqb_spec k' k) as [->|]; [exfalso; apply Hk; by left|]. apply IH. intros H. apply Hk. by right.
Qed.

End Lemmas.
End LHM.

(** ** The system *)

Inductive Input :=
| ICall (c : Call)
| IMessage (target : string) (forked : bool) (p : Payload)
| IRegistration (broker_ok : bool).

Section System.
  Context (uuid_memory : nat -> string) (now : nat -> Z).
  Context (urb_master urb_slave_id urb_framework_id urb_executor_id : option string).
  (** The driver calls the framework's executor makes from a callback. *)
  Context (reacts : Callback -> list Call).
  Context (nested : string).

Definition call (cb : Callback -> State -> outcome State) (c : Call) (s : State) : outcome State :=
  driver_call uuid_memory now urb_slave_id urb_framework_id urb_executor_id cb c s.

Fixpoint run_callback (depth : nat) (c : Callback) (s : State) : outcome State :=
  let s := emit (Called c) s in
  match depth with
  | O => match reacts c with [] => Ret s | _ :: _ => Fatal nested end
  | S depth' => ofold (fun s a => call (run_callback depth') a s) (reacts c) s
  end.

Definition step (depth : nat) (i : Input) (s : State) : outcome State :=
  match i with
  | ICall c => call (run_callback depth) c s
  | IMessage t forked p => if channelsCreated s then onInput (run_callback depth) t forked p s else Ret s
  | IRegistration broker_ok =>
      match registrationTimers s with
      | O => Ret s
      | S n => doReliableRegistration urb_master broker_ok (set_registrationTimers n s)
      end
  end.

Inductive reachable : State -> Prop :=
| reach_init : reachable new_driver
| reach_step depth i s s' : reachable s -> step depth i s = Ret s' -> reachable s'.

(** An update the process has captured: its key is its uuid and it carries the
    ids of the process. *)
Definition captured (s : State) (kv : string * ExecutorUpdate) : Prop :=
  eu_uuid kv.2 = kv.1 /\ eu_framework_id kv.2 = frameworkId s /\ eu_executor_id kv.2 = executorId s /\
  eu_slave_id kv.2 = slaveId s /\ es_slave_id (eu_status kv.2) = Some (slaveId s) /\
  es_state (eu_status kv.2) <> TASK_STAGING.

Record Inv (s : State) : Prop := {
  inv_process : process s = negb (bool_decide (status s = DRIVER_NOT_STARTED));
  inv_channel_process : channelsCreated s = true -> process s = true;
  inv_connected : connected s = true -> channelsCreated s = true;
  inv_timers : registrationTimers s <> O -> process s = true;
  inv_aborted : status s = DRIVER_ABORTED -> aborted s = true;
  inv_updates : NoDup (map fst (updates s));
  inv_captured : Forall (captured s) (updates s);
  inv_tasks : NoDup (map fst (tasks s));
  inv_task_ids : Forall (fun kv : string * TaskInfo => ti_task_id kv.2 = kv.1) (tasks s);
}.

Record ext (s s' : State) : Prop := {
  ext_channel : channelsCreated s = true -> channelsCreated s' = true;
  ext_process : process s = true -> process s' = true;
  ext_trace : trace s `prefix_of` trace s';
}.

Lemma ex_ext_refl s : ext s s.
Proof. by split. Qed.

Lemma ex_ext_trans s1 s2 s3 : ext s1 s2 -> ext s2 s3 -> ext s1 s3.
Proof. intros [A1 A2 A3] [B1 B2 B3]. split; [auto|auto|by etrans]. Qed.

#[export] Instance executor_contract : Contract State := {|
  c_inv := Inv; c_ext := ext; c_armed := channelsCreated;
  c_refl := ex_ext_refl; c_trans := ex_ext_trans; c_mono s s' E := ext_channel s s' E;
|}.

#[local] Abbreviation good := (Contract.good nested).

Lemma ex_Inv_emit e s : Inv s -> Inv (emit e s).
Proof. intros []. by split. Qed.

Lemma ex_ext_emit e s : ext s (emit e s).
Proof. split; cbn; try done. by exists [e]. Qed.

Lemma ex_good_send m s : Inv s -> good s (sendMessage m s).
Proof. intros Hs. apply good_check; [done|]. apply good_ret; [by apply ex_Inv_emit|apply ex_ext_emit]. Qed.

Lemma ex_good_driver_abort s : Inv s -> good s (driver_abort s).
Proof.
  intros Hs. unfold driver_abort. case_bool_decide as E; cbn [negb]; [|by apply good_id].
  assert (Hp : process s = true) by (rewrite (inv_process _ Hs), E; done).
  apply good_check; [done|]. destruct Hs. apply good_ret; split; cbn; auto.
Qed.

Lemma ex_good_driver_stop s : Inv s -> good s (let! r := driver_stop s in Ret (fst r)).
Proof.
  intros Hs. unfold driver_stop. destruct (negb _ && negb _) eqn:E; [by apply good_id|].
  assert (Hp : process s = true).
  { rewrite (inv_process _ Hs). apply andb_false_iff in E as [E|E];
      apply negb_false_iff, bool_decide_eq_true in E; by rewrite E. }
  rewrite Hp. cbn. destruct Hs. split; [split|split]; cbn; auto; done.
Qed.

Lemma captured_frame s s' kv : frameworkId s' = frameworkId s -> executorId s' = executorId s ->
  slaveId s' = slaveId s -> captured s kv -> captured s' kv.
Proof. unfold captured. by intros -> -> ->. Qed.

Section Callbacks.
  Context (cb : Callback -> State -> outcome State).
  Hypothesis cb_good : forall c s, Inv s -> good s (cb c s).

Lemma good_sendStatusUpdate st s : Inv s -> good s (sendStatusUpdate uuid_memory now cb st s).
Proof.
  intros Hs. unfold sendStatusUpdate. case_bool_decide as E.
  - apply good_bind; [by apply ex_good_driver_abort|]. intros s' Hs' _. by apply cb_good.
  - eapply good_ext; [|apply ex_good_send].
    + by split.
    + destruct Hs. split; cbn; auto.
      * by apply LHM.set_nodup.
      * apply LHM.set_Forall; [done|]. by split_and!.
Qed.

Lemma good_call c s : Inv s -> c <> DStart -> good s (call cb c s).
Proof.
  intros Hs Hc. unfold call.
  assert (Hrun : forall body, (forall s, Inv s -> good s (body s)) -> good s (when_running body s)).
  { intros body Hb. unfold when_running. case_bool_decide as E; cbn [negb]; [|by apply good_id].
    rewrite (inv_process _ Hs), E. cbn. auto. }
  destruct c; cbn [driver_call]; [done|by apply ex_good_driver_stop|by apply ex_good_driver_abort| |].
  - apply Hrun. intros. by apply good_sendStatusUpdate.
  - apply Hrun. intros. by apply ex_good_send.
Qed.

Lemma start_inv s s' : Inv s -> call cb DStart s = Ret s' -> Inv s' /\ status s = DRIVER_NOT_STARTED.
Proof.
  intros Hs. unfold call. cbn [driver_call]. unfold driver_start. destruct (process s) eqn:Ep; cbn; [done|].
  rewrite (inv_process _ Hs) in Ep. apply negb_false_iff, bool_decide_eq_true in Ep. rewrite Ep. cbn.
  intros [= <-]. split; [|done]. split; cbn; try done; constructor.
Qed.

End Callbacks.

(** A started driver is not started again by its own executor. *)
Hypothesis no_restart : forall c, DStart ∉ reacts c.

Lemma ex_run_callback_good depth : forall c s, Inv s -> good s (run_callback depth c s).
Proof.
  induction depth as [|depth IH]; intros c s Hs; cbn [run_callback].
  - destruct (reacts c); [|done]. apply good_ret; [by apply ex_Inv_emit|apply ex_ext_emit].
  - eapply good_ext; [apply (ex_ext_emit (Called c))|].
    apply good_ofold; [|by apply ex_Inv_emit]. intros s' a Ha Hs'. apply good_call; [done|done|].
    intros ->. by apply (no_restart c).
Qed.

Lemma good_connect c s : Inv s -> channelsCreated s = true ->
  forall depth, good s (let! s := startHeartbeat (set_connected true s) in run_callback depth c s).
Proof.
  intros Hs Hc depth. unfold startHeartbeat. cbn. rewrite Hc. cbn [CHECK obind].
  eapply good_ext; [|apply ex_run_callback_good]; [by split|]. destruct Hs. split; cbn; auto.
Qed.

Lemma ex_good_ack tid uuid s : Inv s -> good s (statusUpdateAcknowledgement tid uuid s).
Proof.
  intros Hs. unfold statusUpdateAcknowledgement.
  destruct (aborted s); [by apply good_id|]. destruct (negb _); [by apply good_id|].
  destruct (LinkedHashMap.index uuid default_update (updates s)) as [u m] eqn:E.
  assert (Hm : LinkedHashMap.erase uuid m = LinkedHashMap.erase uuid (updates s)).
  { replace m with (LinkedHashMap.index uuid default_update (updates s)).2 by (by rewrite E).
    apply LHM.erase_index. }
  rewrite Hm. set (s1 := set_updates _ s).
  assert (H1 : Inv s1).
  { destruct Hs. split; cbn; auto; [by apply LHM.erase_nodup|by apply LHM.erase_Forall]. }
  destruct (bool_decide _); [|by split].
  split; [|by split]. destruct H1. split; cbn; auto; [by apply LHM.erase_nodup|by apply LHM.erase_Forall].
Qed.

Lemma good_shutdown depth forked s : Inv s -> good s (shutdown (run_callback depth) forked s).
Proof.
  intros Hs. unfold shutdown. destruct (aborted s); [by apply good_id|]. apply good_bind.
  - eapply good_ext; [|apply ex_run_callback_good]; [by split|]. by destruct Hs.
  - intros s' [] _. split; [by split|]. split; cbn; try done. by eexists.
Qed.

Lemma good_runTask depth t s : Inv s -> LinkedHashMap.contains (ti_task_id t) (tasks s) = false ->
  good s (runTask (run_callback depth) t s).
Proof.
  intros Hs Ht. unfold runTask. destruct (aborted s); [by apply good_id|]. destruct (negb _); [by apply good_id|].
  rewrite Ht. cbn [negb CHECK obind]. eapply good_ext; [|apply ex_run_callback_good]; [by split|].
  destruct Hs. split; cbn; auto; [by apply LHM.set_nodup|by apply LHM.set_Forall].
Qed.

(** A started driver is not started again, and no task is run while a task
    with its id is still kept. *)
Definition benign (s : State) (i : Input) : Prop :=
  match i with
  | ICall c => c <> DStart
  | IMessage t _ p =>
      t = "RunTaskMessage" -> LinkedHashMap.contains (ti_task_id (in_task p)) (tasks s) = false
  | IRegistration _ => True
  end.

Lemma find_run_task t : find_message t messages = Some RUN_TASK -> t = "RunTaskMessage".
Proof.
  unfold messages. cbn [find_message].
  repeat match goal with
  | |- context [String.eqb t ?x] => destruct (String.eqb_spec t x) as [->|]; [done|]
  end. done.
Qed.

Lemma good_onInput depth t forked p s : Inv s -> channelsCreated s = true ->
  benign s (IMessage t forked p) -> good s (onInput (run_callback depth) t forked p s).
Proof.
  intros Hs Hc Hb. unfold onInput.
  assert (Hunless : forall c, good s c -> good s (if aborted s then Ret s else c)).
  { intros c H. destruct (aborted s); [by apply good_id|done]. }
  destruct (find_message t messages) as [k|] eqn:Ek; [|by apply good_id].
  destruct k; cbn; try (by apply ex_good_ack); try (by apply good_shutdown);
    try (apply Hunless; first [by apply good_connect|by apply ex_good_send|by apply ex_run_callback_good]).
  - apply good_runTask; [done|]. apply Hb. by apply find_run_task.
  - apply Hunless. destruct (negb _); [by apply good_id|by apply ex_run_callback_good].
Qed.

Lemma runTask_duplicate depth t s : LinkedHashMap.contains (ti_task_id t) (tasks s) = true ->
  runTask (run_callback depth) t s = Ret s \/ exists w, runTask (run_callback depth) t s = Fatal w.
Proof.
  intros Ht. unfold runTask. rewrite Ht. destruct (aborted s); [by left|]. destruct (negb (connected s)); [by left|].
  right. by eexists.
Qed.

Lemma registration_inv ok s s' : Inv s -> process s = true -> doReliableRegistration urb_master ok s = Ret s' ->
  Inv s'.
Proof.
  intros Hs Hp. unfold doReliableRegistration. destruct urb_master; [|by intros [= <-]].
  destruct ok; [|intros [= <-]; destruct Hs; by split].
  assert (H1 : Inv (createChannels s)).
  { unfold createChannels. destruct (channelsCreated s) eqn:E; [done|]. destruct Hs. split; cbn; auto. }
  intros E. pose proof (ex_good_send (RegisterExecutor (frameworkId (createChannels s)) (executorId (createChannels s))
    (after_last_colon (slaveId (createChannels s)))) _ H1) as Hg. rewrite E in Hg. apply Hg.
Qed.

Lemma ex_step_inv depth i s s' : Inv s -> step depth i s = Ret s' -> Inv s'.
Proof.
  intros Hs E. destruct i as [c|t forked p|ok]; cbn [step] in E.
  - assert (Hd : c = DStart \/ c <> DStart) by (destruct c; [by left|by right..]).
    destruct Hd as [->|Hc]; [by eapply start_inv|].
    pose proof (good_call _ (ex_run_callback_good depth) c s Hs Hc) as Hg. rewrite E in Hg. apply Hg.
  - destruct (channelsCreated s) eqn:Hc; [|by injection E as <-].
    assert (Hb : benign s (IMessage t forked p) -> Inv s').
    { intros Hb. pose proof (good_onInput depth t forked p s Hs Hc Hb) as Hg. rewrite E in Hg. apply Hg. }
    destruct (LinkedHashMap.contains (ti_task_id (in_task p)) (tasks s)) eqn:Ec; [|by apply Hb; cbn].
    destruct (decide (t = "RunTaskMessage")) as [->|]; [|by apply Hb; cbn].
    destruct (runTask_duplicate depth _ s Ec) as [H|[w H]]; cbn in E; rewrite H in E; [|done].
    by injection E as <-.
  - destruct (registrationTimers s) as [|n] eqn:Et; [by injection E as <-|].
    assert (Hp : process s = true) by (apply (inv_timers _ Hs); by rewrite Et).
    eapply registration_inv; [| |exact E]; [|done]. destruct Hs. by split.
Qed.

Lemma ex_new_driver_inv : Inv new_driver.
Proof. split; cbn; try done; constructor. Qed.

Lemma ex_reachable_Inv s : reachable s -> Inv s.
Proof. induction 1 as [|depth i s s' _ IH E]; [apply ex_new_driver_inv|by eapply ex_step_inv]. Qed.

Lemma ex_good_safe s c : channelsCreated s = true -> good s c ->
  match c with Ret s' => Inv s' | Fatal w => w = nested end.
Proof. exact (good_armed s c). Qed.

Lemma ex_step_no_abort depth i s : Inv s -> channelsCreated s = true -> benign s i ->
  match step depth i s with Ret s' => Inv s' | Fatal w => w = nested end.
Proof.
  intros Hs Hc Hb. destruct i as [c|t forked p|ok]; cbn [step].
  - apply (ex_good_safe s _ Hc). apply good_call; [apply ex_run_callback_good|done|done].
  - rewrite Hc. apply (ex_good_safe s _ Hc). by apply good_onInput.
  - destruct (registrationTimers s) as [|n]; [done|].
    pose proof (inv_channel_process _ Hs Hc) as Hp.
    assert (H1 : Inv (set_registrationTimers n s)) by (destruct Hs; by split).
    unfold doReliableRegistration. destruct urb_master; [|done].
    destruct ok; [|destruct H1; by split].
    unfold createChannels. cbn. rewrite Hc. unfold sendMessage. cbn. rewrite Hc. cbn. by apply ex_Inv_emit.
Qed.

End System.

(** A driver call that starts nothing and runs no callback. *)
Definition calm (c : Call) : bool :=
  match c with
  | DStart => false
  | DSendStatusUpdate st => negb (bool_decide (es_state st = TASK_STAGING))
  | _ => true
  end.

Section Guarantees.
  Context (uuid_memory : nat -> string) (now : nat -> Z).
  Context (urb_master urb_slave_id urb_framework_id urb_executor_id : option string).
  Context (reacts : Callback -> list Call).

#[local] Abbreviation callW cb :=
  (call uuid_memory now urb_slave_id urb_framework_id urb_executor_id cb).
#[local] Abbreviation stepW W :=
  (step uuid_memory now urb_master urb_slave_id urb_framework_id urb_executor_id reacts W).
#[local] Abbreviation runW W :=
  (run_callback uuid_memory now urb_slave_id urb_framework_id urb_executor_id reacts W).
#[local] Abbreviation reach W :=
  (reachable uuid_memory now urb_master urb_slave_id urb_framework_id urb_executor_id reacts W).

Lemma calm_call cb cb' c s : calm c = true -> callW cb c s = callW cb' c s.
Proof.
  destruct c; try done. cbn [calm]. intros Hc. unfold call. cbn [driver_call]. unfold when_running, sendStatusUpdate.
  apply negb_true_iff in Hc. by rewrite Hc.
Qed.

Lemma ex_calm_ofold cb cb' l : Forall (fun c => calm c = true) l -> forall s,
  ofold (fun s c => callW cb c s) l s = ofold (fun s c => callW cb' c s) l s.
Proof.
  induction 1 as [|c l Hc _ IH]; intros s; cbn [ofold]; [done|].
  rewrite (calm_call cb cb') by done. destruct (callW cb' c s); cbn; auto.
Qed.

Lemma ex_calm_step W W' depth i s : (forall c, Forall (fun c => calm c = true) (reacts c)) ->
  (forall c, i = ICall c -> calm c = true) -> stepW W (S depth) i s = stepW W' (S depth) i s.
Proof.
  intros Hc Hi. assert (Hcb : runW W (S depth) = runW W' (S depth)).
  { extensionality c. extensionality s'. cbn [run_callback]. by apply ex_calm_ofold. }
  destruct i as [c|t f p|ok]; cbn [step]; [|by rewrite Hcb|done]. apply calm_call. auto.
Qed.

(** C9: for an executor that never restarts its driver, every reachable state
    satisfies the invariant (a connected process has its channel; each kept
    update is filed once, under its uuid, with the ids of the process; each
    kept task once, under its id); and once the channel exists no step trips
    an assertion, a second start by the application and a task whose id is
    still kept excepted (the model can only stop following an executor whose
    callbacks nest deeper than the given depth). If moreover neither the
    callbacks nor the application's own call send a staging update, the step
    completes. *)
Theorem executor_safety depth i s : (forall c, DStart ∉ reacts c) -> reach "nested" s ->
  Inv s /\
  (channelsCreated s = true -> benign s i ->
    (forall w, stepW "nested" depth i s = Fatal w -> w = "nested") /\
    ((forall c, Forall (fun c => calm c = true) (reacts c)) -> (forall c, i = ICall c -> calm c = true) ->
      exists s', stepW "nested" (S depth) i s = Ret s')).
Proof.
  intros Hr Hreach. pose proof (ex_reachable_Inv _ _ _ _ _ _ _ _ Hr s Hreach) as Hs. split; [done|]. intros Hc Hb.
  assert (Hsafe : forall W d w, stepW W d i s = Fatal w -> w = W).
  { intros W d w E.
    pose proof (ex_step_no_abort uuid_memory now urb_master urb_slave_id urb_framework_id urb_executor_id reacts W
      Hr d i s Hs Hc Hb) as H. by rewrite E in H. }
  split; [apply Hsafe|]. intros Hcalm Hi. destruct (stepW "nested" (S depth) i s) as [s'|w] eqn:E; [by exists s'|].
  pose proof (Hsafe _ _ _ E). rewrite (ex_calm_step _ "other") in E by done.
  by pose proof (Hsafe _ _ _ E); simplify_eq.
Qed.

(** ** Updates until they are acknowledged *)

Inductive Op := OSend (st : ExecutorStatus) | OAck (task_id uuid : string).

Definition op_input (p : Payload) (o : Op) : Input :=
  match o with
  | OSend st => ICall (DSendStatusUpdate st)
  | OAck tid uuid => IMessage "StatusUpdateAcknowledgementMessage" false
      (mkPayload (in_executor_info p) (in_framework_info p) (in_slave_info p) (in_task p) tid uuid (in_data p))
  end.

Definition sendable (o : Op) : bool :=
  match o with OSend st => negb (bool_decide (es_state st = TASK_STAGING)) | OAck _ _ => true end.

Definition acked (k : string) (ops : list Op) : bool :=
  existsb (fun o => match o with OAck _ uuid => String.eqb uuid k | OSend _ => false end) ops.

(** The update sent as the n-th, by a process with the ids of [s]. *)
Definition nth_update (s : State) (n : nat) (st : ExecutorStatus) : ExecutorUpdate :=
  make_update uuid_memory now st (set_clock n s).

(** The updates sent in a history and not acknowledged later in it, in the
    order they were sent. *)
Fixpoint unacked (s : State) (n : nat) (ops : list Op) : list (string * ExecutorUpdate) :=
  match ops with
  | [] => []
  | OSend st :: ops =>
      let u := nth_update s n st in
      (if acked (eu_uuid u) ops then [] else [(eu_uuid u, u)]) ++ unacked s (S n) ops
  | OAck _ _ :: ops => unacked s n ops
  end.

(** The process is registered and in operation. *)
Record operating (s : State) : Prop := {
  op_status : status s = DRIVER_RUNNING;
  op_process : process s = true;
  op_channel : channelsCreated s = true;
  op_connected : connected s = true;
  op_aborted : aborted s = false;
}.

Definition same_ids (s s' : State) : Prop :=
  frameworkId s' = frameworkId s /\ executorId s' = executorId s /\ slaveId s' = slaveId s.

Lemma unacked_ids s s' ops : same_ids s s' -> forall n, unacked s' n ops = unacked s n ops.
Proof.
  intros (H1 & H2 & H3). induction ops as [|[st|tid k] ops IH]; intros n; cbn [unacked]; [done| |done].
  unfold nth_update, make_update. cbn. by rewrite H1, H2, H3, IH.
Qed.

Lemma op_send W depth p st s : operating s -> sendable (OSend st) = true -> exists s',
  stepW W depth (op_input p (OSend st)) s = Ret s' /\ operating s' /\ same_ids s s' /\ clock s' = S (clock s) /\
  updates s' = LinkedHashMap.set (eu_uuid (nth_update s (clock s) st)) (nth_update s (clock s) st) (updates s).
Proof.
  intros [H1 H2 H3 H4 H5] Hst. cbn in Hst |- *. apply negb_true_iff in Hst. eexists. split_and!.
  - unfold call. cbn [driver_call]. unfold when_running. rewrite H1, H2. cbn. unfold sendStatusUpdate. rewrite Hst.
    unfold sendMessage. cbn. by rewrite H3.
  - by split.
  - by split_and!.
  - done.
  - done.
Qed.

Lemma op_ack W depth p tid k s : operating s -> exists s',
  stepW W depth (op_input p (OAck tid k)) s = Ret s' /\ operating s' /\ same_ids s s' /\ clock s' = clock s /\
  updates s' = LinkedHashMap.erase k (updates s).
Proof.
  intros [H1 H2 H3 H4 H5]. cbn. rewrite H3. unfold onInput. cbn. unfold statusUpdateAcknowledgement. rewrite H5, H4.
  cbn [negb].
  pose proof (LHM.erase_index k default_update (updates s)) as He.
  destruct (LinkedHashMap.index k default_update (updates s)) as [u m]. cbn [snd] in He.
  eexists. split; [done|]. destruct (bool_decide _); (split_and!; [by split|by split_and!|done|exact He]).
Qed.

Definition keep (ops : list Op) (l : list (string * ExecutorUpdate)) : list (string * ExecutorUpdate) :=
  List.filter (fun kv => negb (acked kv.1 ops)) l.

Lemma keep_ack tid k ops l : keep (OAck tid k :: ops) l = keep ops (LinkedHashMap.erase k l).
Proof.
  unfold keep, LinkedHashMap.erase. induction l as [|[k' u] l IH]; [done|]. cbn in IH |- *.
  rewrite (String.eqb_sym k k'). destruct (String.eqb k' k); cbn; by rewrite IH.
Qed.

Hypothesis uuid_inj : forall i j, as_c_string (uuid_memory i) = as_c_string (uuid_memory j) -> i = j.

(** No kept update has the uuid of a later one. *)
Definition fresh (s : State) : Prop :=
  forall n, (clock s <= n)%nat -> as_c_string (uuid_memory n) ∉ map fst (updates s).

Lemma unacked_run W depth p ops : forall s, operating s -> fresh s -> Forall (fun o => sendable o = true) ops ->
  exists s', ofold (fun s o => stepW W depth (op_input p o) s) ops s = Ret s' /\
    operating s' /\ same_ids s s' /\ updates s' = keep ops (updates s) ++ unacked s (clock s) ops.
Proof.
  induction ops as [|[st|tid k] ops IH]; intros s Hs Hf Hops; cbn [ofold].
  { exists s. split_and!; try done. cbn. unfold keep. by rewrite filter_true, app_nil_r. }
  - apply Forall_cons in Hops as [Ho Hops].
    destruct (op_send W depth p st s Hs Ho) as (s1 & E1 & H1 & I1 & C1 & U1).
    set (u := nth_update s (clock s) st) in *.
    rewrite LHM.set_fresh in U1 by (apply (Hf (clock s)); lia).
    destruct (IH s1 H1) as (s2 & E2 & H2 & I2 & U2); [|done|].
    { intros n Hn. rewrite U1, map_app. cbn. rewrite elem_of_app, list_elem_of_singleton.
      intros [Hin|Heq]; [apply (Hf n); [lia|done]|]. apply uuid_inj in Heq. lia. }
    exists s2. rewrite E1. cbn [obind]. split_and!; [done|done| |].
    + destruct I1 as (? & ? & ?), I2 as (? & ? & ?). split_and!; congruence.
    + rewrite U2, U1, C1, (unacked_ids s s1) by done. unfold keep. rewrite List.filter_app. cbn [unacked]. fold u.
      cbn [List.filter fst]. destruct (acked (eu_uuid u) ops); cbn [negb]; by rewrite <- !app_assoc.
  - apply Forall_cons in Hops as [_ Hops].
    destruct (op_ack W depth p tid k s Hs) as (s1 & E1 & H1 & I1 & C1 & U1).
    destruct (IH s1 H1) as (s2 & E2 & H2 & I2 & U2); [|done|].
    { intros n Hn. rewrite U1, list_elem_of_fmap. intros (kv & Ek & [Hkv _]%LHM.erase_elem).
      apply (Hf n); [lia|]. rewrite Ek. by apply list_elem_of_fmap_2. }
    exists s2. rewrite E1. cbn [obind]. split_and!; [done|done| |].
    + destruct I1 as (? & ? & ?), I2 as (? & ? & ?). split_and!; congruence.
    + by rewrite U2, U1, C1, (unacked_ids s s1), keep_ack.
Qed.

(** C7: with distinct uuids, after any sequence of status updates sent and
    acknowledged by a registered executor, a reconnect request from the
    service is answered with exactly the updates not acknowledged since they
    were sent: the earlier ones first, then the new ones in the order they
    were sent. *)
Theorem reconnect_resends_unacked W depth p forked ops s : operating s -> fresh s ->
  Forall (fun o => sendable o = true) ops ->
  exists s' s'', ofold (fun s o => stepW W depth (op_input p o) s) ops s = Ret s' /\
    stepW W depth (IMessage "ReconnectExecutorMessage" forked p) s' = Ret s'' /\
    trace s'' = trace s' ++ [Sent (ReregisterExecutor (executorId s) (frameworkId s)
      (map snd (keep ops (updates s) ++ unacked s (clock s) ops)) (LinkedHashMap.values (tasks s'))
      (after_last_colon (slaveId s)))].
Proof.
  intros Hs Hf Hops. destruct (unacked_run W depth p ops s Hs Hf Hops) as (s' & E & [H1 H2 H3 H4 H5] & (I1 & I2 & I3) & U).
  exists s'. eexists. split; [done|]. split.
  - cbn. rewrite H3. unfold onInput. cbn. unfold reconnect. rewrite H5. unfold sendMessage. by rewrite H3.
  - cbn. by rewrite U, I1, I2, I3.
Qed.

(** ** Tasks until they finish *)

Definition quiet : Callback -> State -> outcome State := fun c s => Ret (emit (Called c) s).

(** Runs a task, sends an update for it, receives the acknowledgement, and is
    asked to run a task with the same id again. *)
Definition rerun (t : TaskInfo) (st : ExecutorStatus) (s : State) : outcome State :=
  let uuid := as_c_string (uuid_memory (clock s)) in
  let! s := runTask quiet t s in
  let! s := callW quiet (DSendStatusUpdate st) s in
  let! s := statusUpdateAcknowledgement (ti_task_id t) uuid s in
  runTask quiet t s.

Lemma runTask_new t s : operating s -> LinkedHashMap.contains (ti_task_id t) (tasks s) = false ->
  runTask quiet t s = Ret (emit (Called (CbLaunchTask t)) (set_tasks (tasks s ++ [(ti_task_id t, t)]) s)).
Proof using Type.
  intros Hs Ht. unfold runTask. rewrite (op_aborted _ Hs), (op_connected _ Hs), Ht. cbn. unfold quiet.
  rewrite LHM.set_fresh; [done|]. rewrite <- LHM.contains_elem. by rewrite Ht.
Qed.

Lemma runTask_kept t s : operating s -> LinkedHashMap.contains (ti_task_id t) (tasks s) = true ->
  runTask quiet t s = Fatal "Unexpected duplicate task".
Proof using Type. intros Hs Ht. unfold runTask. by rewrite (op_aborted _ Hs), (op_connected _ Hs), Ht. Qed.

Lemma send_new st s : operating s -> fresh s -> es_state st <> TASK_STAGING ->
  callW quiet (DSendStatusUpdate st) s =
    Ret (emit (Sent (StatusUpdateMessage (make_update uuid_memory now st s)))
      (set_updates (updates s ++ [(as_c_string (uuid_memory (clock s)), make_update uuid_memory now st s)])
      (set_clock (S (clock s)) s))).
Proof using Type.
  intros Hs Hf Hst. unfold call. cbn [driver_call]. unfold when_running, sendStatusUpdate.
  rewrite (op_status _ Hs), (op_process _ Hs), (bool_decide_false _ Hst). cbn. unfold sendMessage. cbn.
  rewrite (op_channel _ Hs), LHM.set_fresh; [done|]. apply (Hf (clock s)). lia.
Qed.

Lemma ack_known tid k u s : operating s -> LinkedHashMap.get k (updates s) = Some u ->
  statusUpdateAcknowledgement tid k s =
    let s1 := set_updates (LinkedHashMap.erase k (updates s)) s in
    Ret (if bool_decide (es_state (eu_status u) = TASK_FINISHED)
         then set_tasks (LinkedHashMap.erase tid (tasks s1)) s1 else s1).
Proof using Type.
  intros Hs Hk. unfold statusUpdateAcknowledgement, LinkedHashMap.index.
  by rewrite (op_aborted _ Hs), (op_connected _ Hs), Hk.
Qed.

(** A task's id can be used again once an update that it FINISHED is
    acknowledged; after an acknowledged update of any other state, final or
    not, the process keeps the task and a second run of the id aborts it. *)
Theorem rerun_after_ack t st s : operating s -> fresh s -> es_state st <> TASK_STAGING ->
  LinkedHashMap.contains (ti_task_id t) (tasks s) = false ->
  if bool_decide (es_state st = TASK_FINISHED) then exists s', rerun t st s = Ret s'
  else rerun t st s = Fatal "Unexpected duplicate task".
Proof using Type.
  intros Hs Hf Hst Ht. unfold rerun. rewrite runTask_new by done. cbn [obind].
  set (s1 := emit _ _). assert (H1 : operating s1) by (by destruct Hs).
  rewrite (send_new st s1 H1 Hf Hst). cbn [obind]. set (s2 := emit _ _).
  assert (H2 : operating s2) by (by destruct Hs).
  rewrite (ack_known _ _ (make_update uuid_memory now st s1) s2 H2)
    by (apply LHM.get_last, (Hf (clock s)); lia).
  cbn [obind]. change (es_state (eu_status (make_update uuid_memory now st s1))) with (es_state st).
  case_bool_decide.
  - rewrite runTask_new; [by eexists|by destruct Hs|]. apply not_true_is_false.
    rewrite LHM.contains_elem, list_elem_of_fmap. intros (kv & Ek & [_ Hk]%LHM.erase_elem). by apply Hk.
  - apply runTask_kept; [by destruct Hs|]. apply LHM.contains_elem. cbn. rewrite map_app, elem_of_app. right. by left.
Qed.

End Guarantees.

(** ** A concrete run *)

Fixpoint unary (n : nat) : string :=
  match n with O => "" | S n => String (Ascii.ascii_of_nat 97) (unary n) end.

Lemma unary_c_string n : as_c_string (unary n) = unary n.
Proof. induction n as [|n IH]; [done|]. cbn [unary as_c_string]. by rewrite IH. Qed.

Lemma unary_inj i j : as_c_string (unary i) = as_c_string (unary j) -> i = j.
Proof.
  rewrite !unary_c_string. revert j. induction i as [|i IH]; intros [|j]; try done.
  cbn. intros [= E]. by rewrite (IH j E).
Qed.

Definition demo_now (_ : nat) : Z := 7.
Definition demo_quiet (_ : Callback) : list Call := [].
Definition demo_task : TaskInfo := mkTaskInfo "t-1" "s-1" None true None.
Definition demo_payload : Payload := mkPayload "e" "f" "s" demo_task "t-1" "" "data".
Definition demo_status (st : TaskState) : ExecutorStatus := mkExecutorStatus "t-1" st None None None.

Definition demo_step (i : Input) (s : State) : outcome State :=
  step unary demo_now (Some "urb://localhost") (Some "slave:urb.endpoint.3") (Some "f-1") (Some "e-1")
    demo_quiet "nested" 1 i s.
Definition demo_registered : State :=
  match ofold (fun s i => demo_step i s)
    [ICall DStart; IRegistration true; IMessage "ExecutorRegisteredMessage" false demo_payload] new_driver with
  | Ret s => s
  | Fatal _ => new_driver
  end.

#[local] Abbreviation demo_reach :=
  (reachable unary demo_now (Some "urb://localhost") (Some "slave:urb.endpoint.3") (Some "f-1") (Some "e-1")
    demo_quiet "nested").

Lemma demo_run_reachable l : forall s0 s, demo_reach s0 ->
  ofold (fun s i => demo_step i s) l s0 = Ret s -> demo_reach s.
Proof.
  induction l as [|i l IH]; intros s0 s Hr E; cbn [ofold] in E; [by injection E as <-|].
  destruct (demo_step i s0) as [s1|w] eqn:E1; [|done]. eapply IH; [|exact E]. by eapply reach_step.
Qed.

Lemma demo_reachable : demo_reach demo_registered.
Proof.
  unfold demo_registered. destruct (ofold _ _ _) as [s|w] eqn:E; [|apply reach_init].
  eapply demo_run_reachable; [apply reach_init|exact E].
Qed.

Lemma demo_operating : operating demo_registered.
Proof. by split; vm_compute. Qed.

Lemma demo_fresh : fresh unary demo_registered.
Proof. intros n _. change (map fst (updates demo_registered)) with (@nil string). set_solver. Qed.

Lemma executor_safety_witness :
  exists s', demo_step (IMessage "RunTaskMessage" false demo_payload) demo_registered = Ret s'.
Proof.
  refine (proj2 (proj2 (executor_safety unary demo_now (Some "urb://localhost") (Some "slave:urb.endpoint.3")
    (Some "f-1") (Some "e-1") demo_quiet 0 (IMessage "RunTaskMessage" false demo_payload) demo_registered
    _ demo_reachable) _ _) _ _).
  - intros c. by apply not_elem_of_nil.
  - by vm_compute.
  - intros _. by vm_compute.
  - intros c. constructor.
  - done.
Defined.

Definition demo_ops : list Op :=
  [OSend (demo_status TASK_RUNNING); OSend (demo_status TASK_FAILED); OAck "t-1" (unary 0)].

Lemma reconnect_resends_unacked_witness : exists s' s'',
  ofold (fun s o => demo_step (op_input demo_payload o) s) demo_ops demo_registered = Ret s' /\
  demo_step (IMessage "ReconnectExecutorMessage" false demo_payload) s' = Ret s'' /\
  trace s'' = trace s' ++ [Sent (ReregisterExecutor "e-1" "f-1"
    [nth_update unary demo_now demo_registered 1 (demo_status TASK_FAILED)] [] (Some "urb.endpoint.3"))].
Proof.
  destruct (reconnect_resends_unacked unary demo_now (Some "urb://localhost") (Some "slave:urb.endpoint.3")
    (Some "f-1") (Some "e-1") demo_quiet unary_inj "nested" 1 demo_payload false demo_ops demo_registered
    demo_operating demo_fresh ltac:(by repeat constructor)) as (s' & s'' & E1 & E2 & T).
  exists s', s''. split; [exact E1|]. split; [exact E2|]. rewrite T. vm_compute in E1. by injection E1 as <-.
Defined.

Lemma rerun_after_ack_witness :
  rerun unary demo_now (Some "slave:urb.endpoint.3") (Some "f-1") (Some "e-1") demo_task (demo_status TASK_FAILED)
    demo_registered = Fatal "Unexpected duplicate task".
Proof.
  exact (rerun_after_ack unary demo_now (Some "slave:urb.endpoint.3") (Some "f-1") (Some "e-1")
    demo_task (demo_status TASK_FAILED) demo_registered demo_operating demo_fresh ltac:(done)
    ltac:(by vm_compute)).
Defined.

(** Two uuids that begin with a zero byte are the same C string: the second
    update replaces the first, which is never sent again. *)
Lemma uuid_truncation_collides : exists m : nat -> string, m 0%nat <> m 1%nat /\
  exists s', ofold (fun s st => call m demo_now (Some "s") (Some "f-1") (Some "e-1") quiet (DSendStatusUpdate st) s)
    [demo_status TASK_RUNNING; demo_status TASK_FAILED] demo_registered = Ret s' /\
  length (updates s') = 1%nat.
Proof.
  exists (fun n => match n with O => String Ascii.zero "x" | _ => String Ascii.zero "y" end).
  split; [done|]. eexists. split; [by vm_compute|done].
Qed.
