(* ===== verification/EventLoop.v ===== *)
(** * Timers and the event loop (source/timer.hpp, source/evhelper.cpp)

    A [Timer] object allocates an inner timer for each delay and hands it to
    the event loop, which keeps the inner timers by fire time and runs the due
    ones.  Times are counts of deciseconds ([timer_duration]), clock readings
    counts of nanoseconds. *)
From S2P Require Import Prelude.

(** ** Data *)

(** [std::map<timer_time_point, std::list<std::shared_ptr<TimerBase>>>]: keys in
    increasing order, each with its timers. *)
Abbreviation TimerMap := (list (Z * list nat)).

Record Inner := mkInner {
  in_method : nat;
  in_fireTime : Z;
  in_active : bool;
}.

Record Loop := mkLoop {
  s_timers : TimerMap;
  inners : gmap nat Inner;             (** the inner timers allocated so far *)
  outers : gmap nat nat;               (** [inner] of each [Timer] object *)
  next_inner : nat;
  s_enabled : bool;
  repeat_ : Z;                         (** [w->repeat], in deciseconds *)
  refreshes : nat;                     (** calls of [refresh()] *)
  fired : list nat;                    (** the inner timers that ran, in order *)
}.

Definition new_loop : Loop := mkLoop [] ∅ ∅ 0 true 600 0 [].

(** [time_point_cast<deciseconds>] truncates towards zero. *)
Definition to_deci (ns : Z) : Z := Z.quot ns 100000000.

(** ** Operations *)

(** [s_timers_[key].push_back(t)], creating the entry if there is none. *)
Fixpoint push_back (key : Z) (t : nat) (m : TimerMap) : TimerMap :=
  match m with
  | [] => [(key, [t])]
  | (k, l) :: r =>
      if key <? k then (key, [t]) :: m
      else if key =? k then (k, l ++ [t]) :: r
      else (k, l) :: push_back key t r
  end.

(** [EvHelper::scheduleTimer] *)
Definition scheduleTimer (t : nat) (fireTime : Z) (s : Loop) : Loop :=
  mkLoop (push_back fireTime t (s_timers s)) (inners s) (outers s) (next_inner s) (s_enabled s) (repeat_ s)
    (S (refreshes s)) (fired s).

(** [Timer::delay]: the guard reads the outer object's [active_], which no
    operation sets. *)
Definition delay (timer : nat) (outer_active : bool) (now_ns duration_ns : Z) (method : nat) (s : Loop) : Loop :=
  if outer_active then s
  else
    let t := next_inner s in
    let fireTime := to_deci (now_ns + duration_ns) in
    scheduleTimer t fireTime
      (mkLoop (s_timers s) (<[t := mkInner method fireTime true]> (inners s)) (<[timer := t]> (outers s))
        (S t) (s_enabled s) (repeat_ s) (refreshes s) (fired s)).

Definition deactivate (i : Inner) : Inner := mkInner (in_method i) (in_fireTime i) false.

(** [Timer::cancel] *)
Definition cancel (timer : nat) (s : Loop) : Loop :=
  match outers s !! timer with
  | Some t => mkLoop (s_timers s) (alter deactivate t (inners s)) (outers s) (next_inner s) (s_enabled s)
      (repeat_ s) (refreshes s) (fired s)
  | None => s
  end.

(** [EvHelper::shutdown] *)
Definition shutdown (s : Loop) : Loop :=
  mkLoop (s_timers s) (inners s) (outers s) (next_inner s) false (repeat_ s) (S (refreshes s)) (fired s).

Section Timeout.
  (** The delays a method of the program makes when it runs:
      timer, duration and method. *)
  Context (body : nat -> list (nat * Z * nat)).
  (** The clock, read as the callbacks run. *)
  Context (now_ns : Z).

(** What a method does to timers: the delays it asks for, in order.  A method that
    cancels a timer or shuts the loop down is not followed. *)
Definition run_body (method : nat) (s : Loop) : Loop :=
  foldl (fun s d => let '(timer, duration, m) := d in delay timer false now_ns duration m s) s (body method).

(** [executeMethod]: runs an active timer once. *)
Definition executeMethod (t : nat) (s : Loop) : Loop :=
  match inners s !! t with
  | Some i =>
      if in_active i then
        run_body (in_method i)
          (mkLoop (s_timers s) (<[t := deactivate i]> (inners s)) (outers s) (next_inner s) (s_enabled s)
            (repeat_ s) (refreshes s) (fired s ++ [t]))
      else s
  | None => s
  end.

(** The entries up to [upper_bound(now)] and the rest. *)
Fixpoint split_due (now : Z) (m : TimerMap) : list (list nat) * TimerMap :=
  match m with
  | [] => ([], [])
  | (k, l) :: r => if k <=? now then let '(due, rest) := split_due now r in (l :: due, rest) else ([], m)
  end.

(** [EvHelper::timeout_cb] *)
Definition timeout_cb (s : Loop) : Loop :=
  if negb (s_enabled s) then s
  else
    let now := to_deci now_ns in
    let '(callbacks, rest) := split_due now (s_timers s) in
    let duration := match rest with [] => 600 | (k, _) :: _ => k - now end in
    let s := mkLoop rest (inners s) (outers s) (next_inner s) (s_enabled s) (repeat_ s) (refreshes s) (fired s) in
    let s := foldl (fun s t => executeMethod t s) s (concat callbacks) in
    mkLoop (s_timers s) (inners s) (outers s) (next_inner s) (s_enabled s) duration (refreshes s) (fired s).

End Timeout.

(** [EvHelper::async_cb] feeds a timeout event, which runs [timeout_cb]. *)
Definition async_cb (body : nat -> list (nat * Z * nat)) (now_ns : Z) (s : Loop) : Loop :=
  if negb (s_enabled s) then s else timeout_cb body now_ns s.

(** ** The system: what the program and the event loop may do *)

Inductive Op :=
| ODelay (timer : nat) (now_ns duration_ns : Z) (method : nat)
| OCancel (timer : nat)
| OTimeout (now_ns : Z)
| OAsync (now_ns : Z)
| OShutdown.

Definition run_op (body : nat -> list (nat * Z * nat)) (o : Op) (s : Loop) : Loop :=
  match o with
  | ODelay t n d m => delay t false n d m s
  | OCancel t => cancel t s
  | OTimeout n => timeout_cb body n s
  | OAsync n => async_cb body n s
  | OShutdown => shutdown s
  end.

Definition run_ops (body : nat -> list (nat * Z * nat)) (l : list Op) : Loop :=
  foldl (fun s o => run_op body o s) new_loop l.

(** ** The timer map *)

Definition ids (m : TimerMap) : list nat := concat (map snd m).
Arguments ids : simpl never.
Definition sorted (m : TimerMap) : Prop := StronglySorted Z.lt (map fst m).

Lemma ids_cons k l m : ids ((k, l) :: m) = l ++ ids m.
Proof. done. Qed.

Lemma push_back_keys key t m : Forall (fun k => k = key \/ k ∈ map fst m) (map fst (push_back key t m)).
Proof.
  induction m as [|[k l] m IH]; cbn [push_back]; [by repeat constructor; left|].
  destruct (Z.ltb_spec key k).
  { constructor; [by left|]. apply Forall_forall. intros x Hx. by right. }
  destruct (Z.eqb_spec key k) as [->|].
  { apply Forall_forall. intros x Hx. by right. }
  cbn. constructor; [right; by left|]. eapply Forall_impl; [exact IH|]. intros x [->|Hx]; [by left|].
  right. by right.
Qed.

Lemma push_back_sorted key t m : sorted m -> sorted (push_back key t m).
Proof.
  unfold sorted. induction m as [|[k l] m IH]; cbn; intros Hs; [by repeat constructor|].
  apply StronglySorted_inv in Hs as [Hs Hk]. destruct (Z.ltb_spec key k).
  { cbn. repeat constructor; [done|done|lia|]. eapply Forall_impl; [exact Hk|]. cbn. lia. }
  destruct (Z.eqb_spec key k); cbn; [by constructor|]. constructor; [by apply IH|].
  eapply Forall_impl; [apply push_back_keys|]. cbn. intros x [->|Hx]; [lia|].
  by apply (proj1 (Forall_forall _ _) Hk).
Qed.

Lemma push_back_ids key t m : ids (push_back key t m) ≡ₚ t :: ids m.
Proof.
  induction m as [|[k l] m IH]; cbn [push_back]; [done|].
  destruct (key <? k); [done|]. destruct (key =? k); rewrite !ids_cons.
  - rewrite <- app_assoc. cbn. by rewrite <- Permutation_middle.
  - rewrite IH. by rewrite <- Permutation_middle.
Qed.

(** The timers filed under a key. *)
Definition filed (m : TimerMap) (k : Z) (t : nat) : Prop := exists l, (k, l) ∈ m /\ t ∈ l.

Lemma filed_cons k' l' m k t : filed ((k', l') :: m) k t <-> (k = k' /\ t ∈ l') \/ filed m k t.
Proof.
  unfold filed. setoid_rewrite elem_of_cons. split.
  - intros (l & [[= -> ->]|H] & Ht); [by left|right; by exists l].
  - intros [[-> Ht]|(l & H & Ht)]; [exists l'; by split; [left|]|exists l; by split; [right|]].
Qed.

Lemma push_back_filed key t m k t' :
  filed (push_back key t m) k t' <-> (k = key /\ t' = t) \/ filed m k t'.
Proof.
  induction m as [|[k0 l] m IH]; cbn [push_back].
  { rewrite filed_cons, list_elem_of_singleton. done. }
  destruct (key <? k0); [by rewrite filed_cons, list_elem_of_singleton|].
  destruct (Z.eqb_spec key k0) as [->|]; rewrite !filed_cons.
  - rewrite elem_of_app, list_elem_of_singleton. naive_solver.
  - rewrite IH. naive_solver.
Qed.

Lemma filed_ids m t : t ∈ ids m <-> exists k, filed m k t.
Proof.
  unfold ids. rewrite elem_of_concat_map. unfold filed. split.
  - intros ([k l] & H & Ht). by exists k, l.
  - intros (k & l & H & Ht). by exists (k, l).
Qed.

(** What [split_due] takes and leaves. *)
Lemma split_due_spec now m due rest : sorted m -> split_due now m = (due, rest) ->
  ids m = concat due ++ ids rest /\ sorted rest /\
  (forall k t, filed rest k t <-> filed m k t /\ now < k) /\
  (forall t, t ∈ concat due <-> exists k, filed m k t /\ k <= now) /\
  Forall (fun kl => now < kl.1) rest.
Proof.
  revert due rest. induction m as [|[k l] m IH]; cbn [split_due]; intros due rest Hs E.
  { injection E as <- <-. split_and!; try done; unfold filed; set_solver. }
  unfold sorted in Hs. cbn in Hs. apply StronglySorted_inv in Hs as [Hs Hk].
  destruct (Z.leb_spec k now) as [Hle|Hgt].
  - destruct (split_due now m) as [due' rest'] eqn:E'. injection E as <- <-.
    destruct (IH due' rest' Hs eq_refl) as (H1 & H2 & H3 & H4 & H5). split_and!; try done.
    + by rewrite ids_cons, H1, app_assoc.
    + intros k' t. rewrite H3, filed_cons. split; [naive_solver|]. intros [[[-> _]|?] ?]; [lia|done].
    + intros t. cbn. rewrite elem_of_app, H4. setoid_rewrite filed_cons. split.
      * intros [Ht|(k' & ? & ?)]; [exists k; split; [by left|done]|exists k'; split; [by right|done]].
      * intros (k' & [[-> Ht]|Ht] & ?); [by left|right; by exists k'].
  - injection E as <- <-.
    assert (Hall : Forall (fun kl : Z * list nat => now < kl.1) ((k, l) :: m)).
    { constructor; [done|]. apply Forall_forall. intros [k' l'] Hin.
      assert (k < k') by (apply (proj1 (Forall_forall _ _) Hk), list_elem_of_fmap; by exists (k', l')). cbn. lia. }
    assert (Hf : forall k' t, filed ((k, l) :: m) k' t -> now < k').
    { intros k' t (l' & Hl & _). exact (proj1 (Forall_forall _ _) Hall _ Hl). }
    split_and!; try done.
    + by constructor.
    + intros k' t. split; [|naive_solver]. intros H. split; [done|by eapply Hf].
    + intros t. split; [set_solver|]. intros (k' & H & Hle). apply Hf in H. lia.
Qed.

(** ** The invariant *)

Definition is_active (s : Loop) (t : nat) : bool :=
  match inners s !! t with Some i => in_active i | None => false end.

(** An inner timer that exists and will not run. *)
Definition off (s : Loop) (t : nat) : Prop := is_Some (inners s !! t) /\ is_active s t = false.

(** While the timers [due] are being run: no timer is filed or due twice,
    every filed timer is under its fire time, an active timer is filed or due,
    and a timer that has fired is inactive and fired once. *)
Record LInv (due : list nat) (s : Loop) : Prop := {
  li_sorted : sorted (s_timers s);
  li_nodup : NoDup (due ++ ids (s_timers s));
  li_filed : forall k t, filed (s_timers s) k t -> exists i, inners s !! t = Some i /\ in_fireTime i = k;
  li_due : forall t, t ∈ due -> is_Some (inners s !! t);
  li_alloc : forall t, is_Some (inners s !! t) -> (t < next_inner s)%nat;
  li_pending : forall t i, inners s !! t = Some i -> in_active i = true ->
    t ∈ due \/ filed (s_timers s) (in_fireTime i) t;
  li_fired : forall t, t ∈ fired s -> is_Some (inners s !! t) /\ is_active s t = false;
  li_once : NoDup (fired s);
  li_outers : forall x t, outers s !! x = Some t -> is_Some (inners s !! t);
}.

(** Scheduling only adds timers. *)
Record grows (s s' : Loop) : Prop := {
  gr_inners : forall t, is_Some (inners s !! t) -> inners s' !! t = inners s !! t;
  gr_filed : forall k t, filed (s_timers s) k t -> filed (s_timers s') k t;
  gr_new : forall k t, filed (s_timers s') k t -> filed (s_timers s) k t \/ (next_inner s <= t)%nat;
  gr_next : (next_inner s <= next_inner s')%nat;
  gr_fired : fired s' = fired s;
  gr_enabled : s_enabled s' = s_enabled s;
}.

Lemma grows_refl s : grows s s.
Proof. split; auto. Qed.

Lemma grows_trans s1 s2 s3 : grows s1 s2 -> grows s2 s3 -> grows s1 s3.
Proof.
  intros [A1 A2 A3 A4 A5 A6] [B1 B2 B3 B4 B5 B6]. split; [| |  |lia|congruence|congruence].
  - intros t Ht. rewrite B1; [by apply A1|]. by rewrite A1.
  - auto.
  - intros k t [H|H]%B3; [by apply A3|right; lia].
Qed.

Lemma delay_spec due timer now d m s : LInv due s ->
  LInv due (delay timer false now d m s) /\ grows s (delay timer false now d m s).
Proof.
  intros [H1 H2 H3 H4 H5 H6 H7 H8 H9]. cbn [delay].
  assert (Hn : inners s !! next_inner s = None).
  { destruct (inners s !! next_inner s) eqn:E; [|done].
    assert (next_inner s < next_inner s)%nat by (apply H5; by rewrite E). lia. }
  assert (Hne : forall t, is_Some (inners s !! t) -> t <> next_inner s) by (intros t Ht ->; by rewrite Hn in Ht; destruct Ht).
  assert (Hfresh : next_inner s ∉ due ++ ids (s_timers s)).
  { rewrite elem_of_app. intros [H|H]; [by apply (Hne (next_inner s)); auto|].
    apply filed_ids in H as [k H]. apply H3 in H as (i & E & _). congruence. }
  assert (Hframe : forall i t, is_Some (inners s !! t) -> <[next_inner s := i]> (inners s) !! t = inners s !! t).
  { intros i t Ht. apply lookup_insert_ne. by apply not_eq_sym, Hne. }
  split; split; cbn; auto.
  - by apply push_back_sorted.
  - rewrite push_back_ids, <- Permutation_middle. by constructor.
  - intros k t [[-> ->]|Hf]%push_back_filed; [rewrite lookup_insert_eq; by eexists|].
    destruct (H3 k t Hf) as (i & E & Ei). exists i. split; [|done]. rewrite Hframe; [done|]. by rewrite E.
  - intros t Ht. rewrite Hframe; auto.
  - intros t Ht. destruct (decide (t = next_inner s)) as [->|N]; [lia|].
    rewrite lookup_insert_ne in Ht by done. apply H5 in Ht. lia.
  - intros t i. destruct (decide (t = next_inner s)) as [->|N].
    + rewrite lookup_insert_eq. intros [= <-] _. right. apply push_back_filed. by left.
    + rewrite lookup_insert_ne by done. intros E Ea. destruct (H6 t i E Ea); [by left|].
      right. apply push_back_filed. by right.
  - intros t Ht. destruct (H7 t Ht) as [Hs Ha]. unfold is_active in *. cbn. by rewrite Hframe.
  - intros x t. destruct (decide (x = timer)) as [->|N].
    + rewrite lookup_insert_eq. intros [= <-]. by rewrite lookup_insert_eq.
    + rewrite lookup_insert_ne by done. intros Hx. rewrite Hframe; eauto.
  - intros k t Hf. apply push_back_filed. by right.
  - intros k t [[-> ->]|Hf]%push_back_filed; [right; lia|by left].
Qed.

Section Bodies.
  Context (body : nat -> list (nat * Z * nat)) (now_ns : Z).

Lemma run_body_spec due m s : LInv due s ->
  LInv due (run_body body now_ns m s) /\ grows s (run_body body now_ns m s).
Proof.
  unfold run_body. generalize (body m). intros l. revert s. induction l as [|[[timer d] m'] l IH]; intros s Hs; cbn.
  { split; [done|apply grows_refl]. }
  destruct (delay_spec due timer now_ns d m' s Hs) as [H1 G1]. destruct (IH _ H1) as [H2 G2].
  split; [done|]. by eapply grows_trans.
Qed.

(** The state in which a timer's method starts. *)
Definition firing (t : nat) (i : Inner) (s : Loop) : Loop :=
  mkLoop (s_timers s) (<[t := deactivate i]> (inners s)) (outers s) (next_inner s) (s_enabled s)
    (repeat_ s) (refreshes s) (fired s ++ [t]).

Lemma firing_inv t i due s : LInv (t :: due) s -> inners s !! t = Some i -> in_active i = true ->
  LInv due (firing t i s).
Proof.
  intros [H1 H2 H3 H4 H5 H6 H7 H8 H9] Ei Ea.
  assert (Hsome : forall x, is_Some (<[t := deactivate i]> (inners s) !! x) <-> is_Some (inners s !! x)).
  { intros x. destruct (decide (x = t)) as [->|N]; [|by rewrite lookup_insert_ne].
    rewrite lookup_insert_eq, Ei. by split. }
  apply NoDup_cons in H2 as [Hnt H2].
  assert (Hnf : t ∉ fired s) by (intros [_ Ha]%H7; unfold is_active in Ha; rewrite Ei in Ha; congruence).
  split; cbn; auto.
  - intros k x Hf. destruct (H3 k x Hf) as (j & Ej & Ek). destruct (decide (x = t)) as [->|N].
    + exfalso. apply Hnt. apply elem_of_app. right. apply filed_ids. by exists k.
    + exists j. by rewrite lookup_insert_ne.
  - intros x Hx. apply Hsome, H4. by right.
  - intros x Hx. by apply H5, Hsome.
  - intros x j. destruct (decide (x = t)) as [->|N].
    + rewrite lookup_insert_eq. by intros [= <-].
    + rewrite lookup_insert_ne by done. intros Ej Ha. destruct (H6 x j Ej Ha) as [Hd|]; [|by right].
      apply elem_of_cons in Hd as [->|]; [done|by left].
  - intros x [Hx| ->%list_elem_of_singleton]%elem_of_app.
    + destruct (H7 x Hx) as [Hs Ha]. rewrite Hsome. split; [done|]. unfold is_active in *. cbn.
      rewrite lookup_insert_ne; [done|]. by intros ->.
    + rewrite Hsome, Ei. split; [done|]. unfold is_active. cbn. by rewrite lookup_insert_eq.
  - apply NoDup_app. split_and!; [done| |apply NoDup_singleton]. by intros x Hx ->%list_elem_of_singleton.
  - intros x t' Hx. apply Hsome. eauto.
Qed.

Lemma LInv_skip t due s : LInv (t :: due) s -> is_active s t = false -> LInv due s.
Proof.
  intros [H1 H2 H3 H4 H5 H6 H7 H8 H9] Ha. split; auto.
  - cbn in H2. by apply NoDup_cons in H2 as [_ H2].
  - intros x Hx. apply H4. by right.
  - intros x i Ei Ei'. destruct (H6 x i Ei Ei') as [Hd|]; [|by right].
    apply elem_of_cons in Hd as [->|]; [|by left]. unfold is_active in Ha. rewrite Ei in Ha. congruence.
Qed.

Lemma execute_all due : forall s, LInv due s ->
  let s' := foldl (fun s t => executeMethod body now_ns t s) s due in
  LInv [] s' /\ fired s' = fired s ++ List.filter (is_active s) due /\
  (forall k t, filed (s_timers s) k t -> filed (s_timers s') k t) /\
  (forall k t, filed (s_timers s') k t -> filed (s_timers s) k t \/ (next_inner s <= t)%nat) /\
  (forall t, off s t -> off s' t).
Proof.
  induction due as [|t due IH]; intros s Hs; cbn [foldl].
  { cbn. rewrite app_nil_r. split_and!; auto. }
  destruct (li_due _ _ Hs t (list_elem_of_here _ _)) as [i Ei].
  unfold executeMethod at 2 4 6 8 10. rewrite Ei. cbn [List.filter]. unfold is_active at 1. rewrite Ei.
  destruct (in_active i) eqn:Ea; cycle 1.
  { apply IH. eapply LInv_skip; [exact Hs|]. unfold is_active. by rewrite Ei. }
  pose proof (firing_inv t i due s Hs Ei Ea) as H1. fold (firing t i s).
  destruct (run_body_spec due (in_method i) _ H1) as [H2 [G1 G2 G3 G4 G5 G6]].
  destruct (IH _ H2) as (H3 & F3 & P3 & N3 & E3). split_and!; [done| | | |].
  - rewrite F3, G5. cbn. rewrite <- app_assoc. cbn. do 2 f_equal. apply List.filter_ext_in.
    intros x Hx%list_elem_of_In. unfold is_active. rewrite G1; [|by apply H1].
    pose proof (li_nodup _ _ Hs) as Hnd. cbn in Hnd. apply NoDup_cons in Hnd as [Hnt _].
    cbn. rewrite lookup_insert_ne; [done|]. intros ->. apply Hnt, elem_of_app. by left.
  - intros k x Hf. apply P3, G2. exact Hf.
  - intros k x Hf. destruct (N3 k x Hf) as [Hf'|Hf']; [apply (G3 k x Hf')|right; cbn in G4; lia].
  - intros x [Hx Ha]. apply E3. unfold off, is_active. rewrite G1; cbn.
    + destruct (decide (x = t)) as [->|N]; [by rewrite lookup_insert_eq|by rewrite lookup_insert_ne].
    + destruct (decide (x = t)) as [->|N]; [by rewrite lookup_insert_eq|by rewrite lookup_insert_ne].
Qed.

(** A timeout starts by taking the due timers out of the map. *)
Lemma take_due s due rest : LInv [] s -> split_due (to_deci now_ns) (s_timers s) = (due, rest) ->
  LInv (concat due) (mkLoop rest (inners s) (outers s) (next_inner s) (s_enabled s) (repeat_ s) (refreshes s) (fired s)).
Proof.
  intros [H1 H2 H3 H4 H5 H6 H7 H8 H9] E.
  destruct (split_due_spec _ _ _ _ H1 E) as (Eids & Hs & Hrest & Hdue & _). split; cbn; auto.
  - by rewrite <- Eids.
  - intros k t [Hf _]%Hrest. auto.
  - intros t (k & Hf & _)%Hdue. destruct (H3 k t Hf) as (i & Ei & _). by rewrite Ei.
  - intros t i Ei Ea. destruct (H6 t i Ei Ea) as [Hd|Hf]; [by apply not_elem_of_nil in Hd|].
    destruct (decide (in_fireTime i <= to_deci now_ns)) as [Hle|Hgt].
    + left. apply Hdue. by exists (in_fireTime i).
    + right. apply Hrest. split; [done|lia].
Qed.

Lemma LInv_set_repeat due d s : LInv due s ->
  LInv due (mkLoop (s_timers s) (inners s) (outers s) (next_inner s) (s_enabled s) d (refreshes s) (fired s)).
Proof. intros []. by split. Qed.

Lemma timeout_inv s : LInv [] s -> LInv [] (timeout_cb body now_ns s).
Proof.
  intros Hs. unfold timeout_cb. destruct (negb (s_enabled s)); [done|].
  destruct (split_due _ _) as [due rest] eqn:E.
  apply LInv_set_repeat. by apply execute_all, take_due.
Qed.

End Bodies.

(** ** Reachable states *)

Lemma cancel_inv timer s : LInv [] s -> LInv [] (cancel timer s).
Proof.
  intros Hs. unfold cancel. destruct (outers s !! timer) as [t|] eqn:Et; [|done].
  destruct Hs as [H1 H2 H3 H4 H5 H6 H7 H8 H9].
  assert (Hl : forall x, alter deactivate t (inners s) !! x =
    (if decide (x = t) then deactivate <$> inners s !! x else inners s !! x)).
  { intros x. destruct (decide (x = t)) as [->|N]; [by rewrite lookup_alter_eq|by rewrite lookup_alter_ne]. }
  assert (Hsome : forall x, is_Some (alter deactivate t (inners s) !! x) <-> is_Some (inners s !! x)).
  { intros x. rewrite Hl. destruct (decide _); [|done]. apply fmap_is_Some. }
  split; cbn; auto.
  - intros k x Hf. destruct (H3 k x Hf) as (i & Ei & Ek). rewrite Hl, Ei. destruct (decide _); cbn; by eexists.
  - intros x Hx. by apply Hsome, H4.
  - intros x Hx. by apply H5, Hsome.
  - intros x i. rewrite Hl. destruct (decide _); [|by apply H6].
    destruct (inners s !! x) as [j|] eqn:Ej; cbn; [|done]. by intros [= <-].
  - intros x Hx. destruct (H7 x Hx) as [Hs Ha]. rewrite Hsome. split; [done|].
    unfold is_active in *. cbn. rewrite Hl. destruct (decide _); [|done]. by destruct (inners s !! x).
  - intros x y Hx. apply Hsome. eauto.
Qed.

Lemma run_op_inv body o s : LInv [] s -> LInv [] (run_op body o s).
Proof.
  intros Hs. destruct o; cbn [run_op].
  - by apply delay_spec.
  - by apply cancel_inv.
  - by apply timeout_inv.
  - unfold async_cb. destruct (negb _); [done|]. by apply timeout_inv.
  - by destruct Hs.
Qed.

Lemma foldl_ops_inv body l : forall s, LInv [] s -> LInv [] (foldl (fun s o => run_op body o s) s l).
Proof. induction l as [|o l IH]; intros s Hs; cbn; [done|]. by apply IH, run_op_inv. Qed.

Lemma run_ops_inv body l : LInv [] (run_ops body l).
Proof.
  apply foldl_ops_inv. split; cbn.
  - constructor.
  - constructor.
  - by intros k t (? & H%not_elem_of_nil & _).
  - by intros t H%not_elem_of_nil.
  - intros t [i H]. by rewrite lookup_empty in H.
  - intros t i H. by rewrite lookup_empty in H.
  - by intros t H%not_elem_of_nil.
  - constructor.
  - intros x t H. by rewrite lookup_empty in H.
Qed.

(** C23: whatever delays, cancellations, wake-ups and shutdowns the program
    makes, no inner timer runs twice, the timer map stays ordered by fire time
    without duplicates, and every timer still active is filed under the time
    it was asked to fire at, so no timer is lost. *)
Theorem timers_fire_once body l : let s := run_ops body l in
  NoDup (fired s) /\ sorted (s_timers s) /\ NoDup (ids (s_timers s)) /\
  (forall t i, inners s !! t = Some i -> in_active i = true -> filed (s_timers s) (in_fireTime i) t) /\
  (forall t, t ∈ fired s -> is_active s t = false).
Proof.
  intros s. destruct (run_ops_inv body l) as [H1 H2 H3 H4 H5 H6 H7 H8 H9]. fold s in H1, H2, H6, H7, H8.
  split_and!; try done.
  - intros t i Ei Ea. destruct (H6 t i Ei Ea) as [H|]; [by apply not_elem_of_nil in H|done].
  - intros t Ht. by apply H7.
Qed.

(** ** The order of the timers that are due *)

(** Timers that are filed under one time are in the order of their scheduling:
    inner timers are numbered as they are scheduled. *)
Definition fifo (m : TimerMap) : Prop := Forall (fun kl => StronglySorted lt kl.2) m.

Lemma push_back_fifo key t m : fifo m -> (forall k t', filed m k t' -> (t' < t)%nat) -> fifo (push_back key t m).
Proof.
  unfold fifo. induction m as [|[k l] m IH]; cbn [push_back]; intros Hf Hlt; [by repeat constructor|].
  pose proof Hf as [Hl Hm]%Forall_cons. cbn in Hl.
  destruct (key <? k); [by repeat constructor|]. destruct (Z.eqb_spec key k) as [->|]; constructor; try done.
  - cbn. apply StronglySorted_app_2; [|done|by repeat constructor].
    intros x y Hx ->%list_elem_of_singleton. apply (Hlt k). apply filed_cons. by left.
  - apply IH; [done|]. intros k' t' Hk. apply (Hlt k'). apply filed_cons. by right.
Qed.

Lemma delay_fifo due timer now d m s : LInv due s -> fifo (s_timers s) -> fifo (s_timers (delay timer false now d m s)).
Proof.
  intros Hs Hf. cbn. apply push_back_fifo; [done|]. intros k t (i & Ei & _)%(li_filed _ _ Hs).
  apply (li_alloc _ _ Hs). by rewrite Ei.
Qed.

Lemma run_body_fifo body now_ns due m s : LInv due s -> fifo (s_timers s) -> fifo (s_timers (run_body body now_ns m s)).
Proof.
  unfold run_body. generalize (body m). intros l. revert s. induction l as [|[[timer d] m'] l IH]; intros s Hs Hf; cbn [foldl]; [done|].
  apply IH; [exact (proj1 (delay_spec due timer now_ns d m' s Hs))|by eapply delay_fifo].
Qed.

Lemma execute_all_fifo body now_ns due : forall s, LInv due s -> fifo (s_timers s) ->
  fifo (s_timers (foldl (fun s t => executeMethod body now_ns t s) s due)).
Proof.
  induction due as [|t due IH]; intros s Hs Hf; cbn [foldl]; [done|].
  destruct (li_due _ _ Hs t (list_elem_of_here _ _)) as [i Ei]. unfold executeMethod at 2. rewrite Ei.
  destruct (in_active i) eqn:Ea.
  - pose proof (firing_inv t i due s Hs Ei Ea) as H1. fold (firing t i s).
    apply IH; [exact (proj1 (run_body_spec body now_ns due (in_method i) _ H1))|by eapply run_body_fifo].
  - apply IH; [|done]. eapply LInv_skip; [exact Hs|]. unfold is_active. by rewrite Ei.
Qed.

Lemma split_due_rest now m due rest : split_due now m = (due, rest) -> exists l, m = l ++ rest.
Proof.
  revert due rest. induction m as [|[k l] m IH]; cbn; intros due rest E; [injection E as _ <-; by exists []|].
  destruct (k <=? now); [|injection E as _ <-; by exists []].
  destruct (split_due now m) as [due' rest']. injection E as _ <-.
  destruct (IH _ _ eq_refl) as [l' ->]. by exists ((k, l) :: l').
Qed.

Lemma timeout_fifo body now_ns s : LInv [] s -> fifo (s_timers s) -> fifo (s_timers (timeout_cb body now_ns s)).
Proof.
  intros Hs Hf. unfold timeout_cb. destruct (negb (s_enabled s)); [done|]. destruct (split_due _ _) as [due rest] eqn:E.
  apply execute_all_fifo; [exact (take_due now_ns s due rest Hs E)|]. cbn. apply split_due_rest in E as [l El]. rewrite El in Hf.
  by apply Forall_app in Hf as [_ ?].
Qed.

Lemma run_ops_fifo body l : fifo (s_timers (run_ops body l)).
Proof.
  unfold run_ops. assert (H : LInv [] new_loop /\ fifo (s_timers new_loop)) by (split; [apply (run_ops_inv body [])|constructor]).
  revert H. generalize new_loop. induction l as [|o l IH]; intros s [Hs Hf]; cbn [foldl]; [done|].
  apply IH. split; [by apply run_op_inv|]. destruct o; cbn [run_op].
  - by eapply delay_fifo.
  - unfold cancel. by destruct (outers s !! timer).
  - by apply timeout_fifo.
  - unfold async_cb. destruct (negb _); [done|by apply timeout_fifo].
  - done.
Qed.

(** By fire time, and by scheduling among equal ones. *)
Definition fire_time (s : Loop) (t : nat) : Z := match inners s !! t with Some i => in_fireTime i | None => 0 end.
Definition before (s : Loop) (t t' : nat) : Prop :=
  fire_time s t < fire_time s t' \/ (fire_time s t = fire_time s t' /\ (t < t')%nat).

Lemma ids_before s m : sorted m -> fifo m -> (forall k t, filed m k t -> fire_time s t = k) -> StronglySorted (before s) (ids m).
Proof.
  unfold sorted, fifo. induction m as [|[k l] m IH]; [constructor|]. cbn [map fst].
  intros [Hs Hk]%StronglySorted_inv [Hl Hf]%Forall_cons Ht. rewrite ids_cons.
  assert (Hkl : forall t, t ∈ l -> fire_time s t = k) by (intros t H; apply Ht, filed_cons; by left).
  assert (Hkm : forall k' t, filed m k' t -> fire_time s t = k') by (intros k' t H; apply Ht, filed_cons; by right).
  apply StronglySorted_app_2; [| |by apply IH].
  - intros t t' H1 [k' H2]%filed_ids. left. rewrite (Hkl t H1), (Hkm k' t' H2).
    destruct H2 as (l' & Hin & _). apply (proj1 (Forall_forall _ _) Hk), list_elem_of_fmap. by exists (k', l').
  - clear -Hl Hkl. cbn in Hl. induction Hl as [|t l Hl IH Hlt]; constructor.
    + apply IH. intros t' H. apply Hkl. by right.
    + apply Forall_forall. intros t' H. right. rewrite !Hkl by (by left || by right). split; [done|].
      by apply (proj1 (Forall_forall _ _) Hlt).
Qed.

(** A timer that is newly scheduled asks for a refresh. *)
Lemma run_body_refreshes body now_ns m s : (refreshes s <= refreshes (run_body body now_ns m s))%nat /\
  (refreshes (run_body body now_ns m s) = refreshes s -> s_timers (run_body body now_ns m s) = s_timers s).
Proof.
  unfold run_body. generalize (body m). intros l. revert s. induction l as [|[[timer d] m'] l IH]; intros s; cbn [foldl]; [done|].
  destruct (IH (delay timer false now_ns d m' s)) as [H1 H2]. split; [cbn in *; lia|]. intros E. cbn in *. lia.
Qed.

Lemma execute_all_refreshes body now_ns due : forall s, let s' := foldl (fun s t => executeMethod body now_ns t s) s due in
  (refreshes s <= refreshes s')%nat /\ (refreshes s' = refreshes s -> s_timers s' = s_timers s).
Proof.
  induction due as [|t due IH]; intros s; cbn [foldl]; [done|].
  assert (H : (refreshes s <= refreshes (executeMethod body now_ns t s))%nat /\
    (refreshes (executeMethod body now_ns t s) = refreshes s -> s_timers (executeMethod body now_ns t s) = s_timers s)).
  { unfold executeMethod. destruct (inners s !! t) as [i|]; [|done]. destruct (in_active i); [|done].
    destruct (run_body_refreshes body now_ns (in_method i) (firing t i s)) as [H1 H2]. by split. }
  destruct H as [H1 H2], (IH (executeMethod body now_ns t s)) as [H3 H4]. split; [lia|].
  intros E. rewrite H4, H2 by lia. done.
Qed.


(** A timer that is off stays off and never runs. *)
Lemma run_op_off body o s t : LInv [] s -> off s t -> t ∉ fired s ->
  off (run_op body o s) t /\ t ∉ fired (run_op body o s).
Proof.
  intros Hs Hoff Hnf.
  assert (Htimeout : forall now, off (timeout_cb body now s) t /\ t ∉ fired (timeout_cb body now s)).
  { intros now. unfold timeout_cb. destruct (negb (s_enabled s)); [done|].
    destruct (split_due _ _) as [due rest] eqn:E.
    destruct (execute_all body now _ _ (take_due now _ _ _ Hs E)) as (_ & F & _ & _ & O). cbn in F, O.
    split; [by apply O|]. cbn. rewrite F, elem_of_app. intros [?|[_ Ha]%list_elem_of_In%filter_In]; [done|].
    destruct Hoff as [_ Hoff]. unfold is_active in *. cbn in Ha. congruence. }
  destruct o; cbn [run_op]; try done.
  - destruct (delay_spec [] timer now_ns duration_ns method s Hs) as [_ [G1 _ _ _ G5 _]].
    rewrite G5. split; [|done]. unfold off, is_active in *. rewrite G1; [done|apply Hoff].
  - unfold cancel. destruct (outers s !! timer) as [t'|]; [|done]. split; [|done].
    destruct Hoff as [H1 H2]. unfold off, is_active in *. cbn. destruct (decide (t' = t)) as [->|N].
    + rewrite lookup_alter_eq. destruct (inners s !! t); [by split|by destruct H1].
    + by rewrite lookup_alter_ne.
  - unfold async_cb. by destruct (negb _).
Qed.

Lemma run_ops_off body l : forall s t, LInv [] s -> off s t -> t ∉ fired s ->
  t ∉ fired (foldl (fun s o => run_op body o s) s l).
Proof.
  induction l as [|o l IH]; intros s t Hs Hoff Hnf; cbn; [done|].
  destruct (run_op_off body o s t Hs Hoff Hnf). apply IH; [by apply run_op_inv|done|done].
Qed.

(** Cancelling a [Timer] stops the delay it was asked for last, if it has
    not run: nothing that happens later runs it. *)
Theorem cancelled_never_fires body l1 timer l2 t :
  outers (run_ops body l1) !! timer = Some t -> t ∉ fired (run_ops body l1) ->
  t ∉ fired (run_ops body (l1 ++ OCancel timer :: l2)).
Proof.
  intros Ht Hnf. pose proof (run_ops_inv body l1) as Hs. unfold run_ops in *. rewrite foldl_app. cbn [foldl].
  apply run_ops_off.
  - by apply run_op_inv.
  - cbn [run_op]. unfold cancel. rewrite Ht. unfold off, is_active. cbn. rewrite lookup_alter_eq.
    destruct (li_outers _ _ Hs timer t Ht) as [i ->]. by split.
  - cbn [run_op]. unfold cancel. by rewrite Ht.
Qed.

(** ** Concrete runs *)

(** A method that does nothing, and one that delays itself by a second. *)
Definition demo_body (m : nat) : list (nat * Z * nat) :=
  match m with O => [] | _ => [(1%nat, 1000000000, m)] end.

Definition demo_ops : list Op :=
  [ODelay 0 0 200000000 0; ODelay 1 0 100000000 1; ODelay 2 0 250000000 0].


Lemma cancelled_never_fires_witness :
  0%nat ∉ fired (run_ops demo_body (demo_ops ++ OCancel 0 :: [OTimeout 900000000])).
Proof.
  apply (cancelled_never_fires demo_body demo_ops 0 [OTimeout 900000000] 0); [by vm_compute|].
  change (fired (run_ops demo_body demo_ops)) with (@nil nat). apply not_elem_of_nil.
Defined.

(** [delay] on a timer that is already pending starts a second inner timer,
    and [cancel] then stops only that one. *)
Lemma cancel_misses_earlier_delay :
  fired (run_ops demo_body [ODelay 0 0 0 0; ODelay 0 0 0 0; OCancel 0; OTimeout 0]) = [0%nat].
Proof. by vm_compute. Qed.
