(* ===== verification/Heartbeat.v ===== *)
(** * The heartbeats of a channel (source/message_broker_redis.cpp)

    [setHeartbeatPayload] is called at every registration and starts the
    heartbeat timer of the channel unless the timer says it is active; the
    heartbeat itself writes a message and starts the timer again.  Both go
    through the timers of the event loop. *)
From S2P Require Import Prelude EventLoop.

Section Heartbeat.
  (** The channel's [heartbeatTimer_], and the method [RedisChannel::sendHeartbeat]. *)
  Context (heartbeatTimer sendHeartbeat : nat).
  (** What the other methods of the program delay when they run. *)
  Context (other : nat -> list (nat * Z * nat)).

(** [delaySeconds_(60)], in nanoseconds *)
Definition delay_ns : Z := 60 * 1000000000.

(** [Timer::getActive] on the channel's own object: [TimerBase()] and [cancel]
    clear it, and [delay] sets the flag of the inner timer only. *)
Definition getActive : bool := false.

(** [RedisChannel::setHeartbeatPayload], as far as timers go *)
Definition setHeartbeatPayload (now_ns : Z) (s : Loop) : Loop :=
  if negb getActive then delay heartbeatTimer getActive now_ns delay_ns sendHeartbeat s else s.

(** [RedisChannel::sendHeartbeat]: [write] catches its exceptions, so the timer
    is always started again. *)
Definition body (m : nat) : list (nat * Z * nat) :=
  if decide (m = sendHeartbeat) then [(heartbeatTimer, delay_ns, sendHeartbeat)] else other m.

Inductive Op :=
| ORegister (now_ns : Z)                              (** a registration *)
| ODelay (timer : nat) (now_ns d : Z) (method : nat)  (** other timers of the program *)
| OCancel (timer : nat)
| OTimeout (now_ns : Z).                              (** the loop wakes up *)

Definition run_op (o : Op) (s : Loop) : Loop :=
  match o with
  | ORegister n => setHeartbeatPayload n s
  | ODelay t n d m => delay t false n d m s
  | OCancel t => cancel t s
  | OTimeout n => timeout_cb body n s
  end.

Definition run_ops (l : list Op) : Loop := foldl (fun s o => run_op o s) new_loop l.

(** The rest of the program leaves the channel's timer alone. *)
Definition elsewhere (o : Op) : Prop :=
  match o with
  | ORegister _ | OTimeout _ => True
  | ODelay t _ _ m => t <> heartbeatTimer /\ m <> sendHeartbeat
  | OCancel t => t <> heartbeatTimer
  end.

Definition is_register (o : Op) : bool := match o with ORegister _ => true | _ => false end.
Definition registrations (l : list Op) : nat := length (List.filter is_register l).

(** The heartbeats that are pending. *)
Definition beats_in (m : gmap nat Inner) : gmap nat Inner :=
  filter (fun kv : nat * Inner => in_active kv.2 = true /\ in_method kv.2 = sendHeartbeat) m.
Definition beats (s : Loop) : nat := size (beats_in (inners s)).

Hypothesis other_elsewhere : forall m t d m', (t, d, m') ∈ other m -> t <> heartbeatTimer /\ m' <> sendHeartbeat.

(** The next inner timer is new, and only the channel's timer points to a heartbeat. *)
Record HInv (s : Loop) : Prop := {
  hi_fresh : forall t, (next_inner s <= t)%nat -> inners s !! t = None;
  hi_alloc : forall x t, outers s !! x = Some t -> (t < next_inner s)%nat;
  hi_outer : forall x t i, outers s !! x = Some t -> inners s !! t = Some i -> in_method i = sendHeartbeat ->
    x = heartbeatTimer;
}.

Definition beating (i : Inner) : Prop := in_active i = true /\ in_method i = sendHeartbeat.
#[local] Instance beating_dec i : Decision (beating i).
Proof. unfold beating. apply _. Defined.

Lemma beats_insert_new t i m : m !! t = None ->
  size (beats_in (<[t := i]> m)) = (size (beats_in m) + if decide (beating i) then 1 else 0)%nat.
Proof.
  intros Hn. unfold beats_in. destruct (decide (beating i)) as [Hp|Hp].
  - rewrite map_filter_insert_True by exact Hp. rewrite map_size_insert_None; [lia|].
    apply map_lookup_filter_None. by left.
  - rewrite map_filter_insert_False by exact Hp. rewrite delete_id by done. lia.
Qed.

Lemma beats_deactivate t i m : m !! t = Some i ->
  size (beats_in m) = (size (beats_in (<[t := deactivate i]> m)) + if decide (beating i) then 1 else 0)%nat.
Proof.
  intros Hi. unfold beats_in at 2. rewrite map_filter_insert_False by (by intros [? _]).
  rewrite <- (insert_id m t i Hi) at 1. rewrite <- insert_delete_eq. rewrite beats_insert_new; [done|].
  by apply lookup_delete_eq.
Qed.

(** A delay adds the timer it makes. *)
Lemma delay_beats timer now d m s : HInv s -> (m = sendHeartbeat -> timer = heartbeatTimer) ->
  HInv (delay timer false now d m s) /\
  beats (delay timer false now d m s) = (beats s + if decide (m = sendHeartbeat) then 1 else 0)%nat.
Proof.
  intros [Hf Ha Ho] Hm. assert (Hn : inners s !! next_inner s = None) by (apply Hf; lia). split; [split; cbn|].
  - intros t Ht. rewrite lookup_insert_ne by lia. apply Hf. lia.
  - intros x t. destruct (decide (x = timer)) as [->|N].
    + rewrite lookup_insert_eq. intros [= <-]. lia.
    + rewrite lookup_insert_ne by done. intros Hx%Ha. lia.
  - intros x t i. destruct (decide (x = timer)) as [->|N].
    + rewrite lookup_insert_eq. intros [= <-]. rewrite lookup_insert_eq. intros [= <-]. cbn. auto.
    + rewrite lookup_insert_ne by done. intros Hx. rewrite lookup_insert_ne; [by apply Ho|]. apply Ha in Hx. lia.
  - unfold beats. cbn. rewrite beats_insert_new by done. f_equal. unfold beating. cbn.
    destruct (decide (m = sendHeartbeat)); destruct (decide _); tauto.
Qed.

(** The delays of a method are those of one heartbeat, or none. *)
Lemma run_body_beats now m s : HInv s ->
  HInv (run_body body now m s) /\
  beats (run_body body now m s) = (beats s + if decide (m = sendHeartbeat) then 1 else 0)%nat.
Proof.
  intros Hs. unfold run_body, body. destruct (decide (m = sendHeartbeat)) as [->|N].
  { cbn [foldl]. destruct (delay_beats heartbeatTimer now delay_ns sendHeartbeat s Hs) as [H1 H2]; [done|].
    split; [done|]. rewrite H2. by rewrite decide_True. }
  rewrite Nat.add_0_r. pose proof (other_elsewhere m) as Hoth. revert s Hs Hoth. induction (other m) as [|[[t d] m'] l IH]; intros s Hs Hoth; [done|].
  destruct (Hoth t d m') as [Ht Hm]; [by left|]. cbn [foldl].
  destruct (delay_beats t now d m' s Hs) as [H1 H2]; [done|]. rewrite decide_False, Nat.add_0_r in H2 by done.
  rewrite <- H2. apply IH; [done|]. intros t' d' m'' Hin. eapply Hoth. by right.
Qed.

(** Running a timer keeps the number of pending heartbeats. *)
Lemma execute_beats now t s : HInv s ->
  HInv (executeMethod body now t s) /\ beats (executeMethod body now t s) = beats s.
Proof.
  intros Hs. unfold executeMethod. destruct (inners s !! t) as [i|] eqn:Ei; [|done].
  destruct (in_active i) eqn:Ea; [|done]. destruct Hs as [Hf Ha Ho].
  assert (Hs' : HInv (firing t i s)).
  { split; cbn.
    - intros x Hx. rewrite lookup_insert_ne; [by apply Hf|]. intros <-. rewrite Hf in Ei; done.
    - done.
    - intros x y j Hx. destruct (decide (y = t)) as [->|N].
      + rewrite lookup_insert_eq. intros [= <-]. cbn. by eapply Ho.
      + rewrite lookup_insert_ne by done. by eapply Ho. }
  destruct (run_body_beats now (in_method i) _ Hs') as [H1 H2]. split; [done|].
  unfold firing in H2. rewrite H2. unfold beats at 2. rewrite (beats_deactivate t i) by done. cbn. f_equal. unfold beating.
  destruct (decide (in_method i = sendHeartbeat)); destruct (decide _); tauto.
Qed.

Lemma timeout_beats now s : HInv s -> HInv (timeout_cb body now s) /\ beats (timeout_cb body now s) = beats s.
Proof.
  intros Hs. unfold timeout_cb. destruct (negb (s_enabled s)); [done|]. destruct (split_due _ _) as [due rest].
  set (s0 := mkLoop rest _ _ _ _ _ _ _). assert (H0 : HInv s0) by (by destruct Hs). change (beats s) with (beats s0).
  clearbody s0. cut (forall l, HInv (foldl (fun s t => executeMethod body now t s) s0 l) /\
    beats (foldl (fun s t => executeMethod body now t s) s0 l) = beats s0).
  { intros H. destruct (H (concat due)) as [[? ? ?] H2]. split; [by split|exact H2]. }
  intros l. revert s0 H0. induction l as [|t l IH]; intros s0 H0; cbn; [done|].
  destruct (execute_beats now t s0 H0) as [H1 H2]. rewrite <- H2. by apply IH.
Qed.

Lemma cancel_beats x s : HInv s -> x <> heartbeatTimer -> HInv (cancel x s) /\ beats (cancel x s) = beats s.
Proof.
  intros [Hf Ha Ho] Hx. unfold cancel. destruct (outers s !! x) as [t|] eqn:Et; [|done].
  destruct (inners s !! t) as [i|] eqn:Ei; cycle 1.
  { replace (alter deactivate t (inners s)) with (inners s); [by split|].
    apply map_eq. intros y. destruct (decide (t = y)) as [<-|]; [by rewrite lookup_alter_eq, Ei|by rewrite lookup_alter_ne]. }
  replace (alter deactivate t (inners s)) with (<[t := deactivate i]> (inners s)); cycle 1.
  { apply map_eq. intros y. destruct (decide (t = y)) as [<-|].
    - by rewrite lookup_insert_eq, lookup_alter_eq, Ei.
    - by rewrite lookup_insert_ne, lookup_alter_ne. }
  split; [split; cbn|].
  - intros y Hy. rewrite lookup_insert_ne; [by apply Hf|]. intros <-. rewrite Hf in Ei; done.
  - done.
  - intros y t' j Hy. destruct (decide (t = t')) as [<-|].
    + rewrite lookup_insert_eq. intros [= <-]. cbn. by eapply Ho.
    + rewrite lookup_insert_ne by done. by eapply Ho.
  - unfold beats at 2. rewrite (beats_deactivate t i) by done. unfold beats. cbn.
    rewrite decide_False; [lia|]. intros [_ Hm]. by apply (Ho x t i) in Et.
Qed.

Lemma op_beats o s : elsewhere o -> HInv s ->
  HInv (run_op o s) /\ beats (run_op o s) = (beats s + if is_register o then 1 else 0)%nat.
Proof.
  intros He Hs. destruct o as [n|t n d m|t|n]; cbn [run_op is_register].
  - destruct (delay_beats heartbeatTimer n delay_ns sendHeartbeat s Hs) as [H1 H2]; [done|].
    rewrite decide_True in H2 by done. done.
  - destruct He as [Ht Hm]. destruct (delay_beats t n d m s Hs) as [H1 H2]; [done|].
    by rewrite decide_False in H2 by done.
  - rewrite Nat.add_0_r. by apply cancel_beats.
  - rewrite Nat.add_0_r. by apply timeout_beats.
Qed.

(** Every registration adds a heartbeat that is then pending for ever: the
    guard against a second timer never holds, so whatever else the program
    delays and cancels and however often the loop wakes up, the number of
    pending heartbeats is the number of registrations so far, and after a
    number of reconnections each minute brings as many heartbeat messages. *)
Theorem heartbeats_accumulate l : Forall elsewhere l -> beats (run_ops l) = registrations l.
Proof.
  intros Hl. unfold run_ops.
  assert (H : forall s, HInv s -> beats (foldl (fun s o => run_op o s) s l) = (beats s + registrations l)%nat).
  { induction Hl as [|o l Ho Hl IH]; intros s Hs; cbn [foldl]; [unfold registrations; cbn; lia|].
    destruct (op_beats o s Ho Hs) as [H1 H2]. rewrite IH by done. rewrite H2. unfold registrations. cbn.
    destruct (is_register o); cbn; lia. }
  rewrite H; [done|]. split; cbn; intros; by rewrite ?lookup_empty in *.
Qed.

End Heartbeat.

(** Registered, then registered again after 10 seconds: two heartbeats are
    pending after two minutes of wake-ups. *)
Lemma heartbeats_accumulate_witness : let l := [ORegister 0; ORegister 10000000000; OTimeout 60000000000;
    OTimeout 70000000000; OTimeout 120000000000] in
  beats 1 (run_ops 0 1 (fun _ => []) l) = 2%nat.
Proof. intros l. apply (heartbeats_accumulate 0 1 (fun _ => [])); [by intros ? ? ? ? ?%not_elem_of_nil|]. by repeat constructor. Defined.
