(* ===== verification/Broker.v ===== *)
(** * Messages and the Redis broker (source/message_broker.cpp, source/message_broker_redis.cpp)

    A [Message] travels as a JSON object; jsoncpp's writer and reader are
    parameters.  The Redis channel polls its list with BRPOP commands: each
    reply is turned into a message, handed to the callback, and followed by the
    next poll. *)
From stdpp Require Import countable pretty.
From Stdlib Require Import Ascii.
From S2P Require Import Prelude StoutStrings Url.

(** ** JSON values, as the code uses them *)

Inductive Json :=
| JNull
| JBool (b : bool)
| JInt (z : Z)
| JString (s : string)
| JArray (l : list Json)
| JObject (members : list (string * Json)).

Fixpoint member (key : string) (l : list (string * Json)) : option Json :=
  match l with
  | [] => None
  | (k, v) :: r => if String.eqb k key then Some v else member key r
  end.

(** [json.get(key, default)], which asserts that the value is an object or null *)
Definition json_get (key : string) (dflt : Json) (j : Json) : outcome Json :=
  match j with
  | JNull => Ret dflt
  | JObject l => Ret (default dflt (member key l))
  | _ => Fatal "not an object"
  end.

(** [asString], which throws for arrays and objects *)
Definition asString (j : Json) : outcome string :=
  match j with
  | JNull => Ret ""
  | JBool b => Ret (if b then "true" else "false")
  | JInt z => Ret (pretty z)
  | JString s => Ret s
  | JArray _ | JObject _ => Fatal "not convertible to a string"
  end.

Definition isMember (key : string) (j : Json) : outcome bool :=
  match j with
  | JNull => Ret false
  | JObject l => Ret (match member key l with Some _ => true | None => false end)
  | _ => Fatal "not an object"
  end.

(** ** Messages *)

Inductive PayloadType := PT_JSON | PT_PROTOBUF.
Inductive MessageType := T_ERROR | T_NIL | T_VALID.

Record Message := mkMessage {
  payload_ : string;
  payloadJson : Json;
  extPayload : Json;
  target : string;
  sourceId : string;
  replyTo : string;
  payloadType : PayloadType;
  messageType : MessageType;
}.

(** [Message()] *)
Definition new_message : Message := mkMessage "" JNull JNull "" "" "" PT_JSON T_ERROR.
(** [Message(PayloadType)] *)
Definition new_typed_message (t : PayloadType) : Message := mkMessage "" JNull JNull "" "" "" t T_ERROR.

(** [setPayloadType]: it clears the payload of a PROTOBUF message that is asked
    to change, and leaves the type. *)
Definition setPayloadType (t : PayloadType) (m : Message) : Message :=
  match t, payloadType m with
  | PT_JSON, PT_PROTOBUF =>
      mkMessage "" (payloadJson m) (extPayload m) (target m) (sourceId m) (replyTo m) (payloadType m) (messageType m)
  | _, _ => m
  end.

(** [Message(Json::Value)] *)
Definition message_of_json (j : Json) : outcome Message :=
  let! t := json_get "target" (JString "") j in
  let! target := asString t in
  let! s := json_get "source_id" (JString "") j in
  let! sourceId := asString s in
  let! r := json_get "reply_to" (JString "") j in
  let! replyTo := asString r in
  let! has_ext := isMember "ext_payload" j in
  let! ext := if has_ext then json_get "ext_payload" JNull j else Ret JNull in
  let! payload := json_get "payload" JNull j in
  Ret (setPayloadType PT_JSON (mkMessage "" payload ext target sourceId replyTo PT_JSON T_ERROR)).

Section Wire.
  (** jsoncpp's [FastWriter::write] and [Reader::parse]. *)
  Context (fast_write : Json -> string) (reader_parse : string -> Json).

(** [setPayload(const std::string&)] *)
Definition setPayload (data : string) (m : Message) : Message :=
  mkMessage data
    (match payloadType m with PT_JSON => reader_parse data | PT_PROTOBUF => payloadJson m end)
    (extPayload m) (target m) (sourceId m) (replyTo m) (payloadType m) (messageType m).

(** [getPayloadAsString] *)
Definition getPayloadAsString (m : Message) : string :=
  match payloadType m with PT_JSON => fast_write (payloadJson m) | PT_PROTOBUF => payload_ m end.

(** The object [toNetworkMessage] writes. *)
Definition network_json (m : Message) : Json :=
  JObject ([("target", JString (target m)); ("source_id", JString (sourceId m)); ("ext_payload", extPayload m)] ++
    (match payloadType m with
     | PT_JSON => [("payload", payloadJson m); ("payload_type", JString "json")]
     | PT_PROTOBUF => [("payload_type", JString "protobuf"); ("payload", JString (getPayloadAsString m))]
     end) ++
    (if negb (String.eqb (replyTo m) "") then [("reply_to", JString (replyTo m))] else [])).

Definition toNetworkMessage (m : Message) : string := fast_write (network_json m).

(** ** Replies *)

(** [redis3m::reply], by its type. *)
Inductive Reply :=
| RArray (elements : list string)
| RString (s : string)
| RNil
| ROther.

(** The message [BaseAsyncHandler::onReply] makes of a reply. *)
Definition reply_message (r : Reply) : outcome Message :=
  let '(j, type) :=
    match r with
    | RArray [_; e] => (reader_parse e, T_VALID)
    | RString s => (reader_parse s, T_VALID)
    | RNil => (reader_parse (toNetworkMessage new_message), T_NIL)
    | _ => (reader_parse (toNetworkMessage new_message), T_ERROR)
    end in
  let! m := message_of_json j in
  Ret (mkMessage (payload_ m) (payloadJson m) (extPayload m) (target m) (sourceId m) (replyTo m) (payloadType m) type).

(** ** The broker and one channel *)

Inductive Conn := CNull | CInvalid | CValid.

Record Broker := mkBroker {
  isRunning : bool;
  conn : Conn;
  name : string;                    (** the channel's name *)
  callbackSet : bool;               (** the channel has a user callback *)
  commands : list string;           (** queued BRPOPs, by list name *)
  inFlight : list string;           (** executed BRPOPs without a reply *)
  written : list (string * string); (** LPUSHes: list and message *)
  delivered : list Message;         (** messages given to the user callback *)
  failed : nat;                     (** commands dropped for want of a connection *)
}.

Definition MASTER_BROKER_MESOS_ENDPOINT : string := "urb.endpoint.0.mesos".
Definition HEARTBEAT_TARGET : string := "HeartbeatMessage".
Definition SERVICE_MONITOR_ENDPOINT : string := "urb.service.monitor".

(** [RedisMessageBroker::sendMessage] *)
Definition sendMessage (cmd : string) (b : Broker) : Broker :=
  match conn b with
  | CValid => mkBroker (isRunning b) (conn b) (name b) (callbackSet b) (commands b ++ [cmd]) (inFlight b)
      (written b) (delivered b) (failed b)
  | _ => mkBroker (isRunning b) (conn b) (name b) (callbackSet b) (commands b) (inFlight b) (written b)
      (delivered b) (S (failed b))
  end.

(** [RedisChannel::registerInputCallback] with a callback *)
Definition registerInputCallback (b : Broker) : Broker :=
  sendMessage (name b) (mkBroker (isRunning b) (conn b) (name b) true (commands b) (inFlight b) (written b)
    (delivered b) (failed b)).

(** [async_cb]: executes the queued commands in order. *)
Definition async_cb (b : Broker) : Broker :=
  if negb (isRunning b) then b
  else
    match conn b with
    | CValid => mkBroker (isRunning b) (conn b) (name b) (callbackSet b) [] (inFlight b ++ commands b)
        (written b) (delivered b) (failed b)
    | _ => mkBroker (isRunning b) (conn b) (name b) (callbackSet b) [] (inFlight b) (written b)
        (delivered b) (failed b + length (commands b))
    end.

(** [RedisChannelCallback::onInput] *)
Definition channel_onInput (m : Message) (b : Broker) : Broker :=
  if negb (isRunning b) then b
  else if callbackSet b then
    sendMessage (name b)
      (match messageType m with
       | T_NIL => b
       | _ => mkBroker (isRunning b) (conn b) (name b) (callbackSet b) (commands b) (inFlight b) (written b)
           (delivered b ++ [m]) (failed b)
       end)
  else b.

(** [BaseAsyncHandler::onReply] for the oldest command in flight. *)
Definition onReply (r : Reply) (b : Broker) : outcome Broker :=
  match inFlight b with
  | [] => Ret b
  | _ :: rest =>
      let! m := reply_message r in
      Ret (channel_onInput m (mkBroker (isRunning b) (conn b) (name b) (callbackSet b) (commands b) rest
        (written b) (delivered b) (failed b)))
  end.

(** [RedisChannel::write(message, name)]: the source id is set on the way. *)
Definition write_to (w_name endpoint : string) (m : Message) (b : Broker) : Broker :=
  let m := mkMessage (payload_ m) (payloadJson m) (extPayload m) (target m) endpoint (replyTo m) (payloadType m)
    (messageType m) in
  mkBroker (isRunning b) (conn b) (name b) (callbackSet b) (commands b) (inFlight b)
    (written b ++ [(w_name, toNetworkMessage m)]) (delivered b) (failed b).

(** [RedisChannel::write(message)] *)
Definition write (endpoint : string) (m : Message) (b : Broker) : Broker :=
  if isRunning b then write_to MASTER_BROKER_MESOS_ENDPOINT endpoint m b else b.

(** [RedisMessageBroker::shutdown] *)
Definition broker_shutdown (b : Broker) : Broker :=
  mkBroker false (conn b) (name b) (callbackSet b) (commands b) (inFlight b) (written b) (delivered b) (failed b).

End Wire.

(** ** Choosing the Redis server *)

(** [std::stoi]: leading white space, a sign, digits, anything; none if it
    throws [invalid_argument] or [out_of_range]. *)
Definition is_space (c : ascii) : bool :=
  let n := nat_of_ascii c in Nat.eqb n 32 || (Nat.leb 9 n && Nat.leb n 13).
Definition digit (c : ascii) : option Z :=
  let n := Z.of_nat (nat_of_ascii c) in
  if (48 <=? n) && (n <=? 57) then Some (n - 48) else None.
Fixpoint skip_space (s : string) : string :=
  match s with
  | String c r => if is_space c then skip_space r else s
  | "" => ""
  end.
Fixpoint digits (s : string) (acc : option Z) : option Z :=
  match s with
  | String c r => match digit c with Some d => digits r (Some (10 * default 0 acc + d)) | None => acc end
  | "" => acc
  end.
Definition stoi (s : string) : option Z :=
  let s := skip_space s in
  let '(sign, s) :=
    match s with
    | String c r => if Ascii.eqb c "-" then (-1, r) else if Ascii.eqb c "+" then (1, r) else (1, s)
    | "" => (1, s)
    end in
  match digits s None with
  | Some n => if (- 2 ^ 31 <=? sign * n) && (sign * n <? 2 ^ 31) then Some (sign * n) else None
  | None => None
  end.

Record Endpoint := mkEndpoint { e_ha : bool; redisServer : string; redisPort : Z; redisPath : string }.

(** What [RedisMessageBroker::setUrl] does: nothing but reconnect when running,
    nothing for a bad URL, an exception, or a connection to an endpoint. *)
Inductive UrlAction :=
| Reinit
| BadUrl (message : string)
| Throws
| ConnectTo (e : Endpoint).

Definition setUrl (running : bool) (old_path url : string) : UrlAction :=
  if running then Reinit
  else
    match Url.parse url with
    | TryError e => BadUrl e
    | TryOk u =>
        if ha u then
          if (String.length (path u) <? 1)%nat then Throws
          else ConnectTo (mkEndpoint true (servers u) 26379 (sdrop 1 (path u)))
        else
          match find_last_of (servers u) ":" with
          | None => ConnectTo (mkEndpoint false (servers u) 6379 old_path)
          | Some index =>
              match stoi (sdrop (index + 1) (servers u)) with
              | Some port => ConnectTo (mkEndpoint false (stake index (servers u)) port old_path)
              | None => Throws
              end
          end
    end.

(** ** Theorems *)

Section WireLaws.
  Context (fast_write : Json -> string) (reader_parse : string -> Json).
  (** jsoncpp reads back what it wrote. *)
  Hypothesis reads_written : forall j, reader_parse (fast_write j) = j.

Lemma network_json_of m : message_of_json (network_json fast_write m) =
  Ret (mkMessage "" (match payloadType m with PT_JSON => payloadJson m | PT_PROTOBUF => JString (payload_ m) end)
    (extPayload m) (target m) (sourceId m) (replyTo m) PT_JSON T_ERROR).
Proof.
  unfold message_of_json, network_json, getPayloadAsString. cbn.
  destruct (payloadType m); cbn; destruct (String.eqb_spec (replyTo m) ""); cbn; congruence.
Qed.

(** C35: a message written by one end of the broker and read by the other
    keeps its target, source, reply address, extra payload and payload (a
    PROTOBUF payload arrives as a JSON string, and every message as JSON). *)
Theorem message_wire_roundtrip m :
  message_of_json (reader_parse (toNetworkMessage fast_write m)) =
  Ret (mkMessage "" (match payloadType m with PT_JSON => payloadJson m | PT_PROTOBUF => JString (payload_ m) end)
    (extPayload m) (target m) (sourceId m) (replyTo m) PT_JSON T_ERROR).
Proof. unfold toNetworkMessage. rewrite reads_written. apply network_json_of. Qed.

(** A reply that the reader understands. *)
Definition readable (r : Reply) : Prop := exists m, reply_message fast_write reader_parse r = Ret m.

Lemma nil_message : reply_message fast_write reader_parse RNil =
  Ret (mkMessage "" JNull JNull "" "" "" PT_JSON T_NIL).
Proof. unfold reply_message, toNetworkMessage. rewrite reads_written, network_json_of. done. Qed.

(** What can happen to a channel that is in operation. *)
Inductive ChannelOp := OpWake | OpReply (r : Reply).

Definition channel_step (o : ChannelOp) (b : Broker) : outcome Broker :=
  match o with
  | OpWake => Ret (async_cb b)
  | OpReply r => onReply fast_write reader_parse r b
  end.

Definition polling (b : Broker) : Prop := isRunning b = true /\ conn b = CValid /\ callbackSet b = true.

(** The polls that have been asked for and not answered. *)
Definition polls (b : Broker) : list string := inFlight b ++ commands b.

(** The messages due to the user callback: all but the NIL replies to the
    polls that were really in flight. *)
Fixpoint owed (l : list ChannelOp) (queued flying : nat) : list Reply :=
  match l with
  | [] => []
  | OpWake :: l => owed l 0 (flying + queued)
  | OpReply r :: l =>
      match flying with
      | O => owed l queued flying
      | S f => (match r with RNil => [] | _ => [r] end) ++ owed l (S queued) f
      end
  end.

Lemma reply_message_type r m : reply_message fast_write reader_parse r = Ret m ->
  messageType m = T_NIL <-> r = RNil.
Proof.
  unfold reply_message. destruct r as [[|e1 [|e2 [|]]]|s| |]; cbn [obind];
    match goal with |- (let! _ := ?c in _) = _ -> _ => destruct c end; cbn; try done; by intros [= <-].
Qed.

Lemma channel_run l : Forall (fun o => match o with OpReply r => readable r | OpWake => True end) l ->
  forall b, polling b -> Forall (fun c => c = name b) (polls b) ->
  exists b', ofold (fun b o => channel_step o b) l b = Ret b' /\ polling b' /\ name b' = name b /\
    length (polls b') = length (polls b) /\ Forall (fun c => c = name b) (polls b') /\ failed b' = failed b /\
    exists ms, delivered b' = delivered b ++ ms /\
      Forall2 (fun r m => reply_message fast_write reader_parse r = Ret m)
        (owed l (length (commands b)) (length (inFlight b))) ms.
Proof.
  induction 1 as [|o l Ho _ IH]; intros b (Hr & Hc & Hcb) Hp; cbn [ofold].
  { exists b. split_and!; try done. exists []. rewrite app_nil_r. by split. }
  destruct o as [|r]; cbn [channel_step].
  - unfold async_cb. rewrite Hr, Hc. cbn [negb obind owed].
    match goal with |- context [ofold _ l ?b1] => destruct (IH b1) as (b' & E & H & Hn & Hl & Hf & Hfail & Hd) end;
      [done|unfold polls; cbn; by rewrite app_nil_r|].
    exists b'. split_and!; try done.
    + rewrite Hl. unfold polls. cbn. by rewrite app_nil_r.
    + cbn [commands inFlight delivered] in Hd. by rewrite length_app in Hd.
  - unfold onReply. destruct (inFlight b) as [|c rest] eqn:Ei; cbn [obind length owed].
    { destruct (IH b) as (b' & H); [done|done|]. exists b'. by rewrite Ei in H. }
    destruct Ho as [m Hm]. rewrite Hm. cbn [obind]. pose proof (reply_message_type r m Hm) as Hty.
    unfold channel_onInput. cbn [isRunning callbackSet]. rewrite Hr, Hcb. cbn [negb].
    match goal with |- context [ofold _ l ?b1] => set (b1' := b1) end.
    assert (Hb1 : polling b1' /\ name b1' = name b /\ inFlight b1' = rest /\ commands b1' = commands b ++ [name b] /\
      failed b1' = failed b /\ delivered b1' = delivered b ++ (match r with RNil => [] | _ => [m] end)).
    { unfold b1', sendMessage, polling.
      assert (Hm' : (messageType m = T_NIL /\ r = RNil) \/
        (messageType m <> T_NIL /\ match r with RNil => [] | _ => [m] end = [m])).
      { destruct (messageType m) eqn:Em; [right|left; by split; [|apply Hty]|right];
          (split; [done|]); destruct r; try done; by pose proof (proj2 Hty eq_refl). }
      destruct Hm' as [[-> ->]|[Hne ->]]; [cbn; rewrite Hc; cbn; by rewrite app_nil_r|].
      destruct (messageType m); try done; cbn; by rewrite Hc. }
    destruct Hb1 as (P1 & N1 & I1 & C1 & F1 & D1).
    destruct (IH b1' P1) as (b' & E & H & Hn & Hl & Hf & Hfail & ms & Hd & Hms).
    { unfold polls in *. rewrite I1, C1, N1. rewrite Ei in Hp. cbn in Hp. apply Forall_cons in Hp as [_ Hp].
      rewrite app_assoc. apply Forall_app. split; [done|by constructor]. }
    exists b'. split_and!; try done; try congruence.
    + rewrite Hl. unfold polls. rewrite I1, C1, Ei, !length_app. cbn. lia.
    + by rewrite N1 in Hf.
    + exists ((match r with RNil => [] | _ => [m] end) ++ ms). split; [by rewrite Hd, D1, <- app_assoc|].
      rewrite I1, C1, length_app, Nat.add_1_r in Hms.
      apply Forall2_app; [|done]. destruct r; by repeat constructor.
Qed.

(** C34: a running channel with a valid connection never stops and never
    multiplies its polling: whatever wake-ups and readable replies occur, the
    number of unanswered polls stays what it was, all of them on the channel's
    own list, and the user callback receives exactly the messages of the
    replies that are not NIL, in order. *)
Theorem polling_continues l b :
  Forall (fun o => match o with OpReply r => readable r | OpWake => True end) l ->
  polling b -> Forall (fun c => c = name b) (polls b) ->
  exists b', ofold (fun b o => channel_step o b) l b = Ret b' /\ polling b' /\
    length (polls b') = length (polls b) /\ Forall (fun c => c = name b) (polls b') /\
    exists ms, delivered b' = delivered b ++ ms /\
      Forall2 (fun r m => reply_message fast_write reader_parse r = Ret m)
        (owed l (length (commands b)) (length (inFlight b))) ms.
Proof.
  intros Hl Hb Hp. destruct (channel_run l Hl b Hb Hp) as (b' & H1 & H2 & _ & H3 & H4 & _ & H5). by exists b'.
Qed.

End WireLaws.

(** A host without a port is contacted at Redis's own port. *)
Lemma setUrl_default_port url old u : Url.parse url = TryOk u -> ha u = false ->
  find_last_of (servers u) ":" = None ->
  setUrl false old url = ConnectTo (mkEndpoint false (servers u) 6379 old).
Proof. intros Hp Hh Hf. unfold setUrl. by rewrite Hp, Hh, Hf. Qed.

(** ** A reader and writer that satisfy the law *)
Module RefJson.

Fixpoint to_tree (j : Json) : gen_tree (string + Z) :=
  match j with
  | JNull => GenNode 0 []
  | JBool b => GenNode (if b then 2 else 1) []
  | JInt z => GenLeaf (inr z)
  | JString s => GenLeaf (inl s)
  | JArray l => GenNode 3 (map to_tree l)
  | JObject l => GenNode 4 (map (fun kv => GenNode 5 [GenLeaf (inl kv.1); to_tree kv.2]) l)
  end.

Fixpoint of_tree (t : gen_tree (string + Z)) : Json :=
  match t with
  | GenLeaf (inr z) => JInt z
  | GenLeaf (inl s) => JString s
  | GenNode 0 _ => JNull
  | GenNode 1 _ => JBool false
  | GenNode 2 _ => JBool true
  | GenNode 3 l => JArray (map of_tree l)
  | GenNode _ l => JObject (map (fun t =>
      match t with
      | GenNode _ [GenLeaf (inl k); v] => (k, of_tree v)
      | _ => (EmptyString, JNull)
      end) l)
  end.

Lemma of_to_tree : forall j, of_tree (to_tree j) = j.
Proof.
  fix IH 1. intros [|[]|z|s|l|l]; try reflexivity; cbn.
  - f_equal. induction l as [|j l IHl]; [reflexivity|]. cbn. by rewrite IH, IHl.
  - f_equal. induction l as [|[k v] l IHl]; [reflexivity|]. cbn. by rewrite IH, IHl.
Qed.

(** Positive numbers as strings of bits. *)
Fixpoint print_bits (p : positive) : string :=
  match p with
  | xH => ""
  | xO p => String "0" (print_bits p)
  | xI p => String "1" (print_bits p)
  end.
Fixpoint read_bits (s : string) : positive :=
  match s with
  | "" => xH
  | String c r => if Ascii.eqb c "0" then xO (read_bits r) else xI (read_bits r)
  end.

Lemma read_print p : read_bits (print_bits p) = p.
Proof. induction p as [p IH|p IH|]; cbn; by rewrite ?IH. Qed.

Definition fast_write (j : Json) : string := print_bits (encode (to_tree j)).
Definition reader_parse (s : string) : Json := from_option of_tree JNull (decode (read_bits s)).

Lemma reads_written j : reader_parse (fast_write j) = j.
Proof. unfold reader_parse, fast_write. rewrite read_print, decode_encode. cbn. apply of_to_tree. Qed.

End RefJson.

Definition demo_message : Message :=
  mkMessage "" (JObject [("id", JInt 7)]) JNull "KillTaskMessage" "urb.endpoint.1" "urb.endpoint.2.notify"
    PT_JSON T_VALID.

Lemma message_wire_roundtrip_witness :
  message_of_json (RefJson.reader_parse (toNetworkMessage RefJson.fast_write demo_message)) =
  Ret (mkMessage "" (JObject [("id", JInt 7)]) JNull "KillTaskMessage" "urb.endpoint.1" "urb.endpoint.2.notify"
    PT_JSON T_ERROR).
Proof. exact (message_wire_roundtrip RefJson.fast_write RefJson.reader_parse RefJson.reads_written demo_message). Defined.

Definition demo_channel : Broker := mkBroker true CValid "urb.endpoint.1.notify" true ["urb.endpoint.1.notify"] [] [] [] 0.
Definition demo_replies : list ChannelOp :=
  [OpWake; OpReply RNil; OpWake; OpReply (RArray ["urb.endpoint.1.notify"; toNetworkMessage RefJson.fast_write demo_message])].

Lemma polling_continues_witness : exists b',
  ofold (fun b o => channel_step RefJson.fast_write RefJson.reader_parse o b) demo_replies demo_channel = Ret b' /\
  length (polls b') = 1%nat.
Proof.
  destruct (polling_continues RefJson.fast_write RefJson.reader_parse demo_replies demo_channel)
    as (b' & E & _ & L & _).
  - repeat constructor.
    + eexists. apply (nil_message _ _ RefJson.reads_written).
    + eexists. unfold reply_message, toNetworkMessage. rewrite RefJson.reads_written, network_json_of. reflexivity.
  - done.
  - by repeat constructor.
  - exists b'. split; [exact E|exact L].
Defined.

(** Asking a PROTOBUF message to become JSON leaves it PROTOBUF. *)
Lemma setPayloadType_keeps_type t m : payloadType (setPayloadType t m) = payloadType m.
Proof. by destruct t, m as [? ? ? ? ? ? [] ?]. Qed.
