(* ===== verification/BrokerSetup.v ===== *)
(** * Connecting the broker (source/message_broker_redis.cpp)

    [setUrl] connects a broker that does not run yet: it makes an asynchronous
    and a synchronous connection, draws the number of its endpoint from Redis,
    and starts the watchers; a broker that runs only renews its connections.
    redis3m's answers come with each call. *)
From stdpp Require Import pretty.
From Stdlib Require Import Ascii.
From S2P Require Import Prelude StoutStrings Values Url Broker.

Record Setup := mkSetup {
  running_ : bool;                  (** [isRunning_] *)
  async_conns : nat;                (** connections [conn_] has been given; none if it is null *)
  sync_conns : nat;                 (** likewise [sync_conn_] *)
  endpointId : Z;
  endpointIdStr : string;
  server : option Endpoint;         (** [ha_], [redisServer_], [redisPort_], [redisPath_] *)
  watching : nat;                   (** how often the watchers have been started *)
}.

Definition new_broker : Setup := mkSetup false 0 0 0 "" None 0.

(** What redis3m answers: whether it makes the connections (it throws if not),
    and the reply to INCR, none if it throws; [reply::integer] is 0 for a reply
    that is not an integer. *)
Record Redis := mkRedis { makes_async : bool; makes_sync : bool; incr : option (option Z) }.
Definition integer (r : option Z) : Z := default 0 r.

(** A call either returns or throws; the state it leaves is the same object. *)
Inductive Exit := Returned | Threw.

Definition give_async (s : Setup) : Setup :=
  mkSetup (running_ s) (S (async_conns s)) (sync_conns s) (endpointId s) (endpointIdStr s) (server s) (watching s).
Definition give_sync (s : Setup) : Setup :=
  mkSetup (running_ s) (async_conns s) (S (sync_conns s)) (endpointId s) (endpointIdStr s) (server s) (watching s).

(** [RedisMessageBroker::init] *)
Definition init (first : bool) (r : Redis) (s : Setup) : Setup * Exit :=
  if first then
    (mkSetup (running_ s) (async_conns s) (sync_conns s) (endpointId s) (endpointIdStr s) (server s) (S (watching s)), Returned)
  else if negb (makes_async r) then (s, Threw)
  else
    let s := give_async s in
    if negb (makes_sync r) then (s, Threw) else (give_sync s, Returned).

Definition endpoint_name (id : Z) : string := "urb.endpoint." +:+ pretty id.

(** [RedisMessageBroker::connect] *)
Definition connect (r : Redis) (s : Setup) : Setup * Exit :=
  if negb (makes_async r) then (s, Threw)
  else
    let s := give_async s in
    if negb (makes_sync r) then (s, Threw)
    else
      let s := give_sync s in
      match incr r with
      | None => (s, Threw)
      | Some reply =>
          let id := integer reply in
          init true r
            (mkSetup true (async_conns s) (sync_conns s) id (endpoint_name id) (server s) (watching s))
      end.

(** [RedisMessageBroker::setUrl]; what it assigns before it throws for a bad
    port or path is assigned again before it is read. *)
Definition set_url (url : string) (r : Redis) (s : Setup) : Setup * Exit :=
  match Broker.setUrl (running_ s) (match server s with Some e => redisPath e | None => "" end) url with
  | Reinit => init false r s
  | BadUrl _ => (s, Returned)
  | Throws => (s, Threw)
  | ConnectTo e =>
      connect r (mkSetup (running_ s) (async_conns s) (sync_conns s) (endpointId s) (endpointIdStr s) (Some e) (watching s))
  end.

(** [RedisMessageBroker::createChannel], by the name of the channel *)
Definition createChannel (name : string) (s : Setup) : string := (endpointIdStr s +:+ ".") +:+ name.

Definition set_urls (l : list (string * Redis)) (s : Setup) : Setup :=
  foldl (fun s ur => fst (set_url (fst ur) (snd ur) s)) s l.

(** ** What connecting establishes *)

(** Running is: both connections, an endpoint, a server, and watchers that
    were started once. *)
Record setup_ok (s : Setup) : Prop := {
  so_watching : watching s = if running_ s then 1%nat else 0%nat;
  so_running : running_ s = true ->
    (0 < async_conns s)%nat /\ (0 < sync_conns s)%nat /\ is_Some (server s) /\ endpointIdStr s = endpoint_name (endpointId s);
  so_idle : running_ s = false -> endpointIdStr s = "";
}.

Lemma set_url_ok url r s : setup_ok s -> setup_ok (fst (set_url url r s)).
Proof.
  intros [H1 H2 H3]. unfold set_url. destruct (running_ s) eqn:Hr.
  - cbn. unfold init. destruct (H2 eq_refl) as (? & ? & ? & ?).
    destruct (makes_async r), (makes_sync r); split; cbn; rewrite ?Hr; try done; intros _; split_and!; try done; lia.
  - destruct (Broker.setUrl false _ url) as [|e| |e] eqn:E.
    + exfalso. unfold Broker.setUrl in E. repeat case_match; done.
    + split; cbn; rewrite ?Hr; by auto.
    + split; cbn; rewrite ?Hr; by auto.
    + unfold connect. destruct (makes_async r), (makes_sync r), (incr r) as [reply|]; split; cbn; rewrite ?Hr; try done;
        try by auto; try (intros _; split_and!; try done; lia).
Qed.

(** A broker that runs keeps its endpoint. *)
Lemma set_url_keeps url r s : running_ s = true ->
  running_ (fst (set_url url r s)) = true /\ endpointId (fst (set_url url r s)) = endpointId s.
Proof.
  intros Hr. unfold set_url. rewrite Hr. cbn. unfold init. by destruct (makes_async r), (makes_sync r).
Qed.

(** However often the URL is set, and whichever of Redis's answers fail, a broker
    that runs has both connections, a server and the endpoint named by the
    number it drew, its watchers were started exactly once, and a further URL
    leaves its endpoint; a broker that does not run has no endpoint. *)
Theorem broker_setup l : let s := set_urls l new_broker in
  setup_ok s /\
  (running_ s = true -> forall l', running_ (set_urls l' s) = true /\ endpointId (set_urls l' s) = endpointId s).
Proof.
  intros s. split.
  - unfold s. assert (H : setup_ok new_broker) by (by split). revert H. generalize new_broker. unfold set_urls.
    induction l as [|[u r] l IH]; cbn; intros s0 H0; [done|]. by apply IH, set_url_ok.
  - intros Hr l'. clearbody s. revert s Hr. unfold set_urls. induction l' as [|[u r] l' IH]; cbn; intros s Hr; [done|].
    destruct (set_url_keeps u r s Hr) as [H1 H2]. destruct (IH _ H1) as [H3 H4]. by rewrite H4.
Qed.

(** ** Channel names *)

Definition no_dot (s : string) : bool := all_chars (fun c => negb (Ascii.eqb c ".")) s.

Lemma digits_no_dot s : all_chars is_digit s = true -> no_dot s = true.
Proof. apply all_chars_impl. intros c. destruct (Ascii.eqb_spec c "."); [by subst|done]. Qed.

Lemma pretty_no_dot (z : Z) : no_dot (pretty z) = true.
Proof.
  assert (H : forall p : positive, no_dot (pretty p) = true).
  { intros p. pose proof (print_u64_digits (Zpos p)) as [H _]. by apply digits_no_dot in H. }
  destruct z as [|p|p]; [done|apply H|]. unfold no_dot. apply (all_chars_cons _ "-" (pretty p)). split; [done|apply H].
Qed.

Lemma first_component v w a b : no_dot v = true -> no_dot w = true ->
  v +:+ String "." a = w +:+ String "." b -> v = w /\ a = b.
Proof.
  revert w. induction v as [|x v IH]; intros [|y w] Hv Hw E; rewrite ?append_cons in E; injection E; clear E.
  - by intros ->.
  - intros _ <-. by apply all_chars_cons in Hw as [? _].
  - intros _ ->. by apply all_chars_cons in Hv as [? _].
  - intros E ->. apply all_chars_cons in Hv as [_ Hv]. apply all_chars_cons in Hw as [_ Hw].
    destruct (IH w Hv Hw E) as [-> ->]. done.
Qed.

(** Processes that drew different endpoint numbers never listen on the same
    Redis list, whatever their channels are called, and one process only if
    the channels have the same name. *)
Theorem channel_names_distinct s s' name name' :
  endpointIdStr s = endpoint_name (endpointId s) -> endpointIdStr s' = endpoint_name (endpointId s') ->
  createChannel name s = createChannel name' s' -> endpointId s = endpointId s' /\ name = name'.
Proof.
  intros Hs Hs' E. unfold createChannel in E. rewrite Hs, Hs' in E. unfold endpoint_name in E.
  rewrite !append_assoc in E. apply (inj (String.append "urb.endpoint.")) in E.
  apply (first_component _ _ name name') in E as [E ->]; [|apply pretty_no_dot..]. split; [by apply (inj pretty)|done].
Qed.

(** Two processes that drew 7 and 8. *)
Lemma channel_names_distinct_witness : exists s s', 
  running_ s = true /\ running_ s' = true /\ createChannel "notify" s <> createChannel "notify" s'.
Proof.
  exists (set_urls [("urb://localhost", mkRedis true true (Some (Some 7)))] new_broker).
  exists (set_urls [("urb://localhost", mkRedis true true (Some (Some 8)))] new_broker).
  split; [vm_compute; reflexivity|]. split; [vm_compute; reflexivity|]. intros E.
  destruct (channel_names_distinct _ _ _ _ (eq_refl : endpointIdStr (set_urls [("urb://localhost", mkRedis true true (Some (Some 7)))] new_broker) = _)
    (eq_refl : endpointIdStr (set_urls [("urb://localhost", mkRedis true true (Some (Some 8)))] new_broker) = _) E) as [H _].
  vm_compute in H. discriminate H.
Defined.

(** An error reply to INCR, such as one for want of memory, has the integer 0:
    the process takes the endpoint 0, the one the service itself listens on. *)
Theorem incr_error_takes_service_endpoint url r s e :
  running_ s = false -> Broker.setUrl false (match server s with Some e => redisPath e | None => "" end) url = ConnectTo e ->
  makes_async r = true -> makes_sync r = true -> incr r = Some None ->
  running_ (fst (set_url url r s)) = true /\
  createChannel "mesos" (fst (set_url url r s)) = MASTER_BROKER_MESOS_ENDPOINT.
Proof. intros Hr Hu Ha Hs Hi. unfold set_url. rewrite Hr, Hu. unfold connect. rewrite Ha, Hs, Hi. done. Qed.
