(* ===== verification/Lock.v ===== *)
(** * The scoped lock of the drivers (source/lock.cpp)

    A [Lock] takes a pthread mutex when it is made and gives it back when it is
    destroyed; in between it can be unlocked and locked again.  The drivers'
    mutex is recursive, so what counts is how often the thread holds it. *)
From S2P Require Import Prelude.

(** The mutex, by how often the thread has locked it, and the guard's flag. *)
Record Held := mkHeld { depth : nat; locked : bool }.

(** [Lock::lock] *)
Definition lock (h : Held) : Held := if negb (locked h) then mkHeld (S (depth h)) true else h.

(** [Lock::unlock]; [pthread_mutex_unlock] fails when the mutex is not held. *)
Definition unlock (h : Held) : option Held :=
  if locked h then match depth h with S n => Some (mkHeld n false) | O => None end else Some h.

(** [Lock::Lock] and [Lock::~Lock] *)
Definition new_lock (d : nat) : Held := lock (mkHeld d false).
Definition delete_lock (h : Held) : option nat := depth <$> unlock h.

(** What a driver call does with its guard. *)
Inductive LockOp := OpLock | OpUnlock.
Definition lock_op (o : LockOp) (h : Held) : option Held := match o with OpLock => Some (lock h) | OpUnlock => unlock h end.
Fixpoint lock_ops (l : list LockOp) (h : Held) : option Held :=
  match l with
  | [] => Some h
  | o :: r => match lock_op o h with Some h' => lock_ops r h' | None => None end
  end.

(** The guard holds the mutex once exactly while its flag is set. *)
Definition guards (d : nat) (h : Held) : Prop := depth h = if locked h then S d else d.

Lemma lock_op_guards d o h : guards d h -> exists h', lock_op o h = Some h' /\ guards d h'.
Proof.
  intros Hg. unfold guards in *. destruct h as [n b]; cbn in *.
  destruct o, b; cbn; subst; eexists; (split; [done|]); done.
Qed.

(** A call that locks and unlocks its guard in any order never releases a mutex
    it does not hold, and leaves the mutex as it found it. *)
Theorem lock_balanced d l : exists h, lock_ops l (new_lock d) = Some h /\ delete_lock h = Some d.
Proof.
  assert (H : forall h, guards d h -> exists h', lock_ops l h = Some h' /\ guards d h').
  { induction l as [|o l IH]; cbn; intros h Hg; [by exists h|].
    destruct (lock_op_guards d o h Hg) as (h' & -> & Hg'). by apply IH. }
  destruct (H (new_lock d)) as (h & E & Hg); [done|]. exists h. split; [done|].
  unfold delete_lock, unlock. unfold guards in Hg. destruct h as [n []]; cbn in *; by subst.
Qed.
