(* ===== verification/Concurrent.v ===== *)
(** * The threads around the event loop (source/message_broker_redis.cpp, source/evhelper.cpp, source/concurrent_queue.hpp)

    Any thread may queue a Redis command, schedule a timer, write a message or
    shut the broker down; one thread runs libev's loop and its callbacks.  They
    share the command queue, the mutex of [EvHelper] and three [ev_async]
    watchers.  One action of the model is one atomic access to these, so a run
    of the program is any sequence of actions. *)
From stdpp Require Import list relations.
From S2P Require Import Prelude.

(** ** [concurrent_queue]: each operation runs under the queue's own mutex *)

Definition push {A} (data : A) (the_queue : list A) : list A := the_queue ++ [data].
Definition empty {A} (the_queue : list A) : bool := match the_queue with [] => true | _ => false end.
Definition try_pop {A} (the_queue : list A) : option (A * list A) :=
  if empty the_queue then None
  else match the_queue with [] => None | popped_value :: rest => Some (popped_value, rest) end.

(** ** libev's asynchronous watchers

    What the loop relies on: after [ev_async_send] the callback is still to
    run, sends may be merged, and the loop runs a callback only for a send. *)
Class Async (W : Type) := {
  ev_async_init : W;
  ev_async_send : W -> W;
  deliver : W -> option W;          (** the loop takes a notification to run the callback *)
  notices : W -> nat;               (** callbacks still to run *)
  notices_init : notices ev_async_init = 0%nat;
  notices_send : forall w, (0 < notices (ev_async_send w) <= S (notices w))%nat;
  deliver_none : forall w, deliver w = None <-> notices w = 0%nat;
  deliver_some : forall w w', deliver w = Some w' -> (notices w' < notices w)%nat;
}.

Inductive Watcher := WAsync | WUnloop | WRefresh.
#[export] Instance Watcher_eq_dec : EqDecision Watcher.
Proof. solve_decision. Defined.

(** ** Threads *)

(** Who holds the mutex of [EvHelper]. *)
Inductive Owner := OLoop | OThread (i : nat).
#[export] Instance Owner_eq_dec : EqDecision Owner.
Proof. solve_decision. Defined.

(** What a thread takes the mutex for: to announce a command, to file a timer,
    or to write a message; the loop also takes it, to the same effect as for a
    write, to collect the timers that are due. *)
Inductive Purpose := PCommand | PTimer | PWrite.

(** What a thread asks of the broker or the event loop. *)
Inductive Call (A : Type) :=
| CSend (c : A)                     (** [RedisMessageBroker::sendMessage] *)
| CTimer                            (** [EvHelper::scheduleTimer] *)
| CWrite                            (** [RedisChannel::write] *)
| CStop (wait : bool).              (** [RedisMessageBroker::shutdown], and the destructor that waits for the loop *)
Arguments CSend {A}. Arguments CTimer {A}. Arguments CWrite {A}. Arguments CStop {A}.

(** Where a thread is in its call. *)
Inductive CallPC (A : Type) :=
| SIdle
| SPush (c : A)                     (** about to push the command *)
| SLock (w : Purpose)               (** about to take the mutex *)
| SHeld (w : Purpose)               (** holds it *)
| SUnlock                           (** about to release it *)
| SStop (wait : bool)               (** [isRunning_] is false, about to notify the loop *)
| SWait.                            (** [while (!ev.isLoopExited()) sleep(1)] *)
Arguments SIdle {A}. Arguments SPush {A}. Arguments SLock {A}. Arguments SHeld {A}. Arguments SUnlock {A}.
Arguments SStop {A}. Arguments SWait {A}.

(** Where the loop's thread is. *)
Inductive LoopPC (A : Type) :=
| LTop                              (** [while (s_enabled_)] *)
| LWait                             (** blocked in [ev_run] *)
| LBatch                            (** [ev_run] between two callbacks *)
| LLock | LCheck | LDrain | LExec (c : A)   (** the broker's [async_cb] *)
| ULock | UShut | URefresh          (** [unloop_cb] *)
| ELock | ECheck                    (** [EvHelper::async_cb] *)
| LUnlock                           (** the end of a callback's lock guard *)
| LCall (pc : CallPC A)             (** a callback that makes a call of its own *)
| LExited                           (** [loopExited_] is set *)
| LDead.                            (** an exception has terminated the process *)
Arguments LTop {A}. Arguments LWait {A}. Arguments LBatch {A}. Arguments LLock {A}. Arguments LCheck {A}.
Arguments LDrain {A}. Arguments LExec {A}. Arguments ULock {A}. Arguments UShut {A}. Arguments URefresh {A}.
Arguments ELock {A}. Arguments ECheck {A}. Arguments LUnlock {A}. Arguments LCall {A}. Arguments LExited {A}.
Arguments LDead {A}.

Section Model.
  Context {A W : Type} `{!Async W}.

Record State := mkState {
  commands : list A;                (** [commands_] *)
  watch : Watcher -> W;
  mutex : option Owner;             (** [s_loopMutex_] *)
  threads : list (CallPC A);
  loop : LoopPC A;
  isRunning : bool;
  s_enabled : bool;
  valid : bool;                     (** [conn_->is_valid()] *)
  pushed : list A;                  (** every command that was pushed *)
  handled : list (A * bool);        (** every command that was popped, and whether it was executed *)
}.

Definition with_thread (i : nat) (pc : CallPC A) (s : State) : State :=
  mkState (commands s) (watch s) (mutex s) (<[i := pc]> (threads s)) (loop s) (isRunning s) (s_enabled s) (valid s)
    (pushed s) (handled s).
Definition with_loop (pc : LoopPC A) (s : State) : State :=
  mkState (commands s) (watch s) (mutex s) (threads s) pc (isRunning s) (s_enabled s) (valid s) (pushed s) (handled s).
Definition with_mutex (o : option Owner) (s : State) : State :=
  mkState (commands s) (watch s) o (threads s) (loop s) (isRunning s) (s_enabled s) (valid s) (pushed s) (handled s).
Definition with_watch (w : Watcher) (x : W) (s : State) : State :=
  mkState (commands s) (fun v => if decide (v = w) then x else watch s v) (mutex s) (threads s) (loop s) (isRunning s)
    (s_enabled s) (valid s) (pushed s) (handled s).
Definition with_valid (b : bool) (s : State) : State :=
  mkState (commands s) (watch s) (mutex s) (threads s) (loop s) (isRunning s) (s_enabled s) b (pushed s) (handled s).

Definition enqueue (c : A) (s : State) : State :=
  mkState (push c (commands s)) (watch s) (mutex s) (threads s) (loop s) (isRunning s) (s_enabled s) (valid s)
    (pushed s ++ [c]) (handled s).
Definition notify (w : Watcher) (s : State) : State := with_watch w (ev_async_send (watch s w)) s.
Definition stop_running (s : State) : State :=
  mkState (commands s) (watch s) (mutex s) (threads s) (loop s) false (s_enabled s) (valid s) (pushed s) (handled s).
Definition disable (s : State) : State :=
  mkState (commands s) (watch s) (mutex s) (threads s) (loop s) (isRunning s) false (valid s) (pushed s) (handled s).
Definition dequeue (rest : list A) (s : State) : State :=
  mkState rest (watch s) (mutex s) (threads s) (loop s) (isRunning s) (s_enabled s) (valid s) (pushed s) (handled s).
Definition record (c : A) (executed : bool) (s : State) : State :=
  mkState (commands s) (watch s) (mutex s) (threads s) (loop s) (isRunning s) (s_enabled s) (valid s) (pushed s)
    (handled s ++ [(c, executed)]).

Definition isLoopExited (s : State) : bool := match loop s with LExited => true | _ => false end.

Definition isDead (s : State) : bool := match loop s with LDead => true | _ => false end.

(** ** Calls *)

(** The part of a call before its first shared access: [sendMessage] gives up
    without a valid connection; [shutdown] does nothing the second time.  Its test
    of [isRunning_] and the assignment that follows are one step here. *)
Definition begin_call (k : Call A) (s : State) : CallPC A * State :=
  match k with
  | CSend c => if valid s then (SPush c, s) else (SIdle, s)
  | CTimer => (SLock PTimer, s)
  | CWrite => (SLock PWrite, s)
  | CStop wait => if isRunning s then (SStop wait, stop_running s) else (if wait then SWait else SIdle, s)
  end.

(** The next access of a call; none while it has to wait. *)
Definition call_step (me : Owner) (pc : CallPC A) (s : State) : option (CallPC A * State) :=
  match pc with
  | SIdle => None
  | SPush c => Some (SLock PCommand, enqueue c s)
  | SLock w => match mutex s with None => Some (SHeld w, with_mutex (Some me) s) | Some _ => None end
  | SHeld w => Some (SUnlock, match w with PCommand => notify WAsync s | PTimer => notify WRefresh s | PWrite => s end)
  | SUnlock => Some (SIdle, with_mutex None s)
  | SStop wait => Some (if wait then SWait else SIdle, notify WUnloop s)
  | SWait => if isLoopExited s then Some (SIdle, s) else None
  end.

(** ** The loop's thread *)

(** [EvHelper::eventLoop], the broker's [async_cb] and [unloop_cb], and
    [EvHelper::async_cb], which breaks out of [ev_run] or makes the timers run. *)
Definition loop_step (s : State) : option State :=
  let lock next := match mutex s with None => Some (with_loop next (with_mutex (Some OLoop) s)) | Some _ => None end in
  match loop s with
  | LTop => Some (with_loop (if s_enabled s then LWait else LExited) s)
  | LLock => lock LCheck
  | LCheck => Some (with_loop (if isRunning s then LDrain else LUnlock) s)
  | LDrain =>
      Some (match try_pop (commands s) with
            | Some (c, rest) => with_loop (LExec c) (dequeue rest s)
            | None => with_loop LUnlock s
            end)
  | LExec c => Some (with_loop LDrain (record c (valid s) s))
  | ULock => lock UShut
  | UShut => Some (with_loop URefresh (disable (with_valid false s)))
  | URefresh => Some (with_loop LUnlock (notify WRefresh s))
  | ELock => lock ECheck
  | ECheck => Some (with_loop LUnlock s)
  | LUnlock => Some (with_loop LBatch (with_mutex None s))
  | LCall pc =>
      match call_step OLoop pc s with
      | Some (pc', s') => Some (with_loop (match pc' with SIdle => LBatch | _ => LCall pc' end) s')
      | None => None
      end
  | LWait | LBatch | LExited | LDead => None
  end.

Definition callback_of (w : Watcher) : LoopPC A := match w with WAsync => LLock | WUnloop => ULock | WRefresh => ELock end.

(** Inside [ev_run]: blocked, or between two callbacks. *)
Definition in_ev_run (pc : LoopPC A) : bool := match pc with LWait | LBatch => true | _ => false end.

(** ** Actions *)

Inductive Action :=
| ACall (i : nat) (k : Call A)            (** an idle thread makes a call *)
| ACallback (k : option (Call A))         (** a reply or a timer runs a callback, which may make a call *)
| AConn (b : bool)                        (** the connection comes or goes *)
| AThrow                                  (** [conn_->execute] throws *)
| AThread (i : nat)                       (** a thread goes on with its call *)
| ATake (w : Watcher)                     (** [ev_run] runs a watcher's callback *)
| AReturn                                 (** [ev_run] returns *)
| ALoop.                                  (** the loop's thread goes on *)

Definition step (a : Action) (s : State) : option State :=
  if isDead s then None
  else
    match a with
    | ACall i k =>
        match threads s !! i with
        | Some SIdle => let '(pc, s') := begin_call k s in Some (with_thread i pc s')
        | _ => None
        end
    | ACallback k =>
        if in_ev_run (loop s) then
          match k with
          | None => Some (with_loop LBatch s)
          | Some k =>
              let '(pc, s') := begin_call k s in
              Some (with_loop (match pc with SIdle => LBatch | _ => LCall pc end) s')
          end
        else None
    | AConn b => Some (with_valid b s)
    | AThrow =>
        match loop s with
        | LExec c => if valid s then Some (with_loop LDead (with_mutex None (record c false s))) else None
        | _ => None
        end
    | AThread i =>
        match threads s !! i with
        | Some pc =>
            match call_step (OThread i) pc s with
            | Some (pc', s') => Some (with_thread i pc' s')
            | None => None
            end
        | None => None
        end
    | ATake w =>
        if in_ev_run (loop s) then
          match deliver (watch s w) with
          | Some x => Some (with_loop (callback_of w) (with_watch w x s))
          | None => None
          end
        else None
    | AReturn => match loop s with LBatch => Some (with_loop LTop s) | _ => None end
    | ALoop => loop_step s
    end.

Definition start (n : nat) : State :=
  mkState [] (fun _ => ev_async_init) None (replicate n SIdle) LTop true true true [] [].

Fixpoint run (l : list Action) (s : State) : option State :=
  match l with
  | [] => Some s
  | a :: r => match step a s with Some s' => run r s' | None => None end
  end.

(** The threads and the loop alone, without new calls, replies or failures. *)
Definition internal (a : Action) : Prop :=
  match a with AThread _ | ATake _ | AReturn | ALoop => True | _ => False end.

(** A process is not destroyed from one of its own callbacks. *)
Definition outside (a : Action) : Prop := a <> ACallback (Some (CStop true)).

(** ** The invariant *)

(** The place of a thread, the loop's or another. *)
Definition place (o : Owner) (s : State) : LoopPC A :=
  match o with OLoop => loop s | OThread i => LCall (default SIdle (threads s !! i)) end.

Definition holds (pc : LoopPC A) : bool :=
  match pc with
  | LCheck | LDrain | LExec _ | UShut | URefresh | ECheck | LUnlock | LCall (SHeld _) | LCall SUnlock => true
  | _ => false
  end.

(** About to notify the loop of a command, or to look at the queue; or there is
    no process left. *)
Definition wakes (pc : LoopPC A) : bool :=
  match pc with
  | LDead | LLock | LCheck | LDrain | LExec _ | LCall (SLock PCommand) | LCall (SHeld PCommand) => true
  | _ => false
  end.

(** About to notify the loop of the shutdown, or to disable it. *)
Definition stops (pc : LoopPC A) : bool :=
  match pc with ULock | UShut | LCall (SStop _) => true | _ => false end.

(** Possible only once [isRunning_] is false. *)
Definition knows (pc : LoopPC A) : bool := match pc with LCall SWait => true | _ => stops pc end.

Definition in_hand (pc : LoopPC A) : list A := match pc with LExec c => [c] | _ => [] end.

Record inv (s : State) : Prop := {
  inv_fifo : map fst (handled s) ++ in_hand (loop s) ++ commands s = pushed s;
  inv_mutex : forall o, holds (place o s) = true <-> mutex s = Some o;
  inv_wake : commands s <> [] -> isRunning s = true ->
    (0 < notices (watch s WAsync))%nat \/ exists o, wakes (place o s) = true;
  inv_stop : isRunning s = false -> s_enabled s = true ->
    (0 < notices (watch s WUnloop))%nat \/ exists o, stops (place o s) = true;
  inv_only : (0 < notices (watch s WUnloop))%nat \/ (exists o, knows (place o s) = true) \/ s_enabled s = false ->
    isRunning s = false;
  inv_awake : s_enabled s = false -> loop s <> LWait;
  inv_exited : loop s = LExited -> s_enabled s = false;
}.

(** What a step of one thread [o] to the place [p'] has to keep. *)
Record moves (o : Owner) (p' : LoopPC A) (s s' : State) : Prop := {
  mv_place : forall o', place o' s' = if decide (o' = o) then p' else place o' s;
  mv_fifo : map fst (handled s') ++ in_hand (loop s') ++ commands s' = pushed s';
  mv_mutex : (holds p' = holds (place o s) /\ mutex s' = mutex s) \/
    (mutex s = None /\ mutex s' = Some o /\ holds p' = true) \/
    (holds (place o s) = true /\ holds p' = false /\ mutex s' = None);
  mv_wake : wakes p' = true \/ (0 < notices (watch s' WAsync))%nat \/ commands s' = [] \/ isRunning s' = false \/
    (wakes (place o s) = false /\ notices (watch s WAsync) = notices (watch s' WAsync) /\ commands s' = commands s /\
     isRunning s' = isRunning s);
  mv_stop : stops p' = true \/ (0 < notices (watch s' WUnloop))%nat \/ s_enabled s' = false \/
    (stops (place o s) = false /\ notices (watch s WUnloop) = notices (watch s' WUnloop) /\
     s_enabled s' = s_enabled s /\ isRunning s' = isRunning s);
  mv_only : isRunning s' = false \/
    (isRunning s' = isRunning s /\
     ((0 < notices (watch s' WUnloop))%nat -> (0 < notices (watch s WUnloop))%nat \/ knows (place o s) = true) /\
     (knows p' = true -> knows (place o s) = true \/ (0 < notices (watch s WUnloop))%nat) /\
     (s_enabled s' = false -> s_enabled s = false \/ knows (place o s) = true));
  mv_awake : s_enabled s' = false -> loop s' <> LWait;
  mv_exited : loop s' = LExited -> s_enabled s' = false;
}.

Lemma inv_moves o p' s s' : inv s -> moves o p' s s' -> inv s'.
Proof.
  intros I [Hp Hf Hm Hw Hs Ho Ha He]. split; try done.
  - intros o'. rewrite Hp. pose proof (inv_mutex s I o) as Io. pose proof (inv_mutex s I o') as Io'.
    destruct (decide (o' = o)) as [->|Hne]; destruct Hm as [[H1 H2]|[(H1 & H2 & H3)|(H1 & H2 & H3)]].
    + rewrite H1, H2. done.
    + rewrite H2, H3. done.
    + rewrite H2, H3. done.
    + by rewrite H2.
    + rewrite Io', H1, H2. split; [done|]. intros [= ->]. done.
    + rewrite Io', H3, (proj1 Io H1). split; [intros [= ->]; done|done].
  - intros Hc Hr. destruct Hw as [H|[H|[H|[H|(H1 & H2 & H3 & H4)]]]]; [right; exists o|by left|done|congruence|].
    { rewrite Hp. by rewrite decide_True. }
    rewrite H3 in Hc. rewrite H4 in Hr. rewrite <- H2. destruct (inv_wake s I Hc Hr) as [?|[o' Ho']]; [by left|].
    right. exists o'. rewrite Hp. destruct (decide (o' = o)) as [->|]; congruence.
  - intros Hr Hen. destruct Hs as [H|[H|[H|(H1 & H2 & H3 & H4)]]]; [right; exists o|by left|congruence|].
    { rewrite Hp. by rewrite decide_True. }
    rewrite H3 in Hen. rewrite H4 in Hr. rewrite <- H2. destruct (inv_stop s I Hr Hen) as [?|[o' Ho']]; [by left|].
    right. exists o'. rewrite Hp. destruct (decide (o' = o)) as [->|]; congruence.
  - destruct Ho as [Ho|(Hr & H1 & H2 & H3)]; [done|]. rewrite Hr. intros H. apply (inv_only s I).
    destruct H as [H|[[o' H]|H]].
    + destruct (H1 H); [by left|right; left; by exists o].
    + rewrite Hp in H. destruct (decide (o' = o)) as [->|].
      * destruct (H2 H); [right; left; by exists o|by left].
      * right; left; by exists o'.
    + destruct (H3 H); [by right; right|right; left; by exists o].
Qed.

(** The parts of a state that a place does not depend on. *)
Lemma place_thread i pc s s1 o : (i < length (threads s))%nat -> threads s1 = threads s -> loop s1 = loop s ->
  place o (with_thread i pc s1) = if decide (o = OThread i) then LCall pc else place o s.
Proof.
  intros Hi Ht Hl. destruct o as [|j]; cbn; [done|]. rewrite Ht.
  destruct (decide (OThread j = OThread i)) as [[= ->]|Hne].
  - by rewrite list_lookup_insert_eq.
  - rewrite list_lookup_insert_ne by congruence. done.
Qed.

Lemma place_loop pc s s1 o : threads s1 = threads s ->
  place o (with_loop pc s1) = if decide (o = OLoop) then pc else place o s.
Proof. intros Ht. destruct o as [|j]; cbn; [done|by rewrite Ht]. Qed.

(** Closes the obligations of [moves] that the definitions decide. *)
Ltac settle :=
  cbn in *;
  first [ done | by left | by right; left | by right; right; left | by right; right; right; left
        | by right; right; right; right; split_and! | by right; right; right; split_and!
        | by right; right | by right; split_and! | by left; split_and!
        | right; split_and!; intros; first [ done | by left | by right | congruence ]
        | left; by auto | intros; congruence | intros; first [ by left; auto | by auto ] ].

Lemma thread_place i pc s : threads s !! i = Some pc -> place (OThread i) s = LCall pc.
Proof. cbn. by intros ->. Qed.

Lemma notices_notify w s : (0 < notices (watch (notify w s) w))%nat.
Proof. cbn. rewrite decide_True by done. apply notices_send. Qed.
Lemma notices_other w v s : v <> w -> watch (notify w s) v = watch s v.
Proof. intros. cbn. by rewrite decide_False. Qed.

(** A step of a thread other than the loop's, and one of the loop's. *)
Ltac by_thread := split; try (intros; by apply place_thread); try settle.
Ltac by_loop := split; try (intros; by apply place_loop); try settle.

Lemma thread_inv i pc s pc' s1 : inv s -> threads s !! i = Some pc ->
  call_step (OThread i) pc s = Some (pc', s1) -> inv (with_thread i pc' s1).
Proof.
  intros I Hi E. apply (inv_moves (OThread i) (LCall pc') s); [done|].
  pose proof (thread_place i pc s Hi) as Hpl. apply lookup_lt_Some in Hi as Hlt.
  pose proof (inv_fifo s I) as Hf. pose proof (inv_awake s I) as Ha. pose proof (inv_exited s I) as He.
  pose proof (notices_notify WAsync s). pose proof (notices_notify WUnloop s).
  assert (Hst : knows (LCall pc) = true -> isRunning s = false).
  { intros Hs. apply (inv_only s I). right; left. exists (OThread i). by rewrite Hpl. }
  destruct pc as [|c|w|w| |wait|]; cbn in E; try done.
  - simplify_eq. by_thread; rewrite ?Hpl; try settle. cbn. unfold push. by rewrite <- Hf, <- !app_assoc.
  - destruct (mutex s) eqn:Hm; [done|]. simplify_eq. by_thread; rewrite ?Hpl; try settle. destruct w; settle.
  - destruct w; simplify_eq; by_thread; rewrite ?Hpl; settle.
  - simplify_eq; by_thread; rewrite ?Hpl; settle.
  - destruct wait; simplify_eq; by_thread; rewrite ?Hpl; settle.
  - destruct (isLoopExited s); simplify_eq; by_thread; rewrite ?Hpl; settle.
Qed.

Lemma loop_inv s s' : inv s -> loop_step s = Some s' -> inv s'.
Proof.
  intros I E. pose proof (inv_fifo s I) as Hf. pose proof (inv_exited s I) as He.
  pose proof (inv_only s I) as Honly.
  pose proof (notices_notify WAsync s). pose proof (notices_notify WUnloop s).
  assert (Hst : knows (loop s) = true -> isRunning s = false).
  { intros Hs. apply (inv_only s I). right; left. by exists OLoop. }
  unfold loop_step in E. destruct (loop s) as [| | | | | |c| | | | | | |pc| |] eqn:Hl; try done.
  - simplify_eq. apply (inv_moves OLoop (if s_enabled s then LWait else LExited) s); [done|].
    destruct (s_enabled s) eqn:Hen; by_loop; cbn; rewrite ?Hl; settle.
  - destruct (mutex s) eqn:Hm; [done|]. simplify_eq. apply (inv_moves OLoop LCheck s); [done|].
    by_loop; cbn; rewrite ?Hl; settle.
  - simplify_eq. apply (inv_moves OLoop (if isRunning s then LDrain else LUnlock) s); [done|].
    destruct (isRunning s) eqn:Hr; by_loop; cbn; rewrite ?Hl; settle.
  - simplify_eq. unfold try_pop. destruct (commands s) as [|c rest] eqn:Hc; cbn.
    + apply (inv_moves OLoop LUnlock s); [done|]. by_loop; cbn; rewrite ?Hl, ?Hc; settle.
    + apply (inv_moves OLoop (LExec c) s); [done|]. by_loop; cbn; rewrite ?Hl, ?Hc; settle.
  - simplify_eq. apply (inv_moves OLoop LDrain s); [done|]. by_loop; cbn; rewrite ?Hl; try settle.
    rewrite map_app, <- app_assoc. done.
  - destruct (mutex s) eqn:Hm; [done|]. simplify_eq. apply (inv_moves OLoop UShut s); [done|].
    by_loop; cbn; rewrite ?Hl; settle.
  - simplify_eq. apply (inv_moves OLoop URefresh s); [done|]. by_loop; cbn; rewrite ?Hl; settle.
  - simplify_eq. apply (inv_moves OLoop LUnlock s); [done|]. by_loop; cbn; rewrite ?Hl; settle.
  - destruct (mutex s) eqn:Hm; [done|]. simplify_eq. apply (inv_moves OLoop ECheck s); [done|].
    by_loop; cbn; rewrite ?Hl; settle.
  - simplify_eq. apply (inv_moves OLoop LUnlock s); [done|]. by_loop; cbn; rewrite ?Hl; settle.
  - simplify_eq. apply (inv_moves OLoop LBatch s); [done|]. by_loop; cbn; rewrite ?Hl; settle.
  - destruct (call_step OLoop pc s) as [[pc' s1]|] eqn:Ec; [|done]. simplify_eq.
    apply (inv_moves OLoop (match pc' with SIdle => LBatch | _ => LCall pc' end) s); [done|].
    destruct pc as [|c|w|w| |wait|]; cbn in Ec; try done.
    + simplify_eq. by_loop; cbn; rewrite ?Hl; try settle. unfold push. by rewrite <- Hf, <- !app_assoc.
    + destruct (mutex s) eqn:Hm; [done|]. simplify_eq. by_loop; cbn; rewrite ?Hl; try settle. destruct w; settle.
    + destruct w; simplify_eq; by_loop; cbn; rewrite ?Hl; settle.
    + simplify_eq. by_loop; cbn; rewrite ?Hl; settle.
    + destruct wait; simplify_eq; by_loop; cbn; rewrite ?Hl; settle.
    + destruct (isLoopExited s); simplify_eq; by_loop; cbn; rewrite ?Hl; settle.
Qed.

Lemma begin_thread_inv i k s pc s1 : inv s -> threads s !! i = Some SIdle -> begin_call k s = (pc, s1) ->
  inv (with_thread i pc s1).
Proof.
  intros I Hi E. apply (inv_moves (OThread i) (LCall pc) s); [done|].
  pose proof (thread_place i _ s Hi) as Hpl. apply lookup_lt_Some in Hi as Hlt.
  pose proof (inv_fifo s I) as Hf. pose proof (inv_awake s I) as Ha. pose proof (inv_exited s I) as He.
  destruct k as [c| | |wait]; cbn in E.
  - destruct (valid s); simplify_eq; by_thread; rewrite ?Hpl; settle.
  - simplify_eq; by_thread; rewrite ?Hpl; settle.
  - simplify_eq; by_thread; rewrite ?Hpl; settle.
  - destruct (isRunning s) eqn:Hr; [|destruct wait]; simplify_eq; by_thread; rewrite ?Hpl; settle.
Qed.

Lemma begin_loop_inv k s pc s1 : inv s -> in_ev_run (loop s) = true -> begin_call k s = (pc, s1) ->
  inv (with_loop (match pc with SIdle => LBatch | _ => LCall pc end) s1).
Proof.
  intros I Hl E. apply (inv_moves OLoop (match pc with SIdle => LBatch | _ => LCall pc end) s); [done|].
  pose proof (inv_fifo s I) as Hf.
  assert (Hp : holds (loop s) = false /\ wakes (loop s) = false /\ stops (loop s) = false /\ knows (loop s) = false /\ in_hand (loop s) = [])
    by (destruct (loop s); done).
  destruct Hp as (Hh & Hw & Hs & Hk & Hi).
  destruct k as [c| | |wait]; cbn in E.
  - destruct (valid s); simplify_eq; by_loop; cbn; rewrite ?Hh, ?Hw, ?Hs, ?Hk, ?Hi in *; settle.
  - simplify_eq; by_loop; cbn; rewrite ?Hh, ?Hw, ?Hs, ?Hk, ?Hi in *; settle.
  - simplify_eq; by_loop; cbn; rewrite ?Hh, ?Hw, ?Hs, ?Hk, ?Hi in *; settle.
  - destruct (isRunning s) eqn:Hr; [|destruct wait]; simplify_eq; by_loop; cbn; rewrite ?Hh, ?Hw, ?Hs, ?Hk, ?Hi in *; settle.
Qed.

Lemma take_inv w s x : inv s -> in_ev_run (loop s) = true -> deliver (watch s w) = Some x ->
  inv (with_loop (callback_of w) (with_watch w x s)).
Proof.
  intros I Hl E. apply (inv_moves OLoop (callback_of w) s); [done|].
  pose proof (inv_fifo s I) as Hf. apply deliver_some in E as Hx.
  assert (Hp : holds (loop s) = false /\ wakes (loop s) = false /\ stops (loop s) = false /\ knows (loop s) = false /\ in_hand (loop s) = [])
    by (destruct (loop s); done).
  destruct Hp as (Hh & Hw & Hs & Hk & Hi).
  assert (Hn : (0 < notices (watch s w))%nat) by lia.
  destruct w; by_loop; cbn; rewrite ?Hh, ?Hw, ?Hs, ?Hk, ?Hi in *; try settle.
Qed.

Lemma action_inv a s s' : inv s -> step a s = Some s' -> inv s'.
Proof.
  intros I E. unfold step in E. destruct (isDead s); [done|].
  destruct a as [i k|k|b| |i|w| |]; cbn in E.
  - destruct (threads s !! i) as [[]|] eqn:Hi; try done.
    destruct (begin_call k s) as [pc s1] eqn:Ek. simplify_eq. by eapply begin_thread_inv.
  - destruct (in_ev_run (loop s)) eqn:Hl; [|done]. destruct k as [k|].
    { destruct (begin_call k s) as [pc s1] eqn:Ek. injection E as <-. by eapply begin_loop_inv. }
    simplify_eq. apply (inv_moves OLoop LBatch s); [done|]. pose proof (inv_fifo s I) as Hf.
    destruct (loop s) eqn:E; try done; by_loop; cbn; rewrite ?E in *; settle.
  - simplify_eq. destruct I. by split.
  - destruct (loop s) eqn:Hl; try done. destruct (valid s); [|done]. simplify_eq.
    apply (inv_moves OLoop LDead s); [done|]. pose proof (inv_fifo s I) as Hf. rewrite Hl in Hf.
    by_loop; cbn; rewrite ?Hl; try settle.
    rewrite map_app, <- app_assoc. done.
  - destruct (threads s !! i) as [pc|] eqn:Hi; [|done].
    destruct (call_step (OThread i) pc s) as [[pc' s1]|] eqn:Ec; [|done]. injection E as <-. by eapply thread_inv.
  - destruct (in_ev_run (loop s)) eqn:Hl; [|done]. destruct (deliver (watch s w)) eqn:Ed; [|done].
    injection E as <-. by eapply take_inv.
  - destruct (loop s) eqn:Hl; try done. simplify_eq. apply (inv_moves OLoop LTop s); [done|].
    pose proof (inv_fifo s I) as Hf. by_loop; cbn; rewrite ?Hl in *; settle.
  - by eapply loop_inv.
Qed.

Lemma start_place n o : place o (start n) = if decide (o = OLoop) then LTop else LCall SIdle.
Proof.
  destruct o as [|i]; cbn; [done|]. destruct (replicate n SIdle !! i) eqn:E; [|done].
  by apply lookup_replicate in E as [-> _].
Qed.

Lemma start_safe n : inv (start n).
Proof.
  split; cbn; try done.
  - intros o. rewrite start_place. by destruct (decide (o = OLoop)) as [->|].
  - intros [H|[[o H]|H]]; [rewrite notices_init in H; lia| |done].
    rewrite start_place in H. by destruct (decide (o = OLoop)).
Qed.

Definition reachable (n : nat) (s : State) : Prop := exists l, run l (start n) = Some s.

Lemma run_inv l s s' : inv s -> run l s = Some s' -> inv s'.
Proof.
  revert s. induction l as [|a l IH]; cbn; intros s I E; [by simplify_eq|].
  destruct (step a s) as [s1|] eqn:Es; [|done]. eapply IH; [|done]. by eapply action_inv.
Qed.

Lemma reachable_inv n s : reachable n s -> inv s.
Proof. intros [l H]. eapply run_inv; [apply (start_safe n)|exact H]. Qed.

(** C14: in every interleaving, the commands popped by the loop, the one in its
    hand and the ones in the queue are, in order, the commands that were pushed,
    each once; at most one thread is inside the loop's mutex; and while the
    broker runs, a command in the queue has not been forgotten: the loop has
    been notified, or it is looking at the queue, or the thread that pushed it
    is still to notify it. *)
Theorem commands_in_order n s : reachable n s ->
  map fst (handled s) ++ in_hand (loop s) ++ commands s = pushed s /\
  (forall o o', holds (place o s) = true -> holds (place o' s) = true -> o = o') /\
  (commands s <> [] -> isRunning s = true ->
   (0 < notices (watch s WAsync))%nat \/ exists o, wakes (place o s) = true).
Proof.
  intros I%reachable_inv. split_and!; [apply I| |apply I].
  intros o o' H%(inv_mutex s I) H'%(inv_mutex s I). congruence.
Qed.

(** ** Every interleaving settles *)

Definition call_weight (pc : CallPC A) : nat :=
  match pc with
  | SIdle => 0 | SWait => 1 | SUnlock => 1 | SHeld _ => 10 | SLock _ => 11 | SPush _ => 15 | SStop _ => 22
  end.
Definition loop_weight (pc : LoopPC A) : nat :=
  match pc with
  | LWait | LExited | LDead => 0 | LTop => 1 | LBatch => 2 | LUnlock => 3
  | ECheck => 4 | ELock => 5
  | LDrain => 5 | LExec _ => 6 | LCheck => 6 | LLock => 7
  | URefresh => 12 | UShut => 13 | ULock => 14
  | LCall pc => 2 + call_weight pc
  end.
(** The accesses that are left, at most. *)
Definition weight (s : State) : nat :=
  sum_list_with call_weight (threads s) + loop_weight (loop s) + 3 * length (commands s) +
  8 * notices (watch s WAsync) + 8 * notices (watch s WRefresh) + 20 * notices (watch s WUnloop).

Lemma weight_insert i (pc pc' : CallPC A) l : l !! i = Some pc ->
  (sum_list_with call_weight (<[i := pc']> l) + call_weight pc = sum_list_with call_weight l + call_weight pc')%nat.
Proof.
  revert i. induction l as [|x l IH]; intros [|i] H; cbn in *; simplify_eq; [lia|].
  rewrite <- Nat.add_assoc. etransitivity; [exact (f_equal (Nat.add (call_weight x)) (IH i H))|lia].
Qed.

Definition cost (s : State) : nat :=
  3 * length (commands s) +
  8 * notices (watch s WAsync) + 8 * notices (watch s WRefresh) + 20 * notices (watch s WUnloop).

Lemma cost_notify w s : (cost (notify w s) <= cost s + match w with WUnloop => 20 | _ => 8 end)%nat.
Proof.
  unfold cost. pose proof (notices_send (watch s WAsync)). pose proof (notices_send (watch s WRefresh)).
  pose proof (notices_send (watch s WUnloop)). destruct w; cbn [notify with_watch watch commands]; repeat case_decide; try done; lia.
Qed.

(** The next access of a call takes some of its weight. *)
Lemma call_step_weight me pc s pc' s1 : call_step me pc s = Some (pc', s1) ->
  (cost s1 + call_weight pc' < cost s + call_weight pc)%nat /\ threads s1 = threads s /\ loop s1 = loop s.
Proof.
  intros E. destruct pc as [|c|w|w| |wait|]; cbn in E.
  - done.
  - simplify_eq. unfold cost, enqueue, push; cbn -[Nat.mul]. rewrite length_app; cbn -[Nat.mul]. split; [lia|done].
  - destruct (mutex s); simplify_eq. split; [|done]. unfold cost; cbn -[Nat.mul]. lia.
  - pose proof (cost_notify WAsync s). pose proof (cost_notify WRefresh s).
    destruct w; simplify_eq; cbn [call_weight]; split; try done; cbn iota in *; lia.
  - simplify_eq. split; [|done]. unfold cost; cbn -[Nat.mul]. lia.
  - pose proof (cost_notify WUnloop s). destruct wait; simplify_eq; cbn [call_weight]; split; try done; cbn iota in *; lia.
  - destruct (isLoopExited s); simplify_eq. cbn. split; [lia|done].
Qed.

Lemma loop_step_weight s s' : loop_step s = Some s' ->
  (cost s' + loop_weight (loop s') < cost s + loop_weight (loop s))%nat /\ threads s' = threads s.
Proof.
  intros E. unfold loop_step in E. destruct (loop s) as [| | | | | |c| | | | | | |pc| |] eqn:Hl; try done;
    try (destruct (mutex s); [done|]; injection E as <-; split; [unfold cost; cbn -[Nat.mul]; lia|done]);
    try (injection E as <-; split; [unfold cost; cbn -[Nat.mul]; lia|done]).
  - injection E as <-. split; [|done]. unfold cost. destruct (s_enabled s); cbn -[Nat.mul]; lia.
  - injection E as <-. split; [|done]. unfold cost. destruct (isRunning s); cbn -[Nat.mul]; lia.
  - injection E as <-. unfold cost, try_pop. destruct (commands s) as [|c rest] eqn:Hc; cbn -[Nat.mul]; rewrite ?Hc; cbn -[Nat.mul].
    all: split; [lia|done].
  - injection E as <-. split; [|done]. pose proof (cost_notify WRefresh s). unfold cost in *. cbn -[Nat.mul] in *. lia.
  - destruct (call_step OLoop pc s) as [[pc' s1]|] eqn:Ec; [|done]. injection E as <-.
    apply call_step_weight in Ec as (Hw & Ht & _). split; [|done]. unfold cost in *.
    destruct pc'; cbn -[Nat.mul] in *; lia.
Qed.

Lemma weight_cost s : weight s = (sum_list_with call_weight (threads s) + loop_weight (loop s) + cost s)%nat.
Proof. unfold weight, cost. lia. Qed.

Lemma deliver_cost w x s : deliver (watch s w) = Some x ->
  (cost (with_watch w x s) + match w with WUnloop => 20 | _ => 8 end <= cost s)%nat.
Proof.
  intros H%deliver_some. unfold cost. destruct w; cbn [with_watch watch commands]; repeat case_decide; try done; lia.
Qed.

Lemma internal_weight a s s' : internal a -> step a s = Some s' -> (weight s' < weight s)%nat.
Proof.
  intros Ha E. rewrite !weight_cost. unfold step in E. destruct (isDead s); [done|].
  destruct a as [i k|k|b| |i|w| |]; try done; cbn in E.
  - destruct (threads s !! i) as [pc|] eqn:Hi; [|done].
    destruct (call_step (OThread i) pc s) as [[pc' s1]|] eqn:Ec; [|done]. injection E as <-.
    apply call_step_weight in Ec as (Hw & Ht & Hl). pose proof (weight_insert i pc pc' _ Hi).
    unfold cost in *. cbn -[Nat.mul] in *. rewrite Ht, Hl. lia.
  - destruct (in_ev_run (loop s)) eqn:Hl; [|done]. destruct (deliver (watch s w)) eqn:Ed; [|done].
    injection E as <-. apply deliver_cost in Ed. unfold cost in *. destruct w; cbn -[Nat.mul] in *; lia.
  - destruct (loop s) eqn:Hl; try done. injection E as <-. unfold cost. cbn -[Nat.mul]. lia.
  - apply loop_step_weight in E as [Hw Ht]. rewrite Ht. lia.
Qed.

Lemma run_internal_bound l s s' : Forall internal l -> run l s = Some s' -> (length l + weight s' <= weight s)%nat.
Proof.
  revert s. induction l as [|a l IH]; intros s Hl E; cbn in *; [simplify_eq; lia|].
  apply Forall_cons in Hl as [Ha Hl]. destruct (step a s) as [s1|] eqn:Es; [|done].
  apply internal_weight in Es; [|done]. specialize (IH s1 Hl E). lia.
Qed.

(** Nothing is left to do without a new call, reply or failure. *)
Definition stuck (s : State) : Prop := forall a, internal a -> step a s = None.

(** The calls of the loop's own callbacks never wait for the loop. *)
Definition unblocked (pc : LoopPC A) : bool :=
  match pc with LCall SIdle | LCall SWait | LCall (SStop true) => false | _ => true end.

Lemma step_unblocked a s s' : outside a -> unblocked (loop s) = true -> step a s = Some s' -> unblocked (loop s') = true.
Proof.
  intros Ha Hu E. unfold step in E. destruct (isDead s); [done|].
  destruct a as [i k|k|b| |i|w| |]; cbn in E.
  - destruct (threads s !! i) as [[]|]; try done. destruct k as [c| | |wait]; cbn in E.
    + destruct (valid s); by simplify_eq.
    + by simplify_eq.
    + by simplify_eq.
    + destruct (isRunning s); by simplify_eq.
  - destruct (in_ev_run (loop s)); [|done]. destruct k as [[c| | |[]]|]; cbn in E; try by simplify_eq.
    + destruct (valid s); by simplify_eq.
    + destruct (isRunning s); by simplify_eq.
  - by simplify_eq.
  - destruct (loop s); try done. destruct (valid s); by simplify_eq.
  - destruct (threads s !! i) as [pc|]; [|done]. destruct (call_step (OThread i) pc s) as [[pc' s1]|] eqn:Ec; [|done].
    injection E as <-. apply call_step_weight in Ec as (_ & _ & Hl). cbn. by rewrite Hl.
  - destruct (in_ev_run (loop s)); [|done]. destruct (deliver (watch s w)); [|done]. simplify_eq. by destruct w.
  - destruct (loop s); try done. by simplify_eq.
  - unfold loop_step in E. destruct (loop s) as [| | | | | |c| | | | | | |pc| |]; try done;
      try (destruct (mutex s); by simplify_eq); try by simplify_eq.
    + simplify_eq. by destruct (s_enabled s).
    + simplify_eq. by destruct (isRunning s).
    + simplify_eq. by destruct (try_pop (commands s)) as [[]|].
    + destruct pc as [|c|w|w| |[]|]; cbn in E; try by simplify_eq. destruct (mutex s); by simplify_eq.
Qed.

Lemma run_unblocked l s s' : Forall outside l -> unblocked (loop s) = true -> run l s = Some s' ->
  unblocked (loop s') = true.
Proof.
  revert s. induction l as [|a l IH]; intros s Hl Hu E; cbn in *; [by simplify_eq|].
  apply Forall_cons in Hl as [Ha Hl]. destruct (step a s) as [s1|] eqn:Es; [|done].
  eapply IH; [done| |done]. by eapply step_unblocked.
Qed.

(** A thread inside the mutex can always go on, so the mutex is free. *)
Lemma stuck_mutex s : inv s -> isDead s = false -> stuck s -> mutex s = None.
Proof.
  intros I Hd Hs. destruct (mutex s) as [o|] eqn:Hm; [exfalso|done].
  apply (inv_mutex s I) in Hm as Hh. destruct o as [|i].
  - specialize (Hs ALoop Logic.I). unfold step in Hs. rewrite Hd in Hs. unfold loop_step in Hs. cbn in Hh.
    destruct (loop s) as [| | | | | |c| | | | | | |pc| |]; try done. by destruct pc.
  - specialize (Hs (AThread i) Logic.I). unfold step in Hs. rewrite Hd in Hs. cbn in Hh.
    destruct (threads s !! i) as [pc|]; [|done]. by destruct pc.
Qed.

Lemma stuck_loop s : isDead s = false -> stuck s -> mutex s = None -> unblocked (loop s) = true ->
  loop s = LWait \/ loop s = LExited.
Proof.
  intros Hd Hs Hm Hu. pose proof (Hs ALoop Logic.I) as Hl. pose proof (Hs AReturn Logic.I) as Hr.
  unfold step in Hl, Hr. rewrite Hd in Hl, Hr. unfold loop_step in Hl. rewrite Hm in Hl. unfold isDead in Hd.
  destruct (loop s) as [| | | | | |c| | | | | | |pc| |]; try done; [by left| |by right].
  destruct pc as [|c|w|w| |[]|]; cbn in Hl; rewrite ?Hm in Hl; done.
Qed.

Lemma stuck_thread s i pc : isDead s = false -> stuck s -> mutex s = None -> threads s !! i = Some pc ->
  pc = SIdle \/ (pc = SWait /\ loop s <> LExited).
Proof.
  intros Hd Hs Hm Hi. specialize (Hs (AThread i) Logic.I). unfold step in Hs. rewrite Hd, Hi in Hs.
  destruct pc as [|c|w|w| |[]|]; cbn in Hs; rewrite ?Hm in Hs; try done; [by left|right].
  split; [done|]. unfold isLoopExited in Hs. by destruct (loop s).
Qed.

Lemma stuck_notices s w : isDead s = false -> stuck s -> loop s = LWait -> notices (watch s w) = 0%nat.
Proof.
  intros Hd Hs Hl. specialize (Hs (ATake w) Logic.I). unfold step in Hs. rewrite Hd, Hl in Hs. cbn in Hs.
  apply deliver_none. by destruct (deliver (watch s w)).
Qed.

(** What is left when nothing can happen. *)
Record settled (s : State) : Prop := {
  settled_mutex : mutex s = None;
  settled_threads : Forall (fun pc => pc = SIdle) (threads s);
  settled_running : isRunning s = true -> loop s = LWait /\ commands s = [] /\ map fst (handled s) = pushed s;
  settled_stopped : isRunning s = false -> loop s = LExited;
}.

Lemma stuck_settled s : inv s -> isDead s = false -> unblocked (loop s) = true -> stuck s -> settled s.
Proof.
  intros I Hd Hu Hs. pose proof (stuck_mutex s I Hd Hs) as Hm.
  pose proof (stuck_loop s Hd Hs Hm Hu) as Hl.
  assert (Hrun : loop s = LWait -> isRunning s = true).
  { intros Hw. destruct (isRunning s) eqn:Hr; [done|exfalso].
    assert (Hen : s_enabled s = true) by (destruct (s_enabled s) eqn:E; [done|by apply (inv_awake s I) in E]).
    destruct (inv_stop s I Hr Hen) as [H|[[|i] H]].
    - rewrite (stuck_notices s WUnloop Hd Hs Hw) in H. lia.
    - cbn in H. by rewrite Hw in H.
    - cbn in H. destruct (threads s !! i) as [pc|] eqn:Hi; [|done].
      destruct (stuck_thread s i pc Hd Hs Hm Hi) as [->|[-> _]]; done. }
  assert (Hexit : loop s = LExited -> isRunning s = false).
  { intros He. apply (inv_only s I). right; right. by apply (inv_exited s I). }
  split; [done| | |].
  - apply Forall_lookup. intros i pc Hi. destruct (stuck_thread s i pc Hd Hs Hm Hi) as [->|[-> Hne]]; [done|exfalso].
    destruct Hl as [Hl|Hl]; [|done]. rewrite (inv_only s I) in Hrun; [by specialize (Hrun Hl)|].
    right; left. exists (OThread i). cbn. by rewrite Hi.
  - intros Hr. destruct Hl as [Hl|Hl]; [|apply Hexit in Hl; congruence].
    assert (Hc : commands s = []).
    { destruct (commands s) as [|c l] eqn:Hc; [done|exfalso]. destruct (inv_wake s I) as [H|[[|i] H]]; rewrite ?Hc; try done.
      - rewrite (stuck_notices s WAsync Hd Hs Hl) in H. lia.
      - cbn in H. by rewrite Hl in H.
      - cbn in H. destruct (threads s !! i) as [pc|] eqn:Hi; [|done].
        destruct (stuck_thread s i pc Hd Hs Hm Hi) as [->|[-> _]]; done. }
    pose proof (inv_fifo s I) as Hf. rewrite Hl, Hc in Hf. cbn in Hf. by rewrite app_nil_r in Hf.
  - intros Hr. destruct Hl as [Hl|Hl]; [apply Hrun in Hl; congruence|done].
Qed.

Lemma internal_outside l : Forall internal l -> Forall outside l.
Proof. intros H. eapply Forall_impl; [exact H|]. intros a Ha ->. done. Qed.

Lemma internal_alive a s s' : internal a -> step a s = Some s' -> isDead s' = false.
Proof.
  intros Ha Es. unfold step in Es. destruct (isDead s) eqn:Hd; [done|].
  destruct a as [i k|k|b| |i|w| |]; try done; cbn in Es.
  - destruct (threads s !! i) as [pc|]; [|done]. destruct (call_step (OThread i) pc s) as [[pc' s1]|] eqn:Ec; [|done].
    injection Es as <-. apply call_step_weight in Ec as (_ & _ & Hl). unfold isDead in *. cbn. by rewrite Hl.
  - destruct (in_ev_run (loop s)); [|done]. destruct (deliver (watch s w)); [|done]. simplify_eq. by destruct w.
  - destruct (loop s); try done. by simplify_eq.
  - unfold loop_step in Es. destruct (loop s) as [| | | | | |c| | | | | | |pc| |]; try done;
      try (destruct (mutex s); by simplify_eq); try by simplify_eq.
    + simplify_eq. by destruct (s_enabled s).
    + simplify_eq. by destruct (isRunning s).
    + simplify_eq. by destruct (try_pop (commands s)) as [[]|].
    + destruct (call_step OLoop pc s) as [[pc' s1]|]; [|done]. injection Es as <-. by destruct pc'.
Qed.

Lemma run_alive l s s' : Forall internal l -> isDead s = false -> run l s = Some s' -> isDead s' = false.
Proof.
  revert s. induction l as [|a l IH]; intros s Hl Hd E; cbn in *; [by simplify_eq|].
  apply Forall_cons in Hl as [Ha Hl]. destruct (step a s) as [s1|] eqn:Es; [|done].
  eapply (IH s1); try done. by eapply internal_alive.
Qed.

(** The internal actions that could be enabled. *)
Definition candidates (s : State) : list Action :=
  [ATake WAsync; ATake WUnloop; ATake WRefresh; AReturn; ALoop] ++ map AThread (seq 0 (length (threads s))).

Lemma candidates_all s a : internal a -> a ∈ candidates s \/ step a s = None.
Proof.
  intros Ha. unfold candidates. destruct a as [i k|k|b| |i|[]| |]; try done; try (left; set_solver).
  destruct (decide (i < length (threads s))%nat) as [Hi|Hi].
  - left. apply elem_of_app. right. apply list_elem_of_fmap. exists i. split; [done|]. apply elem_of_seq. lia.
  - right. unfold step. destruct (isDead s); [done|].
    assert (E : threads s !! i = None) by (apply lookup_ge_None; lia). by rewrite E.
Qed.

Lemma candidates_internal s a : a ∈ candidates s -> internal a.
Proof.
  unfold candidates. intros [H|H]%elem_of_app; [|by apply list_elem_of_fmap in H as (i & -> & _)].
  repeat (apply elem_of_cons in H as [->|H]; [done|]). by apply elem_of_nil in H.
Qed.

Lemma progress_or_stuck s : (exists a s', internal a /\ step a s = Some s') \/ stuck s.
Proof.
  destruct (decide (Exists (fun a => is_Some (step a s)) (candidates s))) as [H|H].
  - apply Exists_exists in H as (a & Hin & s' & Hs). left. exists a, s'. split; [by eapply candidates_internal|done].
  - right. intros a Ha. destruct (candidates_all s a Ha) as [Hin|]; [|done].
    destruct (step a s) as [s'|] eqn:E; [exfalso|done]. apply H, Exists_exists. exists a. split; [done|]. rewrite E. by eexists.
Qed.

Lemma run_to_stuck s : exists l s', Forall internal l /\ run l s = Some s' /\ stuck s'.
Proof.
  remember (weight s) as m eqn:Hm. revert s Hm. induction m as [m IH] using lt_wf_ind. intros s ->.
  destruct (progress_or_stuck s) as [(a & s1 & Ha & Hs)|Hs].
  - destruct (IH (weight s1)) with (s := s1) as (l & s' & Hl & Hr & Hst); [by eapply internal_weight|done|].
    exists (a :: l), s'. split_and!; [by constructor|cbn; by rewrite Hs|done].
  - by exists [], s.
Qed.

(** A shutdown is for good. *)
Lemma call_step_running me pc s pc' s1 : call_step me pc s = Some (pc', s1) -> isRunning s1 = isRunning s.
Proof.
  intros E. destruct pc as [|c|w|w| |wait|]; cbn in E; try done; try by simplify_eq.
  - destruct (mutex s); by simplify_eq.
  - destruct w; by simplify_eq.
  - destruct (isLoopExited s); by simplify_eq.
Qed.

Lemma step_stopped a s s' : step a s = Some s' -> isRunning s = false -> isRunning s' = false.
Proof.
  intros E Hr. unfold step in E. destruct (isDead s); [done|].
  assert (Hb : forall k pc s1, begin_call k s = (pc, s1) -> isRunning s1 = false).
  { intros [c| | |wait] pc s1 Hk; cbn in Hk; rewrite ?Hr in Hk; try destruct (valid s); injection Hk as <- <-; done. }
  destruct a as [i k|k|b| |i|w| |]; cbn in E.
  - destruct (threads s !! i) as [[]|]; try done. destruct (begin_call k s) as [pc s1] eqn:Ek. injection E as <-. exact (Hb k pc s1 Ek).
  - destruct (in_ev_run (loop s)); [|done]. destruct k as [k|]; [|by simplify_eq].
    destruct (begin_call k s) as [pc s1] eqn:Ek. injection E as <-. exact (Hb k pc s1 Ek).
  - by simplify_eq.
  - destruct (loop s); try done. destruct (valid s); by simplify_eq.
  - destruct (threads s !! i) as [pc|]; [|done]. destruct (call_step (OThread i) pc s) as [[pc' s1]|] eqn:Ec; [|done].
    injection E as <-. apply call_step_running in Ec. cbn. congruence.
  - destruct (in_ev_run (loop s)); [|done]. destruct (deliver (watch s w)); by simplify_eq.
  - destruct (loop s); by simplify_eq.
  - unfold loop_step in E. destruct (loop s) as [| | | | | |c| | | | | | |pc| |]; try done;
      try (destruct (mutex s); by simplify_eq); try by simplify_eq.
    + simplify_eq. by destruct (try_pop (commands s)) as [[]|].
    + destruct (call_step OLoop pc s) as [[pc' s1]|] eqn:Ec; [|done]. injection E as <-.
      apply call_step_running in Ec. cbn. congruence.
Qed.

Lemma run_stopped l s s' : run l s = Some s' -> isRunning s = false -> isRunning s' = false.
Proof.
  revert s. induction l as [|a l IH]; cbn; intros s E Hr; [by simplify_eq|].
  destruct (step a s) as [s1|] eqn:Es; [|done]. eapply IH; [done|]. by eapply step_stopped.
Qed.

(** C5: once the calls stop coming, every interleaving of the threads and the
    loop ends, after at most [weight s] accesses, and it ends well: the mutex is
    free, every call has returned, a destructor that waits for the loop
    included; a broker that still runs has an idle loop, an empty queue and all
    its commands handled in the order of their pushes; and after a shutdown,
    from whichever thread, the loop has left.  (A process destroyed by its own
    callback is excluded, and an exception of the connection ends the process.) *)
Theorem event_loop_settles n l s : run l (start n) = Some s -> Forall outside l -> isDead s = false ->
  (forall l' s', Forall internal l' -> run l' s = Some s' -> (length l' <= weight s)%nat /\ (stuck s' -> settled s')) /\
  (exists l' s', Forall internal l' /\ run l' s = Some s' /\ stuck s').
Proof.
  intros Hr Ho Hd. split; [|apply run_to_stuck]. intros l' s' Hl' Hr'. split.
  { pose proof (run_internal_bound l' s s' Hl' Hr'). lia. }
  intros Hs. assert (I : inv s') by (eapply run_inv; [|exact Hr']; eapply run_inv; [apply start_safe|exact Hr]).
  apply stuck_settled; try done.
  - by eapply run_alive.
  - eapply run_unblocked; [by apply internal_outside| |exact Hr']. by eapply (run_unblocked l (start n)).
Qed.

(** A process that is destroyed by one of its own callbacks never comes
    back: the destructor waits for the loop to leave, on the loop's thread. *)
Theorem destructor_on_loop_hangs s s1 l s2 :
  in_ev_run (loop s) = true -> step (ACallback (Some (CStop true))) s = Some s1 -> run l s1 = Some s2 ->
  isLoopExited s2 = false /\ (loop s2 = LCall (SStop true) \/ loop s2 = LCall SWait).
Proof.
  intros Hl E Hr.
  assert (H1 : loop s1 = LCall (SStop true) \/ loop s1 = LCall SWait).
  { unfold step in E. destruct (isDead s); [done|]. rewrite Hl in E. cbn in E.
    destruct (isRunning s); simplify_eq; [by left|by right]. }
  clear E Hl. cut (loop s2 = LCall (SStop true) \/ loop s2 = LCall SWait).
  { intros H. split; [|done]. unfold isLoopExited. by destruct H as [->| ->]. }
  revert s1 H1 Hr. induction l as [|a l IH]; cbn; intros s1 H1 Hr; [by simplify_eq|].
  destruct (step a s1) as [s3|] eqn:Es; [|done]. apply (IH s3); [|done]. clear IH Hr.
  unfold step in Es. destruct (isDead s1); [done|].
  destruct a as [i k|k|b| |i|w| |]; cbn in Es.
  - destruct (threads s1 !! i) as [[]|]; try done. destruct k as [c| | |wait]; cbn in Es.
    + destruct (valid s1); by simplify_eq.
    + by simplify_eq.
    + by simplify_eq.
    + destruct (isRunning s1); by simplify_eq.
  - by destruct H1 as [H1|H1]; rewrite H1 in Es.
  - by simplify_eq.
  - by destruct H1 as [H1|H1]; rewrite H1 in Es.
  - destruct (threads s1 !! i) as [pc|]; [|done]. destruct (call_step (OThread i) pc s1) as [[pc' s4]|] eqn:Ec; [|done].
    injection Es as <-. apply call_step_weight in Ec as (_ & _ & Hl). cbn. by rewrite Hl.
  - by destruct H1 as [H1|H1]; rewrite H1 in Es.
  - by destruct H1 as [H1|H1]; rewrite H1 in Es.
  - unfold loop_step in Es. destruct H1 as [H1|H1]; rewrite H1 in Es; cbn in Es.
    + simplify_eq. by right.
    + unfold isLoopExited in Es. by rewrite H1 in Es.
Qed.

End Model.

Arguments State : clear implicits.
Arguments Action : clear implicits.

(** ** A concrete interleaving, with a watcher that merges its notifications *)

#[export] Instance flag_async : Async bool.
Proof.
  refine {| ev_async_init := false; ev_async_send := fun _ => true;
    deliver := fun w => if w then Some false else None; notices := fun w => if w then 1%nat else 0%nat |}.
  - done.
  - intros []; lia.
  - by intros [].
  - intros [] w' [= <-]. lia.
Defined.

(** Two threads push 1 and 2; the first has notified the loop, the second is
    still to, and the loop has popped the first command. *)
Definition two_senders : list (Action nat) :=
  [ALoop; ACall 0 (CSend 1%nat); ACall 1 (CSend 2%nat); AThread 0; AThread 1; AThread 0; AThread 0; AThread 0;
   ATake WAsync; ALoop; ALoop; ALoop].

Lemma commands_in_order_witness : exists s : State nat bool, run two_senders (start 2) = Some s /\
  map fst (handled s) ++ in_hand (loop s) ++ commands s = pushed s /\ pushed s = [1; 2]%nat /\ commands s = [2%nat].
Proof.
  destruct (run two_senders (start 2)) as [s|] eqn:E; [|exfalso; revert E; by vm_compute].
  exists s. split; [done|]. split; [apply (commands_in_order 2 s); by exists two_senders|].
  revert E. vm_compute. intros [= <-]. done.
Defined.

(** Then the first thread destroys the process. *)
Lemma event_loop_settles_witness : exists (s : State nat bool) l' s',
  run (two_senders ++ [ACall 0 (CStop true)]) (start 2) = Some s /\ run l' s = Some s' /\
  settled s' /\ loop s' = LExited.
Proof.
  destruct (run (two_senders ++ [ACall 0 (CStop true)]) (start 2)) as [s|] eqn:E; [|exfalso; revert E; by vm_compute].
  destruct (event_loop_settles 2 (two_senders ++ [ACall 0 (CStop true)]) s E) as [H (l' & s' & Hl & Hr & Hs)].
  { by repeat constructor. }
  { revert E. vm_compute. by intros [= <-]. }
  exists s, l', s'. destruct (H l' s' Hl Hr) as [_ Hset]. specialize (Hset Hs).
  split_and!; try done. apply (settled_stopped s' Hset).
  assert (Hrun : isRunning s = false) by (revert E; vm_compute; by intros [= <-]).
  by eapply run_stopped.
Defined.

(** A callback that deletes the driver. *)
Lemma destructor_on_loop_hangs_witness : exists s s1 s2 : State nat bool,
  run [ALoop] (start 1) = Some s /\ step (ACallback (Some (CStop true))) s = Some s1 /\
  run [ALoop; ACall 0 CTimer; AThread 0] s1 = Some s2 /\ isLoopExited s2 = false.
Proof.
  destruct (run [ALoop] (start 1)) as [s|] eqn:E; [|exfalso; revert E; by vm_compute].
  destruct (step (ACallback (Some (CStop true))) s) as [s1|] eqn:E1;
    [|exfalso; revert E E1; vm_compute; by intros [= <-]].
  destruct (run [ALoop; ACall 0 CTimer; AThread 0] s1) as [s2|] eqn:E2;
    [|exfalso; revert E E1 E2; vm_compute; intros [= <-] [= <-]; by vm_compute].
  exists s, s1, s2. split_and!; try done.
  apply (destructor_on_loop_hangs s s1 [ALoop; ACall 0 CTimer; AThread 0] s2); try done.
  revert E. vm_compute. by intros [= <-].
Defined.
