(* ===== verification/LoopEnd.v ===== *)
(** * The end of the event loop (source/evhelper.cpp)

    The destructor of the singleton [EvHelper]: it stops the loop's own
    watchers, asks the loop to leave, and looks three times, a second apart,
    whether it has.  A loop that has left is joined; otherwise the process is
    terminated.  What the other threads and the loop do while the destructor
    sleeps is a sequence of actions of [Concurrent]. *)
From stdpp Require Import list.
From S2P Require Import Prelude Concurrent.

Section Destructor.
  Context {A W : Type} `{!Async W}.

(** How the destructor ends: the loop's thread is joined, or [std::terminate]. *)
Inductive Outcome := Joined (s : State A W) | Terminated (s : State A W).

(** [ev_async_stop]: what was sent to the watcher is forgotten. *)
Definition stop_watchers (s : State A W) : State A W := with_watch WRefresh ev_async_init s.

(** A stopped watcher has no callback any more. *)
Definition unwatched (a : Action A) : Prop := a <> ATake WRefresh.

(** libev returns from [ev_run] without having run a callback. *)
Definition wake_up (s : State A W) : State A W :=
  match loop s with LWait => with_loop LBatch s | _ => s end.

(** [shutdown], whose [refresh] goes to the stopped watcher.  Whether such a
    send still makes [ev_run] return is libev's affair: [wakes]. *)
Definition shutdown_stopped (wakes : bool) (s : State A W) : State A W :=
  let s := disable s in if wakes then wake_up s else s.

(** One round of the loop per element: look, else sleep. *)
Fixpoint polls (sleeps : list (list (Action A))) (s : State A W) : option Outcome :=
  match sleeps with
  | [] => Some (Terminated s)
  | l :: r =>
      if isLoopExited s then Some (Joined s)
      else match run l s with Some s' => polls r s' | None => None end
  end.

Definition EvHelper_destructor (wakes : bool) (l1 l2 l3 : list (Action A)) (s : State A W) : option Outcome :=
  polls [l1; l2; l3] (shutdown_stopped wakes (stop_watchers s)).

(** Nothing more happens by itself with the watchers stopped. *)
Definition stuck_unwatched (s : State A W) : Prop :=
  forall a, internal a -> unwatched a -> step a s = None.

(** ** Lemmas *)

Lemma polls_joined sleeps s s' : polls sleeps s = Some (Joined s') -> isLoopExited s' = true.
Proof.
  revert s. induction sleeps as [|l r IH]; intros s E; cbn in E; [done|].
  destruct (isLoopExited s) eqn:Ex; [by simplify_eq|]. destruct (run l s); [by eapply IH|done].
Qed.

Lemma polls_terminated sleeps s s' : sleeps <> [] -> polls sleeps s = Some (Terminated s') -> isLoopExited s = false.
Proof. destruct sleeps as [|l r]; intros Hn E; cbn in E; [done|]. by destruct (isLoopExited s). Qed.

Lemma polls_settled l r s s' : run l s = Some s' -> isLoopExited s' = true -> r <> [] ->
  exists s1, polls (l :: r) s = Some (Joined s1).
Proof.
  intros E Ex Hr. cbn. destruct (isLoopExited s); [by eexists|]. rewrite E. destruct r as [|l' r]; [done|].
  cbn. rewrite Ex. by eexists.
Qed.

(** The invariant does not look at the stopped watcher. *)
Lemma stop_watchers_inv s : inv s -> inv (stop_watchers s).
Proof. intros [H1 H2 H3 H4 H5 H6 H7]. by split. Qed.

Lemma disable_off (s : State A W) : s_enabled s = false -> disable s = s.
Proof. destruct s; cbn. by intros ->. Qed.

(** A loop that is disabled already is not blocked, so there is nothing to wake. *)
Lemma shutdown_stopped_off wakes s : inv s -> s_enabled s = false -> shutdown_stopped wakes (stop_watchers s) = stop_watchers s.
Proof.
  intros I He. unfold shutdown_stopped. rewrite disable_off; [|done]. destruct wakes; [|done].
  unfold wake_up. pose proof (inv_awake s I He) as Hl. cbn. by destruct (loop s).
Qed.

Lemma stuck_unwatched_stuck s : loop s <> LWait -> stuck_unwatched s -> stuck s.
Proof.
  intros Hl Hs a Ha.
  assert (Hb : loop s <> LBatch).
  { intros Hb. specialize (Hs AReturn Logic.I ltac:(done)). unfold step, isDead in Hs. by rewrite Hb in Hs. }
  destruct a as [| | | | |[]| |]; try by apply Hs. unfold step.
  destruct (isDead s); [done|]. by destruct (loop s).
Qed.

(** No action enables the loop again. *)
Lemma call_step_enabled me pc (s : State A W) pc' s1 : call_step me pc s = Some (pc', s1) -> s_enabled s1 = s_enabled s.
Proof.
  destruct pc as [|c|w|w| |wait|]; cbn; intros E; try by simplify_eq.
  - destruct (mutex s); by simplify_eq.
  - destruct w; by simplify_eq.
  - destruct (isLoopExited s); by simplify_eq.
Qed.

Lemma internal_disabled a (s s' : State A W) : internal a -> step a s = Some s' -> s_enabled s = false -> s_enabled s' = false.
Proof.
  intros Ha E He. unfold step in E. destruct (isDead s); [done|]. destruct a as [| | | |i|w| |]; try done; cbn in E.
  - destruct (threads s !! i) as [pc|]; [|done]. destruct (call_step (OThread i) pc s) as [[pc' s1]|] eqn:Ec; [|done].
    simplify_eq. cbn. by rewrite (call_step_enabled _ _ _ _ _ Ec).
  - destruct (in_ev_run (loop s)); [|done]. destruct (deliver (watch s w)); by simplify_eq.
  - destruct (loop s); by simplify_eq.
  - unfold loop_step in E. destruct (loop s) as [| | | | | |c| | | | | | |pc| |]; try by simplify_eq;
      try (destruct (mutex s); by simplify_eq).
    + simplify_eq. by destruct (try_pop (commands s)) as [[]|].
    + destruct (call_step OLoop pc s) as [[pc' s1]|] eqn:Ec; [|done]. simplify_eq. cbn.
      by rewrite (call_step_enabled _ _ _ _ _ Ec).
Qed.

Lemma run_disabled l (s s' : State A W) : Forall internal l -> run l s = Some s' -> s_enabled s = false -> s_enabled s' = false.
Proof.
  revert s. induction l as [|a l IH]; intros s Hl E He; cbn in *; [by simplify_eq|].
  apply Forall_cons in Hl as [Ha Hl]. destruct (step a s) as [s1|] eqn:Es; [|done].
  eapply IH; [done..|]. by eapply internal_disabled.
Qed.

(** The loop, once disabled, has left when nothing more happens. *)
Lemma disabled_loop_leaves l (s s' : State A W) : inv s -> isDead s = false -> unblocked (loop s) = true -> s_enabled s = false ->
  Forall internal l -> run l s = Some s' -> stuck_unwatched s' -> loop s' = LExited.
Proof.
  intros I Hd Hu He Hl Hr Hs.
  assert (I' : inv s') by (by eapply run_inv). assert (He' : s_enabled s' = false) by (by eapply run_disabled).
  apply settled_stopped; [|apply (inv_only s' I'); by right; right].
  apply stuck_settled; [done| | |].
  - by eapply run_alive.
  - eapply run_unblocked; [by apply internal_outside|done|done].
  - apply stuck_unwatched_stuck; [by apply inv_awake|done].
Qed.

(** ** Theorems *)

(** C33: after the broker has shut the loop down, from whichever thread and in
    whichever interleaving, the destructor ends with the loop's thread joined
    as soon as the threads have come to rest in the first of its three seconds:
    it does not depend on the watchers it has stopped, nor on what the last
    notification does, and it never terminates the process.  When it joins, the
    thread has left the loop, so the join does not block. *)
Theorem destructor_joins n l (s : State A W) wakes l1 l2 l3 s1 :
  run l (start n) = Some s -> Forall outside l -> isDead s = false -> s_enabled s = false ->
  Forall internal l1 -> run l1 (shutdown_stopped wakes (stop_watchers s)) = Some s1 -> stuck_unwatched s1 ->
  exists s2, EvHelper_destructor wakes l1 l2 l3 s = Some (Joined s2) /\ loop s2 = LExited.
Proof.
  intros Hr Ho Hd He Hi E Hs. assert (I : inv s) by (eapply run_inv; [apply start_safe|done]).
  assert (Hx : loop s1 = LExited).
  { rewrite shutdown_stopped_off in E by done. eapply disabled_loop_leaves; [by apply stop_watchers_inv| | | |done..]; try done.
    cbn. by eapply (run_unblocked l (start n)). }
  destruct (polls_settled l1 [l2; l3] _ s1 E) as [s2 E2]; [by unfold isLoopExited; rewrite Hx|done|].
  exists s2. split; [done|]. apply polls_joined in E2. unfold isLoopExited in E2. by destruct (loop s2).
Qed.

(** A settled loop that nobody shut down is blocked in [ev_run]: whether the
    destructor of the singleton can join it is up to the send to the stopped
    watcher. *)
Theorem idle_loop_end (s : State A W) l2 l3 :
  settled s -> isRunning s = true -> (forall w, notices (watch s w) = 0%nat) ->
  EvHelper_destructor true [AReturn; ALoop] l2 l3 s = Some (Joined (with_loop LExited (disable (stop_watchers s)))) /\
  (forall l1 l2 l3 o, Forall internal (l1 ++ l2 ++ l3) -> EvHelper_destructor false l1 l2 l3 s = Some o ->
   o = Terminated (disable (stop_watchers s))).
Proof.
  intros [Hm Ht Hr _] Hrun Hw. destruct (Hr Hrun) as (Hl & _ & _). split.
  - unfold EvHelper_destructor, shutdown_stopped, wake_up. cbn. rewrite Hl. cbn. unfold isLoopExited. by cbn.
  - assert (Hst : stuck (disable (stop_watchers s))).
    { intros a Ha. unfold step, isDead. cbn. rewrite Hl. destruct a as [| | | |i|w| |]; try done; cbn.
      - destruct (threads s !! i) as [pc|] eqn:Hi; [|done]. rewrite Forall_lookup in Ht. by rewrite (Ht i pc Hi).
      - case_decide; cbn.
        + by rewrite (proj2 (deliver_none _) notices_init).
        + by rewrite (proj2 (deliver_none _) (Hw w)).
      - unfold loop_step. cbn. by rewrite Hl. }
    assert (Hrun' : forall l s', Forall internal l -> run l (disable (stop_watchers s)) = Some s' ->
      s' = disable (stop_watchers s)).
    { intros [|a l] s' Hf E; cbn in E; [by simplify_eq|]. apply Forall_cons in Hf as [Ha _]. by rewrite Hst in E. }
    assert (Hx : isLoopExited (disable (stop_watchers s)) = false) by (unfold isLoopExited; cbn; by rewrite Hl).
    intros k1 k2 k3 o Hf E. apply Forall_app in Hf as [Hf1 [Hf2 Hf3]%Forall_app].
    unfold EvHelper_destructor, shutdown_stopped in E. cbn [polls] in E. rewrite Hx in E.
    destruct (run k1 _) as [s1|] eqn:E1; [|done]. apply Hrun' in E1 as ->; [|done]. rewrite Hx in E.
    destruct (run k2 _) as [s2|] eqn:E2; [|done]. apply Hrun' in E2 as ->; [|done]. rewrite Hx in E.
    destruct (run k3 _) as [s3|] eqn:E3; [|done]. apply Hrun' in E3 as ->; [|done]. by simplify_eq.
Qed.
End Destructor.

Module Example.

(** A thread shuts the broker down and the loop has run [unloop_cb]'s shutdown. *)
Definition shut : list (Action nat) := [ALoop; ACall 0 (CStop false); AThread 0; ATake WUnloop; ALoop; ALoop].
Definition to_rest : list (Action nat) := [ALoop; ALoop; AReturn; ALoop].

Lemma destructor_joins_witness : exists s s1 s2 : State nat bool,
  run shut (start 1) = Some s /\ run to_rest (shutdown_stopped false (stop_watchers s)) = Some s1 /\
  EvHelper_destructor false to_rest [] [] s = Some (Joined s2) /\ loop s2 = LExited.
Proof.
  destruct (run shut (start 1)) as [s|] eqn:E; [|exfalso; revert E; by vm_compute].
  destruct (run to_rest (shutdown_stopped false (stop_watchers s))) as [s1|] eqn:E1;
    [|exfalso; revert E E1; vm_compute; intros [= <-]; by vm_compute].
  assert (Hd : isDead s = false /\ s_enabled s = false) by (revert E; vm_compute; by intros [= <-]).
  destruct Hd as [Hd He].
  destruct (destructor_joins 1 shut s false to_rest [] [] s1 E) as (s2 & E2 & Hx).
  - by repeat constructor.
  - done.
  - done.
  - by repeat constructor.
  - done.
  - revert E E1. vm_compute. intros [= <-] E1. revert E1. vm_compute. intros [= <-] a Ha _.
    destruct a as [| | | |[|i]|[]| |]; try done.
  - by exists s, s1, s2.
Defined.
End Example.
