(* ===== verification/CommandExecutor.v ===== *)
(** * The command executor (test/command_executor.cpp)

    The executor the service starts for a task that is a shell command: it
    forks the command, polls it once a second, reports how it ended and stops
    the driver.  The calls it makes on the driver and on the system are recorded
    in a log; the answers of the system come with the inputs. *)
From stdpp Require Import pretty.
From Stdlib Require Import Ascii.
From S2P Require Import Prelude Scheduler.

(** ** Exit statuses, as [sys/wait.h] encodes them in an [int] *)

Definition WTERMSIG (status : Z) : Z := Z.land status 127.
Definition WIFEXITED (status : Z) : bool := WTERMSIG status =? 0.
Definition WEXITSTATUS (status : Z) : Z := Z.shiftr (Z.land status 65280) 8.
(** [((signed char)((status & 0x7f) + 1) >> 1) > 0] *)
Definition signed_char (z : Z) : Z := if z <? 128 then z else z - 256.
Definition WIFSIGNALED (status : Z) : bool := 0 <? Z.shiftr (signed_char (WTERMSIG status + 1)) 1.

(** ** State *)

(** What the executor does: driver calls and signals. *)
Inductive Act :=
| Update (task_id : string) (state : TaskState) (message : option string)
| Killtree (pid : Z)
| StopDriver.

Record State := mkState {
  launched : bool;
  killed : bool;
  pid : Z;
  gTaskId : option string;             (** set together with [gDriver] *)
  armed : nat;                         (** delays of [timer] that have not fired *)
  log : list Act;
}.

Definition new_executor : State := mkState false false (-1) None 0 [].

Definition emit (a : Act) (s : State) : State :=
  mkState (launched s) (killed s) (pid s) (gTaskId s) (armed s) (log s ++ [a]).

(** [timer.delay(Seconds(1), &CommandExecutorProcess::checkChild)] *)
Definition rearm (s : State) : State :=
  mkState (launched s) (killed s) (pid s) (gTaskId s) (S (armed s)) (log s).

(** ** Operations *)

Record Task := mkTask { task_id : string; command : option string }.

(** The answers of [pipe], the two [os::cloexec] and [fork]. *)
Record Forks := mkForks { pipe_ok : bool; cloexec0_ok : bool; cloexec1_ok : bool; fork_pid : Z }.

Definition quote : string := String (ascii_of_nat 34) "".
Definition multiple_tasks : string :=
  "Attempted to run multiple tasks using a " +:+ quote +:+ "command" +:+ quote +:+ " executor".

(** [CommandExecutorProcess::launchTask]: the child, for which [fork] returns 0,
    becomes the command or aborts, so it does not come back either. *)
Definition launchTask (task : Task) (os : Forks) (s : State) : outcome State :=
  if launched s then Ret (emit (Update (task_id task) TASK_FAILED (Some multiple_tasks)) s)
  else
    CHECK (match command task with Some _ => true | None => false end) "Expecting task to have a command!" ;;!
    CHECK (pipe_ok os) "Failed to create a pipe" ;;!
    CHECK (cloexec0_ok os) "Failed to cloexec(pipe[0])" ;;!
    CHECK (cloexec1_ok os) "Failed to cloexec(pipe[1])" ;;!
    CHECK (negb (fork_pid os =? -1)) "Failed to fork" ;;!
    CHECK (negb (fork_pid os =? 0)) "In the child" ;;!
    let s := mkState (launched s) (killed s) (fork_pid os) (Some (task_id task)) (armed s) (log s) in
    let s := rearm s in
    let s := emit (Update (task_id task) TASK_RUNNING None) s in
    Ret (mkState true (killed s) (pid s) (gTaskId s) (armed s) (log s)).

(** [CommandExecutorProcess::shutdown]: whether [os::killtree] succeeds only
    changes what is printed. *)
Definition shutdown (s : State) : State :=
  if (0 <? pid s) && negb (killed s) then
    let s := emit (Killtree (pid s)) s in
    mkState (launched s) true (pid s) (gTaskId s) (armed s) (log s)
  else s.

(** [CommandExecutorProcess::killTask], which does not look at the task *)
Definition killTask (taskId : string) (s : State) : State := shutdown s.

Section Check.
  Context (strsignal : Z -> string).

Definition exit_state (status : Z) (killed : bool) : TaskState :=
  if WIFEXITED status && (WEXITSTATUS status =? 0) then TASK_FINISHED
  else if killed then TASK_KILLED
  else TASK_FAILED.

Definition exit_message (status : Z) : string :=
  "CommandExecutorProcess::checkChild: Command" +:+
  (if WIFEXITED status then " exited with status " else " terminated with signal ") +:+
  (if WIFEXITED status then pretty (WEXITSTATUS status) else strsignal (WTERMSIG status)).

(** [CommandExecutorProcess::checkChild], with the answer of [waitpid]: its
    result and the status it stores. *)
Definition checkChild (wait : Z * Z) (s : State) : outcome State :=
  let '(ret, status) := wait in
  if ret <=? 0 then Ret (rearm s)
  else
    CHECK (WIFEXITED status || WIFSIGNALED status) "WIFEXITED(status) || WIFSIGNALED(status)" ;;!
    let state := exit_state status (killed s) in
    let s := emit (Update (default "" (gTaskId s)) state (Some (exit_message status))) s in
    Ret (emit StopDriver s).

(** ** The inputs of the executor, one at a time on the loop's thread *)

Inductive Input :=
| ILaunch (task : Task) (os : Forks)
| IKill (task_id : string)
| IShutdown
| IOther                               (** registrations, messages and errors are only printed *)
| ITimer (wait : Z * Z).               (** a delay has passed *)

Definition step (i : Input) (s : State) : outcome State :=
  match i with
  | ILaunch t os => launchTask t os s
  | IKill id => Ret (killTask id s)
  | IShutdown => Ret (shutdown s)
  | IOther => Ret s
  | ITimer wait =>
      match armed s with
      | O => Ret s
      | S n => checkChild wait (mkState (launched s) (killed s) (pid s) (gTaskId s) n (log s))
      end
  end.

Fixpoint run (l : list Input) (s : State) : outcome State :=
  match l with
  | [] => Ret s
  | i :: r => let! s := step i s in run r s
  end.

(** [main]: the exit code, from the status [driver.run()] returns *)
Definition main (ret : Status) : Z := if bool_decide (ret = DRIVER_STOPPED) then 0 else 1.

(** ** The protocol with the driver *)

Definition is_kill (a : Act) : bool := match a with Killtree _ => true | _ => false end.
Definition kills (l : list Act) : nat := length (List.filter is_kill l).
Arguments kills : simpl never.

(** What may be logged at any time once a task runs: the refusal of another
    task, and the one signal to the command's processes. *)
Definition aside (p : Z) (a : Act) : Prop :=
  match a with
  | Update _ st m => st = TASK_FAILED /\ m = Some multiple_tasks
  | Killtree q => q = p /\ 0 < p
  | StopDriver => False
  end.

(** *** What is expected of the executor, independently of how it works *)

(** The final state of a task, from the word [waitpid] stores: a command that
    exits with a code has it in the second byte and zero in the low seven bits. *)
Definition verdict (status : Z) (signalled : bool) : TaskState :=
  if (status mod 128 =? 0) && ((status / 256) mod 256 =? 0) then TASK_FINISHED
  else if signalled then TASK_KILLED
  else TASK_FAILED.
Definition account (status : Z) : string :=
  if status mod 128 =? 0 then
    "CommandExecutorProcess::checkChild: Command exited with status " +:+ pretty ((status / 256) mod 256)
  else "CommandExecutorProcess::checkChild: Command terminated with signal " +:+ strsignal (status mod 128).

(** No task has come; or one has, in process [p], which may have been signalled
    and may have been found gone. *)
Inductive Phase := NoTask | Taken (id : string) (p : Z) (signalled over : bool).

(** What an input makes it do. *)
Definition reaction (ph : Phase) (i : Input) : list Act * Phase :=
  match ph, i with
  | NoTask, ILaunch t os => ([Update (task_id t) TASK_RUNNING None], Taken (task_id t) (fork_pid os) false false)
  | Taken _ _ _ _, ILaunch t _ => ([Update (task_id t) TASK_FAILED (Some multiple_tasks)], ph)
  | Taken id p false over, IKill _ | Taken id p false over, IShutdown =>
      if 0 <? p then ([Killtree p], Taken id p true over) else ([], ph)
  | Taken id p signalled false, ITimer (ret, status) =>
      if 0 <? ret then ([Update id (verdict status signalled) (Some (account status)); StopDriver], Taken id p signalled true)
      else ([], ph)
  | _, _ => ([], ph)
  end.
Fixpoint expected (l : list Input) (ph : Phase) : list Act :=
  match l with [] => [] | i :: r => (reaction ph i).1 ++ expected r (reaction ph i).2 end.

(** Inputs on which the system does its part: a task has a command and the
    calls that start it succeed, and a word of [waitpid] says how the command ended. *)
Definition served (i : Input) : Prop :=
  match i with
  | ILaunch t os => is_Some (command t) /\ pipe_ok os = true /\ cloexec0_ok os = true /\ cloexec1_ok os = true /\ 0 < fork_pid os
  | ITimer (ret, status) => ret <= 0 \/ WIFEXITED status || WIFSIGNALED status = true
  | _ => True
  end.

Lemma WTERMSIG_mod status : WTERMSIG status = status mod 128.
Proof. unfold WTERMSIG. change 127 with (Z.ones 7). by rewrite Z.land_ones by lia. Qed.

Lemma WEXITSTATUS_mod status : WEXITSTATUS status = (status / 256) mod 256.
Proof.
  unfold WEXITSTATUS. rewrite Z.shiftr_land, Z.shiftr_div_pow2 by lia. change (Z.shiftr 65280 8) with (Z.ones 8).
  by rewrite Z.land_ones by lia.
Qed.

Lemma exit_state_verdict status k : exit_state status k = verdict status k.
Proof. unfold exit_state, verdict, WIFEXITED. by rewrite WTERMSIG_mod, WEXITSTATUS_mod. Qed.

Lemma exit_message_account status : exit_message status = account status.
Proof.
  unfold exit_message, account, WIFEXITED. rewrite WTERMSIG_mod, WEXITSTATUS_mod. by destruct (_ =? 0).
Qed.

(** The three stages: no task yet; a task runs and is polled; the task has
    ended and polling has stopped. *)
Inductive stage (s : State) : Prop :=
| Fresh : s = new_executor -> stage s
| Running id xs : launched s = true -> gTaskId s = Some id -> armed s = 1%nat ->
    log s = Update id TASK_RUNNING None :: xs -> Forall (aside (pid s)) xs -> stage s
| Ended id xs status ys : launched s = true -> gTaskId s = Some id -> armed s = 0%nat ->
    log s = Update id TASK_RUNNING None :: xs ++
      [Update id (verdict status (0 <? kills xs)%nat) (Some (account status)); StopDriver] ++ ys ->
    WIFEXITED status || WIFSIGNALED status = true ->
    Forall (aside (pid s)) (xs ++ ys) -> stage s.

(** The signal is sent at most once, and [killed] remembers it. *)
Definition kill_once (s : State) : Prop := kills (log s) = if killed s then 1%nat else 0%nat.

Lemma kills_app l l' : kills (l ++ l') = (kills l + kills l')%nat.
Proof. unfold kills. by rewrite List.filter_app, length_app. Qed.

(** An aside keeps the stage. *)
Lemma stage_aside a s s' : stage s -> s <> new_executor -> aside (pid s) a ->
  launched s' = launched s -> pid s' = pid s -> gTaskId s' = gTaskId s -> armed s' = armed s ->
  log s' = log s ++ [a] -> stage s'.
Proof.
  intros [->|id xs H1 H2 H3 H4 H5|id xs status ys H1 H2 H3 H4 H5 H6] Hne Ha El Ep Eg Er Elog; [done| |].
  - apply (Running s' id (xs ++ [a])); try congruence.
    + by rewrite Elog, H4.
    + rewrite Ep. apply Forall_app. by repeat constructor.
  - apply (Ended s' id xs status (ys ++ [a])); try congruence.
    + rewrite Elog, H4. cbn. by rewrite <- !app_assoc.
    + rewrite Ep, app_assoc. apply Forall_app. by repeat constructor.
Qed.

Lemma fresh_or_launched s : stage s -> s = new_executor \/ (launched s = true /\ s <> new_executor).
Proof. intros [->|? ? H ? ? ?|? ? ? ? H]; [by left| |]; right; split; try done; intros ->; done. Qed.

Lemma shutdown_stage s : stage s -> kill_once s -> stage (shutdown s) /\ kill_once (shutdown s).
Proof.
  intros Hs Hk. unfold shutdown. destruct ((0 <? pid s) && negb (killed s)) eqn:E; [|done].
  apply andb_true_iff in E as [Hp Hn%negb_true_iff]. split.
  - destruct (fresh_or_launched s Hs) as [->|[_ Hne]]; [done|].
    apply (stage_aside (Killtree (pid s)) s); try done. cbn. lia.
  - unfold kill_once in *. cbn. rewrite kills_app, Hk, Hn. done.
Qed.

Lemma launch_stage t os s s' : stage s -> kill_once s -> launchTask t os s = Ret s' -> stage s' /\ kill_once s'.
Proof.
  intros Hs Hk E. unfold launchTask in E. destruct (fresh_or_launched s Hs) as [->|[Hl Hne]].
  - cbn [launched new_executor] in E.
    destruct (command t); [|done]. destruct (pipe_ok os); [|done]. destruct (cloexec0_ok os); [|done].
    destruct (cloexec1_ok os); [|done]. destruct (fork_pid os =? -1); [done|]. destruct (fork_pid os =? 0); [done|].
    injection E as <-. split; [|done]. by eapply (Running _ (task_id t) []).
  - rewrite Hl in E. injection E as <-. split.
    + by apply (stage_aside (Update (task_id t) TASK_FAILED (Some multiple_tasks)) s).
    + unfold kill_once in *. cbn. by rewrite kills_app, Hk, Nat.add_0_r.
Qed.

Lemma timer_stage wait s s' : stage s -> kill_once s -> step (ITimer wait) s = Ret s' -> stage s' /\ kill_once s'.
Proof.
  intros Hs Hk E. destruct wait as [ret status]. cbn in E.
  destruct Hs as [->|id xs H1 H2 H3 H4 H5|id xs st ys H1 H2 H3 H4 H5 H6].
  - cbn in E. injection E as <-. split; [by apply Fresh|done].
  - rewrite H3 in E. unfold checkChild in E. destruct (ret <=? 0).
    { injection E as <-. split; [|done]. by eapply (Running _ id xs). }
    destruct (WIFEXITED status || WIFSIGNALED status) eqn:Hw; [|done]. injection E as <-.
    assert (Hx : (0 <? kills xs)%nat = killed s).
    { unfold kill_once in Hk. rewrite H4 in Hk. change (kills xs = if killed s then 1%nat else 0%nat) in Hk.
      rewrite Hk. by destruct (killed s). }
    split.
    + eapply (Ended _ id xs status []); try done.
      * rewrite Hx, <- exit_state_verdict, <- exit_message_account. cbn. rewrite H2, H4. cbn. by rewrite <- app_assoc.
      * by rewrite app_nil_r.
    + unfold kill_once in *. cbn. by rewrite !kills_app, Hk, !Nat.add_0_r.
  - rewrite H3 in E. injection E as <-. split; [|done]. by eapply (Ended s id xs st ys).
Qed.

Lemma step_stage i s s' : stage s -> kill_once s -> step i s = Ret s' -> stage s' /\ kill_once s'.
Proof.
  intros Hs Hk E. destruct i as [t os|id| | |wait].
  - by eapply launch_stage.
  - injection E as <-. by apply shutdown_stage.
  - injection E as <-. by apply shutdown_stage.
  - by injection E as <-.
  - by eapply timer_stage.
Qed.

Lemma run_stage l s s' : stage s -> kill_once s -> run l s = Ret s' -> stage s' /\ kill_once s'.
Proof.
  revert s. induction l as [|i l IH]; cbn; intros s Hs Hk E; [by injection E as <-|].
  destruct (step i s) as [s1|] eqn:E1; [|done]. destruct (step_stage i s s1 Hs Hk E1). by eapply IH.
Qed.

#[local] Arguments Z.ltb : simpl never.
#[local] Arguments Z.leb : simpl never.

(** The state of the executor in a phase. *)
Definition in_phase (ph : Phase) (s : State) : Prop :=
  match ph with
  | NoTask => launched s = false /\ killed s = false /\ pid s = -1 /\ armed s = 0%nat
  | Taken id p signalled over => launched s = true /\ killed s = signalled /\ pid s = p /\ gTaskId s = Some id /\
      armed s = if over then 0%nat else 1%nat
  end.

Lemma shutdown_reaction ph i s : i = IShutdown \/ (exists id, i = IKill id) -> in_phase ph s ->
  log (shutdown s) = log s ++ (reaction ph i).1 /\ in_phase (reaction ph i).2 (shutdown s).
Proof.
  intros Hi Hs. destruct s as [la ki pi gi ar lo]. destruct ph as [|id p sg ov]; cbn in Hs; destruct_and! Hs; subst;
    destruct Hi as [->|[id' ->]]; cbn; rewrite ?app_nil_r; try done;
    unfold shutdown; cbn; destruct sg, ov; cbn; rewrite ?andb_false_r, ?andb_true_r, ?app_nil_r; try done;
    destruct (0 <? p); cbn; rewrite ?app_nil_r; done.
Qed.

Lemma step_reaction ph i s s' : in_phase ph s -> step i s = Ret s' ->
  log s' = log s ++ (reaction ph i).1 /\ in_phase (reaction ph i).2 s'.
Proof.
  intros Hs E. destruct i as [t os|id'| | |[ret status]].
  - destruct s as [la ki pi gi ar lo]. cbn in E. unfold launchTask in E.
    destruct ph as [|id p sg ov]; cbn in Hs; destruct_and! Hs; subst; cbn in E; [|by destruct sg, ov; injection E as <-].
    destruct (command t); [|done]. destruct (pipe_ok os); [|done]. destruct (cloexec0_ok os); [|done].
    destruct (cloexec1_ok os); [|done]. destruct (fork_pid os =? -1); [done|]. destruct (fork_pid os =? 0); [done|].
    by injection E as <-.
  - injection E as <-. apply shutdown_reaction; [by right; exists id'|done].
  - injection E as <-. apply shutdown_reaction; [by left|done].
  - injection E as <-. destruct ph as [|id p [] []]; cbn; by rewrite app_nil_r.
  - destruct s as [la ki pi gi ar lo]. cbn in E.
    destruct ph as [|id p sg ov]; cbn in Hs; destruct_and! Hs; subst; cbn in E; [injection E as <-; cbn; by rewrite app_nil_r|].
    destruct ov; cbn in E; [injection E as <-; cbn; destruct sg; cbn; by rewrite app_nil_r|].
    unfold checkChild in E. assert (Hn : (0 <? ret) = negb (ret <=? 0)) by lia.
    destruct (ret <=? 0) eqn:Hr; cbn in E.
    { injection E as <-. destruct sg; cbn; rewrite Hn; cbn; by rewrite app_nil_r. }
    destruct (WIFEXITED status || WIFSIGNALED status); [|done]. injection E as <-.
    rewrite exit_state_verdict, exit_message_account. destruct sg; cbn; rewrite Hn; cbn; by rewrite <- app_assoc.
Qed.

Lemma run_expected l : forall ph s s', in_phase ph s -> run l s = Ret s' -> log s' = log s ++ expected l ph.
Proof.
  induction l as [|i l IH]; intros ph s s' Hs E; cbn in *; [injection E as <-; by rewrite app_nil_r|].
  destruct (step i s) as [s1|] eqn:E1; [|done]. destruct (step_reaction ph i s s1 Hs E1) as [H1 H2].
  by rewrite (IH _ _ _ H2 E), H1, <- app_assoc.
Qed.

Lemma served_step i s : served i -> exists s', step i s = Ret s'.
Proof.
  destruct i as [t os|id'| | |[ret status]]; cbn; intros Hi; try by eexists.
  - unfold launchTask. destruct (launched s); [by eexists|]. destruct Hi as ([c ->] & -> & -> & -> & Hf).
    destruct (Z.eqb_spec (fork_pid os) (-1)); [lia|]. destruct (Z.eqb_spec (fork_pid os) 0); [lia|]. by eexists.
  - destruct (armed s); [by eexists|]. unfold checkChild. destruct (Z.leb_spec ret 0); [by eexists|].
    destruct Hi as [?| ->]; [lia|]. by eexists.
Qed.

Lemma served_run l : Forall served l -> forall s, exists s', run l s = Ret s'.
Proof.
  induction 1 as [|i l Hi _ IH]; intros s; cbn; [by eexists|]. destruct (served_step i s Hi) as [s1 ->]. apply IH.
Qed.

(** C18: whatever launches, kills, shutdowns and polls reach the command
    executor, what it does is exactly what is expected: nothing before the first
    launch; then TASK_RUNNING for that task; for every later launch a refusal of
    that task with TASK_FAILED; at the first kill or shutdown while it has a task, a
    signal to the task's process tree, and none after that; at the first poll that
    finds the command gone one final update, directly followed by the driver's stop,
    after which it polls no more.  The final update is TASK_FINISHED if the word that
    this poll got from waitpid says exit code 0, otherwise TASK_KILLED if the
    signal was sent before, otherwise TASK_FAILED, with a message that tells the
    code or the signal.  And it goes on as long as tasks have a command, the calls that
    start one succeed, and waitpid's word says how the command ended. *)
Theorem command_executor_protocol l :
  (forall s, run l new_executor = Ret s -> log s = expected l NoTask /\ stage s /\ kill_once s) /\
  (Forall served l -> exists s, run l new_executor = Ret s).
Proof.
  split; [|intros H; by apply served_run]. intros s E. split; [by apply (run_expected l NoTask new_executor)|].
  eapply run_stage; [by apply Fresh| |exact E]. done.
Qed.

(** A task that runs is polled by exactly one delay. *)
Lemma launched_armed s : stage s -> launched s = true -> ~ In StopDriver (log s) -> armed s = 1%nat.
Proof.
  intros [->|id xs H1 H2 H3 H4 H5|id xs st ys H1 H2 H3 H4 H5 H6] Hl Hn; [done|done|].
  destruct Hn. rewrite H4. cbn. right. apply in_app_iff. right. right. by left.
Qed.

(** While the task has not ended, a poll that finds the command gone makes
    the executor report and stop in that poll, and any number of polls that find
    it running, or that fail, leave it as it is, polling again: in particular a
    command whose status can no longer be had (waitpid fails) is polled for
    ever, and never reported. *)
Theorem poll_outcome l s ret status : run l new_executor = Ret s -> launched s = true -> ~ In StopDriver (log s) ->
  (0 < ret -> WIFEXITED status || WIFSIGNALED status = true -> exists id s',
    gTaskId s = Some id /\ step (ITimer (ret, status)) s = Ret s' /\ armed s' = 0%nat /\
    log s' = log s ++ [Update id (exit_state status (killed s)) (Some (exit_message status)); StopDriver]) /\
  (ret <= 0 -> forall n, run (replicate n (ITimer (ret, status))) s = Ret s).
Proof.
  intros E Hl Hn. destruct (run_stage l _ _ (Fresh _ eq_refl) eq_refl E) as [Hs _].
  pose proof (launched_armed s Hs Hl Hn) as Ha. split.
  - intros Hr Hw. cbn. rewrite Ha. unfold checkChild. destruct (Z.leb_spec ret 0); [lia|]. rewrite Hw. cbn.
    destruct Hs as [->|id xs H1 H2 H3 H4 H5|id xs st ys H1 H2 H3 H4 H5 H6]; [done| |congruence].
    exists id. eexists. split_and!; [done|done|done|]. cbn. by rewrite H2, <- app_assoc.
  - intros Hr n. induction n as [|n IH]; cbn; [done|]. rewrite Ha. unfold checkChild.
    destruct (Z.leb_spec ret 0); [|lia]. cbn. destruct s; cbn in *. subst. exact IH.
Qed.

(** A kill names a task, and stops whichever task runs. *)
Lemma kill_ignores_task id id' s : killTask id s = killTask id' s.
Proof. done. Qed.

End Check.

(** A task starts, a second one is refused, a kill arrives, and the command is
    found killed by signal 9. *)
Definition killed_run : list Input :=
  [ILaunch (mkTask "t-1" (Some "sleep 100")) (mkForks true true true 4711); ITimer (0, 0);
   ILaunch (mkTask "t-2" (Some "true")) (mkForks true true true 4712); IKill "t-1"].

Lemma command_executor_protocol_witness : exists s, run (fun _ => "Killed") (killed_run ++ [ITimer (4711, 9)]) new_executor = Ret s /\
  stage (fun _ => "Killed") s /\ List.last (log s) (StopDriver) = StopDriver /\ armed s = 0%nat.
Proof.
  destruct (run (fun _ => "Killed") (killed_run ++ [ITimer (4711, 9)]) new_executor) as [s|] eqn:E;
    [|exfalso; revert E; by vm_compute].
  exists s. destruct (command_executor_protocol (fun _ => "Killed") (killed_run ++ [ITimer (4711, 9)])) as [Hl _].
  destruct (Hl s E) as (_ & Hs & _).
  split_and!; try done; revert E; vm_compute; by intros [= <-].
Defined.

Lemma poll_outcome_witness : exists s, run (fun _ => "Killed") killed_run new_executor = Ret s /\
  run (fun _ => "Killed") (replicate 100 (ITimer (-1, 0))) s = Ret s /\
  exists id s', gTaskId s = Some id /\ step (fun _ => "Killed") (ITimer (4711, 9)) s = Ret s' /\ armed s' = 0%nat /\
    log s' = log s ++ [Update id (exit_state 9 (killed s)) (Some (exit_message (fun _ => "Killed") 9)); StopDriver].
Proof.
  destruct (run (fun _ => "Killed") killed_run new_executor) as [s|] eqn:E; [|exfalso; revert E; by vm_compute].
  assert (Hl : launched s = true) by (revert E; vm_compute; by intros [= <-]).
  assert (Hn : ~ In StopDriver (log s)) by (revert E; vm_compute; intros [= <-]; naive_solver).
  exists s. split; [done|]. split.
  - by apply (poll_outcome (fun _ => "Killed") killed_run s (-1) 0).
  - by apply (poll_outcome (fun _ => "Killed") killed_run s 4711 9).
Defined.
