(* ===== verification/Logging.v ===== *)
(** * The logging set-up (include/logging/logging.cpp, flags.cpp; glog's flags)

    What logging.cpp and the drivers' constructors do to the flags of glog, and
    what the flags mean for a message.  The process that logs is a [World]; a
    computation over it returns, throws, exits, aborts at a failed check, dies of
    a signal, or uses memory that it does not hold. *)
From Stdlib Require Import Ascii.
From stdpp Require Import pretty.
From S2P Require Import Prelude StoutStrings Values Url FetcherUri.

(** ** glog *)

(** A [char*] that somebody keeps: where it points, and what it points to.  The
    name of a framework is memory of the driver object that holds it. *)
Inductive Place := Constant | NameOf (driver : nat) | Argv0.
Record CString := mkCString { place : Place; contents : string }.
#[export] Instance Place_eq_dec : EqDecision Place.
Proof. solve_decision. Defined.

(** The flags the code sets or reads, and [g_program_invocation_short_name]. *)
Record Glog := mkGlog {
  minloglevel : Z;
  logtostderr : bool;
  alsologtostderr : bool;
  stderrthreshold : Z;
  FLAGS_log_dir : string;
  FLAGS_logbufsecs : Z;
  drop_log_memory : bool;
  program_name : option CString;
}.

Definition IsGoogleLoggingInitialized (g : Glog) : bool := bool_decide (is_Some (program_name g)).

Definition set_minloglevel v g := mkGlog v (logtostderr g) (alsologtostderr g) (stderrthreshold g) (FLAGS_log_dir g)
  (FLAGS_logbufsecs g) (drop_log_memory g) (program_name g).
Definition set_logtostderr v g := mkGlog (minloglevel g) v (alsologtostderr g) (stderrthreshold g) (FLAGS_log_dir g)
  (FLAGS_logbufsecs g) (drop_log_memory g) (program_name g).
Definition set_stderrthreshold v g := mkGlog (minloglevel g) (logtostderr g) (alsologtostderr g) v (FLAGS_log_dir g)
  (FLAGS_logbufsecs g) (drop_log_memory g) (program_name g).
Definition set_log_dir v g := mkGlog (minloglevel g) (logtostderr g) (alsologtostderr g) (stderrthreshold g) v
  (FLAGS_logbufsecs g) (drop_log_memory g) (program_name g).
Definition set_logbufsecs v g := mkGlog (minloglevel g) (logtostderr g) (alsologtostderr g) (stderrthreshold g)
  (FLAGS_log_dir g) v (drop_log_memory g) (program_name g).
Definition set_drop_log_memory v g := mkGlog (minloglevel g) (logtostderr g) (alsologtostderr g) (stderrthreshold g)
  (FLAGS_log_dir g) (FLAGS_logbufsecs g) v (program_name g).
Definition set_program_name v g := mkGlog (minloglevel g) (logtostderr g) (alsologtostderr g) (stderrthreshold g)
  (FLAGS_log_dir g) (FLAGS_logbufsecs g) (drop_log_memory g) v.

(** [strrchr(argv0, '/')], and what follows it *)
Definition after_slash (s : string) : string :=
  match find_last_of s "/" with Some i => sdrop (i + 1) s | None => s end.

(** [MaybeLogToStderr] *)
Definition also_to_stderr (g : Glog) (severity : Z) : bool := (stderrthreshold g <=? severity) || alsologtostderr g.

(** Whether [LogMessage::Flush] and [SendToLog] write a message to stderr, and
    whether they write it to the log files. *)
Definition to_stderr (g : Glog) (severity : Z) : bool :=
  (minloglevel g <=? severity) &&
  (if logtostderr g || negb (IsGoogleLoggingInitialized g) then true else also_to_stderr g severity).
Definition to_files (g : Glog) (severity : Z) : bool :=
  (minloglevel g <=? severity) && negb (logtostderr g || negb (IsGoogleLoggingInitialized g)).

Definition INFO : Z := 0.
Definition WARNING : Z := 1.
Definition ERROR : Z := 2.
Definition FATAL : Z := 3.
Definition NUM_SEVERITIES : Z := 4.
Definition GetLogSeverityName (severity : Z) : string :=
  default "" (["INFO"; "WARNING"; "ERROR"; "FATAL"] !! Z.to_nat severity).

(** ** The process *)

Inductive Exc := invalid_argument | out_of_range.

(** What the code holds and has to give back: the members of a driver object, its
    mutex and condition variable, its copy of a credential, its process. *)
Inductive Held := Members (driver : nat) | Mutex (driver : nat) | Cond (driver : nat) | CredentialOf (driver : nat)
| ProcessOf (driver : nat).
#[export] Instance Held_eq_dec : EqDecision Held.
Proof. solve_decision. Defined.

Record World := mkWorld {
  glog : Glog;
  once : bool;                     (** the flag of sched.cpp *)
  exec_once : bool;                (** the flag of exec.cpp *)
  initialized : bool;              (** the flag of logging.cpp *)
  argv0 : string;
  failure_handler : bool;
  sigterm_handler : bool;
  held : list Held;
  cerr : list (string * Exc);      (** the complaints about URB_LOGLEVEL *)
  broker_shutdown : bool;
}.

Definition set_glog v w := mkWorld v (once w) (exec_once w) (initialized w) (argv0 w) (failure_handler w)
  (sigterm_handler w) (held w) (cerr w) (broker_shutdown w).
Definition set_once v w := mkWorld (glog w) v (exec_once w) (initialized w) (argv0 w) (failure_handler w)
  (sigterm_handler w) (held w) (cerr w) (broker_shutdown w).
Definition set_exec_once v w := mkWorld (glog w) (once w) v (initialized w) (argv0 w) (failure_handler w)
  (sigterm_handler w) (held w) (cerr w) (broker_shutdown w).
Definition set_initialized v w := mkWorld (glog w) (once w) (exec_once w) v (argv0 w) (failure_handler w)
  (sigterm_handler w) (held w) (cerr w) (broker_shutdown w).
Definition set_argv0 v w := mkWorld (glog w) (once w) (exec_once w) (initialized w) v (failure_handler w)
  (sigterm_handler w) (held w) (cerr w) (broker_shutdown w).
Definition set_failure_handler v w := mkWorld (glog w) (once w) (exec_once w) (initialized w) (argv0 w) v
  (sigterm_handler w) (held w) (cerr w) (broker_shutdown w).
Definition set_sigterm_handler v w := mkWorld (glog w) (once w) (exec_once w) (initialized w) (argv0 w)
  (failure_handler w) v (held w) (cerr w) (broker_shutdown w).
Definition set_held v w := mkWorld (glog w) (once w) (exec_once w) (initialized w) (argv0 w) (failure_handler w)
  (sigterm_handler w) v (cerr w) (broker_shutdown w).
Definition set_cerr v w := mkWorld (glog w) (once w) (exec_once w) (initialized w) (argv0 w) (failure_handler w)
  (sigterm_handler w) (held w) v (broker_shutdown w).
Definition set_broker_shutdown v w := mkWorld (glog w) (once w) (exec_once w) (initialized w) (argv0 w)
  (failure_handler w) (sigterm_handler w) (held w) (cerr w) v.

Inductive Ran (A : Type) :=
| Done (a : A) (w : World)
| Threw (e : Exc) (w : World)
| Exited (status : Z) (message : string)
| Aborted (why : string)
| Killed (signal : Z)
| Undefined (why : string).
Arguments Done {A}.
Arguments Threw {A}.
Arguments Exited {A}.
Arguments Aborted {A}.
Arguments Killed {A}.
Arguments Undefined {A}.

Definition M (A : Type) : Type := World -> Ran A.
Definition ret {A} (a : A) : M A := Done a.
Definition bind {A B} (m : M A) (f : A -> M B) : M B := fun w =>
  match m w with
  | Done a w' => f a w'
  | Threw e w' => Threw e w'
  | Exited c t => Exited c t
  | Aborted t => Aborted t
  | Killed n => Killed n
  | Undefined t => Undefined t
  end.
Notation "'let%' x ':=' c 'in' k" := (bind c (fun x => k))
  (at level 200, x binder, c at level 100, k at level 200, right associativity).
Notation "c ';;%' k" := (bind c (fun _ => k)) (at level 100, right associativity).

Definition change (f : World -> World) : M unit := fun w => Done tt (f w).
Definition flags (f : Glog -> Glog) : M unit := change (fun w => set_glog (f (glog w)) w).
Definition get {A} (f : World -> A) : M A := fun w => Done (f w) w.
Definition throw {A} (e : Exc) : M A := Threw e.
Definition EXIT {A} (status : Z) (message : string) : M A := fun _ => Exited status message.
Definition require (b : bool) (why : string) : M unit := fun w => if b then Done tt w else Aborted why.

Fixpoint remove_one {A} `{EqDecision A} (x : A) (l : list A) : option (list A) :=
  match l with
  | [] => None
  | y :: l' => if decide (y = x) then Some l' else cons y <$> remove_one x l'
  end.

Lemma remove_one_elem {A} `{EqDecision A} (x : A) l : x ∈ l -> exists k, remove_one x l = Some k /\ l ≡ₚ x :: k.
Proof.
  induction l as [|y l IH]; cbn; [by intros ?%not_elem_of_nil|]. intros Hx. case_decide as E; [subst; by eexists|].
  apply elem_of_cons in Hx as [->|Hx]; [done|]. destruct (IH Hx) as (k & -> & Hk). eexists. split; [done|].
  rewrite Hk. apply Permutation_swap.
Qed.

Lemma remove_one_perm {A} `{EqDecision A} (x : A) l k : l ≡ₚ x :: k -> exists k', remove_one x l = Some k' /\ k' ≡ₚ k.
Proof.
  intros Hl. destruct (remove_one_elem x l) as (k' & E & Hk); [rewrite Hl; by left|].
  exists k'. split; [done|]. apply (Permutation_cons_inv (a := x)). by rewrite <- Hk.
Qed.

Definition acquire (h : Held) : M unit := change (fun w => set_held (h :: held w) w).
Definition release (h : Held) : M unit := fun w =>
  match remove_one h (held w) with
  | Some rest => Done tt (set_held rest w)
  | None => Undefined "gives back what it does not hold"
  end.

(** [InitGoogleLogging(argv0)] keeps the pointer. *)
Definition InitGoogleLogging (name : CString) : M unit :=
  let% g := get glog in
  require (negb (IsGoogleLoggingInitialized g)) "You called InitGoogleLogging() twice!" ;;%
  flags (set_program_name (Some (mkCString (place name) (after_slash (contents name))))).

(** ** [std::stoi] *)

Definition isspace (c : ascii) : bool :=
  Ascii.eqb c " " || ((9 <=? nat_of_ascii c)%nat && (nat_of_ascii c <=? 13)%nat).

Fixpoint skip_spaces (s : string) : string :=
  match s with
  | String c rest => if isspace c then skip_spaces rest else s
  | "" => ""
  end.

(** The number the leading digits stand for, none if there are none. *)
Fixpoint digits (s : string) (acc : option Z) : option Z :=
  match s with
  | String c rest =>
      if is_digit c then digits rest (Some (10 * default 0 acc + (Z.of_nat (nat_of_ascii c) - 48))) else acc
  | "" => acc
  end.

Definition INT_MIN : Z := - 2 ^ 31.
Definition INT_MAX : Z := 2 ^ 31 - 1.

Definition stoi (s : string) : Z + Exc :=
  let number :=
    match skip_spaces s with
    | String "-" rest => Z.opp <$> digits rest None
    | String "+" rest => digits rest None
    | rest => digits rest None
    end in
  match number with
  | None => inr invalid_argument
  | Some n => if (INT_MIN <=? n) && (n <=? INT_MAX) then inl n else inr out_of_range
  end.

Example stoi_plain : (stoi "2", stoi " -1", stoi "3x", stoi "+0", stoi "x", stoi "2147483648") =
  (inl 2, inl (-1), inl 3, inl 0, inr invalid_argument, inr out_of_range).
Proof. reflexivity. Qed.

Lemma digits_dec_go s : forall acc n, dec_go s acc = TryOk n -> digits s (Some acc) = Some n.
Proof.
  induction s as [|c s IH]; intros acc n; cbn; [by intros [= ->]|]. destruct (is_digit c); [|done]. apply IH.
Qed.

Lemma stoi_digits s n : s <> "" -> dec_go s 0 = TryOk n -> n <= INT_MAX -> 0 <= n -> stoi s = inl n.
Proof.
  intros Hs Hn Hi H0. destruct s as [|c s]; [done|]. pose proof (digits_dec_go _ _ _ Hn) as Hd.
  cbn in Hn. destruct (is_digit c) eqn:Ec; [|done].
  assert (skip_spaces (String c s) = String c s) as E.
  { cbn. unfold is_digit, isspace in *. destruct (Ascii.eqb_spec c " ") as [->|]; [done|].
    destruct (Nat.leb_spec (nat_of_ascii c) 13), (Nat.leb_spec 48 (nat_of_ascii c)); cbn in *; try done; [lia|by rewrite andb_false_r]. }
  unfold stoi. rewrite E.
  assert (forall d, is_digit d = false -> c <> d) as Hne by (intros d Hd' ->; by rewrite Ec in Hd').
  assert (digits (String c s) None = Some n) as D by (rewrite <- Hd; cbn; by rewrite Ec).
  pose proof (Hne "-"%char eq_refl). pose proof (Hne "+"%char eq_refl).
  assert (match String c s with
          | String "-" rest => Z.opp <$> digits rest None
          | String "+" rest => digits rest None
          | rest => digits rest None
          end = Some n) as ->.
  { rewrite <- D. destruct c as [[] [] [] [] [] [] [] []]; done. }
  unfold INT_MIN. destruct (Z.leb_spec (- 2 ^ 31) n); [|lia]. by destruct (Z.leb_spec n INT_MAX); [|lia].
Qed.

(** ** logging.cpp *)

(** [logging::Flags], the fields [initialize] reads *)
Record Flags := mkFlags { quiet : bool; logging_level : string; log_dir : option string; logbufsecs : Z }.

(** The defaults of [Flags::Flags()] *)
Definition default_flags : Flags := mkFlags false "INFO" None 0.

Definition getLogSeverity (level : string) : Z :=
  if String.eqb level "INFO" then INFO
  else if String.eqb level "WARNING" then WARNING
  else if String.eqb level "ERROR" then ERROR
  else INFO.

Definition valid_level (level : string) : bool :=
  String.eqb level "INFO" || String.eqb level "WARNING" || String.eqb level "ERROR".

Lemma getLogSeverity_range level : INFO <= getLogSeverity level <= ERROR.
Proof. unfold getLogSeverity, INFO, WARNING, ERROR. repeat case_match; lia. Qed.

Lemma Path_basename_after_slash s : startsWith s "file://" = false -> s <> "" -> endsWith_char s "/" = false ->
  Path_basename s = after_slash s.
Proof.
  intros Hf Hne Hl. unfold Path_basename, remove_prefix. rewrite Hf, Hl.
  destruct (String.eqb_spec s ""); [done|].
  assert (String.length s - 1 + 1 = String.length s)%nat as -> by (destruct s; cbn; [done|lia]).
  rewrite stake_all by done. unfold substr. rewrite stake_le, stake_all by done. unfold after_slash.
  destruct (find_last_of s "/") as [i|]; [by rewrite Nat.add_1_r|apply sdrop_0].
Qed.

Section Initialize.
  (** The environment, [os::mkdir] and whether [sigaction] succeeds. *)
  Context (getenv : string -> option string) (mkdir : string -> Try unit) (sigaction_ok : bool).

(** Where the messages go. *)
Definition set_destination (fl : Flags) : M unit :=
  match log_dir fl with
  | Some dir =>
      match mkdir dir with
      | TryError e => EXIT 1 ("Could not initialize logging: Failed to create directory " +:+ dir +:+ ": " +:+ e)
      | TryOk _ => flags (set_log_dir dir) ;;% flags (set_logtostderr false)
      end
  | None => flags (set_logtostderr true)
  end.

(** What is written to stderr in addition to the files. *)
Definition set_stderr (fl : Flags) : M unit :=
  if quiet fl then
    flags (set_stderrthreshold 3) ;;%
    let% g := get glog in
    if logtostderr g then flags (set_minloglevel 3) else ret tt
  else
    let% g := get glog in flags (set_stderrthreshold (minloglevel g)).

Definition initialize (argv : string) (fl : Flags) (installFailureSignalHandler : bool) : M unit :=
  let% done := get initialized in
  if done then ret tt
  else
    change (set_argv0 argv) ;;%
    (if negb (String.eqb (logging_level fl) "INFO") && negb (String.eqb (logging_level fl) "WARNING") &&
        negb (String.eqb (logging_level fl) "ERROR")
     then EXIT 1 ("'" +:+ logging_level fl +:+ "' is not a valid logging level. Possible values for"
                  +:+ " 'logging_level' flag are: 'INFO', 'WARNING', 'ERROR'.")
     else ret tt) ;;%
    flags (set_minloglevel (getLogSeverity (logging_level fl))) ;;%
    set_destination fl ;;%
    set_stderr fl ;;%
    flags (set_logbufsecs (logbufsecs fl)) ;;%
    (match getenv "GLOG_drop_log_memory" with None => flags (set_drop_log_memory false) | Some _ => ret tt end) ;;%
    (let% name := get argv0 in InitGoogleLogging (mkCString Argv0 name)) ;;%
    (if installFailureSignalHandler then
       change (set_failure_handler true) ;;%
       require sigaction_ok "Failed to set sigaction" ;;%
       change (set_sigterm_handler true)
     else ret tt) ;;%
    change (set_initialized true).

Definition SIGTERM : Z := 15.

(** The handler of SIGTERM: it resets the signal to its default action, which
    ends the process, and raises it again. *)
Definition handler {A} (signal : Z) : M A := fun w =>
  if Z.eqb signal SIGTERM then Killed signal
  else Aborted ("Unexpected signal in signal handler: " +:+ pretty signal).

Definition getLogFile (severity : Z) (w : World) : Try string :=
  if String.eqb (FLAGS_log_dir (glog w)) "" then TryError "The 'log_dir' option was not specified"
  else if (severity <? 0) || (NUM_SEVERITIES <=? severity) then TryError ("Unknown log severity: " +:+ pretty severity)
  else TryOk (path_join (FLAGS_log_dir (glog w)) (Path_basename (argv0 w)) +:+ "." +:+ GetLogSeverityName severity).

(** ** What a caller may rely on *)

(** The flags after a first [initialize]. *)
Definition configured (argv : string) (fl : Flags) (g : Glog) : Glog :=
  let files := bool_decide (is_Some (log_dir fl)) in
  let level := getLogSeverity (logging_level fl) in
  mkGlog (if quiet fl && negb files then FATAL else level) (negb files) (alsologtostderr g)
    (if quiet fl then FATAL else level) (default (FLAGS_log_dir g) (log_dir fl)) (logbufsecs fl)
    (match getenv "GLOG_drop_log_memory" with None => false | Some _ => drop_log_memory g end)
    (Some (mkCString Argv0 (after_slash argv))).

(** Why the first [initialize] ends the process instead. *)
Definition refused (fl : Flags) : option string :=
  if negb (valid_level (logging_level fl)) then
    Some ("'" +:+ logging_level fl +:+ "' is not a valid logging level. Possible values for"
          +:+ " 'logging_level' flag are: 'INFO', 'WARNING', 'ERROR'.")
  else
    match log_dir fl with
    | Some dir =>
        match mkdir dir with
        | TryError e => Some ("Could not initialize logging: Failed to create directory " +:+ dir +:+ ": " +:+ e)
        | TryOk _ => None
        end
    | None => None
    end.

Lemma initialize_first argv fl inst w : initialized w = false -> program_name (glog w) = None ->
  initialize argv fl inst w =
    match refused fl with
    | Some why => Exited 1 why
    | None =>
        if inst && negb sigaction_ok then Aborted "Failed to set sigaction"
        else Done tt (mkWorld (configured argv fl (glog w)) (once w) (exec_once w) true argv
                        (inst || failure_handler w) (inst || sigterm_handler w) (held w) (cerr w) (broker_shutdown w))
    end.
Proof.
  intros Hi Hp. destruct w as [g o x i a fh sh h c b], g as [ml ls al th ld lb dm pn]. cbn in Hi, Hp. subst i pn.
  assert (Hv : negb (String.eqb (logging_level fl) "INFO") && negb (String.eqb (logging_level fl) "WARNING") &&
    negb (String.eqb (logging_level fl) "ERROR") = negb (valid_level (logging_level fl)))
    by (unfold valid_level; by rewrite !negb_orb).
  unfold initialize, refused, configured. rewrite Hv. destruct (valid_level (logging_level fl)); [|done].
  generalize (getLogSeverity (logging_level fl)) as level. intros level.
  destruct (log_dir fl) as [dir|] eqn:Ed; [destruct (mkdir dir) as [[]|e] eqn:Em|];
    destruct (quiet fl) eqn:Eq, (getenv "GLOG_drop_log_memory") eqn:Eg, inst;
    unfold set_destination, set_stderr, bind, get, change, flags, ret, EXIT, require; cbn;
    rewrite ?Ed, ?Em, ?Eq, ?Eg; cbn; rewrite ?Em; cbn; try done; by destruct sigaction_ok.
Qed.

Lemma initialize_again argv fl inst w : initialized w = true -> initialize argv fl inst w = Done tt w.
Proof. intros H. unfold initialize, bind, get. by rewrite H. Qed.

(** A process that has initialised glog otherwise. *)
Lemma initialize_twice argv fl inst w : initialized w = false -> is_Some (program_name (glog w)) -> refused fl = None ->
  initialize argv fl inst w = Aborted "You called InitGoogleLogging() twice!".
Proof.
  intros Hi [n Hp] Hr. destruct w as [g o x i a fh sh h c b], g as [ml ls al th ld lb dm pn]. cbn in Hi, Hp. subst i pn.
  unfold refused, valid_level in Hr.
  destruct (String.eqb (logging_level fl) "INFO") eqn:E1, (String.eqb (logging_level fl) "WARNING") eqn:E2,
    (String.eqb (logging_level fl) "ERROR") eqn:E3; try done; cbn in Hr;
    unfold initialize, set_destination, set_stderr, bind, get, change, flags, ret, EXIT, require; cbn;
    rewrite E1, ?E2, ?E3; cbn;
    (destruct (log_dir fl) as [dir|]; [destruct (mkdir dir) as [[]|e]; [|done]|]); cbn;
    destruct (quiet fl), (getenv "GLOG_drop_log_memory"); done.
Qed.

(** Which messages of a program that calls [logging::initialize] are seen: a
    message goes to stderr if its severity is at least the level asked for (with
    [quiet], if it is fatal), and to the log files if a directory was given and it
    is at least the level asked for. *)
Theorem logging_destinations argv fl inst w w' severity : initialized w = false -> alsologtostderr (glog w) = false ->
  program_name (glog w) = None -> initialize argv fl inst w = Done tt w' ->
  let level := getLogSeverity (logging_level fl) in
  to_stderr (glog w') severity = (if quiet fl then FATAL <=? severity else level <=? severity) /\
  to_files (glog w') severity = bool_decide (is_Some (log_dir fl)) && (level <=? severity).
Proof.
  intros Hi Ha Hp E level. rewrite initialize_first in E by done. destruct (refused fl); [done|].
  destruct (inst && negb sigaction_ok); [done|]. injection E as <-.
  assert (INFO <= level <= ERROR) as Hl by apply getLogSeverity_range. fold level.
  unfold to_stderr, to_files, also_to_stderr, IsGoogleLoggingInitialized. cbn. fold level. rewrite Ha. unfold INFO, ERROR, FATAL in *.
  destruct (quiet fl), (log_dir fl); cbn; split; try done; lia.
Qed.

(** The file that [getLogFile] names is the link glog keeps to its newest file of
    that severity: the directory, the name glog knows the program by, and the
    name of the severity. *)
Lemma log_file_link argv fl inst w w' dir severity : initialized w = false -> program_name (glog w) = None ->
  initialize argv fl inst w = Done tt w' -> log_dir fl = Some dir -> dir <> "" -> 0 <= severity < NUM_SEVERITIES ->
  startsWith argv "file://" = false -> argv <> "" -> endsWith_char argv "/" = false ->
  exists name, program_name (glog w') = Some name /\
    getLogFile severity w' = TryOk (path_join dir (contents name) +:+ "." +:+ GetLogSeverityName severity).
Proof.
  intros Hi Hp E Hd Hne Hs Hf Ha Hl. rewrite initialize_first in E by done. destruct (refused fl); [done|].
  destruct (inst && negb sigaction_ok); [done|]. injection E as <-. eexists. split; [done|].
  unfold getLogFile. cbn. rewrite Hd. cbn. destruct (String.eqb_spec dir ""); [done|].
  unfold NUM_SEVERITIES in *. destruct (Z.ltb_spec severity 0); [lia|]. destruct (Z.leb_spec 4 severity); [lia|]. cbn.
  by rewrite Path_basename_after_slash.
Qed.

End Initialize.
