(* ===== verification/Native.v ===== *)
(** * What the language bindings share

    The Python and the Java bindings see a driver only through its methods, and
    exchange protobuf messages as their serialised bytes. *)
From Stdlib Require Import Ascii.
From S2P Require Import Prelude Scheduler Executor.

(** What the bindings need of a driver: its methods, and which one is [abort]. *)
Class NativeDriver (D C : Type) := {
  nd_invoke : C -> D -> outcome (D * Status);
  nd_start : C;
  nd_abort : C;
  nd_join : D -> option Status;      (** [join], once nothing else changes the driver *)
}.

(** How a protobuf message type serialises and parses. *)
Record Proto (T : Type) := mkProto { SerializeToString : T -> option string; ParseFrom : string -> option T }.
Arguments mkProto {T}.
Arguments SerializeToString {T}.
Arguments ParseFrom {T}.

(** The numbers of the enumeration [Status] *)
Definition status_code (st : Status) : Z :=
  match st with DRIVER_NOT_STARTED => 1 | DRIVER_RUNNING => 2 | DRIVER_ABORTED => 3 | DRIVER_STOPPED => 4 end.

(** ** Strings and lengths *)

(** The low 32 bits of a [size_t], read as an [int]. *)
Definition va_int (size : Z) : Z :=
  let low := size mod 2 ^ 32 in if low <? 2 ^ 31 then low else low - 2 ^ 32.

(** What a reader that stops at the first NUL sees of a string. *)
Fixpoint before_nul (s : string) : string :=
  match s with
  | EmptyString => EmptyString
  | String c rest => if Ascii.eqb c Ascii.zero then EmptyString else String c (before_nul rest)
  end.

Fixpoint has_nul (s : string) : bool :=
  match s with EmptyString => false | String c rest => Ascii.eqb c Ascii.zero || has_nul rest end.

Lemma substring_all s : String.substring 0 (String.length s) s = s.
Proof. induction s as [|c s IH]; cbn; [done|by rewrite IH]. Qed.

Lemma va_int_small n : 0 <= n < 2 ^ 31 -> va_int n = n.
Proof.
  intros Hn. unfold va_int. rewrite Z.mod_small by lia.
  destruct (Z.ltb_spec n (2 ^ 31)); lia.
Qed.

(** ** Sequences of calls *)

Section Calls.
  Context {D C : Type} `{ND : NativeDriver D C}.

(** The driver after a sequence of method calls; nobody can call a driver that is
    not there. *)
Definition run_calls (cs : list C) (d : option D) : outcome (option D) :=
  match d with
  | None => Ret None
  | Some d => let! d' := ofold (fun d c => let! r := nd_invoke c d in Ret r.1) cs d in Ret (Some d')
  end.

Lemma run_calls_app cs ds (d d1 : option D) :
  run_calls cs d = Ret d1 -> run_calls (cs ++ ds) d = run_calls ds d1.
Proof.
  unfold run_calls. destruct d as [d|]; [|by intros [= <-]].
  revert d. induction cs as [|c cs IH]; intros d; cbn; [by intros [= <-]|].
  destruct (nd_invoke c d) as [[d' st]|]; cbn; [|done]. apply IH.
Qed.

Lemma run_calls_stops cs ds (d : option D) why : run_calls cs d = Fatal why -> run_calls (cs ++ ds) d = Fatal why.
Proof.
  unfold run_calls. destruct d as [d|]; [|done].
  revert d. induction cs as [|c cs IH]; intros d; cbn; [done|].
  destruct (nd_invoke c d) as [[d' st]|]; cbn; [|done]. apply IH.
Qed.

Lemma run_calls_nil (d : option D) : run_calls [] d = Ret d.
Proof. by destruct d. Qed.

Lemma run_calls_is_some cs (d d' : option D) : run_calls cs d = Ret d' -> is_Some d <-> is_Some d'.
Proof.
  unfold run_calls. destruct d as [d|]; [|by intros [= <-]].
  destruct (ofold _ cs d); cbn; [|done]. intros [= <-]. split; eauto.
Qed.

End Calls.

(** ** The scheduler and the executor of a framework *)

(** The message types the bindings of the scheduler driver convert. *)
Record SchedulerProtos := mkSchedulerProtos {
  p_FrameworkID : Proto string;
  p_MasterInfo : Proto string;
  p_Offer : Proto Offer;
  p_OfferID : Proto string;
  p_TaskStatus : Proto TaskStatus;
  p_ExecutorID : Proto string;
  p_SlaveID : Proto string;
  p_FrameworkInfo : Proto FrameworkInfo;
  p_Credential : Proto string;
  p_Request : Proto Request;
  p_TaskInfo : Proto TaskInfo;
  p_TaskID : Proto string;
  p_Operation : Proto OfferOperation;
  p_Filters : Proto Filters;
  default_Filters : Filters;               (** [Filters filters;] *)
}.

(** The virtual functions of a native [Scheduler]. *)
Inductive SchedulerCallback :=
| Registered (frameworkId masterInfo : string)
| Reregistered (masterInfo : string)
| Disconnected
| ResourceOffers (offers : list Offer)
| OfferRescinded (offerId : string)
| StatusUpdated (status : TaskStatus)
| FrameworkMessage (executorId slaveId data : string)
| SlaveLost (slaveId : string)
| ExecutorLost (executorId slaveId : string) (status : Z)
| ErrorMessage (message : string).

(** The message types the bindings of the executor driver convert. *)
Record ExecutorProtos := mkExecutorProtos {
  q_ExecutorInfo : Proto string;
  q_FrameworkInfo : Proto string;
  q_SlaveInfo : Proto string;
  q_TaskInfo : Proto TaskInfo;
  q_TaskID : Proto string;
  q_TaskStatus : Proto ExecutorStatus;
}.

(** The virtual functions of a native [Executor]. *)
Inductive ExecutorCallback :=
| ExRegistered (executorInfo frameworkInfo slaveInfo : string)
| ExReregistered (slaveInfo : string)
| ExDisconnected
| ExLaunchTask (task : TaskInfo)
| ExKillTask (taskId : string)
| ExFrameworkMessage (data : string)
| ExShutdown
| ExError (message : string).

(** ** The drivers of Scheduler.v and Executor.v *)

Section SchedulerDriver.
  Context (new_uuid : nat -> string) (now : nat -> Z) (callback : Scheduler.Callback -> Scheduler.State -> outcome Scheduler.State).

(** The status a driver method returns. *)
Definition call_status (c : Scheduler.Call) (before after : Scheduler.State) : Status :=
  match c with Scheduler.DStop _ => Scheduler.driver_stop_result before after | _ => Scheduler.status after end.

Definition scheduler_native : NativeDriver Scheduler.State Scheduler.Call := {|
  nd_invoke c s := let! s' := Scheduler.driver_call new_uuid now callback c s in Ret (s', call_status c s s');
  nd_start := Scheduler.DStart;
  nd_abort := Scheduler.DAbort;
  nd_join := Scheduler.driver_join |}.

End SchedulerDriver.

Section ExecutorDriver.
  Context (uuid_memory : nat -> string) (now : nat -> Z) (urb_slave_id urb_framework_id urb_executor_id : option string)
          (callback : Executor.Callback -> Executor.State -> outcome Executor.State).

Definition executor_native : NativeDriver Executor.State Executor.Call := {|
  nd_invoke c s :=
    match c with
    | Executor.DStop => Executor.driver_stop s
    | _ =>
        let! s' := Executor.driver_call uuid_memory now urb_slave_id urb_framework_id urb_executor_id callback c s in
        Ret (s', Executor.status s')
    end;
  nd_start := Executor.DStart;
  nd_abort := Executor.DAbort;
  nd_join := Executor.driver_join |}.

End ExecutorDriver.
