(* ===== verification/DriverSetup.v ===== *)
(** * Creating and destroying drivers (source/sched.cpp, 51-267; source/exec.cpp, 42-88)

    The four constructors of the scheduler driver and the one of the executor
    driver set up glog, create the driver's mutex and condition variable and leave
    a driver that has not been started; the destructors give back what the driver
    holds.  A program creates drivers, lets them run and destroys them in any order;
    what happens to a driver while it runs is arbitrary here.  Not covered: protobuf's
    test of its version, and that the caller of a destructor waits until the event
    loop has exited (Concurrent shows that it does). *)
From Stdlib Require Import Ascii.
From S2P Require Import Prelude Scheduler Executor Native Logging.

(** The fields of [FrameworkInfo] that the constructors read or touch. *)
Record FrameworkMessage := mkMessage { f_user : option string; f_name : option string; f_id : option string; f_role : option string }.

(** What the process reads of it. *)
Definition framework_view (f : FrameworkMessage) : FrameworkInfo := mkFramework (default "" (f_name f)) (f_id f).

(** A driver object; its [status], [process], [framework] and [master] are those of
    the state that Scheduler describes. *)
Record SchedulerDriver := mkDriver {
  sd_framework : FrameworkMessage;
  sd_implicitAcknowledgements : bool;
  sd_credential : option string;
  sd_url : string;
  sd_state : Scheduler.State;
}.

Section Setup.
  (** The environment, [os::user()], and whether [VLOG(1)] is on. *)
  Context (getenv : string -> option string) (os_user : Try (option string)) (verbose : bool).

(** ** The parts of the constructors *)

Definition set_loglevel : M unit :=
  match getenv "URB_LOGLEVEL" with
  | None | Some "" => flags (set_minloglevel 1)
  | Some loglevel =>
      match stoi loglevel with
      | inl level => flags (set_minloglevel level)
      | inr e => throw e
      end
  end.

(** With [catch (std::exception& e)] around it, which writes to [std::cerr]. *)
Definition set_loglevel_caught : M unit :=
  match getenv "URB_LOGLEVEL" with
  | None | Some "" => flags (set_minloglevel 1)
  | Some loglevel =>
      match stoi loglevel with
      | inl level => flags (set_minloglevel level)
      | inr e => change (fun w => set_cerr (cerr w ++ [(loglevel, e)]) w)
      end
  end.

Definition set_stderr_default : M unit :=
  let% g := get glog in
  if String.eqb (FLAGS_log_dir g) "" then flags (set_logtostderr true) else ret tt.

(** [framework.name().c_str()]: memory of the driver, but for a name that is not
    set, which is protobuf's constant. *)
Definition name_c_str (k : nat) (f : FrameworkMessage) : CString :=
  match f_name f with
  | Some name => mkCString (NameOf k) (before_nul name)
  | None => mkCString Constant ""
  end.

(** [std::call_once(once, google::InitGoogleLogging, ...)] *)
Definition init_once (k : nat) (f : FrameworkMessage) : M unit :=
  let% done := get once in
  if done then ret tt else InitGoogleLogging (name_c_str k f) ;;% change (set_once true).
Definition init_exec_once : M unit :=
  let% done := get exec_once in
  if done then ret tt else InitGoogleLogging (mkCString Constant "urb") ;;% change (set_exec_once true).

(** The arguments of [VLOG(1)], evaluated if it is on: [mutable_name()] and the
    others set the field if it is not. *)
Definition vlog_framework (f : FrameworkMessage) : FrameworkMessage :=
  if verbose then
    mkMessage (Some (default "" (f_user f))) (Some (default "" (f_name f))) (f_id f) (Some (default "*" (f_role f)))
  else f.

Definition init_mutex (k : nat) : M unit := acquire (Mutex k) ;;% acquire (Cond k).

(** The current user, if the framework does not name one. *)
Definition fill_user (f : FrameworkMessage) : M FrameworkMessage :=
  if String.eqb (default "" (f_user f)) "" then
    match os_user with
    | TryOk (Some user) => ret (mkMessage (Some user) (f_name f) (f_id f) (f_role f))
    | TryOk None => fun _ => Aborted "CHECK_SOME(user): is NONE"
    | TryError e => fun _ => Aborted ("CHECK_SOME(user): " +:+ e)
    end
  else ret f.

(** The members exist when the body runs, and are destroyed if it throws. *)
Definition constructing {A} (k : nat) (body : M A) : M A :=
  acquire (Members k) ;;%
  fun w => match body w with
           | Threw e w' => (release (Members k) ;;% throw e) w'
           | r => r
           end.

Definition created (f : FrameworkMessage) (master : string) (acks : bool) (credential : option string) : M SchedulerDriver :=
  let s := Scheduler.new_driver (framework_view f) master in
  require (negb (Scheduler.process s)) "Check failed: process == NULL" ;;%
  ret (mkDriver f acks credential master s).

(** ** The constructors *)

Definition MesosSchedulerDriver (k : nat) (f : FrameworkMessage) (master : string) (acks : bool) : M SchedulerDriver :=
  constructing k (
    set_loglevel_caught ;;% set_stderr_default ;;% init_once k f ;;%
    (let f' := vlog_framework f in
     init_mutex k ;;%
     let% f'' := fill_user f' in created f'' master acks None)).

Definition MesosSchedulerDriver_deprecated (k : nat) (f : FrameworkMessage) (master : string) : M SchedulerDriver :=
  constructing k (
    set_loglevel ;;% set_stderr_default ;;% init_once k f ;;%
    (let f' := vlog_framework f in
     init_mutex k ;;%
     let% f'' := fill_user f' in created f'' master true None)).

Definition MesosSchedulerDriver_credential (k : nat) (f : FrameworkMessage) (master : string) (acks : bool)
    (credential : string) : M SchedulerDriver :=
  constructing k (
    acquire (CredentialOf k) ;;% init_mutex k ;;%
    let% f' := fill_user f in created f' master acks (Some credential)).

Definition MesosSchedulerDriver_credential_deprecated (k : nat) (f : FrameworkMessage) (master credential : string) :
    M SchedulerDriver :=
  constructing k (
    acquire (CredentialOf k) ;;% init_mutex k ;;%
    let% f' := fill_user f in created f' master true (Some credential)).

Definition MesosExecutorDriver (k : nat) : M Executor.State :=
  constructing k (
    init_mutex k ;;% set_loglevel_caught ;;% set_stderr_default ;;% init_exec_once ;;% ret Executor.new_driver).

(** ** The destructors *)

(** [delete process]: [~UrbSchedulerProcess] or [~UrbExecutorProcess], and its memory *)
Definition delete_process (k : nat) (channelsCreated : bool) : M unit :=
  (if channelsCreated then change (set_broker_shutdown true) else ret tt) ;;% release (ProcessOf k).

Definition MesosSchedulerDriver_destroy (k : nat) (d : SchedulerDriver) : M unit :=
  (if Scheduler.process (sd_state d) then delete_process k (Scheduler.channelsCreated (sd_state d)) else ret tt) ;;%
  (match sd_credential d with Some _ => release (CredentialOf k) | None => ret tt end) ;;%
  release (Mutex k) ;;% release (Cond k) ;;% release (Members k).

Definition MesosExecutorDriver_destroy (k : nat) (s : Executor.State) : M unit :=
  (if Executor.process s then delete_process k (Executor.channelsCreated s) else ret tt) ;;%
  release (Members k).

(** ** Programs *)

Inductive Construct := Plain (acks : bool) | Deprecated | WithCredential (acks : bool) (credential : string)
| DeprecatedWithCredential (credential : string).

Definition construct (c : Construct) (k : nat) (f : FrameworkMessage) (master : string) : M SchedulerDriver :=
  match c with
  | Plain acks => MesosSchedulerDriver k f master acks
  | Deprecated => MesosSchedulerDriver_deprecated k f master
  | WithCredential acks credential => MesosSchedulerDriver_credential k f master acks credential
  | DeprecatedWithCredential credential => MesosSchedulerDriver_credential_deprecated k f master credential
  end.

Inductive Object := SchedulerObject (d : SchedulerDriver) | ExecutorObject (s : Executor.State).

Inductive Op :=
| NewScheduler (c : Construct) (f : FrameworkMessage) (master : string)
| NewExecutor
| BecameScheduler (k : nat) (s : Scheduler.State)     (** the driver ran, whatever it did *)
| BecameExecutor (k : nat) (s : Executor.State)
| Delete (k : nat).

(** The objects of a program; addresses are not used again. *)
Record Heap := mkHeap { next : nat; objs : gmap nat Object; gone : list nat }.
Definition empty_heap : Heap := mkHeap 0 ∅ [].

(** A [new] that throws leaves no object; the program goes on. *)
Definition allocate {A} (m : M A) (object : A -> Object) (h : Heap) : M Heap := fun w =>
  match m w with
  | Done a w' => Done (mkHeap (S (next h)) (<[next h := object a]> (objs h)) (gone h)) w'
  | Threw _ w' => Done (mkHeap (S (next h)) (objs h) (gone h)) w'
  | Exited c t => Exited c t
  | Aborted t => Aborted t
  | Killed n => Killed n
  | Undefined t => Undefined t
  end.

(** [process = new Urb...Process(...)], if the driver made one while it ran *)
Definition made_process (k : nat) (before after : bool) : M unit :=
  if negb before && after then acquire (ProcessOf k) else ret tt.

(** A driver that has a process keeps it until it is destroyed. *)
Definition perform (o : Op) (h : Heap) : M Heap :=
  match o with
  | NewScheduler c f master => allocate (construct c (next h) f master) SchedulerObject h
  | NewExecutor => allocate (MesosExecutorDriver (next h)) ExecutorObject h
  | BecameScheduler k s =>
      match objs h !! k with
      | Some (SchedulerObject d) =>
          if implb (Scheduler.process (sd_state d)) (Scheduler.process s) then
            made_process k (Scheduler.process (sd_state d)) (Scheduler.process s) ;;%
            ret (mkHeap (next h) (<[k := SchedulerObject (mkDriver (sd_framework d) (sd_implicitAcknowledgements d)
              (sd_credential d) (sd_url d) s)]> (objs h)) (gone h))
          else ret h
      | _ => ret h
      end
  | BecameExecutor k s =>
      match objs h !! k with
      | Some (ExecutorObject s0) =>
          if implb (Executor.process s0) (Executor.process s) then
            made_process k (Executor.process s0) (Executor.process s) ;;%
            ret (mkHeap (next h) (<[k := ExecutorObject s]> (objs h)) (gone h))
          else ret h
      | _ => ret h
      end
  | Delete k =>
      match objs h !! k with
      | Some (SchedulerObject d) =>
          MesosSchedulerDriver_destroy k d ;;% ret (mkHeap (next h) (delete k (objs h)) (gone h))
      | Some (ExecutorObject s) =>
          MesosExecutorDriver_destroy k s ;;% ret (mkHeap (next h) (delete k (objs h)) (k :: gone h))
      | None => ret h
      end
  end.

Fixpoint program (os : list Op) (h : Heap) : M Heap :=
  match os with
  | [] => ret h
  | o :: os' => let% h' := perform o h in program os' h'
  end.

(** ** What is held *)

Definition owner (x : Held) : nat := match x with Members k | Mutex k | Cond k | CredentialOf k | ProcessOf k => k end.

Definition locks (k : nat) : list Held := [Cond k; Mutex k].
Definition credential_held (k : nat) (c : option string) : list Held :=
  match c with Some _ => [CredentialOf k] | None => [] end.
Definition process_held (k : nat) (process : bool) : list Held := if process then [ProcessOf k] else [].
Definition owned (k : nat) (o : Object) : list Held :=
  match o with
  | SchedulerObject d => process_held k (Scheduler.process (sd_state d)) ++ locks k ++ credential_held k (sd_credential d) ++ [Members k]
  | ExecutorObject s => process_held k (Executor.process s) ++ locks k ++ [Members k]
  end.
Definition expected (h : Heap) : list Held := (map_to_list (objs h) ≫= fun ko => owned ko.1 ko.2) ++ (gone h ≫= locks).

(** A computation that adds [own] to what is held when it returns and nothing when
    it throws, which it does only if [throws]; it never gives back what is not held. *)
Definition adds {A} (throws : bool) (own : A -> list Held) (m : M A) : Prop := forall w,
  match m w with
  | Done a w' => held w' = own a ++ held w
  | Threw _ w' => throws = true /\ held w' = held w
  | Undefined _ => False
  | _ => True
  end.
Abbreviation keeps t := (adds t (fun _ => [])).

Lemma adds_ret {A} t (a : A) : keeps t (ret a).
Proof. done. Qed.
Lemma adds_flags t f : keeps t (flags f).
Proof. by intros [? ? ? ? ? ? ? ? ? ?]. Qed.
Lemma adds_require t b why : keeps t (require b why).
Proof. intros w. unfold require. by destruct b. Qed.
Lemma adds_throws {A} own (m : M A) : adds false own m -> adds true own m.
Proof. intros H w. specialize (H w). destruct (m w); try done. by destruct H. Qed.
Lemma keeps_bind {A B} t (m : M A) (f : A -> M B) own : keeps t m -> (forall a, adds t own (f a)) -> adds t own (bind m f).
Proof.
  intros Hm Hf w. unfold bind. specialize (Hm w). destruct (m w) as [a w'|e w'|c s|s|n|s]; try done.
  specialize (Hf a w'). rewrite Hm in Hf. by destruct (f a w').
Qed.
Lemma adds_bind {A B} t l (m : M A) (f : A -> M B) own : adds t (fun _ => l) m -> (forall a, adds false own (f a)) ->
  adds t (fun b => own b ++ l) (bind m f).
Proof.
  intros Hm Hf w. unfold bind. specialize (Hm w). destruct (m w) as [a w'|e w'|c s|s|n|s]; try done.
  specialize (Hf a w'). rewrite Hm in Hf. destruct (f a w'); try done; [by rewrite <- app_assoc|by destruct Hf].
Qed.
Lemma adds_acquire t x : adds t (fun _ => [x]) (acquire x).
Proof. by intros [? ? ? ? ? ? ? ? ? ?]. Qed.
Lemma adds_init_mutex t k : adds t (fun _ => locks k) (init_mutex k).
Proof. apply (adds_bind t [Mutex k] (acquire (Mutex k)) _ (fun _ => [Cond k])); intros; apply adds_acquire. Qed.
Lemma keeps_get {A B} t (g : World -> A) (f : A -> M B) own : (forall a, adds t own (f a)) -> adds t own (bind (get g) f).
Proof. intros Hf. by apply keeps_bind. Qed.
Lemma adds_init t name : keeps t (InitGoogleLogging name).
Proof. apply keeps_get. intros g. apply keeps_bind; [apply adds_require|]. intros _. apply adds_flags. Qed.
Create HintDb setup discriminated.
#[local] Hint Resolve adds_ret adds_flags adds_require adds_init : setup.
#[local] Hint Extern 1 (adds _ _ (bind (get _) _)) => apply keeps_get; intros ? : setup.
#[local] Hint Extern 2 (adds _ _ (bind _ _)) => apply keeps_bind; [|intros ?] : setup.
#[local] Hint Extern 1 (adds _ _ (if ?b then _ else _)) => destruct b : setup.
#[local] Hint Extern 1 (adds _ _ (change _)) => by intros [? ? ? ? ? ? ? ? ? ?] : setup.

Lemma keeps_loglevel_caught t : keeps t set_loglevel_caught.
Proof. unfold set_loglevel_caught. repeat case_match; auto with setup. Qed.
Lemma keeps_loglevel : keeps true set_loglevel.
Proof. unfold set_loglevel. repeat case_match; auto with setup; done. Qed.
Lemma keeps_stderr_default t : keeps t set_stderr_default.
Proof. unfold set_stderr_default. auto 10 with setup. Qed.
Lemma keeps_init_once t k f : keeps t (init_once k f).
Proof. unfold init_once. auto 10 with setup. Qed.
Lemma keeps_init_exec_once t : keeps t init_exec_once.
Proof. unfold init_exec_once. auto 10 with setup. Qed.
Lemma keeps_fill_user t f : keeps t (fill_user f).
Proof. unfold fill_user. repeat case_match; auto with setup; done. Qed.
#[local] Hint Resolve keeps_loglevel keeps_loglevel_caught keeps_stderr_default keeps_init_once keeps_init_exec_once keeps_fill_user : setup.

Lemma constructing_adds {A} k (body : M A) t own : adds t own body -> adds t (fun a => own a ++ [Members k]) (constructing k body).
Proof.
  intros Hb [g o e i a fh sh l c b]. unfold constructing, bind, acquire, change.
  specialize (Hb (mkWorld g o e i a fh sh (Members k :: l) c b)). unfold set_held. cbn in *.
  destruct (body _) as [r w'|x w'|? ?|?|?|?]; try done; [by rewrite Hb, <- app_assoc|].
  destruct Hb as [Ht Hb]. unfold release. rewrite Hb. cbn. rewrite decide_True by done. done.
Qed.

Lemma created_keeps t f master acks c : keeps t (created f master acks c).
Proof. done. Qed.
#[local] Hint Resolve created_keeps : setup.

Definition credential_of (c : Construct) : option string :=
  match c with Plain _ | Deprecated => None | WithCredential _ x | DeprecatedWithCredential x => Some x end.
Definition acks_of (c : Construct) : bool := match c with Plain a | WithCredential a _ => a | _ => true end.

Lemma construct_adds c k f master :
  adds true (fun _ => locks k ++ credential_held k (credential_of c) ++ [Members k]) (construct c k f master).
Proof.
  assert (forall t g a x, adds t (fun _ => locks k) (init_mutex k ;;% let% g' := fill_user g in created g' master a x)) as Hm.
  { intros t g a x. apply (adds_bind t (locks k) (init_mutex k) _ (fun _ => [])); [apply adds_init_mutex|auto with setup]. }
  destruct c as [acks| |acks x|x]; cbn [credential_of construct credential_held app].
  - apply (constructing_adds k _ true (fun _ => locks k)). eauto 10 with setup.
  - apply (constructing_adds k _ true (fun _ => locks k)). eauto 10 with setup.
  - apply (constructing_adds k _ true (fun _ => locks k ++ [CredentialOf k])).
    apply (adds_bind true [CredentialOf k] _ _ (fun _ => locks k)); [apply adds_acquire|done].
  - apply (constructing_adds k _ true (fun _ => locks k ++ [CredentialOf k])).
    apply (adds_bind true [CredentialOf k] _ _ (fun _ => locks k)); [apply adds_acquire|done].
Qed.

Lemma executor_adds k : adds true (fun _ => locks k ++ [Members k]) (MesosExecutorDriver k).
Proof.
  apply (constructing_adds k _ true (fun _ => locks k)). apply (adds_bind true (locks k) _ _ (fun _ => [])); [apply adds_init_mutex|].
  auto 10 with setup.
Qed.

(** ** The new driver *)

(** What a computation returns, if it does. *)
Definition returns {A} (P : A -> Prop) (m : M A) : Prop := forall w, match m w with Done a _ => P a | _ => True end.

Lemma returns_bind {A B} (Q : A -> Prop) (P : B -> Prop) (m : M A) (f : A -> M B) :
  returns Q m -> (forall a, Q a -> returns P (f a)) -> returns P (bind m f).
Proof.
  intros Hm Hf w. unfold bind. specialize (Hm w). destruct (m w) as [a w'|?|?|?|?|?]; try done. by apply Hf.
Qed.
Lemma returns_then {A B} (P : B -> Prop) (m : M A) (f : A -> M B) : (forall a, returns P (f a)) -> returns P (bind m f).
Proof. intros Hf. apply (returns_bind (fun _ => True)); [intros w; by destruct (m w)|auto]. Qed.
Lemma returns_constructing {A} (P : A -> Prop) k (m : M A) : returns P m -> returns P (constructing k m).
Proof.
  intros Hm. apply returns_then. intros _ w. specialize (Hm w). destruct (m w) as [a w'|e w'|?|?|?|?]; try done.
  unfold bind. by destruct (release _ w').
Qed.

(** The message a driver keeps: the user is filled in, and with verbose logging
    fields that were not set have their defaults. *)
Record kept (f f' : FrameworkMessage) : Prop := {
  kept_user : f_user f' = Some (default "" (f_user f)) \/ f_user f' = f_user f \/
    exists u, os_user = TryOk (Some u) /\ default "" (f_user f) = "" /\ f_user f' = Some u;
  kept_name : default "" (f_name f') = default "" (f_name f);
  kept_id : f_id f' = f_id f;
  kept_role : default "*" (f_role f') = default "*" (f_role f);
  kept_quiet : verbose = false -> f_role f' = f_role f /\ f_name f' = f_name f;
}.

Lemma fill_user_kept f : returns (kept f) (fill_user f) .
Proof.
  intros w. unfold fill_user. destruct (String.eqb_spec (default "" (f_user f)) "") as [E|E].
  - destruct os_user as [[u|]|e] eqn:Eo; try done. cbn. split; cbn; try done. right. right. by exists u.
  - cbn. split; try done. right. by left.
Qed.

Lemma vlog_fill_kept f : returns (kept f) (fill_user (vlog_framework f)).
Proof.
  unfold vlog_framework. destruct verbose eqn:Ev; [|apply fill_user_kept].
  intros w. unfold fill_user. cbn [f_user f_name f_id f_role].
  destruct (String.eqb_spec (default "" (Some (default "" (f_user f)))) "") as [E|E]; cbn in *.
  - destruct os_user as [[u|]|e] eqn:Eo; try done. cbn. split; cbn; try done.
    + right. right. by exists u.
    + congruence.
  - split; cbn; try done; [by left|congruence].
Qed.

Lemma created_returns f f' master acks c : kept f f' ->
  returns (fun d => kept f (sd_framework d) /\ sd_state d = Scheduler.new_driver (framework_view f) master /\
    sd_url d = master /\ sd_implicitAcknowledgements d = acks /\ sd_credential d = c) (created f' master acks c).
Proof.
  intros H w. cbn. split_and!; try done. unfold framework_view. by rewrite (kept_name _ _ H), (kept_id _ _ H).
Qed.

Lemma construct_returns c k f master :
  returns (fun d => kept f (sd_framework d) /\ sd_state d = Scheduler.new_driver (framework_view f) master /\
    sd_url d = master /\ sd_implicitAcknowledgements d = acks_of c /\ sd_credential d = credential_of c) (construct c k f master).
Proof.
  destruct c; apply returns_constructing; repeat (apply returns_then; intros _); cbn [construct acks_of credential_of].
  all: eapply returns_bind; [first [apply vlog_fill_kept|apply fill_user_kept]|intros f'; apply created_returns].
Qed.

Lemma executor_returns k : returns (fun s => s = Executor.new_driver) (MesosExecutorDriver k).
Proof. apply returns_constructing. repeat (apply returns_then; intros _). by intros w. Qed.

(** Every constructor of the scheduler driver that returns leaves a driver that
    has not been started, with the framework (as far as the process reads it), the
    master, the kind of acknowledgements and the credential it was given. *)
Theorem constructed_driver c k f master w d w' : construct c k f master w = Done d w' ->
  sd_state d = Scheduler.new_driver (framework_view f) master /\ sd_url d = master /\
  sd_implicitAcknowledgements d = acks_of c /\ sd_credential d = credential_of c /\ kept f (sd_framework d).
Proof.
  intros E. pose proof (construct_returns c k f master w) as H. rewrite E in H. by destruct H as (? & ? & ? & ? & ?).
Qed.

(** ** Programs *)

Definition Inv (h : Heap) (w : World) : Prop :=
  held w ≡ₚ expected h /\ forall k, (next h <= k)%nat -> objs h !! k = None.

Lemma expected_insert n h k o : objs h !! k = None ->
  expected (mkHeap n (<[k := o]> (objs h)) (gone h)) ≡ₚ owned k o ++ expected h.
Proof. intros Hk. unfold expected. cbn [objs gone]. rewrite map_to_list_insert by done. cbn. by rewrite <- !app_assoc. Qed.

Lemma expected_lookup h k o : objs h !! k = Some o ->
  expected h ≡ₚ owned k o ++ expected (mkHeap (next h) (delete k (objs h)) (gone h)).
Proof. intros Hk. rewrite <- (expected_insert (next h)) by apply lookup_delete_eq. cbn. by rewrite insert_delete_id. Qed.

Lemma release_held x w l : held w ≡ₚ x :: l -> exists w', release x w = Done tt w' /\ held w' ≡ₚ l.
Proof.
  intros H. destruct (remove_one_perm _ _ _ H) as (l' & E & Hl). unfold release. rewrite E. by exists (set_held l' w).
Qed.

(** [m] returns, and then [l] is held. *)
Definition leaves (m : M unit) (w : World) (l : list Held) : Prop := exists w', m w = Done tt w' /\ held w' ≡ₚ l.

Lemma release_then x m w l l' : held w ≡ₚ x :: l -> (forall w', held w' ≡ₚ l -> leaves m w' l') -> leaves (release x ;;% m) w l'.
Proof.
  intros H Hm. destruct (release_held x w l H) as (w' & E & H'). destruct (Hm w' H') as (w'' & E' & H'').
  exists w''. split; [|done]. unfold bind. by rewrite E.
Qed.

Lemma delete_process_then k b c m w l l' : held w ≡ₚ process_held k b ++ l -> (forall w', held w' ≡ₚ l -> leaves m w' l') ->
  leaves ((if b : bool then delete_process k c else ret tt) ;;% m) w l'.
Proof.
  intros H Hm. destruct b; [|destruct (Hm w H) as (w' & E & H'); by exists w'].
  destruct (release_then (ProcessOf k) m (if c then set_broker_shutdown true w else w) l l') as (w' & E & H');
    [by destruct c, w|done|]. exists w'. split; [|done]. rewrite <- E. unfold delete_process, bind. by destruct c.
Qed.

Lemma scheduler_destroyed k d w l : held w ≡ₚ owned k (SchedulerObject d) ++ l -> leaves (MesosSchedulerDriver_destroy k d) w l.
Proof.
  intros H. cbn [owned] in H. rewrite <- app_assoc in H. eapply delete_process_then; [exact H|]. clear w H. intros w H.
  assert (forall w1, held w1 ≡ₚ locks k ++ [Members k] ++ l ->
    leaves (release (Mutex k) ;;% release (Cond k) ;;% release (Members k)) w1 l) as Hr.
  { intros w1 H1. apply (release_then _ _ _ (Cond k :: Members k :: l)); [rewrite H1; apply Permutation_swap|].
    intros w2 H2. apply (release_then _ _ _ (Members k :: l)); [done|]. intros w3 H3. by apply release_held. }
  destruct (sd_credential d) as [c|]; [|by apply Hr].
  apply (release_then _ _ _ (locks k ++ [Members k] ++ l)); [|apply Hr].
  rewrite H, <- app_assoc. symmetry. apply (Permutation_middle (locks k)).
Qed.

Lemma executor_destroyed k s w l : held w ≡ₚ owned k (ExecutorObject s) ++ l -> leaves (MesosExecutorDriver_destroy k s) w (locks k ++ l).
Proof.
  intros H. cbn [owned] in H. rewrite <- app_assoc in H. eapply delete_process_then; [exact H|]. clear w H. intros w H.
  apply release_held. rewrite H, <- app_assoc. symmetry. apply (Permutation_middle (locks k)).
Qed.

(** How [perform] may end: with a heap that is accounted for, or with the process. *)
Definition accounted (r : Ran Heap) : Prop :=
  match r with
  | Done h w => Inv h w
  | Threw _ _ | Undefined _ => False
  | _ => True
  end.

Lemma allocate_inv {A} (m : M A) (own : list Held) object h w : Inv h w -> adds true (fun _ => own) m ->
  returns (fun a => owned (next h) (object a) = own) m -> accounted (allocate m object h w).
Proof.
  intros [H Hk] Ha Hr. unfold allocate. specialize (Ha w). specialize (Hr w).
  destruct (m w) as [a w'|e w'|c t|t|n|t]; try done; cbn; split; cbn.
  - rewrite expected_insert by (by apply Hk). by rewrite Ha, Hr, H.
  - intros k Hn. rewrite lookup_insert_ne by lia. apply Hk. lia.
  - destruct Ha as [_ ->]. done.
  - intros k Hn. apply Hk. lia.
Qed.

Lemma replaced_inv h w k o o' b b' rest : Inv h w -> objs h !! k = Some o -> implb b b' = true ->
  owned k o = process_held k b ++ rest -> owned k o' = process_held k b' ++ rest ->
  accounted ((made_process k b b' ;;% ret (mkHeap (next h) (<[k := o']> (objs h)) (gone h))) w).
Proof.
  intros [H Hk] Ho Hb Eo Eo'.
  assert (He : expected (mkHeap (next h) (<[k := o']> (objs h)) (gone h)) ≡ₚ
    owned k o' ++ expected (mkHeap (next h) (delete k (objs h)) (gone h))).
  { rewrite <- (expected_insert (next h)) by apply lookup_delete_eq. cbn. by rewrite insert_delete_eq. }
  assert (Hn : forall j, (next h <= j)%nat -> <[k := o']> (objs h) !! j = None).
  { intros j Hj. rewrite lookup_insert_ne; [by apply Hk|]. intros ->. rewrite Hk in Ho by done. done. }
  rewrite (expected_lookup h k o Ho), Eo in H. rewrite Eo' in He. unfold made_process, bind.
  destruct b, b'; try done; cbn; (split; [|done]); cbn; by rewrite He, H.
Qed.

Lemma deleted_inv h w k o m gone' : Inv h w -> objs h !! k = Some o ->
  leaves m w (expected (mkHeap (next h) (delete k (objs h)) gone')) ->
  accounted ((m ;;% ret (mkHeap (next h) (delete k (objs h)) gone')) w).
Proof.
  intros [H Hk] Ho (w' & E & H'). unfold bind. rewrite E. split; [done|]. cbn. intros j Hj.
  apply lookup_delete_None. right. by apply Hk.
Qed.

Lemma perform_inv o h w : Inv h w -> accounted (perform o h w).
Proof.
  intros I. destruct o as [c f master| |k s|k s|k]; cbn [perform].
  - eapply allocate_inv; [done|apply construct_adds|]. intros w'. pose proof (construct_returns c (next h) f master w') as Hr.
    destruct (construct _ _ _ _ w'); try done. cbn. by destruct Hr as (_ & -> & _ & _ & ->).
  - eapply allocate_inv; [done|apply executor_adds|]. intros w'. pose proof (executor_returns (next h) w') as Hr.
    destruct (MesosExecutorDriver _ w'); try done. by rewrite Hr.
  - destruct (objs h !! k) as [[d|s']|] eqn:E; [|done..]. destruct (implb _ _) eqn:Eb; [|done]. by eapply replaced_inv.
  - destruct (objs h !! k) as [[d|s']|] eqn:E; [done| |done]. destruct (implb _ _) eqn:Eb; [|done]. by eapply replaced_inv.
  - destruct (objs h !! k) as [[d|s]|] eqn:E; [| |done]; eapply deleted_inv; try done; destruct I as [H _].
    + apply scheduler_destroyed. by rewrite <- expected_lookup.
    + assert (expected (mkHeap (next h) (delete k (objs h)) (k :: gone h)) ≡ₚ
        locks k ++ expected (mkHeap (next h) (delete k (objs h)) (gone h))) as Hg.
      { unfold expected. cbn [objs gone]. rewrite bind_cons, !app_assoc. f_equiv. apply Permutation_app_comm. }
      destruct (executor_destroyed k s w (expected (mkHeap (next h) (delete k (objs h)) (gone h)))) as (w' & Ew & Hw);
        [by rewrite <- expected_lookup|]. exists w'. split; [done|]. by rewrite Hw, Hg.
Qed.

Lemma program_inv os : forall h w, Inv h w -> accounted (program os h w).
Proof.
  induction os as [|o os IH]; intros h w I; [done|]. cbn [program]. unfold bind. pose proof (perform_inv o h w I) as Hp.
  destruct (perform o h w); try done. by apply IH.
Qed.

Lemma empty_inv w : held w = [] -> Inv empty_heap w.
Proof. intros Hw. split; [by rewrite Hw|intros; apply lookup_empty]. Qed.

(** ** Programs that use one kind of driver *)

(** Which drivers set up glog: those of exec.cpp if [x], else those of sched.cpp. *)
Definition sets_up (x : bool) (o : Op) : bool :=
  match o with
  | NewExecutor => x
  | NewScheduler (Plain _) _ _ | NewScheduler Deprecated _ _ => negb x
  | _ => true
  end.

(** glog is initialised exactly if the flag of that kind says so. *)
Definition in_step (x : bool) (w : World) : Prop :=
  (if x then exec_once w else once w) = IsGoogleLoggingInitialized (glog w).

(** [m] does not end the process and keeps the flag in step. *)
Definition survives {A} (x : bool) (m : M A) : Prop := forall w, in_step x w ->
  match m w with
  | Done _ w' | Threw _ w' => in_step x w'
  | Undefined _ => True
  | _ => False
  end.

Lemma survives_bind {A B} x (m : M A) (f : A -> M B) : survives x m -> (forall a, survives x (f a)) -> survives x (bind m f).
Proof.
  intros Hm Hf w Hw. unfold bind. specialize (Hm w Hw). destruct (m w) as [a w'|?|?|?|?|?]; try done. by apply Hf.
Qed.
Lemma survives_ret {A} x (a : A) : survives x (ret a).
Proof. by intros w Hw. Qed.
Lemma survives_get {A} x (f : World -> A) : survives x (get f).
Proof. by intros w Hw. Qed.
Lemma survives_flags x f : (forall g, program_name (f g) = program_name g) -> survives x (flags f).
Proof. intros Hf [g o e i a fh sh l c b]. unfold in_step, IsGoogleLoggingInitialized. cbn. by rewrite Hf. Qed.
Lemma survives_change x f : (forall w, glog (f w) = glog w /\ once (f w) = once w /\ exec_once (f w) = exec_once w) ->
  survives x (change f).
Proof. intros Hf w. unfold in_step. cbn. by destruct (Hf w) as (-> & -> & ->). Qed.
Lemma survives_release x h : survives x (release h).
Proof. intros w Hw. unfold release. destruct (remove_one h (held w)); [exact Hw|done]. Qed.
Lemma survives_throw {A} x e : survives x (@throw A e).
Proof. by intros w Hw. Qed.
Lemma survives_acquire x h : survives x (acquire h).
Proof. by apply survives_change. Qed.
#[local] Hint Resolve survives_acquire survives_ret survives_get survives_release survives_throw : setup.
#[local] Hint Extern 1 (survives _ (flags _)) => apply survives_flags; done : setup.
#[local] Hint Extern 1 (survives _ (change _)) => apply survives_change; done : setup.
#[local] Hint Extern 1 (survives _ (if ?b then _ else _)) => destruct b : setup.

(** The first driver of its kind initialises glog, and later ones do not. *)
Lemma survives_init_once k f : survives false (init_once k f).
Proof.
  intros [[ml ls al th ld lb dm pn] o e i a fh sh l c b]. unfold in_step, IsGoogleLoggingInitialized. cbn.
  intros ->. unfold init_once, bind, get. cbn. destruct pn as [n|]; cbn; [done|]. by destruct (f_name f).
Qed.
Lemma survives_init_exec_once : survives true init_exec_once.
Proof.
  intros [[ml ls al th ld lb dm pn] o e i a fh sh l c b]. unfold in_step, IsGoogleLoggingInitialized. cbn.
  intros ->. unfold init_exec_once, bind, get. cbn. by destruct pn as [n|].
Qed.
Lemma survives_constructing {A} x k (m : M A) : survives x m -> survives x (constructing k m).
Proof.
  intros Hm. apply survives_bind; [by apply survives_change|]. intros _ w Hw. specialize (Hm w Hw).
  destruct (m w) as [a w'|e w'|?|?|?|?]; try done. unfold bind.
  pose proof (survives_release x (Members k) w' Hm) as Hr. by destruct (release _ w').
Qed.

Section OneKind.
  Context (user : string) (known : os_user = TryOk (Some user)).

Lemma survives_fill_user x f : survives x (fill_user f).
Proof. unfold fill_user. rewrite known. destruct (String.eqb _ _); auto with setup. Qed.
Lemma survives_created x f master acks c : survives x (created f master acks c).
Proof. by intros w Hw. Qed.
Lemma survives_loglevel x : survives x set_loglevel.
Proof. unfold set_loglevel. repeat case_match; auto with setup. Qed.
Lemma survives_loglevel_caught x : survives x set_loglevel_caught.
Proof. unfold set_loglevel_caught. repeat case_match; auto with setup. Qed.
Lemma survives_stderr_default x : survives x set_stderr_default.
Proof. unfold set_stderr_default. apply survives_bind; auto with setup. Qed.
Lemma survives_init_mutex x k : survives x (init_mutex k).
Proof. unfold init_mutex, acquire. apply survives_bind; auto with setup. Qed.
#[local] Hint Resolve survives_fill_user survives_created survives_loglevel survives_loglevel_caught survives_stderr_default
  survives_init_mutex survives_constructing survives_init_once survives_init_exec_once : setup.

Ltac survive := repeat first [solve [auto with setup]|apply survives_bind; [|intros ?]].

Lemma survives_delete_process x k b : survives x (delete_process k b).
Proof. unfold delete_process. survive. Qed.
#[local] Hint Resolve survives_delete_process : setup.

Lemma survives_allocate {A} x (m : M A) object h : survives x m -> survives x (allocate m object h).
Proof. intros Hm w Hw. unfold allocate. specialize (Hm w Hw). by destruct (m w). Qed.

Lemma survives_perform x o h : sets_up x o = true -> survives x (perform o h).
Proof.
  destruct o as [c f master| |k s|k s|k]; cbn [perform sets_up]; intros Hx.
  - apply survives_allocate. destruct c; try (apply negb_true_iff in Hx; subst x);
      apply survives_constructing; survive.
  - subst x. apply survives_allocate, survives_constructing. survive.
  - destruct (objs h !! k) as [[d|s']|]; [|auto with setup..]. unfold made_process.
    destruct (implb _ _); [|auto with setup]. survive.
  - destruct (objs h !! k) as [[d|s']|]; [auto with setup| |auto with setup]. unfold made_process.
    destruct (implb _ _); [|auto with setup]. survive.
  - destruct (objs h !! k) as [[d|s]|]; [apply survives_bind; [|auto with setup]..|auto with setup].
    + unfold MesosSchedulerDriver_destroy. destruct (sd_credential d); survive.
    + unfold MesosExecutorDriver_destroy. survive.
Qed.

Lemma survives_program x os : forall h, forallb (sets_up x) os = true -> survives x (program os h).
Proof.
  induction os as [|o os IH]; intros h; cbn; [auto with setup|]. intros [Ho Hos]%andb_true_iff.
  apply survives_bind; [by apply survives_perform|auto].
Qed.

Lemma program_survives x os w : forallb (sets_up x) os = true -> in_step x w -> held w = [] ->
  exists h w', program os empty_heap w = Done h w'.
Proof.
  intros Hos Hs Hw. pose proof (survives_program x os empty_heap Hos w Hs) as Hp.
  pose proof (program_inv os _ _ (empty_inv w Hw)) as Ha. destruct (program os empty_heap w); try done. eauto.
Qed.

End OneKind.


(** ** Where the set-up goes wrong *)

(** The same but for the flags and the complaints. *)
Definition similar (w w' : World) : Prop :=
  program_name (glog w') = program_name (glog w) /\ once w' = once w /\ exec_once w' = exec_once w /\ held w' = held w.

Lemma loglevel_caught_done w : exists w', set_loglevel_caught w = Done tt w' /\ similar w w'.
Proof. unfold set_loglevel_caught. repeat case_match; by eexists. Qed.
Lemma stderr_default_done w : exists w', set_stderr_default w = Done tt w' /\ similar w w'.
Proof. unfold set_stderr_default, bind, get. case_match; by eexists. Qed.
Lemma setup_done w : exists w', (set_loglevel_caught ;;% set_stderr_default) w = Done tt w' /\ similar w w'.
Proof.
  destruct (loglevel_caught_done w) as (w1 & E1 & P1 & O1 & X1 & H1).
  destruct (stderr_default_done w1) as (w2 & E2 & P2 & O2 & X2 & H2). exists w2. split.
  - unfold bind. by rewrite E1.
  - unfold similar. by rewrite P2, O2, X2, H2.
Qed.

Lemma bind_assoc {A B C} (m : M A) (f : A -> M B) (g : B -> M C) w : bind m (fun a => bind (f a) g) w = bind (bind m f) g w.
Proof. unfold bind. by destruct (m w). Qed.

(** After a driver of the one kind has set up glog, creating the first one of the
    other kind aborts the process. *)
Lemma second_kind_aborts k w name : program_name (glog w) = Some name -> exec_once w = false ->
  MesosExecutorDriver k w = Aborted "You called InitGoogleLogging() twice!".
Proof.
  intros Hp He. unfold MesosExecutorDriver, constructing, bind at 1. cbn [acquire change].
  set (w0 := set_held _ w). unfold bind at 1. cbn [init_mutex acquire change bind]. rewrite bind_assoc.
  set (w1 := set_held _ (set_held _ w0)). unfold bind at 1. destruct (setup_done w1) as (w2 & -> & P & O & X & _).
  unfold init_exec_once, InitGoogleLogging, bind, get. rewrite X. cbn. rewrite He.
  unfold IsGoogleLoggingInitialized. by rewrite P; cbn; rewrite Hp.
Qed.

(** Computations that leave glog alone. *)
Definition leaves_glog {A} (m : M A) : Prop := forall w, match m w with Done _ w' => glog w' = glog w | _ => True end.
Lemma leaves_glog_bind {A B} (m : M A) (f : A -> M B) : leaves_glog m -> (forall a, leaves_glog (f a)) -> leaves_glog (bind m f).
Proof.
  intros Hm Hf w. unfold bind. specialize (Hm w). destruct (m w) as [a w'|?|?|?|?|?]; try done.
  specialize (Hf a w'). rewrite Hm in Hf. by destruct (f a w').
Qed.
Lemma leaves_glog_release h : leaves_glog (release h).
Proof. intros w. unfold release. by destruct (remove_one h (held w)). Qed.
Lemma leaves_glog_destroy k d : leaves_glog (MesosSchedulerDriver_destroy k d).
Proof.
  assert (forall b, leaves_glog (delete_process k b)) as Hp
    by (intros b; apply leaves_glog_bind; [by destruct b|intros _; apply leaves_glog_release]).
  unfold MesosSchedulerDriver_destroy.
  repeat (apply leaves_glog_bind; [repeat case_match; try done; apply leaves_glog_release|intros _]). apply leaves_glog_release.
Qed.
Lemma leaves_glog_created k f master acks c : leaves_glog (init_mutex k ;;% let% f' := fill_user f in created f' master acks c).
Proof.
  apply leaves_glog_bind; [done|]. intros _. apply leaves_glog_bind; [|done]. unfold fill_user. repeat case_match; done.
Qed.

(** The name that glog keeps is memory of the first driver: once that driver is
    destroyed, it points to memory that is not held. *)
Lemma program_name_dangles k name w d w1 w2 acks f master : program_name (glog w) = None -> once w = false -> held w = [] ->
  f_name f = Some name -> MesosSchedulerDriver k f master acks w = Done d w1 -> MesosSchedulerDriver_destroy k d w1 = Done tt w2 ->
  (place <$> program_name (glog w2)) = Some (NameOf k) /\ Members k ∉ held w2.
Proof.
  intros Hp Ho Hh Hn E1 E2. split.
  - pose proof (leaves_glog_destroy k d w1) as Hg. rewrite E2 in Hg. rewrite Hg. clear E2 Hg Hh.
    revert E1. unfold MesosSchedulerDriver, constructing, bind at 1. cbn [acquire change].
    set (w0 := set_held _ w). rewrite bind_assoc. unfold bind at 1.
    destruct (setup_done w0) as (w' & -> & P & O & _ & _). unfold bind at 1.
    unfold init_once, InitGoogleLogging, bind at 1, get at 1. rewrite O. cbn [w0 set_held once]. rewrite Ho.
    unfold bind at 1 2, get, require, IsGoogleLoggingInitialized. rewrite P. cbn [w0 set_held glog]. rewrite Hp.
    unfold bind at 1, flags, change. change (negb (bool_decide (is_Some None))) with true. cbv iota.
    set (w3 := set_once true _). pose proof (leaves_glog_created k (vlog_framework f) master acks None w3) as Hg.
    destruct ((init_mutex k ;;% _) w3) as [d' w4|e w4|?|?|?|?]; try done.
    + intros [= -> ->]. rewrite Hg. cbn. unfold name_c_str. by rewrite Hn.
    + unfold bind. by destruct (release _ w4).
  - pose proof (construct_adds (Plain acks) k f master w) as Ha. pose proof (construct_returns (Plain acks) k f master w) as Hr.
    cbn [construct] in Ha, Hr. rewrite E1 in Ha, Hr. destruct Hr as (_ & Hst & _ & _ & Hc).
    destruct (scheduler_destroyed k d w1 []) as (w2' & E2' & H2); [cbn [owned]; by rewrite Ha, Hst, Hc, Hh|].
    rewrite E2 in E2'. injection E2' as <-. rewrite H2. apply not_elem_of_nil.
Qed.

(** With a URB_LOGLEVEL that is not a number the one constructor complains, and the
    deprecated one throws. *)
Lemma loglevel_throws k f master w l e : getenv "URB_LOGLEVEL" = Some l -> l <> "" -> stoi l = inr e ->
  exists w', MesosSchedulerDriver_deprecated k f master w = Threw e w' /\ held w' = held w.
Proof.
  intros Hl Hne He. destruct w as [g o x i a fh sh h c b]. destruct l as [|ch l]; [done|].
  unfold MesosSchedulerDriver_deprecated, constructing, set_loglevel, bind, acquire, change, release. cbn. rewrite Hl, He. cbn.
  rewrite decide_True by done. by eexists.
Qed.

Definition keeps_level {A} (m : M A) : Prop :=
  forall w, match m w with Done _ w' => minloglevel (glog w') = minloglevel (glog w) | _ => True end.
Lemma keeps_level_bind {A B} (m : M A) (f : A -> M B) : keeps_level m -> (forall a, keeps_level (f a)) -> keeps_level (bind m f).
Proof.
  intros Hm Hf w. unfold bind. specialize (Hm w). destruct (m w) as [a w'|?|?|?|?|?]; try done.
  specialize (Hf a w'). rewrite Hm in Hf. by destruct (f a w').
Qed.
Lemma keeps_level_glog {A} (m : M A) : leaves_glog m -> keeps_level m.
Proof. intros H w. specialize (H w). destruct (m w); try done. by rewrite H. Qed.

Lemma loglevel_set k f master acks w l level d w' : getenv "URB_LOGLEVEL" = Some l -> l <> "" -> stoi l = inl level ->
  MesosSchedulerDriver k f master acks w = Done d w' -> minloglevel (glog w') = level.
Proof.
  intros Hl Hne Hs. destruct l as [|ch l]; [done|].
  assert (keeps_level (set_stderr_default ;;% init_once k f ;;%
    (let f' := vlog_framework f in init_mutex k ;;% let% f'' := fill_user f' in created f'' master acks None))) as Hk.
  { apply keeps_level_bind; [intros w0; unfold set_stderr_default, bind, get; by destruct (String.eqb (FLAGS_log_dir (glog w0)) "")|]. intros _.
    apply keeps_level_bind; [|intros _; apply keeps_level_glog, leaves_glog_created].
    intros w0. unfold init_once, InitGoogleLogging, bind, get, require. destruct (once w0); [done|].
    by destruct (negb (IsGoogleLoggingInitialized (glog w0))). }
  unfold MesosSchedulerDriver, constructing, bind at 1. cbn [acquire change]. set (w0 := set_held _ w).
  unfold bind at 1, set_loglevel_caught at 1. rewrite Hl, Hs. cbn [flags change].
  set (w1 := set_glog _ w0). specialize (Hk w1). destruct ((set_stderr_default ;;% _) w1) as [d' w2|e w2|?|?|?|?]; try done.
  - intros [= -> ->]. by rewrite Hk.
  - unfold bind. by destruct (release _ w2).
Qed.

(** Verbose logging makes the driver register with a role that the framework did not set. *)
Lemma verbose_sets_role k f master acks w d w' : verbose = true -> f_role f = None ->
  MesosSchedulerDriver k f master acks w = Done d w' -> f_role (sd_framework d) = Some "*".
Proof.
  intros Hv Hr E. assert (returns (fun d => f_role (sd_framework d) = Some "*") (MesosSchedulerDriver k f master acks)) as H.
  { apply returns_constructing. repeat (apply returns_then; intros _). apply (returns_bind (fun f' => f_role f' = Some "*")); [|by intros f' Hf w0].
    intros w0. unfold fill_user, vlog_framework. rewrite Hv. cbn. rewrite Hr.
    destruct (String.eqb (default "" (f_user f)) ""); [|done]. by destruct os_user as [[u|]|e]. }
  specialize (H w). by rewrite E in H.
Qed.

End Setup.

(** ** A program *)

Module Example.

Definition no_env (name : string) : option string := None.
Definition bad_env (name : string) : option string := if String.eqb name "URB_LOGLEVEL" then Some "verbose" else None.
Definition fresh_glog : Glog := mkGlog 0 false false 2 "" 30 true None.
Definition fresh_world : World := mkWorld fresh_glog false false false "" false false [] [] false.
Definition known_user : Try (option string) := TryOk (Some "root").
Definition fw : FrameworkMessage := mkMessage (Some "") (Some "bin/fw") None None.
Definition two_drivers : list Op :=
  [NewScheduler (Plain true) fw "master"; NewScheduler (WithCredential false "secret") fw "master"; NewScheduler Deprecated fw "m";
   Delete 1; Delete 0].


(** What is left of the program: the third driver. *)
Example two_drivers_left :
  match program no_env known_user false two_drivers empty_heap fresh_world with
  | Done _ w => (held w, program_name (glog w), minloglevel (glog w)) =
      ([Cond 2; Mutex 2; Members 2], Some (mkCString (NameOf 0) "fw"), 1)
  | _ => False
  end.
Proof. vm_compute. reflexivity. Qed.

(** A program with a scheduler driver and an executor driver. *)
Example both_kinds : program no_env known_user false [NewScheduler (Plain true) fw "master"; NewExecutor] empty_heap fresh_world =
  Aborted "You called InitGoogleLogging() twice!".
Proof. vm_compute. reflexivity. Qed.

Example bad_loglevel :
  match MesosSchedulerDriver bad_env known_user false 0 fw "m" true fresh_world with
  | Done _ w => cerr w = [("verbose", invalid_argument)]
  | _ => False
  end.
Proof. vm_compute. reflexivity. Qed.

End Example.
