(* ===== verification/PyApi.v ===== *)
(** * Python's C API as the Python bindings use it (python-bindings/native_common/common.hpp)

    The native code of the bindings runs inside a Python interpreter, which is a
    parameter: [World] says how it answers, given all that happened before.  The
    state holds what the rules of the API are about: the references the native
    code owns, the pending exception, the global interpreter lock, and the
    fields of the driver object.  A computation returns, exits the process (the
    documented effect of printing SystemExit), waits for ever in a join, stops at
    a failed CHECK of the driver, or breaks a rule of the API. *)
From Stdlib Require Import Ascii.
From stdpp Require Import gmultiset.
From S2P Require Import Prelude Scheduler Native.

(** ** Objects and answers *)

Abbreviation obj := nat (only parsing).
(** [PyObject*] *)
Abbreviation ptr := (option nat) (only parsing).

Inductive Exc := SystemExit | Exception (message : string).

(** An argument of a call into Python; a list the native code made is given with
    its items. *)
Inductive PyArg :=
| ArgObj (o : obj)
| ArgList (o : obj) (items : list ptr)
| ArgText (text : string)
| ArgInt (n : Z).

(** The argument Python builds for "s#" from a pointer and a length: a negative
    length stands for [strlen].  The bindings do not define PY_SSIZE_T_CLEAN, so
    the length is read as an [int]. *)
Definition s_hash (data : string) : PyArg :=
  let n := va_int (Z.of_nat (String.length data)) in
  ArgText (if n <? 0 then before_nul data else String.substring 0 (Z.to_nat n) data).

Lemma s_hash_small data : Z.of_nat (String.length data) < 2 ^ 31 -> s_hash data = ArgText data.
Proof.
  intros Hn. unfold s_hash. rewrite va_int_small by lia.
  destruct (Z.ltb_spec (Z.of_nat (String.length data)) 0); [lia|].
  by rewrite Nat2Z.id, substring_all.
Qed.

Inductive PyEvent (C : Type) :=
| PyCalled (o : obj) (method : string) (args : list PyArg) (calls : list C) (result : ptr)
| PyText (o : obj) (text : string)           (** the bytes of a string object were read *)
| PySize (l : obj) (n : nat)                 (** [PyList_Size] *)
| PyItem (l : obj) (i : nat) (o : obj)       (** [PyList_GetItem] *)
| PyNew (o : obj)                            (** an object was created by the native code *)
| PyInt (o : obj) (value : Z)                (** [PyInt_FromLong] *)
| PyPrinted (e : Exc)
| Native (c : C)                             (** a driver method was called by the native code *)
| NewDriver
| DeleteDriver (with_gil : bool).
Arguments PyCalled {C}.
Arguments PyText {C}.
Arguments PySize {C}.
Arguments PyItem {C}.
Arguments PyNew {C}.
Arguments PyInt {C}.
Arguments PyPrinted {C}.
Arguments Native {C}.
Arguments NewDriver {C}.
Arguments DeleteDriver {C}.

(** The answer to a call: the driver methods the Python code called, its result,
    and whether an exception that was pending before is lost. *)
Inductive Answer := Returns (o : obj) | Raises (e : Exc).
Record Reply (C : Type) := mkReply { rp_calls : list C; rp_answer : Answer; rp_clears : bool }.
Arguments mkReply {C}.
Arguments rp_calls {C}.
Arguments rp_answer {C}.
Arguments rp_clears {C}.

Record World (D C : Type) := {
  w_none : obj;                                                        (** [Py_None] *)
  w_self : obj;                                                        (** the driver object *)
  w_call : list (PyEvent C) -> obj -> string -> list PyArg -> Reply C;
  w_text : list (PyEvent C) -> obj -> option string;                   (** as a string *)
  w_int : list (PyEvent C) -> obj -> option Z;                         (** as an integer *)
  w_items : list (PyEvent C) -> obj -> option (list obj);              (** as a list *)
  w_pb2_dict : list (PyEvent C) -> bool;
  w_pb2 : list (PyEvent C) -> string -> option (obj * bool);           (** an entry, and if it is a type *)
  w_alloc : list (PyEvent C) -> option obj;                            (** none: out of memory *)
  w_wait : list (PyEvent C) -> option D;      (** the driver when a join returns; none: never *)
  w_busy : list (PyEvent C) -> bool;          (** a callback on the event loop's thread waits for the lock *)
}.
Arguments w_none {D C}.
Arguments w_self {D C}.
Arguments w_call {D C}.
Arguments w_text {D C}.
Arguments w_int {D C}.
Arguments w_items {D C}.
Arguments w_pb2_dict {D C}.
Arguments w_pb2 {D C}.
Arguments w_alloc {D C}.
Arguments w_wait {D C}.
Arguments w_busy {D C}.

(** ** States and computations *)

Record PyState (D C : Type) := mkPy {
  owned : gmultiset obj;                   (** the references the native code owns *)
  lists : gmap obj (list ptr);             (** the lists it is filling *)
  pending : option Exc;
  gil : bool;                              (** this thread holds the lock *)
  self_driver : option D;                  (** [self->driver] *)
  self_proxy : bool;                       (** [self->proxyScheduler != nullptr] *)
  self_python : ptr;                       (** [self->pythonScheduler] *)
  history : list (PyEvent C);
}.
Arguments mkPy {D C}.
Arguments owned {D C}.
Arguments lists {D C}.
Arguments pending {D C}.
Arguments gil {D C}.
Arguments self_driver {D C}.
Arguments self_proxy {D C}.
Arguments self_python {D C}.
Arguments history {D C}.

Inductive PyResult (D C A : Type) :=
| Done (a : A) (s : PyState D C)
| Exited (s : PyState D C)
| Waiting (s : PyState D C)
| Aborted (why : string)
| Misuse (why : string).
Arguments Done {D C A}.
Arguments Exited {D C A}.
Arguments Waiting {D C A}.
Arguments Aborted {D C A}.
Arguments Misuse {D C A}.

Declare Scope py_scope.
Delimit Scope py_scope with py.

Section Api.
  Context {D C : Type} `{ND : NativeDriver D C} (w : World D C).

Abbreviation St := (PyState D C).
Definition Py (A : Type) : Type := PyState D C -> PyResult D C A.

Definition pret {A} (a : A) : Py A := fun s => Done a s.
Definition pbind {A B} (m : Py A) (k : A -> Py B) : Py B := fun s =>
  match m s with
  | Done a s' => k a s'
  | Exited s' => Exited s'
  | Waiting s' => Waiting s'
  | Aborted why => Aborted why
  | Misuse why => Misuse why
  end.
Definition misuse {A} (why : string) : Py A := fun _ => Misuse why.

Definition set_owned v (s : St) : St := mkPy v (lists s) (pending s) (gil s) (self_driver s) (self_proxy s)
  (self_python s) (history s).
Definition set_lists v (s : St) : St := mkPy (owned s) v (pending s) (gil s) (self_driver s) (self_proxy s)
  (self_python s) (history s).
Definition set_pending v (s : St) : St := mkPy (owned s) (lists s) v (gil s) (self_driver s) (self_proxy s)
  (self_python s) (history s).
Definition set_gil v (s : St) : St := mkPy (owned s) (lists s) (pending s) v (self_driver s) (self_proxy s)
  (self_python s) (history s).
Definition set_driver v (s : St) : St := mkPy (owned s) (lists s) (pending s) (gil s) v (self_proxy s)
  (self_python s) (history s).
Definition set_proxy v (s : St) : St := mkPy (owned s) (lists s) (pending s) (gil s) (self_driver s) v
  (self_python s) (history s).
Definition set_python v (s : St) : St := mkPy (owned s) (lists s) (pending s) (gil s) (self_driver s)
  (self_proxy s) v (history s).
Definition log e (s : St) : St := mkPy (owned s) (lists s) (pending s) (gil s) (self_driver s) (self_proxy s)
  (self_python s) (history s ++ [e]).

(** Every function of the API must be called with the lock held. *)
Definition with_gil {A} (m : Py A) : Py A := fun s => if gil s then m s else Misuse "the GIL is not held".

Definition get {A} (f : St -> A) : Py A := fun s => Done (f s) s.
Definition modify (f : St -> St) : Py unit := fun s => Done tt (f s).

(** ** References *)

Definition Py_INCREF (o : obj) : Py unit :=
  with_gil (modify (fun s => set_owned (owned s ⊎ {[+ o +]}) s)).

(** [Py_DECREF], of a reference the native code must own *)
Definition Py_DECREF (o : obj) : Py unit := with_gil (fun s =>
  if decide (o ∈ owned s) then Done tt (set_lists (delete o (lists s)) (set_owned (owned s ∖ {[+ o +]}) s))
  else Misuse "not an owned reference").

Definition Py_XDECREF (p : ptr) : Py unit :=
  match p with Some o => Py_DECREF o | None => pret tt end.

(** ** Exceptions *)

Definition PyErr_Occurred : Py bool := with_gil (get (fun s => bool_decide (is_Some (pending s)))).

(** [PyErr_Format(PyExc_Exception, ...)] *)
Definition PyErr_Format (message : string) : Py unit :=
  with_gil (modify (set_pending (Some (Exception message)))).

(** [PyErr_Print], which must not be called without a pending exception, and
    exits for SystemExit *)
Definition PyErr_Print : Py unit := with_gil (fun s =>
  match pending s with
  | None => Misuse "PyErr_Print without an exception"
  | Some SystemExit => Exited s
  | Some e => Done tt (log (PyPrinted e) (set_pending None s))
  end).

(** A null pointer is returned, with an exception. *)
Definition raise_null (message : string) : Py ptr :=
  pbind (PyErr_Format message) (fun _ => pret None).

(** ** Calls and objects *)

Definition resolve (s : St) (a : PyArg) : PyArg :=
  match a with
  | ArgObj o => match lists s !! o with Some items => ArgList o items | None => a end
  | _ => a
  end.

(** [PyObject_CallMethod]: a new reference, or null with an exception *)
Definition PyObject_CallMethod (p : ptr) (method : string) (args : list PyArg) : Py ptr := with_gil (fun s =>
  match p with
  | None => Done None (set_pending (Some (Exception "null argument to internal routine")) s)
  | Some o =>
      let args' := map (resolve s) args in
      let r := w_call w (history s) o method args' in
      match run_calls (rp_calls r) (self_driver s) with
      | Fatal why => Aborted why
      | Ret d =>
          match rp_answer r with
          | Returns x =>
              Done (Some x) (log (PyCalled o method args' (rp_calls r) (Some x))
                (set_owned (owned s ⊎ {[+ x +]})
                  (set_pending (if rp_clears r then None else pending s) (set_driver d s))))
          | Raises e =>
              Done None (log (PyCalled o method args' (rp_calls r) None)
                (set_pending (Some e) (set_driver d s)))
          end
      end
  end).

(** [PyObject_CallMethod(impl->python..., name, "O...", impl, ...)] *)
Definition call_framework (method : string) (args : list PyArg) : Py ptr :=
  pbind (get self_python) (fun python => PyObject_CallMethod python method (ArgObj (w_self w) :: args)).

(** A new object of the native code, or null with an exception *)
Definition new_object (build : obj -> St -> St) : Py ptr := with_gil (fun s =>
  match w_alloc w (history s) with
  | None => Done None (set_pending (Some (Exception "MemoryError")) s)
  | Some o => Done (Some o) (build o (set_owned (owned s ⊎ {[+ o +]}) s))
  end).

Definition PyList_New (size : nat) : Py ptr :=
  new_object (fun o s => log (PyNew o) (set_lists (<[o := replicate size None]> (lists s)) s)).

Definition PyInt_FromLong (value : Z) : Py ptr := new_object (fun o s => log (PyInt o value) s).

(** [PyList_SetItem] on a list made by [PyList_New]: steals the reference *)
Definition PyList_SetItem (l : obj) (i : nat) (o : obj) : Py unit := with_gil (fun s =>
  match lists s !! l with
  | None => Misuse "not a list"
  | Some items =>
      if negb (i <? length items)%nat then Misuse "list index out of range"
      else if decide (o ∈ owned s) then
        Done tt (set_lists (<[l := <[i := Some o]> items]> (lists s)) (set_owned (owned s ∖ {[+ o +]}) s))
      else Misuse "not an owned reference"
  end).

Definition PyList_Check (o : obj) : Py bool :=
  with_gil (get (fun s => bool_decide (is_Some (w_items w (history s) o)))).
Definition PyList_Size (o : obj) : Py nat :=
  with_gil (fun s =>
    let n := length (default [] (w_items w (history s) o)) in Done n (log (PySize o n) s)).

(** [PyList_GetItem]: a borrowed reference, or null with an exception *)
Definition PyList_GetItem (o : obj) (i : nat) : Py ptr := with_gil (fun s =>
  match w_items w (history s) o with
  | None => Done None (set_pending (Some (Exception "bad argument to internal function")) s)
  | Some items =>
      match items !! i with
      | Some x => Done (Some x) (log (PyItem o i x) s)
      | None => Done None (set_pending (Some (Exception "list index out of range")) s)
      end
  end).

(** [PyString_AsStringAndSize] *)
Definition PyString_AsStringAndSize (o : obj) : Py (option string) := with_gil (fun s =>
  match w_text w (history s) o with
  | Some text => Done (Some text) (log (PyText o text) s)
  | None => Done None (set_pending (Some (Exception "expected string")) s)
  end).

(** ** The lock *)

Definition PyGILState_Ensure : Py bool := fun s => Done (gil s) (set_gil true s).
Definition PyGILState_Release (state : bool) : Py unit := with_gil (modify (set_gil state)).

(** [InterpreterLock lock;] for the rest of a function *)
Definition InterpreterLock {A} (body : Py A) : Py A :=
  pbind PyGILState_Ensure (fun state => pbind body (fun a => pbind (PyGILState_Release state) (fun _ => pret a))).

(** [Py_BEGIN_ALLOW_THREADS ... Py_END_ALLOW_THREADS] *)
Definition allow_threads {A} (body : Py A) : Py A :=
  pbind (with_gil (modify (set_gil false))) (fun _ =>
  pbind body (fun a => pbind (modify (set_gil true)) (fun _ => pret a))).

(** ** The end of a callback *)

Definition xdecref_all (ptrs : list ptr) : Py unit :=
  foldr (fun p m => pbind (Py_XDECREF p) (fun _ => m)) (pret tt) ptrs.

(** ** The driver *)

(** [driver->method(...)] *)
Definition invoke (c : C) : Py Status := fun s =>
  match self_driver s with
  | None => Misuse "null driver"
  | Some d =>
      match nd_invoke c d with
      | Fatal why => Aborted why
      | Ret (d', st) => Done st (log (Native c) (set_driver (Some d') s))
      end
  end.

(** [cleanup: if (PyErr_Occurred()) { PyErr_Print(); driver->abort(); } Py_XDECREF(...); ...];
    the callback [error] does not abort. *)
Definition cleanup (abort : bool) (ptrs : list ptr) : Py unit :=
  pbind PyErr_Occurred (fun occurred =>
  pbind (if occurred then
           pbind PyErr_Print (fun _ => if abort then pbind (invoke nd_abort) (fun _ => pret tt) else pret tt)
         else pret tt) (fun _ => xdecref_all ptrs)).

(** [driver->join()]: returns once the driver is not running any more *)
Definition invoke_join : Py Status := fun s =>
  match self_driver s with
  | None => Misuse "null driver"
  | Some _ =>
      match w_wait w (history s) with
      | None => Waiting s
      | Some d =>
          match nd_join d with
          | None => Waiting s
          | Some st => Done st (set_driver (Some d) s)
          end
      end
  end.

(** [driver->run()]: starts the driver, and joins it if it is running *)
Definition invoke_run : Py Status :=
  pbind (invoke nd_start) (fun st => if bool_decide (st = DRIVER_RUNNING) then invoke_join else pret st).

(** [delete self->driver]: the destructor waits until the event loop's thread has
    left the loop, which it cannot while a callback waits for the lock. *)
Definition delete_driver : Py unit := fun s =>
  match self_driver s with
  | None => Misuse "no driver to delete"
  | Some _ =>
      if gil s && w_busy w (history s) then Waiting s
      else Done tt (log (DeleteDriver (gil s)) (set_driver None s))
  end.
Definition new_driver_is (d : D) : Py unit := modify (fun s => log NewDriver (set_driver (Some d) s)).

(** [PyInt_FromLong(status)] *)
Definition return_status (st : Status) : Py ptr := PyInt_FromLong (status_code st).

(** ** The fields of the driver object *)

(** [tmp = self->python...; Py_INCREF(new); self->python... = new; Py_XDECREF(tmp)] *)
Definition replace_python (o : obj) : Py unit :=
  pbind (get self_python) (fun tmp =>
  pbind (Py_INCREF o) (fun _ => pbind (modify (set_python (Some o))) (fun _ => Py_XDECREF tmp))).

(** [Py_CLEAR(self->python...)]: the field is reset before the reference is given
    back *)
Definition Py_CLEAR_python : Py unit :=
  pbind (get self_python) (fun tmp => pbind (modify (set_python None)) (fun _ => Py_XDECREF tmp)).

(** [Py_VISIT(self->python...)]: the objects visited *)
Definition Py_VISIT_python : Py (list obj) :=
  get (fun s => match self_python s with Some o => [o] | None => [] end).

(** [if (self->driver != nullptr) { body }] *)
Definition drop_driver (body : Py unit) : Py unit :=
  pbind (get self_driver) (fun driver => match driver with None => pret tt | Some _ => body end).

(** [if (self->driver == nullptr) { PyErr_Format(...); return nullptr; }] *)
Definition with_driver (type : string) (body : Py ptr) : Py ptr := fun s =>
  match self_driver s with
  | None => raise_null (type +:+ ".driver is nullptr") s
  | Some _ => body s
  end.

End Api.

#[warnings="-at-level-200-changed"] Notation "'let*' x ':=' c 'in' k" := (pbind c (fun x => k))
  (at level 200, x binder, c at level 100, k at level 200, right associativity) : py_scope.
Notation "c ';;*' k" := (pbind c (fun _ => k)) (at level 100, right associativity) : py_scope.
#[global] Open Scope py_scope.
#[global] Arguments PyState : clear implicits.
#[global] Arguments Py : clear implicits.

(** ** Arguments of methods *)

Inductive PyValue := VObj (o : obj) | VText (text : string) | VInt (n : Z).
Inductive FormatUnit := U_O | U_s | U_s_hash | U_i | U_b.

(** The units of a format; none stands for the bar before optional ones. *)
Fixpoint format_units (format : string) : list (option FormatUnit) :=
  match format with
  | String "O" rest => Some U_O :: format_units rest
  | String "s" (String "#" rest) => Some U_s_hash :: format_units rest
  | String "s" rest => Some U_s :: format_units rest
  | String "i" rest => Some U_i :: format_units rest
  | String "b" rest => Some U_b :: format_units rest
  | String "|" rest => None :: format_units rest
  | _ => []
  end.

Section Arguments.
  Context {D C : Type} `{ND : NativeDriver D C} (w : World D C).

Definition type_error {A} (message : string) : Py D C (option A) :=
  PyErr_Format message ;;* pret None.

(** One argument, converted as its unit says. *)
Definition convert_arg (u : FormatUnit) (o : obj) : Py D C (option PyValue) := with_gil (
  match u with
  | U_O => pret (Some (VObj o))
  | U_s =>
      let* text := get (fun s => w_text w (history s) o) in
      match text with
      | None => type_error "must be string"
      | Some t => if has_nul t then type_error "must be string without null bytes" else pret (Some (VText t))
      end
  | U_s_hash =>
      let* text := get (fun s => w_text w (history s) o) in
      match text with
      | None => type_error "must be string or read-only buffer"
      | Some t => if Z.of_nat (String.length t) <? 2 ^ 31 then pret (Some (VText t))
                  else type_error "size does not fit in an int"
      end
  | U_i =>
      let* n := get (fun s => w_int w (history s) o) in
      match n with
      | None => type_error "an integer is required"
      | Some n => if (- 2 ^ 31 <=? n) && (n <? 2 ^ 31) then pret (Some (VInt n))
                  else type_error "integer does not fit in an int"
      end
  | U_b =>
      let* n := get (fun s => w_int w (history s) o) in
      match n with
      | None => type_error "an integer is required"
      | Some n => if (0 <=? n) && (n <? 2 ^ 8) then pret (Some (VInt n))
                  else type_error "integer does not fit in an unsigned byte"
      end
  end).

Fixpoint convert_args (units : list (option FormatUnit)) (optional : bool) (args : list obj) :
    Py D C (option (list PyValue)) :=
  match units, args with
  | None :: units', _ => convert_args units' true args
  | Some u :: units', o :: args' =>
      let* v := convert_arg u o in
      match v with
      | None => pret None
      | Some v =>
          let* vs := convert_args units' optional args' in
          pret ((cons v) <$> vs)
      end
  | Some _ :: _, [] => if optional then pret (Some []) else type_error "not enough arguments"
  | [], [] => pret (Some [])
  | [], _ :: _ => type_error "too many arguments"
  end.

(** [PyArg_ParseTuple]: the values of the arguments given, or none with an
    exception *)
Definition PyArg_ParseTuple (args : list obj) (format : string) : Py D C (option (list PyValue)) :=
  convert_args (format_units format) false args.

(** ** Protobuf messages *)

(** [readPythonProtobuf] *)
Definition readPythonProtobuf {T} (p : Proto T) (o : obj) : Py D C (option T) :=
  if decide (o = w_none w) then pret None
  else
    let* res := PyObject_CallMethod w (Some o) "SerializeToString" [] in
    match res with
    | None => PyErr_Print ;;* pret None
    | Some res =>
        let* chars := PyString_AsStringAndSize w res in
        match chars with
        | None => PyErr_Print ;;* Py_DECREF res ;;* pret None
        | Some chars =>
            let success := ParseFrom p chars in
            Py_DECREF res ;;* pret success
        end
    end.

(** [createPythonProtobuf] *)
Definition createPythonProtobuf {T} (p : Proto T) (t : T) (typeName : string) : Py D C ptr :=
  let* dict := with_gil (get (fun s => w_pb2_dict w (history s))) in
  if negb dict then raise_null "PyModule_GetDict failed"
  else
    let* type := with_gil (get (fun s => w_pb2 w (history s) typeName)) in
    match type with
    | None => raise_null ("Could not resolve mesos_pb2." +:+ typeName)
    | Some (type, is_type) =>
        if negb is_type then raise_null ("mesos_pb2." +:+ typeName +:+ " is not a type")
        else
          match SerializeToString p t with
          | None => raise_null ("C++ " +:+ typeName +:+ " SerializeToString failed")
          | Some str => PyObject_CallMethod w (Some type) "FromString" [s_hash str]
          end
    end.

(** The loop over a list argument that reads its items:
    [for (...) { PyList_GetItem ...; readPythonProtobuf ...; push_back }];
    none is a null result, with an exception. *)
Fixpoint read_items {T} (p : Proto T) (typeName : string) (l : obj) (i n : nat) (read : list T) :
    Py D C (option (list T)) :=
  match n with
  | O => pret (Some read)
  | S n' =>
      let* item := PyList_GetItem w l i in
      match item with
      | None => pret None
      | Some item =>
          let* t := readPythonProtobuf p item in
          match t with
          | None => PyErr_Format ("Could not deserialize Python " +:+ typeName) ;;* pret None
          | Some t => read_items p typeName l (S i) n' (read ++ [t])
          end
      end
  end.

Definition read_list {T} (p : Proto T) (typeName : string) (l : obj) : Py D C (option (list T)) :=
  let* len := PyList_Size w l in read_items p typeName l 0 len [].

(** [readPythonProtobuf], with the exception of its callers *)
Definition read_or_raise {T} (p : Proto T) (typeName : string) (o : obj) : Py D C (option T) :=
  let* t := readPythonProtobuf p o in
  match t with
  | None => PyErr_Format ("Could not deserialize Python " +:+ typeName) ;;* pret None
  | Some t => pret (Some t)
  end.

(** ** Tables of methods *)

Inductive Method := METH_NOARGS (f : Py D C ptr) | METH_VARARGS (f : list obj -> Py D C ptr).

Fixpoint assoc {A} (name : string) (table : list (string * A)) : option A :=
  match table with
  | [] => None
  | (n, a) :: rest => if String.eqb name n then Some a else assoc name rest
  end.

(** Python's call of a native method *)
Definition call_method (m : option Method) (args : list obj) : Py D C ptr :=
  match m with
  | None => raise_null "no such attribute"
  | Some (METH_NOARGS f) => match args with [] => f | _ :: _ => raise_null "takes no arguments" end
  | Some (METH_VARARGS f) => f args
  end.

End Arguments.
#[global] Arguments Method : clear implicits.
