(* ===== verification/PyModule.v ===== *)
(** * The Python modules of the bindings (python-bindings/scheduler/src/mesos/scheduler/module.cpp, python-bindings/executor/src/mesos/executor/module.cpp)

    The functions that Python calls when it imports the native modules: they
    import the module of the protocol buffers, make the driver's type ready and
    put it in a new module.  Python takes an import for failed when an exception
    is pending on return. *)
From stdpp Require Import gmultiset.
From S2P Require Import Prelude Scheduler Native PyApi.

(** How the interpreter answers: a module or an exception for an import, a type
    that is ready, and the module's object or none. *)
Record Importer := {
  i_import : string -> obj + Exc;          (** [PyImport_ImportModule] *)
  i_ready : obj -> option Exc;             (** [PyType_Ready]: the exception of a failure *)
  i_module : string -> obj + Exc;          (** [Py_InitModule]: a borrowed reference *)
}.

(** The entries that were added to modules, and what [mesos_pb2] points to. *)
Record Modules := mkModules { mesos_pb2 : ptr; dicts : list (obj * string * obj) }.

Section Init.
  Context {D C : Type} `{ND : NativeDriver D C} (i : Importer).

Abbreviation St := (PyState D C).

(** A failure of the API: an exception and no object. *)
Definition fails {A} (e : Exc) (a : A) : Py D C A := with_gil (modify (set_pending (Some e))) ;;* pret a.

(** A new reference, or null *)
Definition PyImport_ImportModule (name : string) : Py D C ptr :=
  match i_import i name with
  | inl o => Py_INCREF o ;;* pret (Some o)
  | inr e => fails e None
  end.

(** [PyType_Ready(type) < 0] *)
Definition PyType_unready (type : obj) : Py D C bool :=
  match i_ready i type with None => with_gil (pret false) | Some e => fails e true end.

Definition Py_InitModule (name : string) : Py D C ptr :=
  match i_module i name with inl o => with_gil (pret (Some o)) | inr e => fails e None end.

(** Steals the reference to the object; the module must not be null. *)
Definition PyModule_AddObject (module : ptr) (name : string) (o : obj) (ms : Modules) : Py D C Modules :=
  match module with
  | None => misuse "the module is null"
  | Some m => with_gil (fun s =>
      if decide (o ∈ owned s) then
        Done (mkModules (mesos_pb2 ms) (dicts ms ++ [(m, name, o)])) (set_owned (owned s ∖ {[+ o +]}) s)
      else Misuse "not an owned reference")
  end.

(** [init_scheduler] and [init_executor], which differ in the names.  The
    methods of the module are none. *)
Definition init_module (module_name type_name : string) (type : obj) (ms : Modules) : Py D C Modules :=
  let* pb2 := PyImport_ImportModule "mesos.interface.mesos_pb2" in
  let ms := mkModules pb2 (dicts ms) in
  match pb2 with
  | None => pret ms
  | Some _ =>
      let* unready := PyType_unready type in
      if (unready : bool) then pret ms
      else
        let* module := Py_InitModule module_name in
        Py_INCREF type ;;*
        PyModule_AddObject module type_name type ms
  end.

Definition init_scheduler (type : obj) : Modules -> Py D C Modules :=
  init_module "_scheduler" "MesosSchedulerDriverImpl" type.
Definition init_executor (type : obj) : Modules -> Py D C Modules :=
  init_module "_executor" "MesosExecutorDriverImpl" type.

(** What Python finds after an initialiser: nothing else of the interpreter's
    state has changed, and an import that did not raise has the type in its
    module and the protocol buffers' module held. *)
Definition imported (module_name type_name : string) (type : obj) (ms ms' : Modules) (s s' : St) : Prop :=
  match pending s' with
  | None =>
      exists pb2 m, i_import i "mesos.interface.mesos_pb2" = inl pb2 /\ i_module i module_name = inl m /\
      ms' = mkModules (Some pb2) (dicts ms ++ [(m, type_name, type)]) /\ s' = set_owned (owned s ⊎ {[+ pb2 +]}) s
  | Some _ => dicts ms' = dicts ms
  end.

Lemma init_module_ok module_name type_name type ms s : gil s = true -> pending s = None ->
  match init_module module_name type_name type ms s with
  | Done ms' s' => imported module_name type_name type ms ms' s s'
  | Misuse _ => exists e, i_module i module_name = inr e
  | _ => False
  end.
Proof.
  intros Hg Hp. unfold init_module, PyImport_ImportModule, PyType_unready, Py_InitModule, fails, pbind, Py_INCREF,
    with_gil, modify, pret, imported, PyModule_AddObject, misuse, with_gil.
  destruct (i_import i _) as [pb2|e] eqn:Ei; rewrite Hg; [|by cbn].
  cbn. destruct (i_ready i type) as [e|] eqn:Er; cbn; rewrite Hg; [by cbn|].
  destruct (i_module i module_name) as [m|e] eqn:Em; repeat (cbn; rewrite ?Hg); [|by eexists].
  case_decide as Hin; [|exfalso; apply Hin; multiset_solver].
  cbn. rewrite Hp. exists pb2, m. split_and!; [done..|]. unfold set_owned. cbn. f_equal. multiset_solver.
Qed.

(** Importing a native module, with Python's lock held and no exception
    pending: without an exception the driver's type is in the new module, the
    reference it was given is the module's, and of all references only the one to
    the protocol buffers' module is kept; with an exception the type is in no
    module.  The rules of the API are kept unless the module object itself
    cannot be made. *)
Theorem modules_initialise type ms (s : St) : gil s = true -> pending s = None ->
  (forall e, i_module i "_scheduler" <> inr e) -> (forall e, i_module i "_executor" <> inr e) ->
  (exists (ms' : Modules) (s' : St), init_scheduler type ms s = Done ms' s' /\
    imported "_scheduler" "MesosSchedulerDriverImpl" type ms ms' s s') /\
  (exists (ms' : Modules) (s' : St), init_executor type ms s = Done ms' s' /\
    imported "_executor" "MesosExecutorDriverImpl" type ms ms' s s').
Proof.
  intros Hg Hp Hs He. split.
  - pose proof (init_module_ok "_scheduler" "MesosSchedulerDriverImpl" type ms s Hg Hp) as H.
    unfold init_scheduler. destruct (init_module _ _ _ _ _) as [ms' s'| | | |why]; [by exists ms', s'|done..|].
    by destruct H as [e ?%Hs].
  - pose proof (init_module_ok "_executor" "MesosExecutorDriverImpl" type ms s Hg Hp) as H.
    unfold init_executor. destruct (init_module _ _ _ _ _) as [ms' s'| | | |why]; [by exists ms', s'|done..|].
    by destruct H as [e ?%He].
Qed.

(** [Py_InitModule] returns null when the module cannot be made; its result goes
    to [PyModule_AddObject] unchecked. *)
Theorem null_module_is_used pb2 e type ms (s : St) : gil s = true ->
  i_import i "mesos.interface.mesos_pb2" = inl pb2 -> i_ready i type = None -> i_module i "_scheduler" = inr e ->
  init_scheduler type ms s = Misuse "the module is null".
Proof.
  intros Hg Hi Hr Hm. unfold init_scheduler, init_module, PyImport_ImportModule, PyType_unready, Py_InitModule, fails.
  rewrite Hi, Hr, Hm. unfold pbind, Py_INCREF, with_gil, modify, pret, PyModule_AddObject, misuse.
  repeat (cbn; rewrite ?Hg). done.
Qed.
End Init.

(** An interpreter that knows the protocol buffers' module as object 1 and makes
    the module as object 2; the type is object 3. *)
Example init_example (D C : Type) : let s : PyState D C := mkPy ∅ ∅ None true None false None [] in
  init_scheduler {| i_import := fun _ => inl 1%nat; i_ready := fun _ => None; i_module := fun _ => inl 2%nat |} 3%nat
    (mkModules None []) s =
  Done (mkModules (Some 1%nat) [(2%nat, "MesosSchedulerDriverImpl", 3%nat)]) (set_owned {[+ 1%nat +]} s).
Proof. vm_compute. done. Qed.
