(* ===== verification/PyLogic.v ===== *)
(** * Reasoning about the Python bindings

    Weakest preconditions for computations of PyApi, and what each function of
    the API promises in these terms: the references it gives or takes, the
    exceptions it leaves, and what it adds to the history. *)
From stdpp Require Import gmultiset.
From S2P Require Import Prelude Scheduler Native PyApi.

Section Logic.
  Context {D C : Type} `{ND : NativeDriver D C} (w : World D C).

Abbreviation St := (PyState D C).

(** No rule of the API is broken, and the result satisfies [Q] if there is one;
    the process exits only on SystemExit, and waits without the lock. *)
Definition wp {A} (m : Py D C A) (Q : A -> St -> Prop) (s : St) : Prop :=
  match m s with
  | Done a s' => Q a s'
  | Exited s' => pending s' = Some SystemExit
  | Waiting s' => gil s' = false
  | Aborted _ => True
  | Misuse _ => False
  end.

Lemma wp_bind {A B} (m : Py D C A) (k : A -> Py D C B) Q s :
  wp m (fun a => wp (k a) Q) s -> wp (pbind m k) Q s.
Proof. unfold wp, pbind. by destruct (m s). Qed.

Lemma wp_ret {A} (a : A) Q s : Q a s -> wp (pret a) Q s.
Proof. done. Qed.

Lemma wp_mono {A} (m : Py D C A) (Q R : A -> St -> Prop) s :
  wp m Q s -> (forall a s', Q a s' -> R a s') -> wp m R s.
Proof. unfold wp. destruct (m s); auto. Qed.

Lemma wp_and {A} (m : Py D C A) (Q R : A -> St -> Prop) s :
  wp m Q s -> wp m R s -> wp m (fun a s' => Q a s' /\ R a s') s.
Proof. unfold wp. destruct (m s); auto. Qed.

Lemma wp_gil {A} (m : Py D C A) Q s : gil s = true -> wp m Q s -> wp (with_gil m) Q s.
Proof. unfold wp, with_gil. by intros ->. Qed.

Definition refs (p : ptr) : gmultiset nat := match p with Some o => {[+ o +]} | None => ∅ end.
Definition refs_all (ps : list ptr) : gmultiset nat := foldr (fun p X => refs p ⊎ X) ∅ ps.

Lemma refs_none (X : gmultiset nat) : X ⊎ refs None = X.
Proof. apply (right_id_L ∅ (⊎)). Qed.

(** The driver methods that were called, by the native code or by Python. *)
Definition natives (h : list (PyEvent C)) : list C :=
  concat (map (fun e => match e with PyCalled _ _ _ cs _ => cs | Native c => [c] | _ => [] end) h).

Lemma natives_app h k : natives (h ++ k) = natives h ++ natives k.
Proof. unfold natives. by rewrite map_app, concat_app. Qed.

(** What every computation leaves alone, and what it adds. *)
Record frame (s s' : St) (X : gmultiset nat) (h : list (PyEvent C)) : Prop := {
  fr_gil : gil s' = gil s;
  fr_owned : owned s' = owned s ⊎ X;
  fr_proxy : self_proxy s' = self_proxy s;
  fr_python : self_python s' = self_python s;
  fr_driver : run_calls (natives h) (self_driver s) = Ret (self_driver s');
  fr_history : history s' = history s ++ h;
}.

Lemma frame_refl s : frame s s ∅ [].
Proof.
  split; try done; [multiset_solver|apply run_calls_nil|by rewrite app_nil_r].
Qed.

Lemma frame_trans s s1 s2 X Y h k :
  frame s s1 X h -> frame s1 s2 Y k -> frame s s2 (X ⊎ Y) (h ++ k).
Proof.
  intros [G1 O1 P1 Q1 D1 H1] [G2 O2 P2 Q2 D2 H2]. split.
  - by rewrite G2.
  - rewrite O2, O1. multiset_solver.
  - by rewrite P2.
  - by rewrite Q2.
  - rewrite natives_app. by erewrite run_calls_app by exact D1.
  - by rewrite H2, H1, app_assoc.
Qed.

Lemma frame_then s s1 s2 X h k : frame s s1 X h -> frame s1 s2 ∅ k -> frame s s2 X (h ++ k).
Proof.
  intros F1 F2. pose proof (frame_trans _ _ _ _ _ _ _ F1 F2) as F. by rewrite (right_id_L ∅ (⊎)) in F.
Qed.
Lemma frame_first s s1 s2 X h k : frame s s1 ∅ h -> frame s1 s2 X k -> frame s s2 X (h ++ k).
Proof.
  intros F1 F2. pose proof (frame_trans _ _ _ _ _ _ _ F1 F2) as F. by rewrite (left_id_L ∅ (⊎)) in F.
Qed.

(** ** The driver is there exactly as before *)

Lemma frame_driver s s' X h : frame s s' X h -> is_Some (self_driver s) -> is_Some (self_driver s').
Proof. intros F. pose proof (run_calls_is_some _ _ _ (fr_driver _ _ _ _ F)). tauto. Qed.

(** ** Functions of the API *)

Lemma PyErr_Format_wp message s (Q : unit -> St -> Prop) :
  gil s = true -> Q tt (set_pending (Some (Exception message)) s) -> wp (PyErr_Format message) Q s.
Proof. intros G HQ. by apply wp_gil. Qed.

Lemma PyErr_Print_wp s (Q : unit -> St -> Prop) : gil s = true -> pending s <> None ->
  (forall e, pending s = Some e -> Q tt (log (PyPrinted e) (set_pending None s))) -> wp PyErr_Print Q s.
Proof.
  intros G He HQ. apply wp_gil; [done|]. unfold wp.
  destruct (pending s) as [[]|] eqn:E; [done|by apply HQ|done].
Qed.

Lemma frame_pending v s : frame s (set_pending v s) ∅ [].
Proof. destruct (frame_refl s). by split. Qed.

(** An event that calls no driver method. *)
Lemma frame_log e s : natives [e] = [] -> frame s (log e s) ∅ [e].
Proof.
  intros He. destruct (frame_refl s). split; try done. by rewrite He, run_calls_nil.
Qed.

Lemma frame_native c d d' st s : self_driver s = Some d -> nd_invoke c d = Ret (d', st) ->
  frame s (log (Native c) (set_driver (Some d') s)) ∅ [Native c].
Proof.
  intros Hd E. destruct (frame_refl s). split; try done. rewrite Hd. cbn. by rewrite E.
Qed.

Lemma invoke_wp c s : is_Some (self_driver s) ->
  wp (invoke c) (fun st s' => frame s s' ∅ [Native c] /\ pending s' = pending s /\ lists s' = lists s) s.
Proof.
  intros [d Hd]. unfold wp, invoke. rewrite Hd.
  destruct (nd_invoke c d) as [[d' st]|] eqn:E; [|done]. split_and!; [by eapply frame_native|done|done].
Qed.

Lemma frame_print e s s' X h : frame s s' X h -> frame s (log (PyPrinted e) (set_pending None s')) X (h ++ [PyPrinted e]).
Proof.
  intros F. eapply frame_then; [exact F|]. change [PyPrinted e] with ([] ++ [PyPrinted (C:=C) e]).
  eapply frame_then; [apply frame_pending|by apply frame_log].
Qed.

(** Python answers every request, and raises no exception. *)
Record cooperative : Prop := {
  co_dict : forall h, w_pb2_dict w h = true;
  co_type : forall h name, exists type, w_pb2 w h name = Some (type, true);
  co_call : forall h o m args, exists x, rp_answer (w_call w h o m args) = Returns x;
  co_alloc : forall h, is_Some (w_alloc w h);
}.

(** [PyObject_CallMethod]: a call adds one event to the history; a reference to
    the result is owned, or an exception is pending. *)
Lemma PyObject_CallMethod_wp o method args s : gil s = true ->
  wp (PyObject_CallMethod w (Some o) method args)
    (fun r s' => exists cs, let h := [PyCalled o method (map (resolve s) args) cs r] in
       frame s s' (refs r) h /\ lists s' = lists s /\
       (r = None -> pending s' <> None /\ ~ cooperative) /\
       (is_Some r -> pending s' = pending s \/ pending s' = None)) s.
Proof.
  intros G. apply wp_gil; [done|]. unfold wp.
  set (r := w_call w (history s) o method (map (resolve s) args)).
  destruct (run_calls (rp_calls r) (self_driver s)) as [d|] eqn:E; [|done].
  destruct (rp_answer r) as [x|e] eqn:Ea; exists (rp_calls r); cbn.
  - split_and!; [|done|done|destruct (rp_clears r); auto].
    split; cbn; try done. by rewrite app_nil_r.
  - split_and!; [|done| |by intros []].
    2:{ intros _. split; [done|]. intros [_ _ Co _]. destruct (Co (history s) o method (map (resolve s) args)) as [x Hx].
        unfold r in Ea. congruence. }
    split; cbn; try done; [multiset_solver|by rewrite app_nil_r].
Qed.

Lemma CallMethod_null_wp method args s : gil s = true ->
  wp (PyObject_CallMethod w None method args)
    (fun r s' => r = None /\ frame s s' ∅ [] /\ lists s' = lists s /\ pending s' <> None) s.
Proof.
  intros G. apply wp_gil; [done|]. cbn. split_and!; [done| |done|done].
  apply frame_pending.
Qed.

Lemma Py_DECREF_wp o s (Q : unit -> St -> Prop) : gil s = true -> o ∈ owned s ->
  Q tt (set_lists (delete o (lists s)) (set_owned (owned s ∖ {[+ o +]}) s)) -> wp (Py_DECREF o) Q s.
Proof. intros G Ho HQ. apply wp_gil; [done|]. unfold wp. by rewrite decide_True. Qed.

Lemma PyString_AsStringAndSize_wp o s : gil s = true ->
  wp (PyString_AsStringAndSize w o)
    (fun r s' => exists h, frame s s' ∅ h /\ lists s' = lists s /\
       match r with
       | Some text => h = [PyText o text] /\ pending s' = pending s
       | None => h = [] /\ pending s' <> None
       end) s.
Proof.
  intros G. apply wp_gil; [done|]. unfold wp. destruct (w_text w (history s) o) as [text|].
  - exists [PyText o text]. split_and!; [by apply frame_log|done|done|done].
  - exists []. split_and!; [apply frame_pending|done|done|done].
Qed.

(** [Py_DECREF] of a reference that was taken since the state [s] *)
Lemma frame_decref s s' o h : frame s s' {[+ o +]} h ->
  o ∈ owned s' /\ frame s (set_lists (delete o (lists s')) (set_owned (owned s' ∖ {[+ o +]}) s')) ∅ h.
Proof.
  intros [G O P Q Dr H]. split; [rewrite O; multiset_solver|].
  split; cbn; try done. rewrite O. multiset_solver.
Qed.

(** ** Reading messages *)

(** The state in which Python calls native code, and finds it again. *)
Definition idle (s : St) : Prop := gil s = true /\ pending s = None /\ lists s = ∅.

Definition reading (e : PyEvent C) : Prop :=
  match e with
  | PyCalled _ m _ _ _ => m = "SerializeToString"
  | PyText _ _ | PyPrinted _ | PySize _ _ | PyItem _ _ _ => True
  | _ => False
  end.

(** The object [o] was serialised, and its bytes are those of the message [t]. *)
Definition converted {T} (p : Proto T) (o : nat) (h : list (PyEvent C)) (t : T) : Prop :=
  exists res cs bytes, PyCalled o "SerializeToString" [] cs (Some res) ∈ h /\ PyText res bytes ∈ h /\
    ParseFrom p bytes = Some t.

Lemma converted_sub {T} (p : Proto T) o h k t : h ⊆ k -> converted p o h t -> converted p o k t.
Proof. intros Hk (res & cs & bytes & ? & ? & ?). exists res, cs, bytes. auto. Qed.
Lemma converted_app_l {T} (p : Proto T) o h k t : converted p o h t -> converted p o (h ++ k) t.
Proof. intros (res & cs & bytes & ? & ? & ?). exists res, cs, bytes. set_solver. Qed.
Lemma converted_app_r {T} (p : Proto T) o h k t : converted p o k t -> converted p o (h ++ k) t.
Proof. intros (res & cs & bytes & ? & ? & ?). exists res, cs, bytes. set_solver. Qed.

Lemma readPythonProtobuf_wp {T} (p : Proto T) o s : idle s ->
  wp (readPythonProtobuf w p o)
    (fun r s' => exists h, frame s s' ∅ h /\ idle s' /\ Forall reading h /\
       forall t, r = Some t <-> converted p o h t) s.
Proof.
  intros (G & Pd & L). unfold readPythonProtobuf. case_decide as Hn.
  { apply wp_ret. exists []. split_and!; [apply frame_refl|done|done|].
    intros t. split; [done|]. by intros (? & ? & ? & []%elem_of_nil & _). }
  apply wp_bind. eapply wp_mono; [by apply PyObject_CallMethod_wp|].
  intros r s1 (cs & F1 & L1 & N1 & S1). destruct r as [res|].
  - apply wp_bind. eapply wp_mono; [apply PyString_AsStringAndSize_wp; by rewrite (fr_gil _ _ _ _ F1)|].
    intros chars s2 (h2 & F2 & L2 & R2).
    assert (pending s1 = None) as P1 by (destruct (S1 ltac:(done)) as [->| ->]; done).
    pose proof (frame_then _ _ _ _ _ _ F1 F2) as F. cbn [app] in F.
    destruct chars as [chars|]; destruct R2 as [-> P2]; cbn [app] in F.
    + destruct (frame_decref _ _ _ _ F) as [Ho F'].
      apply wp_bind, Py_DECREF_wp; [by rewrite (fr_gil _ _ _ _ F)|done|].
      apply wp_ret. eexists. split_and!; [exact F'| |repeat constructor|].
      { split_and!; cbn; [by rewrite (fr_gil _ _ _ _ F)|by rewrite P2|].
        rewrite L2, L1, L. apply delete_empty. }
      intros t. split.
      * intros Ht. exists res, cs, chars. set_solver.
      * intros (res' & cs' & bytes & H1 & H2 & H3). set_unfold.
        assert (bytes = chars) as -> by naive_solver. done.
    + apply wp_bind, PyErr_Print_wp; [by rewrite (fr_gil _ _ _ _ F)|done|]. intros e He.
      pose proof (frame_print e _ _ _ _ F) as F4.
      destruct (frame_decref _ _ _ _ F4) as [Ho F'].
      apply wp_bind, Py_DECREF_wp; [by rewrite (fr_gil _ _ _ _ F4)|done|].
      apply wp_ret. eexists. split_and!; [exact F'| |repeat constructor|].
      { split_and!; cbn; [by rewrite (fr_gil _ _ _ _ F)|done|].
        rewrite L2, L1, L. apply delete_empty. }
      intros t. split; [done|]. intros (res' & cs' & bytes & H1 & H2 & H3). set_unfold. naive_solver.
  - apply wp_bind, PyErr_Print_wp; [by rewrite (fr_gil _ _ _ _ F1)|by apply N1|]. intros e He.
    pose proof (frame_print e _ _ _ _ F1) as F4.
    apply wp_ret. eexists. split_and!; [exact F4| |repeat constructor|].
    { split_and!; cbn; [by rewrite (fr_gil _ _ _ _ F1)|done|by rewrite L1]. }
    intros t. split; [done|]. intros (res' & cs' & bytes & H1 & H2 & H3). set_unfold. naive_solver.
Qed.

Lemma raising_wp {A} message s : gil s = true ->
  wp (PyErr_Format message ;;* pret (@None A))
    (fun r s' => r = None /\ frame s s' ∅ [] /\ pending s' <> None /\ lists s' = lists s) s.
Proof.
  intros G. apply wp_bind, PyErr_Format_wp; [done|]. apply wp_ret.
  split_and!; [done|apply frame_pending|done|done].
Qed.

(** A computation that fails leaves an exception. *)
Definition ends {A} (r : option A) (s' : St) : Prop :=
  gil s' = true /\ lists s' = ∅ /\ (r = None <-> pending s' <> None).

Lemma read_or_raise_wp {T} (p : Proto T) name o s : idle s ->
  wp (read_or_raise w p name o)
    (fun r s' => exists h, frame s s' ∅ h /\ ends r s' /\ Forall reading h /\
       forall t, r = Some t <-> converted p o h t) s.
Proof.
  intros I. apply wp_bind. eapply wp_mono; [by apply readPythonProtobuf_wp|].
  intros r s1 (h & F & (G1 & P1 & L1) & R & Ht). destruct r as [t|].
  - apply wp_ret. exists h. split_and!; [done| |done|done].
    split_and!; [done|done|]. by rewrite P1.
  - eapply wp_mono; [by apply raising_wp|]. intros r s2 (-> & F2 & N2 & L2).
    exists h. split_and!; [|split_and!|done|done].
    + rewrite <- (app_nil_r h). by eapply frame_then.
    + by rewrite (fr_gil _ _ _ _ F2).
    + by rewrite L2.
    + done.
Qed.

(** The items of a list were read one after the other. *)
Definition converted_items {T} (p : Proto T) (l : nat) (h : list (PyEvent C)) (ts : list T) : Prop :=
  PySize l (length ts) ∈ h /\
  forall i t, ts !! i = Some t -> exists o, PyItem l i o ∈ h /\ converted p o h t.

Lemma converted_items_sub {T} (p : Proto T) l h k ts : h ⊆ k -> converted_items p l h ts -> converted_items p l k ts.
Proof.
  intros Hk [Hn Hi]. split; [auto|]. intros i t Ht. destruct (Hi i t Ht) as (o & ? & ?).
  exists o. split; [auto|by eapply converted_sub].
Qed.

Lemma PyList_GetItem_wp l i s : gil s = true ->
  wp (PyList_GetItem w l i)
    (fun r s' => exists h, frame s s' ∅ h /\ lists s' = lists s /\
       match r with
       | Some o => h = [PyItem l i o] /\ pending s' = pending s
       | None => h = [] /\ pending s' <> None
       end) s.
Proof.
  intros G. apply wp_gil; [done|]. unfold wp.
  destruct (w_items w (history s) l) as [items|]; [destruct (items !! i) as [o|]|].
  - exists [PyItem l i o]. split_and!; [by apply frame_log|done|done|done].
  - exists []. split_and!; [apply frame_pending|done|done|done].
  - exists []. split_and!; [apply frame_pending|done|done|done].
Qed.

Lemma read_items_wp {T} (p : Proto T) name l n i read s : idle s -> length read = i ->
  wp (read_items w p name l i n read)
    (fun r s' => exists h, frame s s' ∅ h /\ ends r s' /\ Forall reading h /\
       forall ts, r = Some ts -> exists ts', ts = read ++ ts' /\ length ts' = n /\
         forall j t, ts' !! j = Some t -> exists o, PyItem l (i + j) o ∈ h /\ converted p o h t) s.
Proof.
  revert i read s. induction n as [|n IH]; intros i read s I Hi; cbn [read_items].
  { apply wp_ret. destruct I as (G & P & L). exists []. split_and!; [apply frame_refl| |done|].
    - split_and!; [done|done|]. by rewrite P.
    - intros ts [= <-]. exists []. by rewrite app_nil_r. }
  apply wp_bind. eapply wp_mono; [apply PyList_GetItem_wp, I|].
  intros item s1 (h1 & F1 & L1 & H1). destruct I as (G & P & L). destruct item as [o|]; destruct H1 as [-> P1].
  2:{ apply wp_ret. exists []. split_and!; [done| |done|done].
      split_and!; [by rewrite (fr_gil _ _ _ _ F1)|by rewrite L1|done]. }
  apply wp_bind. eapply wp_mono; [apply readPythonProtobuf_wp|].
  { split_and!; [by rewrite (fr_gil _ _ _ _ F1)|by rewrite P1|by rewrite L1]. }
  intros t s2 (h2 & F2 & I2 & R2 & Ht).
  pose proof (frame_then _ _ _ _ _ _ F1 F2) as F. destruct t as [t|].
  - eapply wp_mono; [apply IH; [done|rewrite length_app; cbn; lia]|].
    intros r s3 (h3 & F3 & E3 & R3 & H3). exists ((PyItem l i o :: h2) ++ h3).
    split_and!; [by eapply frame_then|done|apply Forall_app; split; [by constructor|done]|].
    intros ts Hts. destruct (H3 ts Hts) as (ts' & -> & Hn & Hj). exists (t :: ts').
    split_and!; [by rewrite <- app_assoc|cbn; lia|].
    intros [|j] t' Hj'.
    + injection Hj' as <-. exists o. rewrite Nat.add_0_r. split; [set_solver|].
      apply converted_app_l. apply (converted_app_r p o [PyItem l i o] h2), Ht. done.
    + destruct (Hj j t' Hj') as (o' & Ho' & Hc). exists o'. replace (i + S j)%nat with (S i + j)%nat by lia.
      split; [set_solver|]. by apply converted_app_r.
  - destruct I2 as (G2 & P2 & L2). eapply wp_mono; [by apply raising_wp|].
    intros r s3 (-> & F3 & N3 & L3). exists (PyItem l i o :: h2).
    split_and!; [| |by constructor|done].
    + rewrite <- (app_nil_r (_ :: h2)). by eapply frame_then.
    + split_and!; [by rewrite (fr_gil _ _ _ _ F3)|by rewrite L3|done].
Qed.

Lemma read_list_wp {T} (p : Proto T) name l s : idle s ->
  wp (read_list w p name l)
    (fun r s' => exists h, frame s s' ∅ h /\ ends r s' /\ Forall reading h /\
       forall ts, r = Some ts -> converted_items p l h ts) s.
Proof.
  intros (G & P & L). apply wp_bind, wp_gil; [done|]. unfold wp at 1.
  set (n := length (default [] (w_items w (history s) l))).
  eapply wp_mono; [by apply read_items_wp|].
  intros r s' (h & F & E & R & H). exists (PySize l n :: h). split_and!.
  - change (frame s s' ∅ ([PySize l n] ++ h)). eapply frame_then; [|exact F]. by apply frame_log.
  - done.
  - by constructor.
  - intros ts Hts. destruct (H ts Hts) as (ts' & -> & Hn & Hj). cbn in *. split; [rewrite Hn; set_solver|].
    intros i t Hi. destruct (Hj i t Hi) as (o & Ho & Hc). exists o. split; [set_solver|].
    by apply (converted_app_r p o [PySize l n]).
Qed.

(** ** Creating messages *)

Definition creating (e : PyEvent C) : Prop :=
  match e with PyCalled _ m _ _ _ => m = "FromString" | PyNew _ => True | _ => False end.

(** The object [o] was made by Python from the bytes of the message. *)
Definition created {T} (p : Proto T) (t : T) (h : list (PyEvent C)) (o : nat) : Prop :=
  exists bytes type cs, SerializeToString p t = Some bytes /\
    PyCalled type "FromString" [s_hash bytes] cs (Some o) ∈ h.

Lemma created_sub {T} (p : Proto T) t h k o : h ⊆ k -> created p t h o -> created p t k o.
Proof. intros Hk (bytes & type & cs & ? & ?). exists bytes, type, cs. auto. Qed.

(** The result of one step of a callback: a pointer, with its reference, or an
    exception. *)
Definition gives (s : St) (r : ptr) (h : list (PyEvent C)) (s' : St) : Prop :=
  frame s s' (refs r) h /\ lists s' = lists s /\
  (r = None -> pending s' <> None) /\ (is_Some r -> pending s' = pending s \/ pending s' = None).

Lemma raise_null_wp message s : gil s = true ->
  wp (raise_null message) (fun r s' => gives s r [] s' /\ r = None) s.
Proof.
  intros G. apply wp_bind, PyErr_Format_wp; [done|]. apply wp_ret.
  split; [|done]. split_and!; [apply frame_pending|done|done|by intros []].
Qed.

Lemma createPythonProtobuf_wp {T} (p : Proto T) t name s : gil s = true ->
  wp (createPythonProtobuf w p t name)
    (fun r s' => exists h, gives s r h s' /\ Forall creating h /\
       match r with
       | Some o => created p t h o
       | None => ~ (cooperative /\ is_Some (SerializeToString p t))
       end) s.
Proof.
  intros G. unfold createPythonProtobuf.
  assert (forall message, ~ (cooperative /\ is_Some (SerializeToString p t)) -> wp (raise_null message)
    (fun r s' => exists h, gives s r h s' /\ Forall creating h /\
       match r with
       | Some o => created p t h o
       | None => ~ (cooperative /\ is_Some (SerializeToString p t))
       end) s) as Hnull.
  { intros message Hn. eapply wp_mono; [by apply raise_null_wp|]. intros r s' (Hg & ->). exists []. by split_and!. }
  apply wp_bind, wp_gil; [done|]. unfold wp at 1, get at 1. destruct (w_pb2_dict w (history s)) eqn:E1.
  2:{ apply Hnull. intros [[Co _ _ _] _]. by rewrite Co in E1. }
  apply wp_bind, wp_gil; [done|]. unfold wp at 1, get at 1.
  destruct (w_pb2 w (history s) name) as [[type [|]]|] eqn:E2.
  2-3: apply Hnull; intros [[_ Co _ _] _]; destruct (Co (history s) name); congruence.
  destruct (SerializeToString p t) as [bytes|] eqn:Hs; [|apply Hnull; by intros [_ []]].
  eapply wp_mono; [by apply PyObject_CallMethod_wp|].
  intros r s' (cs & F & HL & HN & HS). eexists.
  split_and!; [split_and!; [done|done|apply HN|done]|by repeat constructor|].
  destruct r as [o|]; [|by intros [? _]; apply HN].
  exists bytes, type, cs. split; [done|]. unfold s_hash. cbn. set_solver.
Qed.

(** Python code that is called with an exception pending does not lose it. *)
Definition keeps_pending : Prop := forall h o m args, rp_clears (w_call w h o m args) = false.

Lemma createPythonProtobuf_keeps {T} (p : Proto T) t name s : keeps_pending -> gil s = true ->
  wp (createPythonProtobuf w p t name) (fun r s' => is_Some r -> pending s' = pending s) s.
Proof.
  intros K G. unfold createPythonProtobuf.
  assert (forall message, wp (raise_null message) (fun r s' => is_Some r -> pending s' = pending s) s) as Hnull.
  { intros message. eapply wp_mono; [by apply raise_null_wp|]. intros r s' (_ & ->). by intros []. }
  apply wp_bind, wp_gil; [done|]. unfold wp at 1, get at 1. destruct (w_pb2_dict w (history s)); [|apply Hnull].
  apply wp_bind, wp_gil; [done|]. unfold wp at 1, get at 1.
  destruct (w_pb2 w (history s) name) as [[type [|]]|]; [|apply Hnull|apply Hnull].
  destruct (SerializeToString p t) as [bytes|]; [|apply Hnull].
  apply wp_gil; [done|]. unfold wp. destruct (run_calls _ _); [|done].
  destruct (rp_answer _); cbn; [by rewrite K|by intros []].
Qed.

(** A step of a callback that follows others. *)
Lemma gives_idle s r h s' : gives s r h s' -> gil s' = gil s /\ lists s' = lists s.
Proof. intros (F & L & _). split; [apply F|done]. Qed.

(** ** Calling the framework *)

(** The call of a method of the framework's object, which may be null. *)
Lemma callback_wp p method args s : gil s = true -> pending s = None ->
  wp (PyObject_CallMethod w p method args)
    (fun r s' => exists h, gives s r h s' /\ (r = None <-> pending s' <> None) /\
       (r = None -> ~ (cooperative /\ is_Some p)) /\
       (forall e, e ∈ h -> exists o cs, p = Some o /\ e = PyCalled o method (map (resolve s) args) cs r) /\
       (is_Some r -> exists o cs, p = Some o /\ PyCalled o method (map (resolve s) args) cs r ∈ h)) s.
Proof.
  intros G P. destruct p as [o|].
  - eapply wp_mono; [by apply PyObject_CallMethod_wp|]. intros r s' (cs & F & L & N & S).
    eexists. split_and!; [split_and!; [done|done|apply N|done]| |by intros Hr [? _]; apply N| |].
    + split; [apply N|]. intros Hp. destruct r; [|done].
      destruct (S ltac:(done)) as [E|E]; congruence.
    + intros e ->%list_elem_of_singleton. eauto.
    + intros _. exists o, cs. set_solver.
  - eapply wp_mono; [by apply CallMethod_null_wp|]. intros r s' (-> & F & L & N).
    exists []. split_and!; [split_and!; [done|done|done|by intros []]|done|by intros _ [_ []]| |by intros []].
    by intros e ?%elem_of_nil.
Qed.

(** ** Cleaning up *)

(** The lists that are being filled are among these pointers. *)
Definition lists_in (s : St) (ps : list ptr) : Prop := forall o, is_Some (lists s !! o) -> Some o ∈ ps.

Lemma lists_in_nil s : lists_in s [] -> lists s = ∅.
Proof.
  intros H. apply map_eq. intros o. rewrite lookup_empty. destruct (lists s !! o) eqn:E; [|done].
  destruct (not_elem_of_nil (Some o)). apply H. by eexists.
Qed.

Lemma lists_in_empty s ps : lists s = ∅ -> lists_in s ps.
Proof. intros L o. rewrite L, lookup_empty. by intros []. Qed.

Lemma xdecref_all_wp ps s Y : gil s = true -> lists_in s ps -> owned s = Y ⊎ refs_all ps ->
  wp (xdecref_all ps) (fun _ s' => s' = set_lists ∅ (set_owned Y s)) s.
Proof.
  revert s. induction ps as [|[o|] ps IH]; intros s G L O; cbn [xdecref_all foldr].
  - apply wp_ret. cbn [refs_all foldr refs] in O. rewrite (right_id_L ∅ (⊎)) in O.
    apply lists_in_nil in L. destruct s. cbn in *. by subst.
  - change (owned s = Y ⊎ ({[+ o +]} ⊎ refs_all ps)) in O. apply wp_bind, Py_DECREF_wp; [done|rewrite O; multiset_solver|].
    eapply wp_mono; [apply IH; cbn [gil owned lists set_lists set_owned]; [done| |rewrite O; multiset_solver]|].
    + intros k. cbn. rewrite lookup_delete_is_Some. intros [Hne Hk].
      destruct (proj1 (elem_of_cons _ _ _) (L k Hk)) as [[= <-]|?]; done.
    + intros _ s' ->. by destruct s.
  - cbn [refs_all foldr refs] in O. rewrite (left_id_L ∅ (⊎)) in O. apply wp_bind, wp_ret, IH; [done| |done].
    intros k Hk. by destruct (proj1 (elem_of_cons _ _ _) (L k Hk)).
Qed.

(** [cleanup] gives back every reference; it prints a pending exception, and
    aborts the driver if there was one. *)
Lemma cleanup_wp ab ps s0 s h : gil s = true -> lists_in s ps -> is_Some (self_driver s) ->
  frame s0 s (refs_all ps) h ->
  wp (cleanup ab ps)
    (fun _ s' => exists k, frame s0 s' ∅ (h ++ k) /\ gil s' = true /\ lists s' = ∅ /\ pending s' = None /\
       match pending s with
       | None => k = []
       | Some e => k = PyPrinted e :: (if ab then [Native nd_abort] else [])
       end) s.
Proof.
  intros G L Hd F.
  assert (forall s1 k, frame s s1 ∅ k -> lists s1 = lists s -> pending s1 = None ->
    wp (xdecref_all ps) (fun _ s' => frame s0 s' ∅ (h ++ k) /\ gil s' = true /\ lists s' = ∅ /\
      pending s' = None) s1) as Hx.
  { intros s1 k F1 L1 P1. pose proof (frame_then _ _ _ _ _ _ F F1) as F2.
    assert (gil s1 = true) as G1 by (by rewrite (fr_gil _ _ _ _ F1)).
    eapply wp_mono; [apply (xdecref_all_wp ps s1 (owned s0)); [done| |apply F2]|].
    { intros o. rewrite L1. apply L. }
    intros _ s' ->. split_and!; [|done|done|done]. destruct F2. split; cbn; try done. multiset_solver. }
  apply wp_bind, wp_gil; [done|]. unfold wp at 1, get.
  case_bool_decide as Hp; cbn iota.
  - destruct Hp as [e He]. apply wp_bind, wp_bind, PyErr_Print_wp; [done|by rewrite He|].
    intros e' [= ->]%(eq_trans (eq_sym He)). pose proof (frame_print e' _ _ _ _ (frame_refl s)) as Fp.
    rewrite He. destruct ab.
    + apply wp_bind. eapply wp_mono; [apply invoke_wp; by apply Hd|].
      intros st s1 (F1 & P1 & L1). apply wp_ret.
      eapply wp_mono; [eapply (Hx _ [PyPrinted e'; Native nd_abort]); [|done|by rewrite P1]|].
      * change [PyPrinted e'; Native nd_abort] with ([PyPrinted e'] ++ [Native (C:=C) nd_abort]).
        by eapply frame_then.
      * intros _ s' (? & ? & ? & ?). eauto 10.
    + apply wp_ret. eapply wp_mono; [eapply (Hx _ [PyPrinted e']); [exact Fp|done|done]|].
      intros _ s' (? & ? & ? & ?). eauto 10.
  - apply wp_bind, wp_ret. assert (pending s = None) as P by (destruct (pending s); [by destruct Hp|done]).
    eapply wp_mono; [apply (Hx s []); [apply frame_refl|done|done]|].
    intros _ s' (? & ? & ? & ?). exists []. rewrite P. auto.
Qed.

(** ** The lock *)

Lemma InterpreterLock_wp {A} (body : Py D C A) s (Q : A -> St -> Prop) :
  wp body (fun a s' => gil s' = true /\ Q a (set_gil (gil s) s')) (set_gil true s) ->
  wp (InterpreterLock body) Q s.
Proof.
  intros Hb. apply wp_bind. unfold wp at 1, PyGILState_Ensure. apply wp_bind.
  eapply wp_mono; [exact Hb|]. intros a s' [G HQ]. by apply wp_bind, wp_gil.
Qed.

(** ** Arguments and results of methods *)

Definition value_of (s : St) (u : FormatUnit) (o : nat) (v : PyValue) : Prop :=
  match u with
  | U_O => v = VObj o
  | U_s => exists t, v = VText t /\ w_text w (history s) o = Some t /\ has_nul t = false
  | U_s_hash => exists t, v = VText t /\ w_text w (history s) o = Some t
  | U_i => exists n, v = VInt n /\ w_int w (history s) o = Some n /\ - 2 ^ 31 <= n < 2 ^ 31
  | U_b => exists n, v = VInt n /\ w_int w (history s) o = Some n /\ 0 <= n < 2 ^ 8
  end.

Fixpoint shape (s : St) (units : list (option FormatUnit)) (optional : bool) (args : list nat)
    (vs : list PyValue) : Prop :=
  match units, args with
  | None :: us, _ => shape s us true args vs
  | Some u :: us, o :: args' => exists v vs', vs = v :: vs' /\ value_of s u o v /\ shape s us optional args' vs'
  | Some _ :: _, [] => optional = true /\ vs = []
  | [], [] => vs = []
  | [], _ :: _ => False
  end.

(** Nothing but an exception is left by a failure. *)
Definition only_raises (s s' : St) : Prop := exists e, s' = set_pending (Some e) s.

Lemma type_error_wp {A} message s : gil s = true ->
  wp (type_error (A:=A) message) (fun r s' => r = None /\ only_raises s s') s.
Proof.
  intros G. apply wp_bind, PyErr_Format_wp; [done|]. apply wp_ret. split; [done|by eexists].
Qed.

Lemma convert_arg_wp u o s : gil s = true ->
  wp (convert_arg w u o) (fun r s' =>
    match r with Some v => s' = s /\ value_of s u o v | None => only_raises s s' end) s.
Proof.
  intros G. apply wp_gil; [done|].
  assert (forall message, wp (type_error message) (fun (r : option PyValue) s' =>
    match r with Some v => s' = s /\ value_of s u o v | None => only_raises s s' end) s) as He.
  { intros message. eapply wp_mono; [by apply type_error_wp|]. by intros r s' [-> ?]. }
  destruct u; cbn [convert_arg].
  - by apply wp_ret.
  - apply wp_bind. unfold wp at 1, get. destruct (w_text w (history s) o) as [t|] eqn:Ht; [|done].
    destruct (has_nul t) eqn:Hn; [done|]. apply wp_ret. cbn. eauto.
  - apply wp_bind. unfold wp at 1, get. destruct (w_text w (history s) o) as [t|] eqn:Ht; [|done].
    case_match; [|done]. apply wp_ret. cbn. eauto.
  - apply wp_bind. unfold wp at 1, get. destruct (w_int w (history s) o) as [n|] eqn:Hn; [|done].
    destruct ((- 2 ^ 31 <=? n) && (n <? 2 ^ 31)) eqn:Hr; [|done]. apply wp_ret.
    split; [done|]. exists n. split_and!; [done|done|lia|lia].
  - apply wp_bind. unfold wp at 1, get. destruct (w_int w (history s) o) as [n|] eqn:Hn; [|done].
    destruct ((0 <=? n) && (n <? 2 ^ 8)) eqn:Hr; [|done]. apply wp_ret.
    split; [done|]. exists n. split_and!; [done|done|lia|lia].
Qed.

Lemma convert_args_wp units optional args s : gil s = true ->
  wp (convert_args w units optional args) (fun r s' =>
    match r with Some vs => s' = s /\ shape s units optional args vs | None => only_raises s s' end) s.
Proof.
  revert optional args s. induction units as [|[u|] units IH]; intros optional args s G.
  - destruct args as [|o args]; cbn [convert_args]; [by apply wp_ret|].
    eapply wp_mono; [by apply type_error_wp|]. by intros r s' [-> ?].
  - destruct args as [|o args]; cbn [convert_args].
    + destruct optional; [by apply wp_ret|].
      eapply wp_mono; [by apply type_error_wp|]. by intros r s' [-> ?].
    + apply wp_bind. eapply wp_mono; [by apply convert_arg_wp|]. intros [v|] s1 Hv; [|by apply wp_ret].
      destruct Hv as [-> Hv]. apply wp_bind. eapply wp_mono; [by apply IH|].
      intros [vs|] s2 Hvs; apply wp_ret; cbn; [|done]. destruct Hvs as [-> Hvs]. eauto 10.
  - cbn [convert_args shape]. destruct args; by apply IH.
Qed.

Lemma PyArg_ParseTuple_wp args format s : gil s = true ->
  wp (PyArg_ParseTuple w args format) (fun r s' =>
    match r with
    | Some vs => s' = s /\ shape s (format_units format) false args vs
    | None => only_raises s s'
    end) s.
Proof. intros G. by apply convert_args_wp. Qed.

Lemma PyInt_FromLong_wp n s : gil s = true -> pending s = None -> lists s = ∅ ->
  wp (PyInt_FromLong w n)
    (fun r s' => exists h, frame s s' (refs r) h /\ ends r s' /\
       match r with Some o => h = [PyInt o n] | None => h = [] end) s.
Proof.
  intros G P L. apply wp_gil; [done|]. unfold wp. destruct (w_alloc w (history s)) as [o|].
  - exists [PyInt o n]. split_and!; [|split_and!|done].
    + destruct (frame_refl s). by split.
    + done.
    + done.
    + cbn. by rewrite P.
  - exists []. split_and!; [apply frame_pending|by split_and!|done].
Qed.

(** ** Callbacks *)

(** The driver methods called by the native code itself. *)
Definition native_calls (h : list (PyEvent C)) : list C :=
  concat (map (fun e => match e with Native c => [c] | _ => [] end) h).

Lemma native_calls_app h k : native_calls (h ++ k) = native_calls h ++ native_calls k.
Proof. unfold native_calls. by rewrite map_app, concat_app. Qed.

Lemma native_calls_creating h : Forall creating h -> native_calls h = [].
Proof. induction 1 as [|e h He _ IH]; [done|]. unfold native_calls in *. cbn. rewrite IH. by destruct e. Qed.

Lemma native_calls_reading h : Forall reading h -> native_calls h = [].
Proof. induction 1 as [|e h He _ IH]; [done|]. unfold native_calls in *. cbn. rewrite IH. by destruct e. Qed.

(** What a callback does from the state [s] to [s']: every reference is given
    back and no exception is left; either the framework's method was called with
    the right arguments and returned, or it was not, which happens only if Python
    was not willing, and the driver is aborted (unless [ab] is false). *)
Definition served (ab : bool) (method : string) (deliv : list (PyEvent C) -> list PyArg -> Prop) (willing : Prop)
    (s s' : St) : Prop :=
  exists h, frame s s' ∅ h /\ lists s' = ∅ /\ pending s' = None /\
    ((exists o args cs r, self_python s = Some o /\ PyCalled o method args cs (Some r) ∈ h /\ deliv h args /\
        native_calls h = []) \/
     (~ willing /\ native_calls h = (if ab then [nd_abort] else []) /\
        forall o args cs r, PyCalled o method args cs (Some r) ∉ h)).

(** In the middle of a callback: the pointers [ps] were obtained so far. *)
Definition making (s0 : St) (ps : list ptr) (h : list (PyEvent C)) (s : St) : Prop :=
  frame s0 s (refs_all ps) h /\ gil s = true /\ Forall creating h /\ lists_in s ps /\ is_Some (self_driver s).

Lemma refs_all_app ps qs : refs_all (ps ++ qs) = refs_all ps ⊎ refs_all qs.
Proof.
  unfold refs_all. induction ps as [|p ps IH]; cbn [app foldr]; [by rewrite (left_id_L ∅ (⊎))|].
  rewrite IH. by rewrite (assoc_L (⊎)).
Qed.
Lemma refs_all_one p : refs_all [p] = refs p.
Proof. unfold refs_all. cbn [foldr]. by rewrite (right_id_L ∅ (⊎)). Qed.

Lemma making_start s : gil s = true -> lists s = ∅ -> is_Some (self_driver s) -> making s [] [] s.
Proof. intros G L Hd. split_and!; [apply frame_refl|done|done|by apply lists_in_empty|done]. Qed.

Lemma making_step s0 ps h s r k s' : making s0 ps h s -> gives s r k s' -> Forall creating k ->
  making s0 (ps ++ [r]) (h ++ k) s'.
Proof.
  intros (F & G & H & L & Hd) (F' & L' & _) Hk. split_and!.
  - rewrite refs_all_app, refs_all_one. by eapply frame_trans.
  - by rewrite (fr_gil _ _ _ _ F').
  - by apply Forall_app.
  - intros o. rewrite L'. intros Ho. apply elem_of_app. left. by apply L.
  - by eapply frame_driver.
Qed.

(** A pointer that is still null at [cleanup]. *)
Lemma making_null s0 ps h s : making s0 ps h s -> making s0 (ps ++ [None]) h s.
Proof.
  intros (F & G & H & L & Hd). split_and!; try done.
  - rewrite refs_all_app, refs_all_one. change (refs None) with (∅ : gmultiset nat).
    by rewrite (right_id_L ∅ (⊎)).
  - intros o Ho. apply elem_of_app. left. by apply L.
Qed.

Lemma making_unnull s0 ps h s : making s0 (ps ++ [None]) h s -> making s0 ps h s.
Proof.
  intros (F & G & H & L & Hd). split_and!; try done.
  - rewrite refs_all_app, refs_all_one in F. change (refs None) with (∅ : gmultiset nat) in F.
    by rewrite (right_id_L ∅ (⊎)) in F.
  - intros o Ho. destruct (proj1 (elem_of_app _ _ _) (L o Ho)) as [?|?%list_elem_of_singleton]; done.
Qed.

(** [PyList_SetItem] takes the reference that was obtained last. *)
Lemma PyList_SetItem_making l i o items s0 ps h s : making s0 (ps ++ [Some o]) h s ->
  lists s = {[l := items]} -> (i < length items)%nat -> Some l ∈ ps ->
  wp (PyList_SetItem l i o)
    (fun _ s' => making s0 ps h s' /\ lists s' = {[l := <[i := Some o]> items]} /\ pending s' = pending s) s.
Proof.
  intros (F & G & H & L & Hd) HL Hi Hl. apply wp_gil; [done|]. unfold wp.
  rewrite HL, lookup_singleton_eq. destruct (Nat.ltb_spec i (length items)); [|lia]. cbn [negb].
  pose proof (fr_owned _ _ _ _ F) as O. rewrite refs_all_app, refs_all_one in O.
  change (refs (Some o)) with ({[+ o +]} : gmultiset nat) in O.
  rewrite decide_True by (rewrite O; multiset_solver).
  split_and!; [|cbn; by rewrite insert_singleton_eq|done].
  split_and!; [|done|done| |done].
  - destruct F. split; cbn [gil owned self_proxy self_python self_driver history set_lists set_owned]; try done.
    rewrite O. multiset_solver.
  - intros k. cbn. rewrite insert_singleton_eq. by intros [it [<- _]%lookup_singleton_Some].
Qed.

Lemma making_create {T} (p : Proto T) t name s0 ps h s : making s0 ps h s ->
  wp (createPythonProtobuf w p t name)
    (fun r s' => exists k, making s0 (ps ++ [r]) (h ++ k) s' /\ lists s' = lists s /\
       (r = None -> pending s' <> None) /\ (is_Some r -> pending s' = pending s \/ pending s' = None) /\
       match r with
       | Some o => created p t (h ++ k) o
       | None => ~ (cooperative /\ is_Some (SerializeToString p t))
       end) s.
Proof.
  intros M. eapply wp_mono; [apply createPythonProtobuf_wp, M|]. intros r s' (k & Hg & Hk & Hc).
  exists k. split_and!; [by eapply making_step|apply Hg|apply Hg|apply Hg|].
  destruct r as [o|]; [|done]. eapply created_sub; [|by apply Hc]. set_solver.
Qed.

(** Nothing of a message's creation is a call of another method. *)
Lemma creating_not_called method h o args cs r : method <> "FromString" -> Forall creating h ->
  PyCalled o method args cs r ∉ h.
Proof. intros Hm Hh Hin. rewrite Forall_forall in Hh. by specialize (Hh _ Hin). Qed.

(** [goto cleanup] after a failure. *)
Lemma served_early ab method deliv willing s0 ps h s : method <> "FromString" -> making s0 ps h s ->
  pending s <> None -> ~ willing ->
  wp (cleanup ab ps) (fun _ s' => gil s' = true /\ served ab method deliv willing s0 s') s.
Proof.
  intros Hm (F & G & H & L & Hd) Hp Hw. eapply wp_mono; [by eapply cleanup_wp|].
  intros _ s' (k & F' & G' & L' & P' & Hk). split; [done|].
  destruct (pending s) as [e|]; [|done]. exists (h ++ k). split_and!; [done|done|done|]. right. split; [done|]. split.
  - rewrite native_calls_app, (native_calls_creating h) by done. subst k. by destruct ab.
  - intros o args cs r [Hin|Hin]%elem_of_app; [by eapply creating_not_called|].
    subst k. destruct ab; set_solver.
Qed.

(** The call of the framework, and the cleanup after it. *)
Lemma served_call ab method (deliv : list (PyEvent C) -> list PyArg -> Prop) (willing : Prop) s0 ps h s args :
  method <> "FromString" -> making s0 ps h s -> pending s = None ->
  (willing -> cooperative /\ is_Some (self_python s0)) ->
  (forall k, deliv (h ++ k) (map (resolve s) (ArgObj (w_self w) :: args))) ->
  wp (let* res := call_framework w method args in cleanup ab (ps ++ [res]))
     (fun _ s' => gil s' = true /\ served ab method deliv willing s0 s') s.
Proof.
  intros Hm M Hp Hw Hdel. destruct M as (F & G & H & L & Hd).
  apply wp_bind, wp_bind. unfold wp at 1, get. eapply wp_mono; [by apply callback_wp|].
  intros r s1 (k & Hg & Hr & Hnw & Hk & Hc).
  assert (frame s0 s1 (refs_all (ps ++ [r])) (h ++ k)) as F1.
  { rewrite refs_all_app, refs_all_one. eapply frame_trans; [done|apply Hg]. }
  eapply wp_mono; [eapply (cleanup_wp ab _ s0 s1 (h ++ k)); [..|done]|].
  { destruct (gives_idle _ _ _ _ Hg) as [-> _]. done. }
  { intros o. destruct (gives_idle _ _ _ _ Hg) as [_ ->]. intros Ho. apply elem_of_app. left. by apply L. }
  { destruct Hg as [Fg _]. exact (frame_driver _ _ _ _ Fg Hd). }
  intros _ s' (k2 & F' & G' & L' & P' & Hk2). split; [done|]. exists ((h ++ k) ++ k2).
  assert (native_calls (h ++ k) = []) as Hn.
  { rewrite native_calls_app, native_calls_creating by done. cbn. unfold native_calls.
    clear -Hk. induction k as [|e k IH]; [done|]. cbn. rewrite IH by set_solver.
    destruct (Hk e ltac:(set_solver)) as (? & ? & ? & ->). done. }
  split_and!; [done|done|done|]. destruct r as [r|].
  - left. destruct (Hc ltac:(done)) as (o & cs & Ho & Hin).
    exists o, (map (resolve s) (ArgObj (w_self w) :: args)), cs, r. split_and!.
    + by rewrite <- (fr_python _ _ _ _ F).
    + set_solver.
    + rewrite <- app_assoc. apply Hdel.
    + destruct (pending s1); [by pose proof (proj2 Hr ltac:(done))|].
      subst k2. by rewrite app_nil_r.
  - right. destruct (pending s1) as [e|]; [|by destruct (proj1 Hr eq_refl)].
    split; [|split].
    + intros W. apply (Hnw eq_refl). rewrite (fr_python _ _ _ _ F). by apply Hw.
    + rewrite native_calls_app, Hn. subst k2. by destruct ab.
    + intros o args' cs r [[Hin|Hin]%elem_of_app|Hin]%elem_of_app.
      * by eapply creating_not_called.
      * destruct (Hk _ Hin) as (? & ? & ? & ?). congruence.
      * subst k2. destruct ab; set_solver.
Qed.

(** The lock around a callback. *)
Lemma served_lock ab method deliv willing (body : Py D C unit) s :
  wp body (fun _ s' => gil s' = true /\ served ab method deliv willing (set_gil true s) s') (set_gil true s) ->
  wp (InterpreterLock body) (fun _ s' => served ab method deliv willing s s') s.
Proof.
  intros Hb. apply InterpreterLock_wp. eapply wp_mono; [exact Hb|].
  intros _ s' (G & h & F & L & P & H). split; [done|]. exists h. split_and!; [|done|done|done].
  destruct F. by split.
Qed.

(** ** Methods *)

(** What a method returns to Python: a null pointer with an exception, without
    having called the driver, or the result of one call [c] that [asked] allows:
    the number of its status, unless that object could not be made. *)
Definition method_post (asked : list (PyEvent C) -> C -> Prop) (s : St) (r : ptr) (s' : St) : Prop :=
  exists h, frame s s' (refs r) h /\ ends r s' /\
    match native_calls h with
    | [] => r = None
    | [c] => asked h c /\ exists d d' st, nd_invoke c d = Ret (d', st) /\ self_driver s' = Some d' /\
               forall o, r = Some o -> PyInt o (status_code st) ∈ h
    | _ => False
    end.

(** Arguments were read since the method was called in the state [s]. *)
Definition read_phase (s : St) (h : list (PyEvent C)) (s1 : St) : Prop :=
  frame s s1 ∅ h /\ Forall reading h /\ idle s1 /\ is_Some (self_driver s1).

Lemma read_phase_start s : idle s -> is_Some (self_driver s) -> read_phase s [] s.
Proof. intros I Hd. split_and!; [apply frame_refl|done|done|done]. Qed.

(** [return nullptr] after a failure. *)
Lemma method_fails asked s h s1 : frame s s1 ∅ h -> Forall reading h -> gil s1 = true -> lists s1 = ∅ ->
  pending s1 <> None -> method_post asked s None s1.
Proof.
  intros F R G L Hp. exists h. split_and!; [done|by split_and!|]. by rewrite native_calls_reading.
Qed.

Lemma raise_null_method asked message s h s1 : read_phase s h s1 ->
  wp (raise_null message) (method_post asked s) s1.
Proof.
  intros (F & R & (G & Hp & L) & Hd). apply wp_bind, PyErr_Format_wp; [done|]. apply wp_ret.
  rewrite <- (app_nil_r h) in F. eapply (method_fails _ _ h); [|done|done|done|done].
  rewrite app_nil_r in F. rewrite <- (app_nil_r h). eapply frame_then; [exact F|apply frame_pending].
Qed.

Lemma raise_null_idle asked message s : idle s -> wp (raise_null message) (method_post asked s) s.
Proof.
  intros (G & Hp & L). apply wp_bind, PyErr_Format_wp; [done|]. apply wp_ret.
  eapply (method_fails _ _ []); [apply frame_pending|done|done|done|done].
Qed.

(** The call of a method that takes no arguments. *)
Lemma noargs_method asked (f : Py D C ptr) args s : idle s -> (args = [] -> wp f (method_post asked s) s) ->
  wp (call_method (Some (METH_NOARGS f)) args) (method_post asked s) s.
Proof. intros I Hf. destruct args; [by apply Hf|by apply raise_null_idle]. Qed.

(** A method on a driver object that may have no driver. *)
Lemma with_driver_method asked type (body : Py D C ptr) s : idle s ->
  (read_phase s [] s -> wp body (method_post asked s) s) -> wp (with_driver type body) (method_post asked s) s.
Proof.
  intros I Hb. unfold wp, with_driver. destruct (self_driver s) as [d|] eqn:E.
  - apply Hb, read_phase_start; [done|by rewrite E].
  - by apply (raise_null_idle asked (type +:+ ".driver is nullptr")).
Qed.

(** The arguments are converted; the rest of the method runs on the values. *)
Lemma parse_method asked args format s (K : option (list PyValue) -> Py D C ptr) : read_phase s [] s ->
  (forall s', K None s' = Done None s') ->
  (forall vs, shape s (format_units format) false args vs -> wp (K (Some vs)) (method_post asked s) s) ->
  wp (let* values := PyArg_ParseTuple w args format in K values) (method_post asked s) s.
Proof.
  intros (F & R & (G & Hp & L) & Hd) Hnone HK. apply wp_bind.
  eapply wp_mono; [by apply PyArg_ParseTuple_wp|]. intros [vs|] s1 H1.
  - destruct H1 as [-> Hs]. by apply HK.
  - destruct H1 as [e ->]. unfold wp. rewrite Hnone.
    eapply (method_fails _ _ []); [apply frame_pending|done|done|done|done].
Qed.

(** A conversion of an argument that Python must answer. *)
Definition reader {T} (m : Py D C (option T)) (good : list (PyEvent C) -> T -> Prop) : Prop :=
  forall s, idle s ->
  wp m (fun r s' => exists h, frame s s' ∅ h /\ ends r s' /\ Forall reading h /\ forall t, r = Some t -> good h t) s.

Lemma read_or_raise_reader {T} (p : Proto T) name o :
  reader (read_or_raise w p name o) (fun h t => converted p o h t).
Proof.
  intros s I. eapply wp_mono; [by apply read_or_raise_wp|]. intros r s' (h & F & E & R & Ht).
  exists h. split_and!; [done|done|done|]. intros t Hr. by apply Ht.
Qed.

Lemma read_list_reader {T} (p : Proto T) name l :
  reader (read_list w p name l) (fun h ts => converted_items p l h ts).
Proof. intros s I. by apply read_list_wp. Qed.

Lemma reader_method {T} asked (m : Py D C (option T)) good s h s1 (K : option T -> Py D C ptr) :
  reader m good -> read_phase s h s1 -> (forall s', K None s' = Done None s') ->
  (forall t k s2, read_phase s (h ++ k) s2 -> good k t -> wp (K (Some t)) (method_post asked s) s2) ->
  wp (let* r := m in K r) (method_post asked s) s1.
Proof.
  intros Hm (F & R & I & Hd) Hnone HK. apply wp_bind. eapply wp_mono; [by apply Hm|].
  intros r s2 (k & F2 & (G2 & L2 & P2) & R2 & Hg).
  pose proof (frame_then _ _ _ _ _ _ F F2) as F3. destruct r as [t|].
  - apply (HK t k); [|by apply Hg]. split_and!; [done|by apply Forall_app| |].
    + split_and!; [done| |done]. destruct (pending s2); [|done]. by pose proof (proj2 P2 ltac:(done)).
    + exact (frame_driver _ _ _ _ F2 Hd).
  - unfold wp. rewrite Hnone.
    eapply (method_fails _ _ (h ++ k)); [done|by apply Forall_app|done|done|by apply P2].
Qed.

(** [Status status = self->driver->...; return PyInt_FromLong(status);] *)
Lemma finish_method (asked : list (PyEvent C) -> C -> Prop) c s h s1 : read_phase s h s1 ->
  (forall k, asked (h ++ k) c) ->
  wp (let* status := invoke c in return_status w status) (method_post asked s) s1.
Proof.
  intros (F & R & (G & Hp & L) & [d Hd]) Ha. apply wp_bind. unfold wp at 1, invoke. rewrite Hd.
  destruct (nd_invoke c d) as [[d' st]|] eqn:E; [|done].
  pose proof (frame_native _ _ _ _ _ Hd E) as F1. pose proof (frame_then _ _ _ _ _ _ F F1) as F2.
  eapply wp_mono; [by apply PyInt_FromLong_wp|]. intros r s2 (k & F3 & E3 & Hk).
  pose proof (frame_first _ _ _ _ _ _ F2 F3) as F4.
  exists ((h ++ [Native c]) ++ k). split_and!; [done|done|].
  assert (native_calls ((h ++ [Native c]) ++ k) = [c]) as ->.
  { rewrite !native_calls_app, native_calls_reading by done. destruct r; by subst k. }
  split; [rewrite <- app_assoc; apply Ha|]. exists d, d', st. split_and!; [done| |].
  - pose proof (fr_driver _ _ _ _ F3) as HD. cbn in HD. destruct r; subst k; cbn in HD; congruence.
  - intros o ->. subst k. set_solver.
Qed.

(** ** Python objects that are messages *)

(** The object [o] serialises to [b], whenever it is asked. *)
Definition is_message (o : nat) (b : string) : Prop :=
  o <> w_none w /\
  forall h, exists res clears, w_call w h o "SerializeToString" [] = mkReply [] (Returns res) clears /\
    forall h', w_text w h' res = Some b.

Definition honest_conv T (p : Proto T) (o : nat) (t : T) : Prop :=
  exists b, is_message o b /\ ParseFrom p b = Some t.
Definition honest_items T (p : Proto T) (l : nat) (ts : list T) : Prop :=
  exists os, (forall h, w_items w h l = Some os) /\ Forall2 (honest_conv T p) os ts.

(** The computation returns [a], and the driver is as it was. *)
Definition gets {A} (m : Py D C A) (a : A) (s : St) : Prop :=
  exists s', m s = Done a s' /\ idle s' /\ self_driver s' = self_driver s.

Lemma gets_ret {A} (a : A) s : idle s -> gets (pret a) a s.
Proof. intros I. by exists s. Qed.

Lemma bind_done {A B} (m : Py D C A) (k : A -> Py D C B) s a s1 : m s = Done a s1 -> pbind m k s = k a s1.
Proof. intros E. unfold pbind. by rewrite E. Qed.

Lemma gets_bind {A B} (m : Py D C A) (k : A -> Py D C B) a b s :
  gets m a s -> (forall s1, idle s1 -> self_driver s1 = self_driver s -> gets (k a) b s1) -> gets (pbind m k) b s.
Proof.
  intros (s1 & E1 & I1 & D1) Hk. destruct (Hk s1 I1 D1) as (s2 & E2 & I2 & D2).
  exists s2. rewrite (bind_done _ _ _ _ _ E1). split_and!; [done|done|by rewrite D2].
Qed.

Lemma honest_read {T} (p : Proto T) o t s : idle s -> honest_conv T p o t ->
  gets (readPythonProtobuf w p o) (Some t) s.
Proof.
  intros (G & Hp & L) (b & (Hn & Hm) & Ht). unfold gets, readPythonProtobuf. rewrite decide_False by done.
  destruct (Hm (history s)) as (res & cl & Er & Et).
  eexists. erewrite bind_done.
  2:{ unfold PyObject_CallMethod, with_gil. rewrite G. cbn [map]. rewrite Er. cbn. by rewrite run_calls_nil. }
  cbn iota. erewrite bind_done.
  2:{ unfold PyString_AsStringAndSize, with_gil. cbn. rewrite G, Et. reflexivity. }
  cbn iota zeta. erewrite bind_done.
  2:{ unfold Py_DECREF, with_gil. cbn. rewrite G, decide_True by multiset_solver. reflexivity. }
  rewrite Ht. split_and!; [reflexivity| |done]. split_and!; cbn; [done|by destruct cl|by rewrite L, delete_empty].
Qed.

Lemma honest_read_or_raise {T} (p : Proto T) name o t s : idle s -> honest_conv T p o t ->
  gets (read_or_raise w p name o) (Some t) s.
Proof.
  intros I Hc. eapply gets_bind; [by apply honest_read|]. intros s1 I1 _. by apply gets_ret.
Qed.

Lemma honest_read_items {T} (p : Proto T) name l os ts n read s : idle s ->
  (forall h, w_items w h l = Some os) -> Forall2 (honest_conv T p) (drop n os) ts -> (n <= length os)%nat ->
  gets (read_items w p name l n (length ts) read) (Some (read ++ ts)) s.
Proof.
  intros I Hl. revert n read s I. induction ts as [|t ts IH]; intros n read s I H2 Hn; cbn [length read_items].
  { rewrite app_nil_r. by apply gets_ret. }
  inversion H2 as [|o t' os' ts' Ho Hts Hdrop]; subst.
  assert (os !! n = Some o) as Hlook.
  { rewrite <- (Nat.add_0_r n). rewrite <- lookup_drop. by rewrite <- Hdrop. }
  eapply gets_bind.
  { exists (log (PyItem l n o) s). unfold PyList_GetItem, with_gil. destruct I as (G & Hp & L).
    rewrite G, Hl, Hlook. by split_and!. }
  intros s1 I1 D1. eapply gets_bind; [by apply honest_read|]. intros s2 I2 D2. cbn iota.
  replace (read ++ t :: ts) with ((read ++ [t]) ++ ts) by (by rewrite <- app_assoc).
  apply IH; [done| |apply lookup_lt_Some in Hlook; lia].
  by rewrite <- Nat.add_1_r, <- drop_drop, <- Hdrop.
Qed.

Lemma honest_read_list {T} (p : Proto T) name l ts s : idle s -> honest_items T p l ts ->
  gets (read_list w p name l) (Some ts) s.
Proof.
  intros I (os & Hl & H2). eapply (gets_bind _ _ (length os)).
  { exists (log (PySize l (length os)) s). unfold PyList_Size, with_gil. destruct I as (G & Hp & L).
    rewrite G, Hl. by split_and!. }
  intros s1 I1 D1. rewrite (Forall2_length _ _ _ H2). by eapply (honest_read_items p name l os ts 0 []); [|..|lia].
Qed.

Lemma honest_is_list T (p : Proto T) l ts s : idle s -> honest_items T p l ts -> gets (PyList_Check w l) true s.
Proof.
  intros I (os & Hl & _). exists s. unfold PyList_Check, with_gil, get. destruct I as (G & Hp & L).
  rewrite G, Hl. by split_and!.
Qed.

(** The result of a method that called the driver. *)
Definition returns_status (m : Py D C ptr) (d' : D) (st : Status) (s : St) : Prop :=
  exists o s', m s = Done (Some o) s' /\ idle s' /\ self_driver s' = Some d' /\
    PyInt o (status_code st) ∈ history s'.

Lemma finish_returns c d d' st s : idle s -> (forall h, is_Some (w_alloc w h)) -> self_driver s = Some d ->
  nd_invoke c d = Ret (d', st) ->
  returns_status (let* status := invoke c in return_status w status) d' st s.
Proof.
  intros (G & Hp & L) Ha Hd E. unfold returns_status.
  erewrite bind_done; [|unfold invoke; rewrite Hd, E; reflexivity].
  unfold return_status, PyInt_FromLong, new_object, with_gil. cbn. rewrite G.
  destruct (Ha (history s ++ [Native c])) as [o Ho]. rewrite Ho.
  eexists _, _. split_and!; [reflexivity|by split_and!|done|cbn; set_solver].
Qed.

Lemma gets_returns {A} (m : Py D C A) (k : A -> Py D C ptr) a d' st s : gets m a s ->
  (forall s1, idle s1 -> self_driver s1 = self_driver s -> returns_status (k a) d' st s1) ->
  returns_status (pbind m k) d' st s.
Proof.
  intros (s1 & E1 & I1 & D1) Hk. destruct (Hk s1 I1 D1) as (o & s2 & E2 & ?).
  exists o, s2. by rewrite (bind_done _ _ _ _ _ E1).
Qed.

(** ** Parts that the bindings share *)

Lemma resolve_id (s : St) args : lists s = ∅ -> map (resolve s) args = args.
Proof.
  intros L. induction args as [|a args IH]; cbn; [done|]. rewrite IH. f_equal.
  destruct a; cbn; try done. by rewrite L, lookup_empty.
Qed.

Lemma start_making (s : St) : lists s = ∅ -> is_Some (self_driver s) -> making (set_gil true s) [] [] (set_gil true s).
Proof. intros L Hd. by apply making_start. Qed.

(** Whether an argument is a list. *)
Lemma PyList_Check_method (Q : ptr -> St -> Prop) o s (K : bool -> Py D C (option nat)) :
  gil s = true -> (forall b, wp (K b) Q s) -> wp (let* is_list := PyList_Check w o in K is_list) Q s.
Proof. intros G HK. apply wp_bind, wp_gil; [done|]. apply HK. Qed.

Lemma with_driver_returns type (body : Py D C ptr) d d' st s : self_driver s = Some d ->
  returns_status body d' st s -> returns_status (with_driver type body) d' st s.
Proof. intros Hd Hb. unfold returns_status, with_driver. by rewrite Hd. Qed.

Lemma Py_XDECREF_done p Y (s : St) : gil s = true -> lists s = ∅ -> owned s = Y ⊎ refs p ->
  Py_XDECREF p s = Done tt (set_owned Y s).
Proof.
  intros G L O. destruct p as [o|].
  - change (refs (Some o)) with ({[+ o +]} : gmultiset nat) in O.
    cbn [Py_XDECREF]. unfold Py_DECREF, with_gil. rewrite G, decide_True by (rewrite O; multiset_solver).
    assert (owned s ∖ {[+ o +]} = Y) as -> by (rewrite O; multiset_solver).
    rewrite L, delete_empty. destruct s. cbn in *. by subst.
  - rewrite refs_none in O. destruct s. cbn in *. by subst.
Qed.

(** Nothing but the driver and the history changes. *)
Definition same_api (s s' : St) : Prop :=
  gil s' = gil s /\ owned s' = owned s /\ lists s' = lists s /\ pending s' = pending s /\
  self_proxy s' = self_proxy s /\ self_python s' = self_python s /\ is_Some (self_driver s').

(** A driver method that may wait. *)
Definition waits (body : Py D C Status) : Prop := forall s, is_Some (self_driver s) ->
  match body s with
  | Done _ s' | Waiting s' => same_api s s'
  | Aborted _ => True
  | Exited _ | Misuse _ => False
  end.

Lemma invoke_join_waits : waits (invoke_join w).
Proof.
  intros s [d Hd]. unfold invoke_join. rewrite Hd.
  destruct (w_wait w (history s)) as [d'|]; [|split_and!; try done; by eexists].
  destruct (nd_join d'); split_and!; try done; by eexists.
Qed.

Lemma invoke_run_waits : waits (invoke_run w).
Proof.
  intros s [d Hd]. unfold invoke_run, pbind, invoke. rewrite Hd.
  destruct (nd_invoke nd_start d) as [[d' st]|]; [|done]. case_bool_decide; [|by split_and!].
  pose proof (invoke_join_waits (log (Native nd_start) (set_driver (Some d') s)) ltac:(done)) as H'.
  by destruct (invoke_join w _).
Qed.

Definition blocking_post (s : St) (r : PyResult D C (option nat)) : Prop :=
  match r with
  | Done r s' => ends r s' /\ owned s' = owned s ⊎ refs r /\ self_proxy s' = self_proxy s /\
      self_python s' = self_python s /\ (is_Some (self_driver s') <-> is_Some (self_driver s)) /\
      (self_driver s = None -> r = None)
  | Waiting s' => gil s' = false /\ owned s' = owned s
  | Aborted _ => is_Some (self_driver s)
  | Exited _ | Misuse _ => False
  end.

Lemma waits_post type body s : idle s -> waits body ->
  blocking_post s (with_driver type (let* status := allow_threads body in return_status w status) s).
Proof.
  intros (G & Hp & L) Hb. unfold with_driver. destruct (self_driver s) as [d|] eqn:Hd.
  - unfold allow_threads, pbind, with_gil, modify. rewrite G.
    specialize (Hb (set_gil false s) ltac:(cbn; by rewrite Hd)).
    destruct (body (set_gil false s)) as [st s'| |s'| |]; try done.
    + destruct Hb as (G' & O' & L' & P' & X' & Y' & D'). cbn in *. unfold return_status, PyInt_FromLong, new_object, with_gil, pret.
      cbn [gil set_gil history]. destruct (w_alloc w (history s')); unfold blocking_post; rewrite Hd, ?refs_none.
      * split_and!; [|cbn; by rewrite O'|done|done|by split|done].
        split_and!; [done|cbn; congruence|]. cbn. by rewrite P', Hp.
      * split_and!; [|done|done|done|by split|done]. split_and!; [done|cbn; congruence|done].
    + destruct Hb as (G' & O' & _). by split.
    + cbn. by rewrite Hd.
  - unfold raise_null, pbind, PyErr_Format, with_gil, modify. rewrite G.
    unfold blocking_post. cbn beta iota. unfold pret. rewrite refs_none. by split_and!.
Qed.

Lemma no_arguments_post (s : St) args (f : Py D C (option nat)) : idle s -> (args = [] -> blocking_post s (f s)) ->
  blocking_post s (call_method (Some (METH_NOARGS f)) args s).
Proof.
  intros (G & Hp & L) Hf. destruct args; [by apply Hf|]. cbn [call_method].
  unfold raise_null, pbind, PyErr_Format, with_gil, modify. rewrite G.
  unfold blocking_post. cbn beta iota. unfold pret. rewrite refs_none. by split_and!.
Qed.

(** ** Creation and destruction of the driver object *)

(** Between calls, the only reference the driver object owns is the one to the
    framework, and there is a proxy if and only if there is a driver. *)
Definition at_rest (s : St) : Prop :=
  owned s = refs (self_python s) /\ lists s = ∅ /\ self_proxy s = bool_decide (is_Some (self_driver s)).

Lemma replace_python_done o (s : St) : gil s = true -> lists s = ∅ -> owned s = refs (self_python s) ->
  replace_python o s = Done tt (set_owned (refs (Some o)) (set_python (Some o) s)).
Proof.
  intros G L O. unfold replace_python, pbind, get, Py_INCREF, with_gil, modify. rewrite G.
  rewrite (Py_XDECREF_done _ (refs (Some o))); [done|done|done|].
  cbn [owned set_python set_owned refs]. rewrite O. multiset_solver.
Qed.

Lemma frame_at_rest s s' h : frame s s' ∅ h -> at_rest s -> lists s' = ∅ -> at_rest s'.
Proof.
  intros F (O & L & Hx) L'. split_and!; [|done|].
  - rewrite (fr_owned _ _ _ _ F), (fr_python _ _ _ _ F), O. apply (right_id_L ∅ (⊎)).
  - rewrite (fr_proxy _ _ _ _ F), Hx. apply bool_decide_ext, run_calls_is_some with (natives h), F.
Qed.

Lemma Py_CLEAR_done s : gil s = true -> at_rest s ->
  Py_CLEAR_python s = Done tt (set_owned ∅ (set_python None s)).
Proof.
  intros G (O & L & Hx). unfold Py_CLEAR_python, pbind, get, modify.
  rewrite (Py_XDECREF_done _ ∅); [done|done|done|]. cbn [owned set_python]. rewrite O. multiset_solver.
Qed.

Lemma drop_driver_done s : gil s = true ->
  drop_driver (allow_threads (delete_driver w)) s =
  Done tt (match self_driver s with Some _ => log (DeleteDriver false) (set_driver None s) | None => s end).
Proof.
  intros G. unfold drop_driver, pbind, get, allow_threads, with_gil, modify, delete_driver, pret.
  destruct s as [ow ls pe gi dr px py hi]. cbn in *. subst gi. by destruct dr.
Qed.

(** The destruction of the driver object. *)
Lemma dealloc_done s : gil s = true -> at_rest s ->
  exists s', (drop_driver (allow_threads (delete_driver w)) ;;* modify (set_proxy false) ;;*
              (Py_CLEAR_python ;;* pret 0) ;;* pret tt) s = Done tt s' /\ gil s' = true /\ owned s' = ∅ /\
    self_driver s' = None /\ self_proxy s' = false /\ self_python s' = None /\
    history s' = history s ++ match self_driver s with Some _ => [DeleteDriver false] | None => [] end.
Proof.
  intros G A. rewrite (bind_done _ _ _ _ _ (drop_driver_done s G)).
  rewrite (bind_done (modify (set_proxy false)) _ _ tt _ eq_refl).
  erewrite bind_done; [|erewrite bind_done; [reflexivity|apply Py_CLEAR_done]].
  - eexists. split; [reflexivity|]. destruct (self_driver s) eqn:Hd; cbn; by rewrite ?app_nil_r.
  - by destruct (self_driver s).
  - destruct A as (O & L & Hx). destruct (self_driver s) eqn:Hd; split_and!; try done. cbn. by rewrite Hd.
Qed.

End Logic.

(** ** Automation *)

Create HintDb py.
#[export] Hint Extern 1 (converted _ _ _ _) => eapply converted_sub; [|eassumption]; set_solver : py.
#[export] Hint Extern 1 (converted_items _ _ _ _) => eapply converted_items_sub; [|eassumption]; set_solver : py.

(** A message that could not be created. *)
Ltac unwilling Cr := intros W; apply Cr; red in W; tauto.

(** One message is created; the callback goes on, or cleans up. *)
Ltac create_step M k Cr :=
  apply wp_bind; eapply wp_mono; [exact (making_create _ _ _ _ _ _ _ _ M)|];
  let N := fresh "N" in let S := fresh "S" in let L := fresh "L" in let M' := fresh "M" in
  intros [?|] ? (k & M' & L & N & S & Cr); cbn [app] in M', Cr;
  [specialize (S ltac:(done)); clear N M; rename M' into M;
   (match type of S with ?p = _ \/ _ => assert (p = None) by (destruct S as [S|S]; rewrite S; assumption || done) end);
   (match type of L with ?l = _ => assert (l = ∅) by (rewrite L; assumption) end); clear S L
  |eapply served_early; [done|repeat first [exact M'|apply making_null in M'; cbn [app] in M']|by apply N|unwilling Cr]].

(** The framework is called with the messages created before. *)
Ltac call_step M :=
  unshelve eapply (served_call _ _ _ _ _ _ _ _ _ _ _ M); [done|assumption|intros W; red in W; tauto|];
  intros ?; rewrite resolve_id by assumption; eexists; split; [reflexivity|];
  repeat match goal with |- exists _, _ => eexists end;
  repeat match goal with |- _ /\ _ => split end; try reflexivity;
  (eapply created_sub; [|eassumption]; set_solver).

(** The ways the arguments of a call can match a format. *)
Ltac shapes args Hs :=
  destruct args as [|? [|? [|? [|? [|? [|? ?]]]]]]; cbn in Hs;
  repeat match goal with
         | H : exists _, _ |- _ => destruct H
         | H : _ /\ _ |- _ => destruct H
         | H : False |- _ => destruct H
         | H : false = true |- _ => discriminate H
         end; subst.

Ltac start_method I R0 := apply with_driver_method; [exact I|]; intros R0.
Ltac parse_step args R0 :=
  apply parse_method; [exact R0|done|]; let vs := fresh "vs" in let Hs := fresh "Hs" in intros vs Hs; shapes args Hs.
(** An argument is read; [R] is the phase so far. *)
Ltac read_step lem R :=
  eapply reader_method; [apply lem|exact R|done|]; clear R; intros ? ? ? R ?; cbn beta in *.
Ltac finish_step R := eapply finish_method; [exact R|]; intros ?; econstructor; eauto with py.

Ltac list_step R :=
  apply PyList_Check_method; [apply R|]; intros [|]; cbn [negb]; [|eapply raise_null_method; exact R].

(** The values of concrete arguments, and the steps after them. *)
Ltac parse_gets :=
  let I := match goal with I : idle ?s |- gets _ _ ?s => I end in
  let G := fresh "G" in
  eexists; split_and!; [|exact I|reflexivity];
  cbn; unfold convert_arg, with_gil, pbind, pret, get; destruct I as (G & ? & ?);
  repeat (first [rewrite G
                |match goal with H : w_text _ _ _ = _ |- _ => rewrite H | H : w_int _ _ _ = _ |- _ => rewrite H
                 | H : (_ <? _) = true |- _ => rewrite H end]; cbn); reflexivity.
Ltac then_gets lem :=
  eapply gets_returns; [solve [eapply lem; solve [eauto]]|]; intros ? ? ?; cbn iota beta; cbn [negb].
Ltac parse_then := eapply gets_returns; [parse_gets|]; intros ? ? ?; cbn iota.
Ltac returns_finish :=
  eapply finish_returns; [assumption|assumption| |eassumption]; congruence.

