(* ===== verification/PyScheduler.v ===== *)
(** * The Python binding of the scheduler driver (python-bindings/scheduler/src/mesos/scheduler)

    proxy_scheduler.cpp is the native scheduler that calls the framework's Python
    object; mesos_scheduler_driver_impl.cpp is the Python type whose methods call
    the native driver.  Output to standard error is left out. *)
From stdpp Require Import gmultiset.
From S2P Require Import Prelude Scheduler Native PyApi.

Section Binding.
  Context {D : Type} `{ND : NativeDriver D Call} (w : World D Call) (P : SchedulerProtos).
  (** [new MesosSchedulerDriver(...)] *)
  Context (new_driver : FrameworkInfo -> string -> bool -> option string -> D).

Abbreviation Bind := (Py D Call) (only parsing).

(** ** ProxyScheduler *)

Definition ProxyScheduler_registered (frameworkId masterInfo : string) : Bind unit := InterpreterLock (
  let* fid := createPythonProtobuf w (p_FrameworkID P) frameworkId "FrameworkID" in
  match fid with
  | None => cleanup true [fid; None; None]
  | Some f =>
      let* minfo := createPythonProtobuf w (p_MasterInfo P) masterInfo "MasterInfo" in
      match minfo with
      | None => cleanup true [fid; minfo; None]
      | Some m =>
          let* res := call_framework w "registered" [ArgObj f; ArgObj m] in
          cleanup true [fid; minfo; res]
      end
  end).

Definition ProxyScheduler_reregistered (masterInfo : string) : Bind unit := InterpreterLock (
  let* minfo := createPythonProtobuf w (p_MasterInfo P) masterInfo "MasterInfo" in
  match minfo with
  | None => cleanup true [minfo; None]
  | Some m =>
      let* res := call_framework w "reregistered" [ArgObj m] in
      cleanup true [minfo; res]
  end).

Definition ProxyScheduler_disconnected : Bind unit := InterpreterLock (
  let* res := call_framework w "disconnected" [] in
  cleanup true [res]).

(** The loop over the offers; false stands for [goto cleanup]. *)
Fixpoint fill_offers (l : obj) (i : nat) (offers : list Offer) : Bind bool :=
  match offers with
  | [] => pret true
  | o :: rest =>
      let* offer := createPythonProtobuf w (p_Offer P) o "Offer" in
      match offer with
      | None => pret false
      | Some offer => PyList_SetItem l i offer ;;* fill_offers l (S i) rest
      end
  end.

Definition ProxyScheduler_resourceOffers (offers : list Offer) : Bind unit := InterpreterLock (
  let* list := PyList_New w (length offers) in
  match list with
  | None => cleanup true [list; None]
  | Some l =>
      let* filled := fill_offers l 0 offers in
      if filled then
        let* res := call_framework w "resourceOffers" [ArgObj l] in
        cleanup true [list; res]
      else cleanup true [list; None]
  end).

Definition ProxyScheduler_offerRescinded (offerId : string) : Bind unit := InterpreterLock (
  let* oid := createPythonProtobuf w (p_OfferID P) offerId "OfferID" in
  match oid with
  | None => cleanup true [oid; None]
  | Some o =>
      let* res := call_framework w "offerRescinded" [ArgObj o] in
      cleanup true [oid; res]
  end).

Definition ProxyScheduler_statusUpdate (status : TaskStatus) : Bind unit := InterpreterLock (
  let* stat := createPythonProtobuf w (p_TaskStatus P) status "TaskStatus" in
  match stat with
  | None => cleanup true [stat; None]
  | Some o =>
      let* res := call_framework w "statusUpdate" [ArgObj o] in
      cleanup true [stat; res]
  end).

Definition ProxyScheduler_frameworkMessage (executorId slaveId data : string) : Bind unit := InterpreterLock (
  let* eid := createPythonProtobuf w (p_ExecutorID P) executorId "ExecutorID" in
  match eid with
  | None => cleanup true [eid; None; None]
  | Some e =>
      let* sid := createPythonProtobuf w (p_SlaveID P) slaveId "SlaveID" in
      match sid with
      | None => cleanup true [eid; sid; None]
      | Some i =>
          let* res := call_framework w "frameworkMessage" [ArgObj e; ArgObj i; s_hash data] in
          cleanup true [eid; sid; res]
      end
  end).

Definition ProxyScheduler_slaveLost (slaveId : string) : Bind unit := InterpreterLock (
  let* sid := createPythonProtobuf w (p_SlaveID P) slaveId "SlaveID" in
  match sid with
  | None => cleanup true [sid; None]
  | Some i =>
      let* res := call_framework w "slaveLost" [ArgObj i] in
      cleanup true [sid; res]
  end).

(** Both messages are created before either is looked at. *)
Definition ProxyScheduler_executorLost (executorId slaveId : string) (status : Z) : Bind unit := InterpreterLock (
  let* executorIdObj := createPythonProtobuf w (p_ExecutorID P) executorId "ExecutorID" in
  let* slaveIdObj := createPythonProtobuf w (p_SlaveID P) slaveId "SlaveID" in
  match executorIdObj, slaveIdObj with
  | Some e, Some i =>
      let* res := call_framework w "executorLost" [ArgObj e; ArgObj i; ArgInt status] in
      cleanup true [executorIdObj; slaveIdObj; res]
  | _, _ => cleanup true [executorIdObj; slaveIdObj; None]
  end).

Definition ProxyScheduler_error (message : string) : Bind unit := InterpreterLock (
  let* res := call_framework w "error" [s_hash message] in
  cleanup false [res]).

(** The virtual functions of [ProxyScheduler]. *)
Definition ProxyScheduler (cb : SchedulerCallback) : Bind unit :=
  match cb with
  | Registered f m => ProxyScheduler_registered f m
  | Reregistered m => ProxyScheduler_reregistered m
  | Disconnected => ProxyScheduler_disconnected
  | ResourceOffers offers => ProxyScheduler_resourceOffers offers
  | OfferRescinded o => ProxyScheduler_offerRescinded o
  | StatusUpdated st => ProxyScheduler_statusUpdate st
  | FrameworkMessage e i d => ProxyScheduler_frameworkMessage e i d
  | SlaveLost i => ProxyScheduler_slaveLost i
  | ExecutorLost e i st => ProxyScheduler_executorLost e i st
  | ErrorMessage m => ProxyScheduler_error m
  end.

(** ** MesosSchedulerDriverImpl: life cycle *)

(** [MesosSchedulerDriverImpl_new], for an object the allocator returns *)
Definition MesosSchedulerDriverImpl_new (allocated : ptr) : Bind ptr :=
  match allocated with
  | None => pret None
  | Some self =>
      modify (set_driver None) ;;* modify (set_proxy false) ;;* modify (set_python None) ;;* pret (Some self)
  end.

Definition MesosSchedulerDriverImpl_init (args : list obj) : Bind Z :=
  let* values := PyArg_ParseTuple w args "OOs|iO" in
  let build schedulerObj frameworkObj master (implicitAcknowledgements : Z) credentialObj :=
    replace_python schedulerObj ;;*
    let* framework := read_or_raise w (p_FrameworkInfo P) "FrameworkInfo" frameworkObj in
    match framework with
    | None => pret (-1)
    | Some framework =>
        let* credential :=
          match credentialObj with
          | None => pret (Some None)
          | Some c => let* r := read_or_raise w (p_Credential P) "Credential" c in pret (Some <$> r)
          end in
        match credential with
        | None => pret (-1)
        | Some credential =>
            drop_driver (delete_driver w) ;;*
            modify (set_proxy false) ;;* modify (set_proxy true) ;;*
            new_driver_is (new_driver framework master (negb (implicitAcknowledgements =? 0)) credential) ;;*
            pret 0
        end
    end in
  match values with
  | None => pret (-1)
  | Some [VObj sch; VObj fw; VText master] => build sch fw master 1 None
  | Some [VObj sch; VObj fw; VText master; VInt acks] => build sch fw master acks None
  | Some [VObj sch; VObj fw; VText master; VInt acks; VObj cred] => build sch fw master acks (Some cred)
  | Some _ => misuse "values that do not match the format"
  end.

Definition MesosSchedulerDriverImpl_clear : Bind Z := Py_CLEAR_python ;;* pret 0.

(** The objects [MesosSchedulerDriverImpl_traverse] visits. *)
Definition MesosSchedulerDriverImpl_traverse : Bind (list obj) :=
  Py_VISIT_python.

Definition MesosSchedulerDriverImpl_dealloc : Bind unit :=
  drop_driver (allow_threads (delete_driver w)) ;;*
  modify (set_proxy false) ;;*
  MesosSchedulerDriverImpl_clear ;;* pret tt.

(** ** MesosSchedulerDriverImpl: methods *)

Abbreviation impl := "MesosSchedulerDriverImpl" (only parsing).

Definition MesosSchedulerDriverImpl_start : Bind ptr :=
  with_driver impl (let* status := invoke DStart in return_status w status).

(** [bool failover = false; PyArg_ParseTuple(args, "|b", &failover)]: the format
    stores a byte, and only 0 and 1 are values of a [bool]. *)
Definition MesosSchedulerDriverImpl_stop (args : list obj) : Bind ptr :=
  with_driver impl (
    let* values := PyArg_ParseTuple w args "|b" in
    let run failover := let* status := invoke (DStop failover) in return_status w status in
    match values with
    | None => pret None
    | Some [] => run false
    | Some [VInt n] =>
        if n =? 0 then run false else if n =? 1 then run true else misuse "a byte that is no bool"
    | Some _ => misuse "values that do not match the format"
    end).

Definition MesosSchedulerDriverImpl_abort : Bind ptr :=
  with_driver impl (let* status := invoke DAbort in return_status w status).

Definition MesosSchedulerDriverImpl_join : Bind ptr :=
  with_driver impl (let* status := allow_threads (invoke_join w) in return_status w status).

Definition MesosSchedulerDriverImpl_run : Bind ptr :=
  with_driver impl (let* status := allow_threads (invoke_run w) in return_status w status).

Definition MesosSchedulerDriverImpl_requestResources (args : list obj) : Bind ptr :=
  with_driver impl (
    let* values := PyArg_ParseTuple w args "O" in
    match values with
    | None => pret None
    | Some [VObj requestsObj] =>
        let* is_list := PyList_Check w requestsObj in
        if negb is_list then raise_null "Parameter 2 to requestsResources is not a list"
        else
          let* requests := read_list w (p_Request P) "Request" requestsObj in
          match requests with
          | None => pret None
          | Some requests => let* status := invoke (DRequestResources requests) in return_status w status
          end
    | Some _ => misuse "values that do not match the format"
    end).

(** [if (filtersObj != nullptr) { readPythonProtobuf(filtersObj, &filters) ... }] *)
Definition read_filters (filtersObj : ptr) : Bind (option Filters) :=
  match filtersObj with
  | None => pret (Some (default_Filters P))
  | Some o => read_or_raise w (p_Filters P) "Filters" o
  end.

(** A list of offer ids, or a single one. *)
Definition read_offer_ids (offerIdsObj : obj) : Bind (option (list string)) :=
  let* is_list := PyList_Check w offerIdsObj in
  if negb is_list then
    let* offerId := read_or_raise w (p_OfferID P) "OfferID" offerIdsObj in
    pret ((fun id => [id]) <$> offerId)
  else read_list w (p_OfferID P) "OfferID" offerIdsObj.

Definition MesosSchedulerDriverImpl_launchTasks (args : list obj) : Bind ptr :=
  with_driver impl (
    let* values := PyArg_ParseTuple w args "OO|O" in
    let launch offerIdsObj tasksObj filtersObj :=
      let* offerIds := read_offer_ids offerIdsObj in
      match offerIds with
      | None => pret None
      | Some offerIds =>
          let* is_list := PyList_Check w tasksObj in
          if negb is_list then raise_null "Parameter 2 to launchTasks is not a list"
          else
            let* tasks := read_list w (p_TaskInfo P) "TaskInfo" tasksObj in
            match tasks with
            | None => pret None
            | Some tasks =>
                let* filters := read_filters filtersObj in
                match filters with
                | None => pret None
                | Some filters =>
                    let* status := invoke (DLaunchTasks offerIds tasks filters) in return_status w status
                end
            end
      end in
    match values with
    | None => pret None
    | Some [VObj offers; VObj tasks] => launch offers tasks None
    | Some [VObj offers; VObj tasks; VObj filters] => launch offers tasks (Some filters)
    | Some _ => misuse "values that do not match the format"
    end).

Definition MesosSchedulerDriverImpl_killTask (args : list obj) : Bind ptr :=
  with_driver impl (
    let* values := PyArg_ParseTuple w args "O" in
    match values with
    | None => pret None
    | Some [VObj tidObj] =>
        let* tid := read_or_raise w (p_TaskID P) "TaskID" tidObj in
        match tid with
        | None => pret None
        | Some tid => let* status := invoke (DKillTask tid) in return_status w status
        end
    | Some _ => misuse "values that do not match the format"
    end).

Definition MesosSchedulerDriverImpl_acceptOffers (args : list obj) : Bind ptr :=
  with_driver impl (
    let* values := PyArg_ParseTuple w args "OO|O" in
    let accept offerIdsObj operationsObj filtersObj :=
      let* is_list := PyList_Check w offerIdsObj in
      if negb is_list then raise_null "Parameter 1 to acceptOffers is not a list"
      else
        let* offerIds := read_list w (p_OfferID P) "OfferID" offerIdsObj in
        match offerIds with
        | None => pret None
        | Some offerIds =>
            let* is_list := PyList_Check w operationsObj in
            if negb is_list then raise_null "Parameter 2 to acceptOffers is not a list"
            else
              let* operations := read_list w (p_Operation P) "Offer.Operation" operationsObj in
              match operations with
              | None => pret None
              | Some operations =>
                  let* filters := read_filters filtersObj in
                  match filters with
                  | None => pret None
                  | Some filters =>
                      let* status := invoke (DAcceptOffers offerIds operations filters) in return_status w status
                  end
              end
        end in
    match values with
    | None => pret None
    | Some [VObj offers; VObj operations] => accept offers operations None
    | Some [VObj offers; VObj operations; VObj filters] => accept offers operations (Some filters)
    | Some _ => misuse "values that do not match the format"
    end).

Definition MesosSchedulerDriverImpl_declineOffer (args : list obj) : Bind ptr :=
  with_driver impl (
    let* values := PyArg_ParseTuple w args "O|O" in
    let decline offerIdObj filtersObj :=
      let* offerId := read_or_raise w (p_OfferID P) "OfferID" offerIdObj in
      match offerId with
      | None => pret None
      | Some offerId =>
          let* filters := read_filters filtersObj in
          match filters with
          | None => pret None
          | Some filters =>
              let* status := invoke (DDeclineOffer offerId filters) in return_status w status
          end
      end in
    match values with
    | None => pret None
    | Some [VObj offer] => decline offer None
    | Some [VObj offer; VObj filters] => decline offer (Some filters)
    | Some _ => misuse "values that do not match the format"
    end).

Definition MesosSchedulerDriverImpl_reviveOffers : Bind ptr :=
  with_driver impl (let* status := invoke DReviveOffers in return_status w status).

Definition MesosSchedulerDriverImpl_suppressOffers : Bind ptr :=
  with_driver impl (let* status := invoke DSuppressOffers in return_status w status).

Definition MesosSchedulerDriverImpl_acknowledgeStatusUpdate (args : list obj) : Bind ptr :=
  with_driver impl (
    let* values := PyArg_ParseTuple w args "O" in
    match values with
    | None => pret None
    | Some [VObj taskStatusObj] =>
        let* taskStatus := read_or_raise w (p_TaskStatus P) "TaskStatus" taskStatusObj in
        match taskStatus with
        | None => pret None
        | Some taskStatus =>
            let* status := invoke (DAcknowledgeStatusUpdate taskStatus) in return_status w status
        end
    | Some _ => misuse "values that do not match the format"
    end).

Definition MesosSchedulerDriverImpl_sendFrameworkMessage (args : list obj) : Bind ptr :=
  with_driver impl (
    let* values := PyArg_ParseTuple w args "OOs#" in
    match values with
    | None => pret None
    | Some [VObj executorIdObj; VObj slaveIdObj; VText data] =>
        let* executorId := read_or_raise w (p_ExecutorID P) "ExecutorID" executorIdObj in
        match executorId with
        | None => pret None
        | Some executorId =>
            let* slaveId := read_or_raise w (p_SlaveID P) "SlaveID" slaveIdObj in
            match slaveId with
            | None => pret None
            | Some slaveId =>
                let* status := invoke (DSendFrameworkMessage executorId slaveId data) in return_status w status
            end
        end
    | Some _ => misuse "values that do not match the format"
    end).

Definition MesosSchedulerDriverImpl_reconcileTasks (args : list obj) : Bind ptr :=
  with_driver impl (
    let* values := PyArg_ParseTuple w args "O" in
    match values with
    | None => pret None
    | Some [VObj statusesObj] =>
        let* is_list := PyList_Check w statusesObj in
        if negb is_list then raise_null "Parameter 1 to reconcileTasks is not a list"
        else
          let* statuses := read_list w (p_TaskStatus P) "TaskStatus" statusesObj in
          match statuses with
          | None => pret None
          | Some statuses => let* status := invoke (DReconcileTasks statuses) in return_status w status
          end
    | Some _ => misuse "values that do not match the format"
    end).

(** ** The table of methods *)

Definition MesosSchedulerDriverImpl_methods : list (string * Method D Call) :=
  [("start", METH_NOARGS MesosSchedulerDriverImpl_start);
   ("stop", METH_VARARGS MesosSchedulerDriverImpl_stop);
   ("abort", METH_NOARGS MesosSchedulerDriverImpl_abort);
   ("join", METH_NOARGS MesosSchedulerDriverImpl_join);
   ("run", METH_NOARGS MesosSchedulerDriverImpl_run);
   ("requestResources", METH_VARARGS MesosSchedulerDriverImpl_requestResources);
   ("launchTasks", METH_VARARGS MesosSchedulerDriverImpl_launchTasks);
   ("killTask", METH_VARARGS MesosSchedulerDriverImpl_killTask);
   ("acceptOffers", METH_VARARGS MesosSchedulerDriverImpl_acceptOffers);
   ("declineOffer", METH_VARARGS MesosSchedulerDriverImpl_declineOffer);
   ("reviveOffers", METH_NOARGS MesosSchedulerDriverImpl_reviveOffers);
   ("suppressOffers", METH_NOARGS MesosSchedulerDriverImpl_suppressOffers);
   ("acknowledgeStatusUpdate", METH_VARARGS MesosSchedulerDriverImpl_acknowledgeStatusUpdate);
   ("sendFrameworkMessage", METH_VARARGS MesosSchedulerDriverImpl_sendFrameworkMessage);
   ("reconcileTasks", METH_VARARGS MesosSchedulerDriverImpl_reconcileTasks)].

(** Python's call of a method of the driver object. *)
Definition scheduler_method (name : string) (args : list obj) : Bind ptr :=
  call_method (assoc name MesosSchedulerDriverImpl_methods) args.

End Binding.
