(* ===== verification/PySchedulerProperties.v ===== *)
(** * What the Python binding of the scheduler driver guarantees

    The callbacks keep the rules of Python's C API whatever Python answers, and
    abort the driver exactly when the framework was not reached; the methods call
    the driver once, with the messages Python gave, or raise an exception; the
    life cycle of the driver object keeps its references. *)
From stdpp Require Import gmultiset.
From S2P Require Import Prelude Scheduler Native PyApi PyLogic PyScheduler.

Section Callbacks.
  Context {D : Type} `{ND : NativeDriver D Call} (w : World D Call) (P : SchedulerProtos).

Abbreviation St := (PyState D Call).
Abbreviation Ev := (PyEvent Call).

(** The Python method a callback stands for, and whether its failure aborts. *)
Definition callback_method (cb : SchedulerCallback) : string :=
  match cb with
  | Registered _ _ => "registered"
  | Reregistered _ => "reregistered"
  | Disconnected => "disconnected"
  | ResourceOffers _ => "resourceOffers"
  | OfferRescinded _ => "offerRescinded"
  | StatusUpdated _ => "statusUpdate"
  | FrameworkMessage _ _ _ => "frameworkMessage"
  | SlaveLost _ => "slaveLost"
  | ExecutorLost _ _ _ => "executorLost"
  | ErrorMessage _ => "error"
  end.
Definition callback_aborts (cb : SchedulerCallback) : bool :=
  match cb with ErrorMessage _ => false | _ => true end.

(** The arguments it is called with: the driver object, and the messages of the
    callback as Python objects. *)
Definition callback_args (cb : SchedulerCallback) (h : list Ev) (args : list PyArg) : Prop :=
  exists rest, args = ArgObj (w_self w) :: rest /\
  match cb with
  | Registered f m => exists a b, rest = [ArgObj a; ArgObj b] /\
      created (p_FrameworkID P) f h a /\ created (p_MasterInfo P) m h b
  | Reregistered m => exists a, rest = [ArgObj a] /\ created (p_MasterInfo P) m h a
  | Disconnected => rest = []
  | ResourceOffers offers => exists l os, rest = [ArgList l (map Some os)] /\
      Forall2 (fun offer o => created (p_Offer P) offer h o) offers os
  | OfferRescinded i => exists a, rest = [ArgObj a] /\ created (p_OfferID P) i h a
  | StatusUpdated st => exists a, rest = [ArgObj a] /\ created (p_TaskStatus P) st h a
  | FrameworkMessage e i d => exists a b, rest = [ArgObj a; ArgObj b; s_hash d] /\
      created (p_ExecutorID P) e h a /\ created (p_SlaveID P) i h b
  | SlaveLost i => exists a, rest = [ArgObj a] /\ created (p_SlaveID P) i h a
  | ExecutorLost e i st => exists a b, rest = [ArgObj a; ArgObj b; ArgInt st] /\
      created (p_ExecutorID P) e h a /\ created (p_SlaveID P) i h b
  | ErrorMessage m => rest = [s_hash m]
  end.

(** Python answers, the framework is there, and the messages serialise. *)
Definition callback_willing (cb : SchedulerCallback) (s : St) : Prop :=
  cooperative w /\ is_Some (self_python s) /\
  match cb with
  | Registered f m => is_Some (SerializeToString (p_FrameworkID P) f) /\ is_Some (SerializeToString (p_MasterInfo P) m)
  | Reregistered m => is_Some (SerializeToString (p_MasterInfo P) m)
  | Disconnected | ErrorMessage _ => True
  | ResourceOffers offers => Forall (fun offer => is_Some (SerializeToString (p_Offer P) offer)) offers
  | OfferRescinded i => is_Some (SerializeToString (p_OfferID P) i)
  | StatusUpdated st => is_Some (SerializeToString (p_TaskStatus P) st)
  | FrameworkMessage e i _ | ExecutorLost e i _ =>
      is_Some (SerializeToString (p_ExecutorID P) e) /\ is_Some (SerializeToString (p_SlaveID P) i)
  | SlaveLost i => is_Some (SerializeToString (p_SlaveID P) i)
  end.

Lemma reregistered_served m s : pending s = None -> lists s = ∅ -> is_Some (self_driver s) ->
  wp (ProxyScheduler_reregistered w P m)
    (fun _ s' => served true "reregistered" (callback_args (Reregistered m)) (callback_willing (Reregistered m) s) s s') s.
Proof.
  intros Hp L Hd. apply served_lock. pose proof (start_making s L Hd) as M.
  create_step M k Cr. call_step M.
Qed.

Lemma registered_served f m s : pending s = None -> lists s = ∅ -> is_Some (self_driver s) ->
  wp (ProxyScheduler_registered w P f m)
    (fun _ s' => served true "registered" (callback_args (Registered f m)) (callback_willing (Registered f m) s) s s') s.
Proof.
  intros Hp L Hd. apply served_lock. pose proof (start_making s L Hd) as M.
  create_step M k Cr. create_step M k2 Cr2. call_step M.
Qed.

Lemma disconnected_served s : pending s = None -> lists s = ∅ -> is_Some (self_driver s) ->
  wp (ProxyScheduler_disconnected w)
    (fun _ s' => served true "disconnected" (callback_args Disconnected) (callback_willing Disconnected s) s s') s.
Proof.
  intros Hp L Hd. apply served_lock. pose proof (start_making s L Hd) as M. call_step M.
Qed.

Lemma offerRescinded_served i s : pending s = None -> lists s = ∅ -> is_Some (self_driver s) ->
  wp (ProxyScheduler_offerRescinded w P i)
    (fun _ s' => served true "offerRescinded" (callback_args (OfferRescinded i)) (callback_willing (OfferRescinded i) s) s s') s.
Proof.
  intros Hp L Hd. apply served_lock. pose proof (start_making s L Hd) as M.
  create_step M k Cr. call_step M.
Qed.

Lemma statusUpdate_served st s : pending s = None -> lists s = ∅ -> is_Some (self_driver s) ->
  wp (ProxyScheduler_statusUpdate w P st)
    (fun _ s' => served true "statusUpdate" (callback_args (StatusUpdated st)) (callback_willing (StatusUpdated st) s) s s') s.
Proof.
  intros Hp L Hd. apply served_lock. pose proof (start_making s L Hd) as M.
  create_step M k Cr. call_step M.
Qed.

Lemma frameworkMessage_served e i d s : pending s = None -> lists s = ∅ -> is_Some (self_driver s) ->
  wp (ProxyScheduler_frameworkMessage w P e i d)
    (fun _ s' => served true "frameworkMessage" (callback_args (FrameworkMessage e i d)) (callback_willing (FrameworkMessage e i d) s) s s') s.
Proof.
  intros Hp L Hd. apply served_lock. pose proof (start_making s L Hd) as M.
  create_step M k Cr. create_step M k2 Cr2. call_step M.
Qed.

Lemma slaveLost_served i s : pending s = None -> lists s = ∅ -> is_Some (self_driver s) ->
  wp (ProxyScheduler_slaveLost w P i)
    (fun _ s' => served true "slaveLost" (callback_args (SlaveLost i)) (callback_willing (SlaveLost i) s) s s') s.
Proof.
  intros Hp L Hd. apply served_lock. pose proof (start_making s L Hd) as M.
  create_step M k Cr. call_step M.
Qed.

Lemma error_served m s : pending s = None -> lists s = ∅ -> is_Some (self_driver s) ->
  wp (ProxyScheduler_error w m)
    (fun _ s' => served false "error" (callback_args (ErrorMessage m)) (callback_willing (ErrorMessage m) s) s s') s.
Proof.
  intros Hp L Hd. apply served_lock. pose proof (start_making s L Hd) as M. call_step M.
Qed.

(** The second message is created even if the first was not: it must not lose
    the exception. *)
Lemma executorLost_served e i st s : keeps_pending w ->
  pending s = None -> lists s = ∅ -> is_Some (self_driver s) ->
  wp (ProxyScheduler_executorLost w P e i st)
    (fun _ s' => served true "executorLost" (callback_args (ExecutorLost e i st)) (callback_willing (ExecutorLost e i st) s) s s') s.
Proof.
  intros K Hp L Hd. apply served_lock. pose proof (start_making s L Hd) as M.
  apply wp_bind. eapply wp_mono; [exact (making_create w _ _ _ _ _ _ _ M)|].
  intros r1 s1 (k1 & M1 & L1 & N1 & S1 & C1). cbn [app] in M1.
  apply wp_bind. eapply wp_mono;
    [apply wp_and; [exact (making_create w _ _ _ _ _ _ _ M1)|apply (createPythonProtobuf_keeps _ _ _ _ _ K), M1]|].
  intros r2 s2 ((k2 & M2 & L2 & N2 & S2 & C2) & K2). cbn [app] in M2.
  destruct r1 as [a|]; [destruct r2 as [b|]|].
  - assert (pending s1 = None) by (destruct (S1 ltac:(done)) as [E|E]; rewrite E; assumption || done).
    assert (pending s2 = None) by (destruct (S2 ltac:(done)) as [E|E]; rewrite E; assumption || done).
    assert (lists s2 = ∅) by (rewrite L2, L1; assumption).
    call_step M2.
  - eapply served_early; [done|apply making_null in M2; exact M2|by apply N2|unwilling C2].
  - eapply served_early; [done|apply making_null in M2; exact M2| |unwilling C1].
    destruct r2; [rewrite (K2 ltac:(done)); by apply N1|by apply N2].
Qed.

(** ** Offers *)

Lemma PyList_New_making n s : making s [] [] s -> lists s = ∅ -> pending s = None ->
  wp (PyList_New w n)
    (fun r s' => exists h, making s [r] h s' /\
       match r with
       | Some l => lists s' = {[l := replicate n None]} /\ pending s' = None
       | None => pending s' <> None /\ ~ cooperative w
       end) s.
Proof.
  intros (F & G & H & L & Hd) HL Hp. apply wp_gil; [done|]. unfold wp.
  destruct (w_alloc w (history s)) as [l|] eqn:E; cbn.
  - exists [PyNew l]. split_and!; [| |done].
    + split_and!; [|done|by repeat constructor| |done].
      * rewrite refs_all_one. destruct (frame_refl s). split; try done.
      * intros o. cbn. rewrite HL, insert_empty. intros [items [-> _]%lookup_singleton_Some]. set_solver.
    + by rewrite HL, insert_empty.
  - exists []. split; [|split; [done|by intros [_ _ _ Co]; destruct (Co (history s)); congruence]].
    split_and!; [|done|done| |done].
    + rewrite refs_all_one. apply frame_pending.
    + apply lists_in_empty. by cbn.
Qed.

Lemma PyList_New_alloc n s : gil s = true ->
  wp (PyList_New w n) (fun r _ => is_Some r -> exists h, w_alloc w h = r) s.
Proof.
  intros G. apply wp_gil; [done|]. unfold wp. destruct (w_alloc w (history s)) eqn:E; cbn; [eauto|by intros []].
Qed.

Lemma fill_offers_making offers filled l h s0 s : making s0 [Some l] h s ->
  lists s = {[l := map Some filled ++ replicate (length offers) None]} -> pending s = None ->
  wp (fill_offers w P l (length filled) offers)
    (fun b s' => exists k, making s0 [Some l] (h ++ k) s' /\
       if b then pending s' = None /\
         exists os, lists s' = {[l := map Some (filled ++ os)]} /\
           Forall2 (fun offer o => created (p_Offer P) offer (h ++ k) o) offers os
       else pending s' <> None /\
         ~ (cooperative w /\ Forall (fun offer => is_Some (SerializeToString (p_Offer P) offer)) offers)) s.
Proof.
  revert filled h s. induction offers as [|offer offers IH]; intros filled h s M L Hp; cbn [fill_offers].
  { apply wp_ret. exists []. rewrite app_nil_r. split; [done|]. split; [done|]. exists [].
    split; [|constructor]. by rewrite L, !app_nil_r. }
  apply wp_bind. eapply wp_mono; [exact (making_create w _ _ _ _ _ _ _ M)|].
  intros r s1 (k1 & M1 & L1 & N1 & S1 & C1). cbn [app] in M1. destruct r as [o|].
  2:{ apply wp_ret. exists k1. split_and!; [by apply (making_unnull _ [Some l])|by apply N1|].
      intros [Co [Ho _]%Forall_cons]. by apply C1. }
  assert (pending s1 = None) as P1 by (destruct (S1 ltac:(done)) as [->| ->]; done).
  apply wp_bind. eapply wp_mono.
  { apply (PyList_SetItem_making l (length filled) o _ s0 [Some l] _ _ M1 (eq_trans L1 L)); [|set_solver].
    rewrite length_app, length_map. cbn. lia. }
  intros _ s2 (M2 & L2 & P2).
  assert (lists s2 = {[l := map Some (filled ++ [o]) ++ replicate (length offers) None]}) as L2'.
  { rewrite L2. f_equal. rewrite map_app, <- app_assoc. cbn.
    rewrite insert_app_r_alt by (by rewrite length_map). by rewrite length_map, Nat.sub_diag. }
  replace (S (length filled)) with (length (filled ++ [o])) by (rewrite length_app; cbn; lia).
  eapply wp_mono; [apply (IH (filled ++ [o]) (h ++ k1) s2 M2 L2'); by rewrite P2|].
  intros b s' (k & M' & Hb). exists (k1 ++ k). rewrite app_assoc. split; [done|].
  destruct b; [|split; [apply Hb|]; intros [Co [_ Ho]%Forall_cons]; by apply Hb].
  destruct Hb as (P' & os & L' & HF). split; [done|]. exists (o :: os). rewrite <- app_assoc in L'.
  split; [done|]. constructor; [|done]. eapply created_sub; [|by apply C1]. set_solver.
Qed.

Lemma resourceOffers_served offers s : (forall h, w_alloc w h <> Some (w_self w)) ->
  pending s = None -> lists s = ∅ -> is_Some (self_driver s) ->
  wp (ProxyScheduler_resourceOffers w P offers)
    (fun _ s' => served true "resourceOffers" (callback_args (ResourceOffers offers)) (callback_willing (ResourceOffers offers) s) s s') s.
Proof.
  intros Hself Hp L Hd. apply served_lock. pose proof (start_making s L Hd) as M.
  apply wp_bind. eapply wp_mono; [apply wp_and;
    [exact (PyList_New_making (length offers) _ M L Hp)|apply (PyList_New_alloc (length offers)), M]|].
  intros r s1 ((h1 & M1 & H1) & Ha). destruct r as [l|].
  2:{ apply making_null in M1. eapply served_early; [done|exact M1|apply H1|].
      intros [Co _]. by apply H1. }
  destruct H1 as [L1 P1].
  apply wp_bind. eapply wp_mono; [exact (fill_offers_making offers [] l h1 _ s1 M1 L1 P1)|].
  intros [|] s2 (k & M2 & H2).
  2:{ apply making_null in M2. eapply served_early; [done|exact M2|apply H2|].
      intros (Co & _ & Ho). by apply H2. }
  destruct H2 as (P2 & os & L2 & HF).
  unshelve eapply (served_call _ _ _ _ _ _ _ _ _ _ _ M2); [done|assumption|intros W; red in W; tauto|].
  intros k2. exists [ArgList l (map Some os)]. split.
  - cbn. rewrite L2, lookup_singleton_eq, lookup_singleton_ne; [done|].
    intros ->. destruct (Ha ltac:(done)) as [h Hh]. by apply (Hself h).
  - exists l, os. split; [done|]. eapply Forall2_impl; [exact HF|].
    intros offer o. apply created_sub. set_solver.
Qed.

Lemma callbacks_served cb s :
  match cb with ExecutorLost _ _ _ => keeps_pending w | _ => True end ->
  (forall h, w_alloc w h <> Some (w_self w)) ->
  pending s = None -> lists s = ∅ -> is_Some (self_driver s) ->
  wp (ProxyScheduler w P cb)
    (fun _ s' => served (callback_aborts cb) (callback_method cb) (callback_args cb) (callback_willing cb s) s s') s.
Proof.
  intros K Ha Hp L Hd. destruct cb; cbn [ProxyScheduler callback_aborts callback_method].
  - by apply registered_served.
  - by apply reregistered_served.
  - by apply disconnected_served.
  - by apply resourceOffers_served.
  - by apply offerRescinded_served.
  - by apply statusUpdate_served.
  - by apply frameworkMessage_served.
  - by apply slaveLost_served.
  - by apply executorLost_served.
  - by apply error_served.
Qed.

(** C13: Every callback into Python, whatever Python answers: the rules of the C API
    are kept (references, exceptions, lists, and the interpreter lock, which is left as
    it was found, also when the driver calls back on a thread that holds it); the
    framework's method is called with the driver object and the callback's messages and
    returns, or the driver is aborted (except by the callback error), and the latter
    only if Python did not answer, the framework is gone, or a message does not
    serialise.  [executorLost] needs Python code that keeps a pending exception. *)
Theorem proxy_scheduler_callbacks cb s :
  match cb with ExecutorLost _ _ _ => keeps_pending w | _ => True end ->
  (forall h, w_alloc w h <> Some (w_self w)) ->
  pending s = None -> lists s = ∅ -> is_Some (self_driver s) ->
  wp (ProxyScheduler w P cb)
    (fun _ s' => served (callback_aborts cb) (callback_method cb) (callback_args cb) (callback_willing cb s) s s') s.
Proof. exact (callbacks_served cb s). Qed.

End Callbacks.

Section Methods.
  Context {D : Type} `{ND : NativeDriver D Call} (w : World D Call) (P : SchedulerProtos).

Abbreviation St := (PyState D Call).
Abbreviation Ev := (PyEvent Call).

(** ** What a method call asks of the driver

    [conv p o t]: the Python object [o] is the message [t]; [items p l ts]: the
    Python list [l] holds the messages [ts]. *)
Section Requests.
  Context (conv : forall T, Proto T -> nat -> T -> Prop) (items : forall T, Proto T -> nat -> list T -> Prop).
  Context (s : St).

(** The optional last argument. *)
Definition filters_arg (fs : list nat) (f : Filters) : Prop :=
  match fs with
  | [] => f = default_Filters P
  | [o] => conv _ (p_Filters P) o f
  | _ => False
  end.

Inductive requests : string -> list nat -> Call -> Prop :=
| rq_start : requests "start" [] DStart
| rq_stop : requests "stop" [] (DStop false)
| rq_stop_failover o n : w_int w (history s) o = Some n -> requests "stop" [o] (DStop (negb (n =? 0)))
| rq_abort : requests "abort" [] DAbort
| rq_requestResources l rs : items _ (p_Request P) l rs -> requests "requestResources" [l] (DRequestResources rs)
| rq_launchTasks_one o l fs i ts f : conv _ (p_OfferID P) o i -> items _ (p_TaskInfo P) l ts -> filters_arg fs f ->
    requests "launchTasks" (o :: l :: fs) (DLaunchTasks [i] ts f)
| rq_launchTasks o l fs ids ts f : items _ (p_OfferID P) o ids -> items _ (p_TaskInfo P) l ts -> filters_arg fs f ->
    requests "launchTasks" (o :: l :: fs) (DLaunchTasks ids ts f)
| rq_killTask o i : conv _ (p_TaskID P) o i -> requests "killTask" [o] (DKillTask i)
| rq_acceptOffers o l fs ids ops f : items _ (p_OfferID P) o ids -> items _ (p_Operation P) l ops ->
    filters_arg fs f -> requests "acceptOffers" (o :: l :: fs) (DAcceptOffers ids ops f)
| rq_declineOffer o fs i f : conv _ (p_OfferID P) o i -> filters_arg fs f ->
    requests "declineOffer" (o :: fs) (DDeclineOffer i f)
| rq_reviveOffers : requests "reviveOffers" [] DReviveOffers
| rq_suppressOffers : requests "suppressOffers" [] DSuppressOffers
| rq_acknowledge o st : conv _ (p_TaskStatus P) o st ->
    requests "acknowledgeStatusUpdate" [o] (DAcknowledgeStatusUpdate st)
| rq_sendFrameworkMessage e i d ex sl data : conv _ (p_ExecutorID P) e ex -> conv _ (p_SlaveID P) i sl ->
    w_text w (history s) d = Some data -> requests "sendFrameworkMessage" [e; i; d] (DSendFrameworkMessage ex sl data)
| rq_reconcileTasks l sts : items _ (p_TaskStatus P) l sts ->
    requests "reconcileTasks" [l] (DReconcileTasks sts).

End Requests.

(** ... as the history of the call shows it. *)
Definition asked (s : St) (name : string) (args : list nat) (h : list Ev) (c : Call) : Prop :=
  requests (fun T p o t => converted p o h t) (fun T p l ts => converted_items p l h ts) s name args c.

Definition blocking (name : string) : bool := String.eqb name "join" || String.eqb name "run".

(** [stop] is given no byte other than 0 and 1. *)
Definition bool_failover (name : string) (args : list nat) (s : St) : Prop :=
  name = "stop" -> forall o n, args = [o] -> w_int w (history s) o = Some n -> 0 <= n < 2 ^ 8 -> n = 0 \/ n = 1.

Lemma read_filters_reader fs : (length fs <= 1)%nat ->
  reader (read_filters w P (head fs))
    (fun h f => filters_arg (fun T p o t => converted p o h t) fs f).
Proof.
  intros Hl. destruct fs as [|o [|]]; cbn in Hl; [| |lia].
  - intros s (G & Hp & L). apply wp_ret. exists []. split_and!; [apply frame_refl| |done|].
    + split_and!; [done|done|]. by rewrite Hp.
    + by intros t [= <-].
  - apply read_or_raise_reader.
Qed.

Lemma filters_arg_sub fs f (h k : list Ev) : h ⊆ k ->
  filters_arg (fun T p o t => converted p o h t) fs f -> filters_arg (fun T p o t => converted p o k t) fs f.
Proof. intros Hk. destruct fs as [|o [|]]; cbn; [done| |done]. by apply converted_sub. Qed.

Hint Extern 1 (filters_arg _ _ _) => eapply filters_arg_sub; [|eassumption]; set_solver : py.

Lemma killTask_method args s : idle s ->
  wp (MesosSchedulerDriverImpl_killTask w P args) (method_post (asked s "killTask" args) s) s.
Proof.
  intros I. start_method I R. parse_step args R. read_step @read_or_raise_reader R. finish_step R.
Qed.

Lemma acknowledgeStatusUpdate_method args s : idle s ->
  wp (MesosSchedulerDriverImpl_acknowledgeStatusUpdate w P args)
    (method_post (asked s "acknowledgeStatusUpdate" args) s) s.
Proof.
  intros I. start_method I R. parse_step args R. read_step @read_or_raise_reader R. finish_step R.
Qed.

Lemma sendFrameworkMessage_method args s : idle s ->
  wp (MesosSchedulerDriverImpl_sendFrameworkMessage w P args)
    (method_post (asked s "sendFrameworkMessage" args) s) s.
Proof.
  intros I. start_method I R. parse_step args R. read_step @read_or_raise_reader R.
  read_step @read_or_raise_reader R. finish_step R.
Qed.

Lemma start_method_ok args s : idle s -> args = [] ->
  wp (MesosSchedulerDriverImpl_start w) (method_post (asked s "start" args) s) s.
Proof. intros I ->. start_method I R. finish_step R. Qed.
Lemma abort_method args s : idle s -> args = [] ->
  wp (MesosSchedulerDriverImpl_abort w) (method_post (asked s "abort" args) s) s.
Proof. intros I ->. start_method I R. finish_step R. Qed.
Lemma reviveOffers_method args s : idle s -> args = [] ->
  wp (MesosSchedulerDriverImpl_reviveOffers w) (method_post (asked s "reviveOffers" args) s) s.
Proof. intros I ->. start_method I R. finish_step R. Qed.
Lemma suppressOffers_method args s : idle s -> args = [] ->
  wp (MesosSchedulerDriverImpl_suppressOffers w) (method_post (asked s "suppressOffers" args) s) s.
Proof. intros I ->. start_method I R. finish_step R. Qed.

Lemma stop_method args s : idle s -> bool_failover "stop" args s ->
  wp (MesosSchedulerDriverImpl_stop w args) (method_post (asked s "stop" args) s) s.
Proof.
  intros I B. start_method I R. parse_step args R; [finish_step R|].
  destruct (B eq_refl n x1 eq_refl) as [-> | ->]; [done|done|..]; cbn [Z.eqb].
  - eapply finish_method; [exact R|]. intros k. by apply (rq_stop_failover _ _ _ n 0).
  - eapply finish_method; [exact R|]. intros k. by apply (rq_stop_failover _ _ _ n 1).
Qed.

Lemma requestResources_method args s : idle s ->
  wp (MesosSchedulerDriverImpl_requestResources w P args) (method_post (asked s "requestResources" args) s) s.
Proof.
  intros I. start_method I R. parse_step args R. list_step R. read_step @read_list_reader R. finish_step R.
Qed.

Lemma reconcileTasks_method args s : idle s ->
  wp (MesosSchedulerDriverImpl_reconcileTasks w P args) (method_post (asked s "reconcileTasks" args) s) s.
Proof.
  intros I. start_method I R. parse_step args R. list_step R. read_step @read_list_reader R. finish_step R.
Qed.

Lemma declineOffer_method args s : idle s ->
  wp (MesosSchedulerDriverImpl_declineOffer w P args) (method_post (asked s "declineOffer" args) s) s.
Proof.
  intros I. start_method I R. parse_step args R.
  - read_step @read_or_raise_reader R. read_step (read_filters_reader [] ltac:(cbn; lia)) R. finish_step R.
  - read_step @read_or_raise_reader R. read_step (read_filters_reader [n0] ltac:(cbn; lia)) R. finish_step R.
Qed.

Lemma acceptOffers_method args s : idle s ->
  wp (MesosSchedulerDriverImpl_acceptOffers w P args) (method_post (asked s "acceptOffers" args) s) s.
Proof.
  intros I. start_method I R. parse_step args R.
  - list_step R. read_step @read_list_reader R. list_step R. read_step @read_list_reader R.
    read_step (read_filters_reader [] ltac:(cbn; lia)) R. finish_step R.
  - list_step R. read_step @read_list_reader R. list_step R. read_step @read_list_reader R.
    read_step (read_filters_reader [n1] ltac:(cbn; lia)) R. finish_step R.
Qed.

(** The offers of [launchTasks]. *)
Definition offer_ids_arg (o : nat) (h : list Ev) (ids : list string) : Prop :=
  (exists i, ids = [i] /\ converted (p_OfferID P) o h i) \/ converted_items (p_OfferID P) o h ids.

Lemma read_offer_ids_reader o : reader (read_offer_ids w P o) (offer_ids_arg o).
Proof.
  intros s I. apply wp_bind, wp_gil; [apply I|]. unfold wp at 1, get. destruct (bool_decide _); cbn [negb].
  - eapply wp_mono; [by apply read_list_wp|]. intros r s' (h & F & E & R & Ht).
    exists h. split_and!; [done|done|done|]. intros t Hr. right. by apply Ht.
  - apply wp_bind. eapply wp_mono; [by apply read_or_raise_wp|]. intros r s' (h & F & (G & L & E) & R & Ht).
    apply wp_ret. exists h. split_and!; [done| |done|].
    + split_and!; [done|done|]. rewrite <- E. by destruct r.
    + intros ids Hr. left. destruct r as [i|]; [|done]. injection Hr as <-. exists i. split; [done|]. by apply Ht.
Qed.

Lemma launchTasks_asked o l fs s ids ts f (h : list Ev) : offer_ids_arg o h ids ->
  converted_items (p_TaskInfo P) l h ts -> filters_arg (fun T p o t => converted p o h t) fs f ->
  asked s "launchTasks" (o :: l :: fs) h (DLaunchTasks ids ts f).
Proof. intros [(i & -> & Hi)|Hi] Hl Hf; by econstructor. Qed.

Lemma offer_ids_arg_sub o h k ids : h ⊆ k -> offer_ids_arg o h ids -> offer_ids_arg o k ids.
Proof. intros Hk [(i & -> & Hi)|Hi]; [left; exists i|right]; eauto using converted_sub, converted_items_sub. Qed.

Hint Extern 1 (offer_ids_arg _ _ _) => eapply offer_ids_arg_sub; [|eassumption]; set_solver : py.

Lemma launchTasks_method args s : idle s ->
  wp (MesosSchedulerDriverImpl_launchTasks w P args) (method_post (asked s "launchTasks" args) s) s.
Proof.
  intros I. start_method I R. parse_step args R.
  - read_step @read_offer_ids_reader R. list_step R. read_step @read_list_reader R.
    read_step (read_filters_reader [] ltac:(cbn; lia)) R.
    eapply finish_method; [exact R|]. intros ?. apply launchTasks_asked; eauto with py.
  - read_step @read_offer_ids_reader R. list_step R. read_step @read_list_reader R.
    read_step (read_filters_reader [n1] ltac:(cbn; lia)) R.
    eapply finish_method; [exact R|]. intros ?. apply launchTasks_asked; eauto with py.
Qed.

Lemma methods_post name args s : idle s -> blocking name = false -> bool_failover name args s ->
  wp (scheduler_method w P name args) (method_post (asked s name args) s) s.
Proof.
  intros I Hb B. unfold scheduler_method, MesosSchedulerDriverImpl_methods. cbn [assoc].
  repeat (match goal with |- context [String.eqb name ?n] => destruct (String.eqb_spec name n) as [->|?] end;
    [first [discriminate Hb|apply noargs_method; [done|intros ?]|idtac]|]).
  - by apply start_method_ok.
  - by apply stop_method.
  - by apply abort_method.
  - by apply requestResources_method.
  - by apply launchTasks_method.
  - by apply killTask_method.
  - by apply acceptOffers_method.
  - by apply declineOffer_method.
  - by apply reviveOffers_method.
  - by apply suppressOffers_method.
  - by apply acknowledgeStatusUpdate_method.
  - by apply sendFrameworkMessage_method.
  - by apply reconcileTasks_method.
  - by apply raise_null_idle.
Qed.

(** A method call from Python on the driver object that does not block: the rules
    of the C API are kept; the driver is called at most once, and with the messages that
    Python gave, in their order; if it is not called, or its status cannot be returned,
    an exception is pending and nothing is returned, and otherwise the number of the
    driver's status is.  (A failover argument of stop must be 0 or 1.) *)
Theorem scheduler_methods name args s : idle s -> blocking name = false -> bool_failover name args s ->
  wp (scheduler_method w P name args) (method_post (asked s name args) s) s.
Proof. exact (methods_post name args s). Qed.

(** ** Calls that Python makes as it should *)

Definition honest (s : St) := requests (honest_conv w) (honest_items w) s.

(** Arguments the formats accept; a single offer is no list. *)
Definition fitting (name : string) (args : list nat) (s : St) : Prop :=
  (forall o n, name = "stop" -> args = [o] -> w_int w (history s) o = Some n -> n = 0 \/ n = 1) /\
  (forall e i d data, args = [e; i; d] -> w_text w (history s) d = Some data ->
     Z.of_nat (String.length data) < 2 ^ 31) /\
  (forall o, head args = Some o -> (exists b, is_message w o b) -> forall h, w_items w h o = None).

Lemma honest_filters fs f s : idle s -> filters_arg (honest_conv w) fs f ->
  gets (read_filters w P (head fs)) (Some f) s.
Proof.
  intros I. destruct fs as [|o [|]]; cbn.
  - intros ->. by apply gets_ret.
  - intros Hc. by apply honest_read_or_raise.
  - done.
Qed.

Lemma honest_offer o i s : idle s -> honest_conv w string (p_OfferID P) o i -> (forall h, w_items w h o = None) ->
  gets (read_offer_ids w P o) (Some [i]) s.
Proof.
  intros I Ho Hl. eapply (gets_bind _ _ false).
  - exists s. unfold PyList_Check, with_gil, get. destruct I as (G & ? & ?). rewrite G, Hl. by split_and!.
  - intros s1 I1 D1. eapply gets_bind; [by apply honest_read_or_raise|]. intros s2 I2 D2. by apply gets_ret.
Qed.

Lemma honest_offers o ids s : idle s -> honest_items w string (p_OfferID P) o ids ->
  gets (read_offer_ids w P o) (Some ids) s.
Proof.
  intros I Ho. eapply gets_bind; [by eapply honest_is_list|]. intros s1 I1 D1. by apply honest_read_list.
Qed.

Ltac filters_then Hf :=
  eapply gets_returns; [eapply (honest_filters _ _ _ ltac:(eassumption) Hf)|]; intros ? ? ?; cbn iota.

(** C20: A method call from Python whose arguments are messages of the right types:
    the driver is called with exactly these messages, and the number of the status it
    returns is what Python gets. *)
Theorem scheduler_methods_complete name args s c d d' st : honest s name args c -> fitting name args s ->
  idle s -> self_driver s = Some d -> nd_invoke c d = Ret (d', st) -> (forall h, is_Some (w_alloc w h)) ->
  returns_status (scheduler_method w P name args) d' st s.
Proof.
  intros Hr (Hstop & Hdata & Hone) I Hd E Ha.
  destruct Hr as [| |o n Hn| |l rs Hl|o l fs i ts f Ho Hl Hf|o l fs ids ts f Ho Hl Hf|o i Ho|o l fs ids ops f Ho Hl Hf
    |o fs i f Ho Hf| | |o st0 Ho|e i dd ex sl data He Hi Ht|l sts Hl];
    apply (with_driver_returns "MesosSchedulerDriverImpl" _ d); try done.
  - returns_finish.
  - eapply gets_returns; [parse_gets|]. intros s1 I1 D1. cbn iota. returns_finish.
  - destruct (Hstop _ _ eq_refl eq_refl Hn) as [-> | ->];
      (eapply gets_returns; [parse_gets|]; intros s1 I1 D1; cbn; returns_finish).
  - returns_finish.
  - parse_then. then_gets @honest_is_list. then_gets @honest_read_list. returns_finish.
  - assert (forall h, w_items w h o = None) as Ho' by (destruct Ho as (b & ? & _); eauto).
    destruct fs as [|x [|]]; [..|done];
      (parse_then; then_gets honest_offer; then_gets @honest_is_list; then_gets @honest_read_list;
       filters_then Hf; returns_finish).
  - destruct fs as [|x [|]]; [..|done];
      (parse_then; then_gets honest_offers; then_gets @honest_is_list; then_gets @honest_read_list;
       filters_then Hf; returns_finish).
  - parse_then. then_gets @honest_read_or_raise. returns_finish.
  - destruct fs as [|x [|]]; [..|done];
      (parse_then; then_gets @honest_is_list; then_gets @honest_read_list; then_gets @honest_is_list;
       then_gets @honest_read_list; filters_then Hf; returns_finish).
  - destruct fs as [|x [|]]; [..|done];
      (parse_then; then_gets @honest_read_or_raise; filters_then Hf; returns_finish).
  - returns_finish.
  - returns_finish.
  - parse_then. then_gets @honest_read_or_raise. returns_finish.
  - pose proof (Hdata _ _ _ _ eq_refl Ht) as Hlen%Z.ltb_lt.
    parse_then. then_gets @honest_read_or_raise. then_gets @honest_read_or_raise. returns_finish.
  - parse_then. then_gets @honest_is_list. then_gets @honest_read_list. returns_finish.
Qed.

End Methods.

Section LifeCycle.
  Context {D : Type} `{ND : NativeDriver D Call} (w : World D Call) (P : SchedulerProtos).
  Context (new_driver : FrameworkInfo -> string -> bool -> option string -> D).

Abbreviation St := (PyState D Call).

(** ** Methods that block *)

Lemma blocking_methods_post name args s : idle s -> blocking name = true ->
  blocking_post s (scheduler_method w P name args s).
Proof.
  intros I Hb. apply orb_true_iff in Hb as [->%String.eqb_eq| ->%String.eqb_eq]; (apply no_arguments_post; [done|intros ->]).
  - apply waits_post; [done|apply invoke_join_waits].
  - apply waits_post; [done|apply invoke_run_waits].
Qed.

(** [join] and [run] wait without the interpreter lock, so that callbacks can run,
    hold it again when they return, and keep the rules of the C API. *)
Theorem scheduler_blocking_methods name args s : idle s -> blocking name = true ->
  blocking_post s (scheduler_method w P name args s).
Proof. exact (blocking_methods_post name args s). Qed.

(** ** Creation and destruction *)

(** The values of the arguments of an initialisation. *)
Definition init_values (args : list nat) (s : St) (h : list (PyEvent Call)) (framework : FrameworkInfo)
    (master : string) (acks : bool) (credential : option string) : Prop :=
  exists sch fw m rest, args = sch :: fw :: m :: rest /\
    converted (p_FrameworkInfo P) fw h framework /\ w_text w (history s) m = Some master /\
    match rest with
    | [] => acks = true /\ credential = None
    | a :: rest' =>
        (exists n, w_int w (history s) a = Some n /\ acks = negb (n =? 0)) /\
        match rest' with
        | [] => credential = None
        | [c] => exists cr, credential = Some cr /\ converted (p_Credential P) c h cr
        | _ => False
        end
    end.

(** What an initialisation leaves: a driver for the values of the arguments, or
    an exception and the driver as it was. *)
Definition init_post (args : list nat) (s : St) (r : Z) (s' : St) : Prop :=
  gil s' = true /\ at_rest s' /\
  ((r = 0 /\ pending s' = None /\ self_python s' = head args /\
    exists h framework master acks credential, history s' = history s ++ h /\
      init_values args s h framework master acks credential /\
      self_driver s' = Some (new_driver framework master acks credential)) \/
   (r = -1 /\ pending s' <> None /\ (is_Some (self_driver s') <-> is_Some (self_driver s)))).

Lemma init_parse_fails args s e : idle s -> at_rest s -> init_post args s (-1) (set_pending (Some e) s).
Proof. intros (G & Hp & L) A. split_and!; [done|done|]. right. by split_and!. Qed.

Lemma init_values_sub args s h k framework master acks credential : h ⊆ k ->
  init_values args s h framework master acks credential -> init_values args s k framework master acks credential.
Proof.
  intros Hk (sch & fw & m & rest & -> & Hf & Hm & Hr). exists sch, fw, m, rest.
  split_and!; [done|by eapply converted_sub|done|].
  destruct rest as [|a [|c [|]]]; [done|done| |by destruct Hr].
  destruct Hr as (Ha & cr & -> & Hc). split; [done|]. exists cr. split; [done|by eapply converted_sub].
Qed.

(** The rest of an initialisation, once the arguments are read. *)
Lemma init_finish args s s1 h framework master acks credential : idle s1 -> at_rest s1 ->
  history s1 = history s ++ h -> self_python s1 = head args ->
  init_values args s h framework master acks credential -> (self_driver s1 = None \/ w_busy w (history s1) = false) ->
  wp (drop_driver (delete_driver w) ;;* modify (set_proxy false) ;;* modify (set_proxy true) ;;*
      new_driver_is (new_driver framework master acks credential) ;;* pret 0) (init_post args s) s1.
Proof.
  intros (G & Hp & L) (O & _ & Hx) Hh Hpy Hv Hb.
  apply wp_bind. eapply (wp_mono _ (fun _ s2 => exists k, s2 = mkPy (owned s1) (lists s1) None true None
    (self_proxy s1) (self_python s1) (history s1 ++ k))).
  - apply wp_bind. unfold wp at 1, get. destruct (self_driver s1) as [d|] eqn:Hd.
    + unfold wp, delete_driver. rewrite Hd, G. destruct Hb as [?|Hb]; [done|]. rewrite Hb. cbn [andb].
      exists [DeleteDriver true]. unfold log, set_driver. cbn. by rewrite Hp, G.
    + apply wp_ret. exists []. rewrite app_nil_r. destruct s1. cbn in *. by subst.
  - intros _ s2 [k ->]. repeat (apply wp_bind; unfold wp at 1, modify, new_driver_is). apply wp_ret.
    split_and!; [done|by split_and!|]. left. split_and!; [done|done|done|].
    exists (h ++ k ++ [NewDriver]), framework, master, acks, credential. split_and!; [|by eapply init_values_sub; [|done]; set_solver|done].
    cbn. by rewrite Hh, <- !app_assoc.
Qed.

Lemma init_fails args s o s1 s2 h : at_rest s -> s1 = set_owned (refs (Some o)) (set_python (Some o) s) ->
  frame s1 s2 ∅ h -> gil s2 = true -> lists s2 = ∅ -> pending s2 <> None -> init_post args s (-1) s2.
Proof.
  intros (O & L & Hx) Hs1 F G2 L2 P2. subst s1. split_and!; [done| |].
  - eapply frame_at_rest; [exact F| |done]. by split_and!.
  - right. split_and!; [done|done|].
    pose proof (run_calls_is_some _ _ _ (fr_driver _ _ _ _ F)) as Hd. cbn in Hd. tauto.
Qed.

(** The part of an initialisation after the arguments are parsed. *)
Definition init_build (sch fw : nat) (master : string) (acks : Z) (cred : option nat) : Py D Call Z :=
  replace_python sch ;;*
  let* framework := read_or_raise w (p_FrameworkInfo P) "FrameworkInfo" fw in
  match framework with
  | None => pret (-1)
  | Some framework =>
      let* credential :=
        match cred with
        | None => pret (Some None)
        | Some c => let* r := read_or_raise w (p_Credential P) "Credential" c in pret (Some <$> r)
        end in
      match credential with
      | None => pret (-1)
      | Some credential =>
          drop_driver (delete_driver w) ;;* modify (set_proxy false) ;;* modify (set_proxy true) ;;*
          new_driver_is (new_driver framework master (negb (acks =? 0)) credential) ;;* pret 0
      end
  end.

Lemma init_build_wp sch fw m rest master acks cred s : idle s -> at_rest s ->
  (self_driver s = None \/ forall h, w_busy w h = false) ->
  (forall h framework credential, converted (p_FrameworkInfo P) fw h framework ->
    match cred with
    | None => credential = None
    | Some c => exists cr, credential = Some cr /\ converted (p_Credential P) c h cr
    end -> init_values (sch :: fw :: m :: rest) s h framework master (negb (acks =? 0)) credential) ->
  wp (init_build sch fw master acks cred) (init_post (sch :: fw :: m :: rest) s) s.
Proof.
  intros I A Hb Hv. apply wp_bind. unfold wp at 1. rewrite replace_python_done by (apply I || apply A).
  set (s1 := set_owned _ _). assert (s1 = set_owned (refs (Some sch)) (set_python (Some sch) s)) as Hs1 by done.
  clearbody s1. assert (idle s1) as I1 by (destruct I as (? & ? & ?); by subst s1).
  assert (at_rest s1) as A1 by (destruct A as (? & ? & ?); subst s1; by split_and!).
  apply wp_bind. eapply wp_mono; [by apply (read_or_raise_reader w)|].
  intros r s2 (h & F & (G2 & L2 & E2) & R & Ht). destruct r as [framework|].
  2:{ apply wp_ret. eapply init_fails; [done|exact Hs1|exact F|done|done|by apply E2]. }
  assert (idle s2) as I2.
  { split_and!; [done| |done]. destruct (pending s2); [|done]. by pose proof (proj2 E2 ltac:(done)). }
  apply wp_bind. eapply (wp_mono _ (fun r s3 => exists k, frame s1 s3 ∅ (h ++ k) /\ ends r s3 /\
    forall credential, r = Some credential ->
      match cred with
      | None => credential = None
      | Some c => exists cr, credential = Some cr /\ converted (p_Credential P) c (h ++ k) cr
      end)).
  { destruct cred as [c|].
    - apply wp_bind. eapply wp_mono; [by apply (read_or_raise_reader w)|].
      intros r s3 (k & F3 & E3 & _ & Ht3). apply wp_ret. exists k. split_and!; [by eapply frame_then| |].
      + destruct E3 as (? & ? & E3). split_and!; [done|done|]. rewrite <- E3. by destruct r.
      + intros credential. destruct r as [cr|]; [|done]. intros [= <-]. exists cr. split; [done|].
        eapply converted_sub; [|by apply Ht3]. set_solver.
    - apply wp_ret. exists []. rewrite app_nil_r. split_and!; [done| |by intros c [= <-]].
      destruct I2 as (? & Hp2 & ?). split_and!; [done|done|]. by rewrite Hp2. }
  intros r s3 (k & F3 & (G3 & L3 & E3) & Hc). destruct r as [credential|].
  2:{ apply wp_ret. eapply init_fails; [done|exact Hs1|exact F3|done|done|by apply E3]. }
  apply (init_finish _ _ _ (h ++ k)).
  - split_and!; [done| |done]. destruct (pending s3); [|done]. by pose proof (proj2 E3 ltac:(done)).
  - by eapply frame_at_rest.
  - rewrite (fr_history _ _ _ _ F3). by subst s1.
  - rewrite (fr_python _ _ _ _ F3). by subst s1.
  - apply Hv; [eapply converted_sub; [|by apply Ht]; set_solver|by apply Hc].
  - destruct Hb as [Hb|Hb]; [left|by right]. pose proof (fr_driver _ _ _ _ F3) as Hd. subst s1. cbn in Hd.
    rewrite Hb in Hd. by injection Hd.
Qed.

Lemma init_ok args s : idle s -> at_rest s -> (self_driver s = None \/ forall h, w_busy w h = false) ->
  wp (MesosSchedulerDriverImpl_init w P new_driver args) (init_post args s) s.
Proof.
  intros I A Hb. apply wp_bind. eapply wp_mono; [apply PyArg_ParseTuple_wp, I|].
  intros [vs|] s1 H1.
  2:{ destruct H1 as [e ->]. apply wp_ret. by apply init_parse_fails. }
  destruct H1 as [-> Hs]. shapes args Hs.
  - apply (init_build_wp _ _ _ _ _ 1 None); [done|done|done|]. intros h fw cr Hf ->.
    eexists _, _, _, _. split; [reflexivity|]. split_and!; try done.
  - apply (init_build_wp _ _ _ _ _ _ None); [done|done|done|]. intros h fw cr Hf ->.
    eexists _, _, _, _. split; [reflexivity|]. split_and!; try done; eauto.
  - apply (init_build_wp _ _ _ _ _ _ (Some _)); [done|done|done|]. intros h fw cr Hf Hc.
    eexists _, _, _, _. split; [reflexivity|]. split_and!; try done; eauto.
Qed.

(** An initialisation of the driver object, also of one that was initialised
    before: the object keeps exactly one reference, to the framework given last, and a
    driver with its proxy; the new driver is made of the values of the arguments, or
    an exception is left and the old driver stays.  (The old driver must not have a
    callback that waits for the interpreter lock.) *)
Theorem scheduler_init args s : idle s -> at_rest s -> (self_driver s = None \/ forall h, w_busy w h = false) ->
  wp (MesosSchedulerDriverImpl_init w P new_driver args) (init_post args s) s.
Proof. exact (init_ok args s). Qed.

(** The references of the driver object and Python's garbage collector:
    [tp_traverse] visits exactly the references the object owns, and [tp_clear] gives
    them all back. *)
Theorem scheduler_gc (s : St) : gil s = true -> at_rest s ->
  (exists visited, MesosSchedulerDriverImpl_traverse s = Done visited s /\ list_to_set_disj visited = owned s) /\
  MesosSchedulerDriverImpl_clear s = Done 0 (set_owned ∅ (set_python None s)).
Proof.
  intros G A. split; [|unfold MesosSchedulerDriverImpl_clear; by rewrite (bind_done _ _ _ _ _ (Py_CLEAR_done s G A))].
  destruct A as (O & _ & _). unfold MesosSchedulerDriverImpl_traverse, Py_VISIT_python, get. rewrite O.
  destruct (self_python s) as [o|]; eexists; (split; [reflexivity|]);
    rewrite ?list_to_set_disj_cons, list_to_set_disj_nil; cbn [refs]; multiset_solver.
Qed.

(** The destruction of the driver object always ends: the native driver is deleted
    without the interpreter lock, so that callbacks that wait for it can finish, and no
    reference is left. *)
Theorem scheduler_dealloc s : gil s = true -> at_rest s ->
  exists s', MesosSchedulerDriverImpl_dealloc w s = Done tt s' /\ gil s' = true /\ owned s' = ∅ /\
    self_driver s' = None /\ self_proxy s' = false /\ self_python s' = None /\
    history s' = history s ++ match self_driver s with Some _ => [DeleteDriver false] | None => [] end.
Proof.
  intros G A. unfold MesosSchedulerDriverImpl_dealloc, MesosSchedulerDriverImpl_clear.
  by apply dealloc_done.
Qed.

(** ** Everything that can happen to a driver object *)

(** Python takes the result of a method, and the exception, if there is one. *)
Definition taken (r : option nat) (s : St) : St := set_pending None (set_owned (owned s ∖ refs r) s).

(** The native code a driver object is used with. *)
Inductive Operation :=
| OpInit (args : list nat)
| OpMethod (name : string) (args : list nat)
| OpCallback (cb : SchedulerCallback) (holds_gil : bool)
| OpClear.

(** Memory for an object, which no native code has used yet: no reference is owned, and
    what the fields hold is not known. *)
Definition fresh (s : St) : Prop := owned s = ∅ /\ idle s.

Definition run_operation (op : Operation) (s : St) : PyResult D Call St :=
  match op with
  | OpInit args => (let* _ := MesosSchedulerDriverImpl_init w P new_driver args in get (taken None)) s
  | OpMethod name args => (let* r := scheduler_method w P name args in get (taken r)) s
  | OpCallback cb holds => (let* _ := ProxyScheduler w P cb in get (set_gil true)) (set_gil holds s)
  | OpClear => (let* _ := MesosSchedulerDriverImpl_clear in get id) s
  end.

(** Only a driver calls back; a failover argument is 0 or 1, as another byte is no
    value of a [bool] (see [stop_byte]). *)
Definition allowed (op : Operation) (s : St) : Prop :=
  match op with
  | OpCallback _ _ => is_Some (self_driver s)
  | OpMethod name args => bool_failover w name args s
  | _ => True
  end.

Inductive py_reachable : St -> Prop :=
| pyr_new self s0 s : fresh s0 -> MesosSchedulerDriverImpl_new (Some self) s0 = Done (Some self) s -> py_reachable s
| pyr_step op s s1 s' : py_reachable s -> allowed op s -> run_operation op s = Done s' s1 -> py_reachable s'.

Section Reachable.
  Context (Hkeep : keeps_pending w) (Hself : forall h, w_alloc w h <> Some (w_self w)) (Hbusy : forall h, w_busy w h = false).

(** The result of every operation, as one statement. *)
Definition fine (s : St) : Prop := idle s /\ at_rest s.

Lemma new_fine self s0 s : fresh s0 -> MesosSchedulerDriverImpl_new (Some self) s0 = Done (Some self) s -> fine s.
Proof. intros (O & G & Hp & L) [= <-]. split; by split_and!. Qed.

(** A reference handed to Python is no longer owned. *)
Lemma taken_owned (X : gmultiset nat) r s : owned s = X ⊎ refs r -> owned (taken r s) = X.
Proof. intros O. cbn [owned set_owned taken set_pending]. rewrite O. multiset_solver. Qed.

Lemma method_fine name args s : fine s -> bool_failover w name args s ->
  wp (scheduler_method w P name args) (fun r s' => fine (taken r s')) s.
Proof.
  intros [I A] B. pose proof A as (O & _ & Hx). destruct (blocking name) eqn:Eb.
  - pose proof (blocking_methods_post name args s I Eb) as H. unfold wp.
    destruct (scheduler_method w P name args s) as [r s'| |s'| |]; try done; [|by destruct H].
    destruct H as ((G & L & E) & Ho & Px & Py & Hd & _). split; [by split_and!|]. split_and!; [|done|].
    + rewrite (taken_owned (owned s) r s' Ho), O. cbn. by rewrite Py.
    + cbn. rewrite Px, Hx. by apply bool_decide_ext.
  - eapply wp_mono; [by apply methods_post|]. intros r s' (h & F & (G & L & E) & _).
    split; [by split_and!|]. split_and!; [|done|].
    + rewrite (taken_owned (owned s) r s' (fr_owned _ _ _ _ F)), O. cbn. by rewrite (fr_python _ _ _ _ F).
    + cbn. rewrite (fr_proxy _ _ _ _ F), Hx. apply bool_decide_ext, run_calls_is_some with (natives h), F.
Qed.

Lemma callback_fine cb holds s : fine s -> is_Some (self_driver s) ->
  wp (ProxyScheduler w P cb) (fun _ s' => fine (set_gil true s')) (set_gil holds s).
Proof.
  intros [(G & Hp & L) A] Hd. eapply wp_mono; [apply callbacks_served; try done; by destruct cb|].
  intros _ s' (h & F & L' & P' & _). split; [by split_and!|].
  apply (frame_at_rest (set_gil holds s) s' h) in A; [|done|done]. by destruct A.
Qed.

Lemma operation_fine op s : fine s -> allowed op s ->
  match run_operation op s with
  | Done s' _ => fine s'
  | Exited s' => pending s' = Some SystemExit
  | Waiting s' => gil s' = false
  | Aborted _ => True
  | Misuse _ => False
  end.
Proof.
  intros Hf Hal. change (wp (fun s => run_operation op s) (fun s' _ => fine s') s).
  destruct op as [args|name args|cb holds|]; cbn [run_operation allowed] in *.
  - destruct Hf as [I A]. apply wp_bind. eapply wp_mono; [apply init_ok; [done|done|by right]|].
    intros r s' (G & (O & L & Hx) & _). unfold wp, get. split; [by split_and!|]. split_and!; [|done|done].
    by apply taken_owned; rewrite refs_none.
  - apply wp_bind. eapply wp_mono; [by apply method_fine|]. done.
  - change (wp (let* _ := ProxyScheduler w P cb in get (set_gil true)) (fun s' _ => fine s') (set_gil holds s)).
    apply wp_bind. eapply wp_mono; [by apply callback_fine|]. done.
  - destruct Hf as [(G & Hp & L) A]. apply wp_bind. unfold wp at 1, MesosSchedulerDriverImpl_clear.
    rewrite (bind_done _ _ _ _ _ (Py_CLEAR_done s G A)). unfold wp, get, id. destruct A as (O & _ & Hx).
    split; [by split_and!|]. by split_and!.
Qed.

(** C11: Consider a driver object from its creation, in any order of initialisations,
    method calls, callbacks and collections, where: Python code that is called with an
    exception pending does not clear it; the allocator does not return the driver object
    itself; no callback waits for the interpreter lock while the object is initialised;
    only an object with a driver is called back; the failover argument of stop is a byte 0 or 1; and Python code that runs
    inside a call uses the driver object through its methods only. Then in every state
    the object gets into it owns exactly its reference to the framework, has a proxy if
    and only if it has a driver, and no exception is pending; any such operation breaks no
    rule of the C API; and the destruction of the object completes, with the driver
    deleted outside the lock and no reference, driver or proxy left. *)
Theorem scheduler_object_safe s : py_reachable s -> idle s /\ at_rest s /\
  (forall op, allowed op s -> match run_operation op s with Misuse _ => False | _ => True end) /\
  exists s', MesosSchedulerDriverImpl_dealloc w s = Done tt s' /\ gil s' = true /\ owned s' = ∅ /\
    self_driver s' = None /\ self_proxy s' = false /\ self_python s' = None /\
    history s' = history s ++ match self_driver s with Some _ => [DeleteDriver false] | None => [] end.
Proof.
  intros R. assert (fine s) as [I A].
  { induction R as [self s0 s F E|op s s1 s' _ IH Hal E]; [by eapply new_fine|].
    pose proof (operation_fine op s IH Hal) as H. by rewrite E in H. }
  split; [done|]. split; [done|]. split; [|apply dealloc_done; [apply I|done]]. intros op Hal.
  pose proof (operation_fine op s (conj I A) Hal) as H. by destruct (run_operation op s).
Qed.

End Reachable.

(** ** What goes wrong *)

(** Initialising a driver object again deletes its driver with the lock held: if a
    callback waits for the lock, neither ever gets on. *)
Lemma reinit_deadlock sch fw m framework master d s : idle s -> at_rest s ->
  honest_conv w FrameworkInfo (p_FrameworkInfo P) fw framework ->
  w_text w (history s) m = Some master -> has_nul master = false ->
  self_driver s = Some d -> (forall h, w_busy w h = true) ->
  exists s', MesosSchedulerDriverImpl_init w P new_driver [sch; fw; m] s = Waiting s' /\ gil s' = true.
Proof.
  intros I A Hf Ht Hn Hd Hb. pose proof I as (G & Hp & L). unfold MesosSchedulerDriverImpl_init.
  erewrite (bind_done _ _ s _ s).
  2:{ cbn. unfold convert_arg, with_gil, pbind, pret, get. repeat (rewrite ?G, ?Ht, ?Hn; cbn). reflexivity. }
  cbn zeta iota. erewrite bind_done by (apply replace_python_done; [done|done|apply A]).
  destruct (honest_read_or_raise w (p_FrameworkInfo P) "FrameworkInfo" fw framework
    (set_owned (refs (Some sch)) (set_python (Some sch) s)) I Hf) as (s1 & E1 & (G1 & ? & ?) & D1).
  rewrite (bind_done _ _ _ _ _ E1). cbn iota. rewrite (bind_done (pret (Some None)) _ s1 _ s1 eq_refl). cbn iota.
  exists s1. split; [|done]. unfold pbind at 1, drop_driver, pbind at 1, get.
  rewrite D1. cbn [self_driver set_owned set_python]. rewrite Hd. unfold delete_driver. rewrite D1. cbn.
  by rewrite Hd, G1, Hb.
Qed.

End LifeCycle.

(** ** The scheduler driver of Scheduler.v *)

Section Driver.
  Context (new_uuid : nat -> string) (now : nat -> Z) (callback : Callback -> State -> outcome State).

#[local] Instance native_scheduler : NativeDriver State Call := scheduler_native new_uuid now callback.

(** A callback into a Python framework is, for the driver, a sequence of calls of
    its methods: those Python makes, and an abort at the end if the framework was
    not reached. *)
Lemma python_reacts (w : World State Call) ab method deliv willing d s s' :
  served ab method deliv willing s s' -> self_driver s = Some d ->
  exists calls d', self_driver s' = Some d' /\
    ofold (fun d c => driver_call new_uuid now callback c d) calls d = Ret d'.
Proof.
  intros (h & F & _) Hd. pose proof (fr_driver _ _ _ _ F) as E. rewrite Hd in E. unfold run_calls in E.
  destruct (ofold _ (natives h) d) as [d'|] eqn:Eo; [|done]. cbn in E. injection E as E.
  exists (natives h), d'. split; [done|]. rewrite <- Eo.
  clear. revert d. induction (natives h) as [|c cs IH]; intros d; [done|]. cbn.
  destruct (driver_call new_uuid now callback c d) as [d1|]; cbn; [apply IH|done].
Qed.

End Driver.

(** ** A framework, and a Python world *)

Module PyExample.

#[export] Instance driver : NativeDriver State Call :=
  scheduler_native (fun _ => "uuid") (fun _ => 0) (fun c s => Ret (emit (Called c) s)).

Definition text : Proto string := mkProto Some Some.
Definition status_of (id : string) : TaskStatus := mkTaskStatus id TASK_RUNNING None None None.
Definition protos : SchedulerProtos := mkSchedulerProtos text text text text
  (mkProto (fun t => Some (ts_task_id t)) (fun b => Some (status_of b))) text text
  (mkProto (fun f => Some (fw_name f)) (fun b => Some (mkFramework b None))) text text
  (mkProto (fun t => Some (ti_task_id t)) (fun b => Some (mkTaskInfo b "slave" None true None)))
  text (mkProto (fun _ => Some "op") (fun b => Some (OpOther 0))) text "".

(** Object 2 is the framework, 3 stands for every message class, 20 is the list of
    the messages 21 and 22, which serialise to 11 and 12; [raises] are the methods
    of the framework that raise, [missing] the classes that are not found. *)
Definition world (raises missing : list string) (clears : bool) (driver : State) : World State Call := {|
  w_none := 0;
  w_self := 1;
  w_call _ o m _ :=
    if decide (m ∈ raises \/ o = 20%nat) then mkReply [] (Raises (Exception "error")) false
    else mkReply [] (Returns (if decide (m = "SerializeToString") then (o - 10)%nat else 10%nat)) clears;
  w_text _ o := Some (if decide (o = 12%nat) then "second" else "first");
  w_int _ _ := Some 1;
  w_items _ o := if decide (o = 20%nat) then Some [21%nat; 22%nat] else None;
  w_pb2_dict _ := true;
  w_pb2 _ name := if decide (name ∈ missing) then None else Some (3%nat, true);
  w_alloc _ := Some 30%nat;
  w_wait _ := Some driver;
  w_busy _ := false |}.

Definition running : State := new_driver (mkFramework "fw" (Some "id")) "master".
Definition started : State :=
  match driver_start (set_connected true running) with Ret s => set_channels true (set_connected true s) | Fatal _ => running end.
Definition start : PyState State Call := mkPy {[+ 2%nat +]} ∅ None true (Some started) true (Some 2%nat) [].
(** ... on the thread of the event loop, without the lock. *)
Definition unlocked : PyState State Call := set_gil false start.

End PyExample.
Import PyExample.

Lemma proxy_scheduler_callbacks_witness :
  let w := world ["resourceOffers"] [] false started in
  wp (ProxyScheduler w protos (ResourceOffers ["a"; "b"]))
    (fun _ s' => served true "resourceOffers" (callback_args w protos (ResourceOffers ["a"; "b"]))
       (callback_willing w protos (ResourceOffers ["a"; "b"]) unlocked) unlocked s') unlocked /\
  match ProxyScheduler w protos (ResourceOffers ["a"; "b"]) unlocked with
  | Done _ s' => status <$> self_driver s' = Some DRIVER_ABORTED /\ owned s' = owned unlocked /\ gil s' = false
  | _ => False
  end.
Proof.
  intros w. split; [|by vm_compute].
  by apply (proxy_scheduler_callbacks w protos (ResourceOffers ["a"; "b"]) unlocked I).
Defined.

Lemma scheduler_methods_witness :
  let w := world [] [] false started in
  wp (scheduler_method w protos "launchTasks" [21; 20]%nat)
    (method_post (asked w protos start "launchTasks" [21; 20]%nat) start) start.
Proof. intros w. by apply (scheduler_methods w protos "launchTasks" [21; 20]%nat start). Defined.

Lemma scheduler_methods_complete_witness :
  let w := world [] [] false started in
  match nd_invoke (DReconcileTasks [status_of "first"; status_of "second"]) started with
  | Ret (d', st) => returns_status (scheduler_method w protos "reconcileTasks" [20%nat]) d' st start
  | Fatal _ => False
  end.
Proof.
  intros w. destruct (nd_invoke _ started) as [[d' st]|] eqn:E; [|by vm_compute in E].
  apply (scheduler_methods_complete w protos "reconcileTasks" [20%nat] start
    (DReconcileTasks [status_of "first"; status_of "second"]) started d' st); [| |done|done|done|done].
  2:{ split_and!; [done|done|]. intros o [= <-] (b & _ & Hm). destruct (Hm []) as (res & cl & [=] & _). }
  constructor. exists [21; 22]%nat. split; [done|]. repeat constructor.
  - exists "first". split; [|done]. split; [done|]. intros h. exists 11%nat, false. done.
  - exists "second". split; [|done]. split; [done|]. intros h. exists 12%nat, false. done.
Defined.

Lemma scheduler_blocking_methods_witness :
  let w := world [] [] false started in
  match scheduler_method w protos "join" [] start with
  | Waiting s' => gil s' = false /\ owned s' = owned start
  | _ => False
  end.
Proof. intros w. refine (scheduler_blocking_methods w protos "join" [] start _ _); done. Defined.

Lemma scheduler_init_witness :
  let w := world [] [] false started in
  let new := fun f m _ _ => new_driver f m in
  wp (MesosSchedulerDriverImpl_init w protos new [4; 21; 5]%nat)
    (init_post w protos new [4; 21; 5]%nat start) start.
Proof. intros w new. apply (scheduler_init w protos new [4; 21; 5]%nat start); [done|done|by right]. Defined.

Lemma scheduler_dealloc_witness :
  let w := world [] [] false started in
  exists s', MesosSchedulerDriverImpl_dealloc w start = Done tt s' /\ gil s' = true /\ owned s' = ∅ /\
    self_driver s' = None /\ self_proxy s' = false /\ self_python s' = None /\
    history s' = [DeleteDriver false].
Proof. intros w. refine (scheduler_dealloc w start _ _); done. Defined.

Lemma scheduler_object_safe_witness :
  let w := world [] [] false started in
  let new := fun f m _ _ => new_driver f m in
  let s := mkPy {[+ 4%nat +]} ∅ None true (Some (new_driver (mkFramework "first" None) "first")) true (Some 4%nat)
    [PyCalled 21%nat "SerializeToString" [] [] (Some 11%nat); PyText 11%nat "first"; NewDriver] in
  idle s /\ at_rest s /\
  (forall op, allowed w op s -> match run_operation w protos new op s with Misuse _ => False | _ => True end) /\
  exists s', MesosSchedulerDriverImpl_dealloc w s = Done tt s' /\ gil s' = true /\ owned s' = ∅ /\
    self_driver s' = None /\ self_proxy s' = false /\ self_python s' = None /\
    history s' = history s ++ [DeleteDriver false].
Proof.
  intros w new s. apply (scheduler_object_safe w protos new); [intros ? ? ? ?; cbn; by case_decide|done|done|].
  assert (exists s1, run_operation w protos new (OpInit [4; 21; 5]%nat) (mkPy ∅ ∅ None true None false None []) = Done s s1)
    as [s1 E] by (eexists; vm_compute; reflexivity).
  eapply pyr_step; [| |exact E]; [|done].
  by apply (pyr_new _ _ _ 1%nat (mkPy ∅ ∅ None true None true None [])).
Defined.

Lemma scheduler_gc_witness :
  (exists visited, MesosSchedulerDriverImpl_traverse start = Done visited start /\ list_to_set_disj visited = owned start) /\
  MesosSchedulerDriverImpl_clear start = Done 0 (set_owned ∅ (set_python None start)).
Proof. apply (scheduler_gc start); done. Defined.

(** A Python class that clears the error indicator hides that the first message of
    [executorLost] could not be made: the framework is not called, and the driver
    goes on. *)
Lemma executorLost_silent :
  let w := world [] ["ExecutorID"] true started in
  match ProxyScheduler w protos (ExecutorLost "e" "s" 1) unlocked with
  | Done _ s' => status <$> self_driver s' = Some DRIVER_RUNNING /\
                 history s' = [PyCalled 3%nat "FromString" [ArgText "s"] [] (Some 10%nat)]
  | _ => False
  end.
Proof. by vm_compute. Qed.

(** [stop(2)] stores a byte in a [bool] that is neither true nor false. *)
Lemma stop_byte d : let w := world [] [] false started in
  scheduler_method {| w_none := w_none w; w_self := w_self w; w_call := w_call w; w_text := w_text w;
    w_int _ _ := Some 2; w_items := w_items w; w_pb2_dict := w_pb2_dict w; w_pb2 := w_pb2 w;
    w_alloc := w_alloc w; w_wait := w_wait w; w_busy := w_busy w |} protos "stop" [5%nat] (set_driver (Some d) start)
  = Misuse "a byte that is no bool".
Proof. done. Qed.

(** A message of 4 GiB and [n] bytes reaches Python as its first [n] bytes. *)
Lemma s_hash_truncates data n : (n < 2 ^ 31)%Z -> Z.of_nat (String.length data) = (2 ^ 32 + n)%Z -> (0 <= n)%Z ->
  s_hash data = ArgText (String.substring 0 (Z.to_nat n) data).
Proof.
  intros Hn Hl H0. unfold s_hash, va_int. rewrite Hl.
  replace ((2 ^ 32 + n) mod 2 ^ 32) with n.
  - destruct (Z.ltb_spec n (2 ^ 31)); [|lia]. cbn zeta. destruct (Z.ltb_spec n 0); [lia|done].
  - apply Z.mod_unique_pos with 1; lia.
Qed.
