(* ===== verification/PyExecutor.v ===== *)
(** * The Python binding of the executor driver (python-bindings/executor/src/mesos/executor)

    proxy_executor.cpp is the native executor that calls the Python object;
    mesos_executor_driver_impl.cpp is the Python type whose methods call the native
    driver. *)
From stdpp Require Import gmultiset.
From S2P Require Import Prelude Scheduler Executor Native PyApi.

Section Binding.
  Context {D : Type} `{ND : NativeDriver D Executor.Call} (w : World D Executor.Call) (Q : ExecutorProtos).
  (** [new MesosExecutorDriver(...)] *)
  Context (new_driver : D).

Abbreviation Bind := (Py D Executor.Call) (only parsing).

(** ** ProxyExecutor *)

(** The three messages are created before any is looked at. *)
Definition ProxyExecutor_registered (executorInfo frameworkInfo slaveInfo : string) : Bind unit := InterpreterLock (
  let* executorInfoObj := createPythonProtobuf w (q_ExecutorInfo Q) executorInfo "ExecutorInfo" in
  let* frameworkInfoObj := createPythonProtobuf w (q_FrameworkInfo Q) frameworkInfo "FrameworkInfo" in
  let* slaveInfoObj := createPythonProtobuf w (q_SlaveInfo Q) slaveInfo "SlaveInfo" in
  match executorInfoObj, frameworkInfoObj, slaveInfoObj with
  | Some e, Some f, Some i =>
      let* res := call_framework w "registered" [ArgObj e; ArgObj f; ArgObj i] in
      cleanup true [executorInfoObj; frameworkInfoObj; slaveInfoObj; res]
  | _, _, _ => cleanup true [executorInfoObj; frameworkInfoObj; slaveInfoObj; None]
  end).

Definition ProxyExecutor_reregistered (slaveInfo : string) : Bind unit := InterpreterLock (
  let* slaveInfoObj := createPythonProtobuf w (q_SlaveInfo Q) slaveInfo "SlaveInfo" in
  match slaveInfoObj with
  | None => cleanup true [slaveInfoObj; None]
  | Some i =>
      let* res := call_framework w "reregistered" [ArgObj i] in
      cleanup true [slaveInfoObj; res]
  end).

Definition ProxyExecutor_disconnected : Bind unit := InterpreterLock (
  let* res := call_framework w "disconnected" [] in
  cleanup true [res]).

Definition ProxyExecutor_launchTask (task : TaskInfo) : Bind unit := InterpreterLock (
  let* taskObj := createPythonProtobuf w (q_TaskInfo Q) task "TaskInfo" in
  match taskObj with
  | None => cleanup true [taskObj; None]
  | Some t =>
      let* res := call_framework w "launchTask" [ArgObj t] in
      cleanup true [taskObj; res]
  end).

Definition ProxyExecutor_killTask (taskId : string) : Bind unit := InterpreterLock (
  let* taskIdObj := createPythonProtobuf w (q_TaskID Q) taskId "TaskID" in
  match taskIdObj with
  | None => cleanup true [taskIdObj; None]
  | Some t =>
      let* res := call_framework w "killTask" [ArgObj t] in
      cleanup true [taskIdObj; res]
  end).

Definition ProxyExecutor_frameworkMessage (data : string) : Bind unit := InterpreterLock (
  let* res := call_framework w "frameworkMessage" [s_hash data] in
  cleanup true [res]).

Definition ProxyExecutor_shutdown : Bind unit := InterpreterLock (
  let* res := call_framework w "shutdown" [] in
  cleanup true [res]).

Definition ProxyExecutor_error (message : string) : Bind unit := InterpreterLock (
  let* res := call_framework w "error" [s_hash message] in
  cleanup false [res]).

(** The virtual functions of [ProxyExecutor]. *)
Definition ProxyExecutor (cb : ExecutorCallback) : Bind unit :=
  match cb with
  | ExRegistered e f i => ProxyExecutor_registered e f i
  | ExReregistered i => ProxyExecutor_reregistered i
  | ExDisconnected => ProxyExecutor_disconnected
  | ExLaunchTask t => ProxyExecutor_launchTask t
  | ExKillTask t => ProxyExecutor_killTask t
  | ExFrameworkMessage d => ProxyExecutor_frameworkMessage d
  | ExShutdown => ProxyExecutor_shutdown
  | ExError m => ProxyExecutor_error m
  end.

(** ** MesosExecutorDriverImpl: life cycle *)

Definition MesosExecutorDriverImpl_new (allocated : ptr) : Bind ptr :=
  match allocated with
  | None => pret None
  | Some self =>
      modify (set_driver None) ;;* modify (set_proxy false) ;;* modify (set_python None) ;;* pret (Some self)
  end.

Definition MesosExecutorDriverImpl_init (args : list obj) : Bind Z :=
  let* values := PyArg_ParseTuple w args "O" in
  match values with
  | None => pret (-1)
  | Some [VObj pythonExecutor] =>
      replace_python pythonExecutor ;;*
      drop_driver (delete_driver w) ;;*
      modify (set_proxy false) ;;* modify (set_proxy true) ;;*
      new_driver_is new_driver ;;* pret 0
  | Some _ => misuse "values that do not match the format"
  end.

Definition MesosExecutorDriverImpl_clear : Bind Z := Py_CLEAR_python ;;* pret 0.

Definition MesosExecutorDriverImpl_traverse : Bind (list obj) :=
  Py_VISIT_python.

Definition MesosExecutorDriverImpl_dealloc : Bind unit :=
  drop_driver (allow_threads (delete_driver w)) ;;*
  modify (set_proxy false) ;;*
  MesosExecutorDriverImpl_clear ;;* pret tt.

(** ** MesosExecutorDriverImpl: methods *)

Abbreviation impl := "MesosExecutorDriverImpl" (only parsing).

Definition MesosExecutorDriverImpl_start : Bind ptr :=
  with_driver impl (let* status := invoke Executor.DStart in return_status w status).

Definition MesosExecutorDriverImpl_stop : Bind ptr :=
  with_driver impl (let* status := invoke Executor.DStop in return_status w status).

Definition MesosExecutorDriverImpl_abort : Bind ptr :=
  with_driver impl (let* status := invoke Executor.DAbort in return_status w status).

Definition MesosExecutorDriverImpl_join : Bind ptr :=
  with_driver impl (let* status := allow_threads (invoke_join w) in return_status w status).

Definition MesosExecutorDriverImpl_run : Bind ptr :=
  with_driver impl (let* status := allow_threads (invoke_run w) in return_status w status).

Definition MesosExecutorDriverImpl_sendStatusUpdate (args : list obj) : Bind ptr :=
  with_driver impl (
    let* values := PyArg_ParseTuple w args "O" in
    match values with
    | None => pret None
    | Some [VObj statusObj] =>
        let* taskStatus := read_or_raise w (q_TaskStatus Q) "TaskStatus" statusObj in
        match taskStatus with
        | None => pret None
        | Some taskStatus =>
            let* status := invoke (Executor.DSendStatusUpdate taskStatus) in return_status w status
        end
    | Some _ => misuse "values that do not match the format"
    end).

Definition MesosExecutorDriverImpl_sendFrameworkMessage (args : list obj) : Bind ptr :=
  with_driver impl (
    let* values := PyArg_ParseTuple w args "s#" in
    match values with
    | None => pret None
    | Some [VText data] =>
        let* status := invoke (Executor.DSendFrameworkMessage data) in return_status w status
    | Some _ => misuse "values that do not match the format"
    end).

(** ** The table of methods *)

Definition MesosExecutorDriverImpl_methods : list (string * Method D Executor.Call) :=
  [("start", METH_NOARGS MesosExecutorDriverImpl_start);
   ("stop", METH_NOARGS MesosExecutorDriverImpl_stop);
   ("abort", METH_NOARGS MesosExecutorDriverImpl_abort);
   ("join", METH_NOARGS MesosExecutorDriverImpl_join);
   ("run", METH_NOARGS MesosExecutorDriverImpl_run);
   ("sendStatusUpdate", METH_VARARGS MesosExecutorDriverImpl_sendStatusUpdate);
   ("sendFrameworkMessage", METH_VARARGS MesosExecutorDriverImpl_sendFrameworkMessage)].

(** Python's call of a method of the driver object. *)
Definition executor_method (name : string) (args : list obj) : Bind ptr :=
  call_method (assoc name MesosExecutorDriverImpl_methods) args.

End Binding.
