(* ===== verification/PyExecutorProperties.v ===== *)
(** * What the Python binding of the executor driver guarantees

    As for the scheduler (PySchedulerProperties.v): the callbacks, the methods and
    the life cycle of the driver object. *)
From stdpp Require Import gmultiset.
From S2P Require Import Prelude Scheduler Executor Native PyApi PyLogic PyExecutor.

Section Properties.
  Context {D : Type} `{ND : NativeDriver D Executor.Call} (w : World D Executor.Call) (Q : ExecutorProtos).
  Context (new_driver : D).

Abbreviation St := (PyState D Executor.Call).
Abbreviation Ev := (PyEvent Executor.Call).

(** ** Callbacks *)

Definition ex_callback_method (cb : ExecutorCallback) : string :=
  match cb with
  | ExRegistered _ _ _ => "registered"
  | ExReregistered _ => "reregistered"
  | ExDisconnected => "disconnected"
  | ExLaunchTask _ => "launchTask"
  | ExKillTask _ => "killTask"
  | ExFrameworkMessage _ => "frameworkMessage"
  | ExShutdown => "shutdown"
  | ExError _ => "error"
  end.
Definition ex_callback_aborts (cb : ExecutorCallback) : bool :=
  match cb with ExError _ => false | _ => true end.

Definition ex_callback_args (cb : ExecutorCallback) (h : list Ev) (args : list PyArg) : Prop :=
  exists rest, args = ArgObj (w_self w) :: rest /\
  match cb with
  | ExRegistered e f i => exists a b c, rest = [ArgObj a; ArgObj b; ArgObj c] /\
      created (q_ExecutorInfo Q) e h a /\ created (q_FrameworkInfo Q) f h b /\ created (q_SlaveInfo Q) i h c
  | ExReregistered i => exists a, rest = [ArgObj a] /\ created (q_SlaveInfo Q) i h a
  | ExDisconnected | ExShutdown => rest = []
  | ExLaunchTask t => exists a, rest = [ArgObj a] /\ created (q_TaskInfo Q) t h a
  | ExKillTask t => exists a, rest = [ArgObj a] /\ created (q_TaskID Q) t h a
  | ExFrameworkMessage d => rest = [s_hash d]
  | ExError m => rest = [s_hash m]
  end.

Definition ex_callback_willing (cb : ExecutorCallback) (s : St) : Prop :=
  cooperative w /\ is_Some (self_python s) /\
  match cb with
  | ExRegistered e f i => is_Some (SerializeToString (q_ExecutorInfo Q) e) /\
      is_Some (SerializeToString (q_FrameworkInfo Q) f) /\ is_Some (SerializeToString (q_SlaveInfo Q) i)
  | ExReregistered i => is_Some (SerializeToString (q_SlaveInfo Q) i)
  | ExLaunchTask t => is_Some (SerializeToString (q_TaskInfo Q) t)
  | ExKillTask t => is_Some (SerializeToString (q_TaskID Q) t)
  | _ => True
  end.

Lemma ex_registered_served e f i s : keeps_pending w ->
  pending s = None -> lists s = ∅ -> is_Some (self_driver s) ->
  wp (ProxyExecutor_registered w Q e f i)
    (fun _ s' => served true "registered" (ex_callback_args (ExRegistered e f i))
       (ex_callback_willing (ExRegistered e f i) s) s s') s.
Proof.
  intros K Hp L Hd. apply served_lock. pose proof (start_making s L Hd) as M.
  apply wp_bind. eapply wp_mono; [exact (making_create w _ _ _ _ _ _ _ M)|].
  intros r1 s1 (k1 & M1 & L1 & N1 & S1 & C1). cbn [app] in M1.
  apply wp_bind. eapply wp_mono;
    [apply wp_and; [exact (making_create w _ _ _ _ _ _ _ M1)|apply (createPythonProtobuf_keeps _ _ _ _ _ K), M1]|].
  intros r2 s2 ((k2 & M2 & L2 & N2 & S2 & C2) & K2). cbn [app] in M2.
  apply wp_bind. eapply wp_mono;
    [apply wp_and; [exact (making_create w _ _ _ _ _ _ _ M2)|apply (createPythonProtobuf_keeps _ _ _ _ _ K), M2]|].
  intros r3 s3 ((k3 & M3 & L3 & N3 & S3 & C3) & K3). cbn [app] in M3.
  assert (lists s3 = ∅) by (rewrite L3, L2, L1; assumption).
  destruct r1 as [a|]; [destruct r2 as [b|]; [destruct r3 as [c|]|]|].
  - assert (pending s1 = None) by (destruct (S1 ltac:(done)) as [E|E]; rewrite E; assumption || done).
    assert (pending s2 = None) by (rewrite (K2 ltac:(done)); assumption).
    assert (pending s3 = None) by (rewrite (K3 ltac:(done)); assumption).
    call_step M3.
  - eapply served_early; [done|apply making_null in M3; exact M3|by apply N3|unwilling C3].
  - eapply served_early; [done|apply making_null in M3; exact M3| |unwilling C2].
    destruct r3; [rewrite (K3 ltac:(done)); by apply N2|by apply N3].
  - eapply served_early; [done|apply making_null in M3; destruct r2; exact M3| |unwilling C1].
    destruct r3; [rewrite (K3 ltac:(done))|by apply N3].
    destruct r2; [rewrite (K2 ltac:(done)); by apply N1|by apply N2].
Qed.

(** Every callback of the executor driver into Python, whatever Python answers: the
    rules of the C API are kept, and the executor's method is called with the
    callback's messages and returns, or the driver is aborted (except by the callback
    error), and the latter only if Python did not answer, the executor object is gone,
    or a message does not serialise. *)
Theorem proxy_executor_callbacks cb s :
  match cb with ExRegistered _ _ _ => keeps_pending w | _ => True end ->
  pending s = None -> lists s = ∅ -> is_Some (self_driver s) ->
  wp (ProxyExecutor w Q cb)
    (fun _ s' => served (ex_callback_aborts cb) (ex_callback_method cb) (ex_callback_args cb)
       (ex_callback_willing cb s) s s') s.
Proof.
  intros K Hp L Hd. pose proof (start_making s L Hd) as M.
  destruct cb; cbn [ProxyExecutor ex_callback_aborts ex_callback_method].
  - by apply ex_registered_served.
  - apply served_lock. create_step M k Cr. call_step M.
  - apply served_lock. call_step M.
  - apply served_lock. create_step M k Cr. call_step M.
  - apply served_lock. create_step M k Cr. call_step M.
  - apply served_lock. call_step M.
  - apply served_lock. call_step M.
  - apply served_lock. call_step M.
Qed.

(** ** Methods *)

(** What a method call asks of the driver. *)
Inductive ex_requests (conv : forall T, Proto T -> nat -> T -> Prop) (s : St) :
    string -> list nat -> Executor.Call -> Prop :=
| xq_start : ex_requests conv s "start" [] Executor.DStart
| xq_stop : ex_requests conv s "stop" [] Executor.DStop
| xq_abort : ex_requests conv s "abort" [] Executor.DAbort
| xq_sendStatusUpdate o st : conv _ (q_TaskStatus Q) o st ->
    ex_requests conv s "sendStatusUpdate" [o] (Executor.DSendStatusUpdate st)
| xq_sendFrameworkMessage o data : w_text w (history s) o = Some data ->
    ex_requests conv s "sendFrameworkMessage" [o] (Executor.DSendFrameworkMessage data).

Definition ex_asked (s : St) (name : string) (args : list nat) (h : list Ev) (c : Executor.Call) : Prop :=
  ex_requests (fun T p o t => converted p o h t) s name args c.

Definition ex_blocking (name : string) : bool := String.eqb name "join" || String.eqb name "run".

(** A method call from Python on the executor's driver object that does not block:
    as for the scheduler, the driver is called at most once and with what Python gave,
    or an exception is raised. *)
Theorem executor_methods name args s : idle s -> ex_blocking name = false ->
  wp (executor_method w Q name args) (method_post (ex_asked s name args) s) s.
Proof.
  intros I Hb. unfold executor_method, MesosExecutorDriverImpl_methods. cbn [assoc].
  repeat (match goal with |- context [String.eqb name ?n] => destruct (String.eqb_spec name n) as [->|?] end;
    [first [discriminate Hb|apply noargs_method; [done|intros ->]|idtac]|]).
  - start_method I R. finish_step R.
  - start_method I R. finish_step R.
  - start_method I R. finish_step R.
  - start_method I R. parse_step args R. read_step @read_or_raise_reader R. finish_step R.
  - start_method I R. parse_step args R. finish_step R.
  - by apply raise_null_idle.
Qed.

(** ... and one with a message of the right type reaches the driver. *)
Theorem executor_methods_complete name args s c d d' st : ex_requests (honest_conv w) s name args c ->
  (forall o data, args = [o] -> w_text w (history s) o = Some data -> Z.of_nat (String.length data) < 2 ^ 31) ->
  idle s -> self_driver s = Some d -> nd_invoke c d = Ret (d', st) -> (forall h, is_Some (w_alloc w h)) ->
  returns_status (executor_method w Q name args) d' st s.
Proof.
  intros Hr Hdata I Hd E Ha.
  destruct Hr as [| | |o st0 Ho|o data Ht]; apply (with_driver_returns "MesosExecutorDriverImpl" _ d); try done.
  - returns_finish.
  - returns_finish.
  - returns_finish.
  - parse_then. then_gets @honest_read_or_raise. returns_finish.
  - pose proof (Hdata _ _ eq_refl Ht) as Hlen%Z.ltb_lt. parse_then. returns_finish.
Qed.

(** [join] and [run] wait without the lock. *)
Theorem executor_blocking_methods name args s : idle s -> ex_blocking name = true ->
  blocking_post s (executor_method w Q name args s).
Proof.
  intros I Hb. apply orb_true_iff in Hb as [->%String.eqb_eq| ->%String.eqb_eq];
    (apply no_arguments_post; [done|intros ->]).
  - apply waits_post; [done|apply invoke_join_waits].
  - apply waits_post; [done|apply invoke_run_waits].
Qed.

(** ** Life cycle *)

Definition ex_init_post (args : list nat) (s : St) (r : Z) (s' : St) : Prop :=
  gil s' = true /\ at_rest s' /\
  ((r = 0 /\ pending s' = None /\ args = option_list (self_python s') /\ self_driver s' = Some new_driver) \/
   (r = -1 /\ pending s' <> None /\ s' = set_pending (pending s') s)).

Theorem executor_init args s : idle s -> at_rest s -> (self_driver s = None \/ forall h, w_busy w h = false) ->
  wp (MesosExecutorDriverImpl_init w new_driver args) (ex_init_post args s) s.
Proof.
  intros I A Hb. pose proof I as (G & Hp & L). pose proof A as (O & _ & Hx).
  apply wp_bind. eapply wp_mono; [by apply PyArg_ParseTuple_wp|]. intros [vs|] s1 H1.
  2:{ destruct H1 as [e ->]. apply wp_ret. split_and!; [done|done|]. right. by split_and!. }
  destruct H1 as [-> Hs]. shapes args Hs. apply wp_bind. unfold wp at 1. rewrite replace_python_done by done.
  apply wp_bind, wp_bind. unfold wp at 1, get. cbn [self_driver set_owned set_python].
  assert (forall s2, gil s2 = true -> lists s2 = ∅ -> pending s2 = None -> owned s2 = refs (Some n) ->
    self_python s2 = Some n ->
    wp (modify (set_proxy false) ;;* modify (set_proxy true) ;;* new_driver_is new_driver ;;* pret 0)
      (ex_init_post [n] s) s2) as Hend.
  { intros s2 G2 L2 P2 O2 Y2. repeat (apply wp_bind; unfold wp at 1, modify, new_driver_is). apply wp_ret.
    split_and!; [done|split_and!; cbn; [by rewrite O2, Y2|done|done]|]. left. cbn. by rewrite Y2. }
  destruct (self_driver s) as [d|] eqn:Hd.
  - unfold wp at 1, delete_driver. cbn [self_driver set_owned set_python gil history]. rewrite Hd, G.
    destruct Hb as [?|Hb]; [done|]. rewrite Hb. cbn [andb]. by apply Hend.
  - apply wp_ret. by apply Hend.
Qed.

Theorem executor_dealloc s : gil s = true -> at_rest s ->
  exists s', MesosExecutorDriverImpl_dealloc w s = Done tt s' /\ gil s' = true /\ owned s' = ∅ /\
    self_driver s' = None /\ self_proxy s' = false /\ self_python s' = None /\
    history s' = history s ++ match self_driver s with Some _ => [DeleteDriver false] | None => [] end.
Proof.
  intros G A. unfold MesosExecutorDriverImpl_dealloc, MesosExecutorDriverImpl_clear. by apply dealloc_done.
Qed.

End Properties.


Module PyExecutorExample.

#[export] Instance driver : NativeDriver Executor.State Executor.Call :=
  executor_native (fun _ => "uuid") (fun _ => 0) (Some "slave") (Some "framework") (Some "executor")
    (fun c s => Ret (Executor.emit (Executor.Called c) s)).

Definition text : Proto string := mkProto Some Some.
Definition protos : ExecutorProtos := mkExecutorProtos text text text
  (mkProto (fun t => Some (ti_task_id t)) (fun b => Some (mkTaskInfo b "slave" None true None))) text
  (mkProto (fun t => Some (Executor.es_task_id t)) (fun b => Some (Executor.mkExecutorStatus b TASK_RUNNING None None None))).

(** Object 2 is the executor; every call returns the object 10, but [raises] do not. *)
Definition world (raises : list string) : World Executor.State Executor.Call := {|
  w_none := 0;
  w_self := 1;
  w_call _ _ m _ :=
    if decide (m ∈ raises) then mkReply [] (Raises (Exception "error")) false
    else mkReply [] (Returns 10%nat) false;
  w_text _ _ := Some "text";
  w_int _ _ := Some 1;
  w_items _ _ := None;
  w_pb2_dict _ := true;
  w_pb2 _ _ := Some (3%nat, true);
  w_alloc _ := Some 30%nat;
  w_wait _ := None;
  w_busy _ := false |}.

Definition started : Executor.State :=
  match nd_invoke Executor.DStart Executor.new_driver with Ret (s, _) => s | Fatal _ => Executor.new_driver end.
Definition start : PyState Executor.State Executor.Call :=
  mkPy {[+ 2%nat +]} ∅ None true (Some started) true (Some 2%nat) [].

End PyExecutorExample.
Import PyExecutorExample.

Lemma proxy_executor_callbacks_witness :
  let w := PyExecutorExample.world ["launchTask"] in
  let cb := ExLaunchTask (mkTaskInfo "task" "slave" None true None) in
  let s := set_gil false PyExecutorExample.start in
  wp (ProxyExecutor w PyExecutorExample.protos cb)
    (fun _ s' => served true "launchTask" (ex_callback_args w PyExecutorExample.protos cb)
       (ex_callback_willing w PyExecutorExample.protos cb s) s s') s /\
  match ProxyExecutor w PyExecutorExample.protos cb s with
  | Done _ s' => Executor.status <$> self_driver s' = Some DRIVER_ABORTED
  | _ => False
  end.
Proof.
  intros w cb s. split; [|by vm_compute]. by apply (proxy_executor_callbacks w PyExecutorExample.protos cb s).
Defined.

Lemma executor_methods_witness :
  let w := PyExecutorExample.world [] in
  wp (executor_method w PyExecutorExample.protos "sendStatusUpdate" [5%nat])
    (method_post (ex_asked w PyExecutorExample.protos PyExecutorExample.start "sendStatusUpdate" [5%nat])
       PyExecutorExample.start) PyExecutorExample.start.
Proof. intros w. by apply (executor_methods w PyExecutorExample.protos "sendStatusUpdate" [5%nat]). Defined.
