(* ===== verification/Jni.v ===== *)
(** * The Java Native Interface as the Java bindings use it (liburb/source/convert.cpp, construct.cpp)

    The Java virtual machine is a parameter, [Vm]: it says how each request of the
    native code is answered, given all that happened before.  The state holds what
    the rules of the interface are about: whether the thread is attached, the
    pending exception, the weak global references, the arrays and strings whose
    elements are held, the [long] fields of the driver object and the native
    objects they point to.  A computation returns, waits for ever in a join, does
    not leave a loop, stops at a failed check, or breaks a rule.

    Two restrictions: only the framework's own methods call the driver from Java,
    not the collections and messages it passes; and local references, which the
    machine frees when the thread detaches or the native method returns, are not
    counted. *)
From Stdlib Require Import Ascii.
From S2P Require Import Prelude Scheduler Native.

(** ** Requests *)

(** A [jfieldID] or [jmethodID] stands for a member of a class. *)
Record Member := mkMember { m_class : string; m_name : string; m_sig : string }.
Inductive MemberKind := Field | StaticField | Method | StaticMethod.

(** An argument of a call into Java. *)
Inductive JArg := ANull | AObj (o : nat) | ANumber (n : Z).

(** What the native code asks of the machine, by the type of the answer.  Objects
    are those that the references given stand for. *)
Inductive JniCall : Set -> Set :=
| FindClassQ (name : string) : JniCall unit
| MemberQ (kind : MemberKind) (m : Member) : JniCall unit
| ObjectFieldQ (o : nat) (f : Member) : JniCall (option nat)
| BooleanFieldQ (o : nat) (f : Member) : JniCall bool
| SetStaticBooleanQ (f : Member) (b : bool) : JniCall unit
| ObjectMethodQ (o : nat) (m : Member) (args : list JArg) : JniCall (option nat)
| BooleanMethodQ (o : nat) (m : Member) (args : list JArg) : JniCall bool
| IntMethodQ (o : nat) (m : Member) (args : list JArg) : JniCall Z
| StaticMethodQ (m : Member) (args : list JArg) : JniCall (option nat)
| NewObjectQ (m : Member) (args : list JArg) : JniCall nat
| NewStringUTFQ (text : string) : JniCall nat
| NewByteArrayQ (size : Z) : JniCall nat
| SetByteArrayRegionQ (array : nat) (data : string) : JniCall unit
| ByteArrayElementsQ (array : nat) : JniCall string
| ArrayLengthQ (array : nat) : JniCall nat
| StringUTFCharsQ (text : nat) : JniCall string
| WeakGlobalRefQ (o : nat) : JniCall unit.

(** An answer, or an exception. *)
Inductive Reply (A : Type) := Answers (a : A) | Throws (e : nat).
Arguments Answers {A}.
Arguments Throws {A}.

(** A call of a method of the framework: the driver methods it calls, and the
    exception it ends with. *)
Record FrameworkReply (C : Type) := mkFrameworkReply { fr_calls : list C; fr_throws : option nat }.
Arguments mkFrameworkReply {C}.
Arguments fr_calls {C}.
Arguments fr_throws {C}.

Inductive JniEvent (C : Type) : Type :=
| Asked (A : Set) (c : JniCall A) (reply : Reply A)
| Framework (o : nat) (m : Member) (args : list JArg) (calls : list C) (throws : option nat)
| Invoked (c : C)                    (** a driver method called by the native code *)
| Joined
| Created (address : nat)
| Deleted (address : nat)
| Described (e : nat)
| Attach
| Detach.
Arguments Asked {C A}.
Arguments Framework {C}.
Arguments Invoked {C}.
Arguments Joined {C}.
Arguments Created {C}.
Arguments Deleted {C}.
Arguments Described {C}.
Arguments Attach {C}.
Arguments Detach {C}.

Record Vm (D C : Type) := {
  vm_type : nat -> string;                               (** the class of an object *)
  vm_class : nat -> string;                              (** the class a [Class] object stands for *)
  vm_instance : nat -> string -> bool;                   (** [instanceof] *)
  vm_reply : list (JniEvent C) -> forall A : Set, JniCall A -> Reply A;
  vm_framework : list (JniEvent C) -> nat -> Member -> list JArg -> FrameworkReply C;
  vm_attaches : list (JniEvent C) -> bool;               (** [AttachCurrentThread] succeeds *)
  vm_version : bool;                                     (** [GetEnv] supports the version *)
  vm_wait : list (JniEvent C) -> option D;               (** the driver when a join returns; none: never *)
}.
Arguments vm_type {D C}.
Arguments vm_class {D C}.
Arguments vm_instance {D C}.
Arguments vm_reply {D C} v h {A}.
Arguments vm_framework {D C}.
Arguments vm_attaches {D C}.
Arguments vm_version {D C}.
Arguments vm_wait {D C}.

(** ** States and computations *)

(** A reference: local, or a weak global one. *)
Inductive Ref := Local (o : nat) | Weak (k : nat).
(** [jobject], null if none *)
Abbreviation jobject := (option Ref) (only parsing).
Abbreviation jclass := (option string) (only parsing).
(** [jfieldID], [jmethodID] *)
Abbreviation jid := (option Member) (only parsing).

(** An argument as the native code gives it. *)
Inductive NativeArg := Reference (r : jobject) | Number (n : Z).

(** What a pointer of the native code points to: a driver, or a proxy with its
    [jdriver]. *)
Inductive NativeObject (D : Type) := ADriver (d : D) | AProxy (jdriver : jobject).
Arguments ADriver {D}.
Arguments AProxy {D}.

Record JniState (D C : Type) := mkJni {
  attached : bool;
  frames : bool;                          (** Java methods are on this thread's stack *)
  thrown : option nat;                    (** the pending exception *)
  weaks : gmap nat nat;                   (** the objects of the weak global references *)
  held : list nat;                        (** arrays and strings whose elements are held *)
  longs : gmap (nat * string) nat;        (** [long] fields, by object and name *)
  heap : gmap nat (NativeObject D);
  next : nat;                             (** addresses and weak references from here on are unused *)
  loader : option nat;                    (** [mesosClassLoader], a weak global reference *)
  events : list (JniEvent C);
}.
Arguments mkJni {D C}.
Arguments attached {D C}.
Arguments frames {D C}.
Arguments thrown {D C}.
Arguments weaks {D C}.
Arguments held {D C}.
Arguments longs {D C}.
Arguments heap {D C}.
Arguments next {D C}.
Arguments loader {D C}.
Arguments events {D C}.

Inductive JniResult (D C A : Type) :=
| Finished (a : A) (s : JniState D C)
| Blocked (s : JniState D C)              (** waits for ever in a join *)
| Looping                                 (** a loop was not left *)
| Stopped (why : string)                  (** a failed CHECK or assert *)
| Undefined (why : string).               (** a rule of the interface was broken *)
Arguments Finished {D C A}.
Arguments Blocked {D C A}.
Arguments Looping {D C A}.
Arguments Stopped {D C A}.
Arguments Undefined {D C A}.

Declare Scope jni_scope.
Delimit Scope jni_scope with jni.

Section Monad.
  Context {D C : Type}.

Abbreviation St := (JniState D C).
Definition Jni (A : Type) : Type := JniState D C -> JniResult D C A.

Definition jret {A} (a : A) : Jni A := fun s => Finished a s.
Definition jbind {A B} (m : Jni A) (k : A -> Jni B) : Jni B := fun s =>
  match m s with
  | Finished a s' => k a s'
  | Blocked s' => Blocked s'
  | Looping => Looping
  | Stopped why => Stopped why
  | Undefined why => Undefined why
  end.
Definition undefined {A} (why : string) : Jni A := fun _ => Undefined why.
Definition jget {A} (f : St -> A) : Jni A := fun s => Finished (f s) s.
Definition jmodify (f : St -> St) : Jni unit := fun s => Finished tt (f s).

(** [CHECK], [assert] *)
Definition jcheck (b : bool) (why : string) : Jni unit := fun s => if b then Finished tt s else Stopped why.

Definition set_attached v (s : St) : St := mkJni v (frames s) (thrown s) (weaks s) (held s) (longs s) (heap s)
  (next s) (loader s) (events s).
Definition set_thrown v (s : St) : St := mkJni (attached s) (frames s) v (weaks s) (held s) (longs s) (heap s)
  (next s) (loader s) (events s).
Definition set_weaks v (s : St) : St := mkJni (attached s) (frames s) (thrown s) v (held s) (longs s) (heap s)
  (next s) (loader s) (events s).
Definition set_held v (s : St) : St := mkJni (attached s) (frames s) (thrown s) (weaks s) v (longs s) (heap s)
  (next s) (loader s) (events s).
Definition set_longs v (s : St) : St := mkJni (attached s) (frames s) (thrown s) (weaks s) (held s) v (heap s)
  (next s) (loader s) (events s).
Definition set_heap v (s : St) : St := mkJni (attached s) (frames s) (thrown s) (weaks s) (held s) (longs s) v
  (next s) (loader s) (events s).
Definition set_next v (s : St) : St := mkJni (attached s) (frames s) (thrown s) (weaks s) (held s) (longs s)
  (heap s) v (loader s) (events s).
Definition set_loader v (s : St) : St := mkJni (attached s) (frames s) (thrown s) (weaks s) (held s) (longs s)
  (heap s) (next s) v (events s).
Definition jlog e (s : St) : St := mkJni (attached s) (frames s) (thrown s) (weaks s) (held s) (longs s) (heap s)
  (next s) (loader s) (events s ++ [e]).

End Monad.
#[global] Arguments Jni : clear implicits.

#[warnings="-at-level-200-changed"] Notation "'let^' x ':=' c 'in' k" := (jbind c (fun x => k))
  (at level 200, x binder, c at level 100, k at level 200, right associativity) : jni_scope.
Notation "c ';;^' k" := (jbind c (fun _ => k)) (at level 100, right associativity) : jni_scope.
#[global] Open Scope jni_scope.

(** ** Functions of the interface *)

Section Api.
  Context {D C : Type} `{ND : NativeDriver D C} (vm : Vm D C).

Abbreviation St := (JniState D C).
Abbreviation J := (Jni D C) (only parsing).

(** Functions that may be called while an exception is pending need an attached
    thread... *)
Definition on_thread {A} (m : J A) : J A := fun s =>
  if attached s then m s else Undefined "the thread is not attached".

(** ... and all others that there is none. *)
Definition with_env {A} (m : J A) : J A := on_thread (fun s =>
  match thrown s with None => m s | Some _ => Undefined "an exception is pending" end).

(** The object of a reference that must not be null. *)
Definition deref (r : jobject) : J nat := fun s =>
  match r with
  | None => Undefined "a null reference"
  | Some (Local o) => Finished o s
  | Some (Weak k) =>
      match weaks s !! k with Some o => Finished o s | None => Undefined "a deleted reference" end
  end.

Definition class_of (c : jclass) : J string :=
  match c with Some cls => jret cls | None => undefined "a null class" end.
Definition member_of (m : jid) : J Member :=
  match m with Some m => jret m | None => undefined "a null member" end.

(** An argument of a call; null is allowed here. *)
Definition arg_of (a : NativeArg) : J JArg :=
  match a with
  | Number n => jret (ANumber n)
  | Reference None => jret ANull
  | Reference r => let^ o := deref r in jret (AObj o)
  end.
Fixpoint args_of (args : list NativeArg) : J (list JArg) :=
  match args with
  | [] => jret []
  | a :: rest => let^ x := arg_of a in let^ xs := args_of rest in jret (x :: xs)
  end.

(** The answer to a request; [null] is the result if there is an exception. *)
Definition ask {A : Set} {B} (c : JniCall A) (null : B) (result : A -> B) : J B := with_env (fun s =>
  match vm_reply vm (events s) c with
  | Answers a => Finished (result a) (jlog (Asked c (Answers a)) s)
  | Throws e => Finished null (jlog (Asked c (Throws e)) (set_thrown (Some e) s))
  end).

(** *** Threads and exceptions *)

(** Nothing happens if the thread is attached already. *)
Definition AttachCurrentThread : J unit := fun s =>
  if attached s then Finished tt s
  else if vm_attaches vm (events s) then Finished tt (jlog Attach (set_attached true s))
  else Finished tt s.

(** A thread cannot detach itself while Java methods are on its stack. *)
Definition DetachCurrentThread : J unit := fun s =>
  if attached s && negb (frames s) then Finished tt (jlog Detach (set_attached false s)) else Finished tt s.

Definition ExceptionCheck : J bool := on_thread (jget (fun s => bool_decide (is_Some (thrown s)))).
Definition ExceptionOccurred : J (option nat) := on_thread (jget thrown).
Definition ExceptionClear : J unit := on_thread (jmodify (set_thrown None)).

(** Clears the exception as a side effect. *)
Definition ExceptionDescribe : J unit := on_thread (jmodify (fun s =>
  match thrown s with None => s | Some e => jlog (Described e) (set_thrown None s) end)).

Definition Throw (e : nat) : J unit := with_env (jmodify (set_thrown (Some e))).

(** *** Classes and members *)

Definition FindClass (name : string) : J jclass := ask (FindClassQ name) None (fun _ => Some name).

Definition GetObjectClass (r : jobject) : J jclass :=
  with_env (let^ o := deref r in jret (Some (vm_type vm o))).

Definition GetMember (kind : MemberKind) (c : jclass) (name sig : string) : J jid := with_env (
  let^ cls := class_of c in
  ask (MemberQ kind (mkMember cls name sig)) None (fun _ => Some (mkMember cls name sig))).
Definition GetFieldID := GetMember Field.
Definition GetStaticFieldID := GetMember StaticField.
Definition GetMethodID := GetMember Method.
Definition GetStaticMethodID := GetMember StaticMethod.

Definition IsInstanceOf (o : nat) (c : jclass) : J bool :=
  with_env (let^ cls := class_of c in jret (vm_instance vm o cls)).

(** *** Fields *)

Definition GetObjectField (r : jobject) (f : jid) : J jobject := with_env (
  let^ o := deref r in let^ f := member_of f in ask (ObjectFieldQ o f) None (fmap Local)).
Definition GetBooleanField (r : jobject) (f : jid) : J bool := with_env (
  let^ o := deref r in let^ f := member_of f in ask (BooleanFieldQ o f) false id).
Definition SetStaticBooleanField (c : jclass) (f : jid) (b : bool) : J unit := with_env (
  let^ cls := class_of c in let^ f := member_of f in ask (SetStaticBooleanQ f b) tt id).

(** [long] fields hold addresses of native objects, 0 at first. *)
Definition GetLongField (r : jobject) (f : jid) : J nat := with_env (
  let^ o := deref r in let^ f := member_of f in
  jget (fun s => default 0%nat (longs s !! (o, m_name f)))).
Definition SetLongField (r : jobject) (f : jid) (value : nat) : J unit := with_env (
  let^ o := deref r in let^ f := member_of f in
  jmodify (fun s => set_longs (<[(o, m_name f) := value]> (longs s)) s)).

(** *** Calls *)

Definition CallObjectMethod (r : jobject) (m : jid) (args : list NativeArg) : J jobject := with_env (
  let^ o := deref r in let^ m := member_of m in let^ args := args_of args in
  ask (ObjectMethodQ o m args) None (fmap Local)).
Definition CallBooleanMethod (r : jobject) (m : jid) (args : list NativeArg) : J bool := with_env (
  let^ o := deref r in let^ m := member_of m in let^ args := args_of args in
  ask (BooleanMethodQ o m args) false id).
Definition CallIntMethod (r : jobject) (m : jid) : J Z := with_env (
  let^ o := deref r in let^ m := member_of m in ask (IntMethodQ o m []) 0 id).

Definition CallStaticObjectMethod (c : jclass) (m : jid) (args : list NativeArg) : J jobject := with_env (
  let^ cls := class_of c in let^ m := member_of m in let^ args := args_of args in
  ask (StaticMethodQ m args) None (fmap Local)).
Definition NewObject (c : jclass) (m : jid) (args : list NativeArg) : J jobject := with_env (
  let^ cls := class_of c in let^ m := member_of m in let^ args := args_of args in
  ask (NewObjectQ m args) None (fun o => Some (Local o))).

(** *** Strings and arrays *)

Definition NewStringUTF (text : string) : J jobject :=
  ask (NewStringUTFQ (before_nul text)) None (fun o => Some (Local o)).
Definition NewByteArray (size : nat) : J jobject :=
  ask (NewByteArrayQ (va_int (Z.of_nat size))) None (fun o => Some (Local o)).
Definition SetByteArrayRegion (r : jobject) (data : string) : J unit := with_env (
  let^ array := deref r in ask (SetByteArrayRegionQ array data) tt id).
Definition GetArrayLength (r : jobject) : J nat := with_env (
  let^ array := deref r in ask (ArrayLengthQ array) 0%nat id).

(** The elements of an array or string are held until they are released. *)
Definition hold (o : nat) (text : option string) : J (option string) :=
  match text with
  | None => jret None
  | Some t => jmodify (fun s => set_held (o :: held s) s) ;;^ jret (Some t)
  end.
Definition GetByteArrayElements (r : jobject) : J (option string) := with_env (
  let^ array := deref r in let^ data := ask (ByteArrayElementsQ array) None Some in hold array data).
Definition GetStringUTFChars (r : jobject) : J (option string) := with_env (
  let^ text := deref r in let^ chars := ask (StringUTFCharsQ text) None Some in hold text chars).

Fixpoint remove_one (o : nat) (l : list nat) : option (list nat) :=
  match l with
  | [] => None
  | x :: rest => if Nat.eqb x o then Some rest else (cons x) <$> remove_one o rest
  end.
Definition release (r : jobject) : J unit := on_thread (
  let^ o := deref r in
  let^ rest := jget (fun s => remove_one o (held s)) in
  match rest with
  | None => undefined "elements that are not held"
  | Some l => jmodify (set_held l)
  end).
Definition ReleaseByteArrayElements := release.
Definition ReleaseStringUTFChars := release.

(** *** Weak global references *)

Definition NewWeakGlobalRef (r : jobject) : J jobject := with_env (
  let^ o := deref r in
  let^ made := ask (WeakGlobalRefQ o) false (fun _ => true) in
  if made then
    let^ k := jget next in
    jmodify (fun s => set_next (S k) (set_weaks (<[k := o]> (weaks s)) s)) ;;^ jret (Some (Weak k))
  else jret None).

Definition DeleteWeakGlobalRef (r : jobject) : J unit := on_thread (fun s =>
  match r with
  | Some (Weak k) =>
      match weaks s !! k with
      | Some _ => Finished tt (set_weaks (delete k (weaks s)) s)
      | None => Undefined "a deleted reference"
      end
  | _ => Undefined "not a weak global reference"
  end).

(** ** Native objects *)

Definition new_object (v : NativeObject D) : J nat := fun s =>
  Finished (next s) (jlog (Created (next s)) (set_next (S (next s)) (set_heap (<[next s := v]> (heap s)) s))).

(** [delete p], which does nothing for null *)
Definition delete_object (address : nat) : J unit := fun s =>
  if Nat.eqb address 0 then Finished tt s
  else match heap s !! address with
       | Some _ => Finished tt (jlog (Deleted address) (set_heap (delete address (heap s)) s))
       | None => Undefined "a dangling pointer"
       end.

(** [driver->method(...)] *)
Definition jinvoke (address : nat) (c : C) : J Status := fun s =>
  match heap s !! address with
  | Some (ADriver d) =>
      match nd_invoke c d with
      | Fatal why => Stopped why
      | Ret (d', st) => Finished st (jlog (Invoked c) (set_heap (<[address := ADriver d']> (heap s)) s))
      end
  | _ => Undefined "not a driver"
  end.

(** [driver->join()] *)
Definition jinvoke_join (address : nat) : J Status := fun s =>
  match heap s !! address with
  | Some (ADriver _) =>
      match vm_wait vm (events s) with
      | None => Blocked s
      | Some d =>
          match nd_join d with
          | None => Blocked s
          | Some st => Finished st (jlog Joined (set_heap (<[address := ADriver d]> (heap s)) s))
          end
      end
  | _ => Undefined "not a driver"
  end.

(** [CallVoidMethod] on the framework, whose Java code calls the methods of the
    driver at the address given. *)
Definition CallVoidMethod (driver : nat) (r : jobject) (m : jid) (args : list NativeArg) : J unit := with_env (
  let^ o := deref r in let^ m := member_of m in let^ args := args_of args in
  fun s =>
    let reply := vm_framework vm (events s) o m args in
    match heap s !! driver with
    | Some (ADriver d) =>
        match run_calls (fr_calls reply) (Some d) with
        | Ret (Some d') =>
            Finished tt (jlog (Framework o m args (fr_calls reply) (fr_throws reply))
              (set_thrown (fr_throws reply) (set_heap (<[driver := ADriver d']> (heap s)) s)))
        | Ret None => Undefined "no driver"
        | Fatal why => Stopped why
        end
    | _ => Undefined "not a driver"
    end).

End Api.
