(* ===== verification/JniConvert.v ===== *)
(** * Java objects from native values and back (liburb/source/convert.cpp, construct.cpp, org_apache_mesos_MesosNativeLibrary.cpp)

    Messages cross the border as their serialised bytes: [convert] makes the Java
    object with the class's [parseFrom], [construct] reads the object's
    [toByteArray].  Output to standard error is left out. *)
From Stdlib Require Import Ascii.
From S2P Require Import Prelude Scheduler Native Jni.

(** The dotted name of a class, from the one with slashes. *)
Fixpoint binary_name (name : string) : string :=
  match name with
  | EmptyString => EmptyString
  | String c rest => String (if Ascii.eqb c "/" then "."%char else c) (binary_name rest)
  end.

(** The numbers of the enumeration [TaskState] *)
Definition task_state_code (st : TaskState) : Z :=
  match st with
  | TASK_STAGING => 6 | TASK_STARTING => 0 | TASK_RUNNING => 1 | TASK_KILLING => 8 | TASK_FINISHED => 2
  | TASK_FAILED => 3 | TASK_KILLED => 4 | TASK_ERROR => 7 | TASK_LOST => 5 | TASK_DROPPED => 9
  | TASK_UNREACHABLE => 10 | TASK_GONE => 11 | TASK_GONE_BY_OPERATOR => 12 | TASK_UNKNOWN => 13
  end.

Section Convert.
  Context {D C : Type} `{ND : NativeDriver D C} (vm : Vm D C).

Abbreviation J := (Jni D C) (only parsing).

(** ** Classes *)

Definition FindMesosClass (className : string) : J jclass :=
  let^ pending := ExceptionCheck in
  if pending then jret None
  else
    let^ mesosClassLoader := jget loader in
    match mesosClassLoader with
    | None => FindClass vm className
    | Some k =>
        let convName := binary_name className in
        let^ javaLangClassLoader := FindClass vm "java/lang/ClassLoader" in
        jcheck (bool_decide (is_Some javaLangClassLoader)) "javaLangClassLoader != nullptr" ;;^
        let^ loadClass := GetMethodID vm javaLangClassLoader "loadClass" "(Ljava/lang/String;)Ljava/lang/Class;" in
        jcheck (bool_decide (is_Some loadClass)) "loadClass != nullptr" ;;^
        let^ strClassName := NewStringUTF vm convName in
        let^ failed := ExceptionCheck in
        if failed then jret None
        else
          let^ cls := CallObjectMethod vm (Some (Weak k)) loadClass [Reference strClassName] in
          let^ failed := ExceptionCheck in
          if failed then ExceptionDescribe ;;^ jret None
          else match cls with
               | None => jret None
               | Some _ => let^ o := deref cls in jret (Some (vm_class vm o))
               end
    end.

Definition JNI_ERR : Z := -1.
Definition JNI_VERSION_1_2 : Z := 65538.

(** The context class loader of the thread that loads the library *)
Definition find_context : J jobject :=
  let^ javaLangThread := FindClass vm "java/lang/Thread" in
  jcheck (bool_decide (is_Some javaLangThread)) "javaLangThread != nullptr" ;;^
  let^ javaLangClassLoader := FindClass vm "java/lang/ClassLoader" in
  jcheck (bool_decide (is_Some javaLangClassLoader)) "javaLangClassLoader != nullptr" ;;^
  let^ currentThread := GetStaticMethodID vm javaLangThread "currentThread" "()Ljava/lang/Thread;" in
  jcheck (bool_decide (is_Some currentThread)) "currentThread != nullptr" ;;^
  let^ getContextClassLoader :=
    GetMethodID vm javaLangThread "getContextClassLoader" "()Ljava/lang/ClassLoader;" in
  jcheck (bool_decide (is_Some getContextClassLoader)) "getContextClassLoader != nullptr" ;;^
  let^ thread := CallStaticObjectMethod vm javaLangThread currentThread [] in
  jcheck (bool_decide (is_Some thread)) "thread != nullptr" ;;^
  CallObjectMethod vm thread getContextClassLoader [].

(** [MesosNativeLibrary.loaded = true] *)
Definition mark_loaded : J unit :=
  let^ clazz := FindMesosClass "org/apache/mesos/MesosNativeLibrary" in
  let^ loaded := GetStaticFieldID vm clazz "loaded" "Z" in
  SetStaticBooleanField vm clazz loaded true.

Definition JNI_OnLoad : J Z :=
  if negb (vm_version vm) then jret JNI_ERR
  else
    let^ classLoader := find_context in
    match classLoader with
    | None => jret tt
    | Some _ =>
        let^ weak := NewWeakGlobalRef vm classLoader in
        jmodify (set_loader (match weak with Some (Weak k) => Some k | _ => None end))
    end ;;^
    mark_loaded ;;^
    jret JNI_VERSION_1_2.

Definition JNI_OnUnLoad : J unit :=
  if negb (vm_version vm) then jret tt
  else
    let^ mesosClassLoader := jget loader in
    match mesosClassLoader with
    | None => jret tt
    | Some k => DeleteWeakGlobalRef (Some (Weak k)) ;;^ jmodify (set_loader None)
    end.

(** The result of [getFieldID] *)
Inductive FieldResult := FieldSome (f : jid) | FieldNone | FieldError (message : string).

Definition getFieldID (clazz : jclass) (name sig : string) : J FieldResult :=
  let^ jfield := GetFieldID vm clazz name sig in
  let^ jexception := ExceptionOccurred in
  match jexception with
  | Some e =>
      ExceptionClear ;;^
      let^ noSuchFieldError := FindClass vm "java/lang/NoSuchFieldError" in
      let^ failed := ExceptionCheck in
      if failed then jret (FieldError "Cannot find NoSuchFieldError class")
      else
        let^ is_instance := IsInstanceOf vm e noSuchFieldError in
        if negb is_instance then Throw e ;;^ jret (FieldError "Unexpected exception")
        else jret FieldNone
  | None => jret (FieldSome jfield)
  end.

(** ** From C++ to Java *)

(** [jbyteArray jdata = ...] *)
Definition byte_array (data : string) : J jobject :=
  let^ jdata := NewByteArray vm (String.length data) in
  SetByteArrayRegion vm jdata data ;;^ jret jdata.

Definition convert_string (s : string) : J jobject := NewStringUTF vm s.

(** The class [org.apache.mesos.Protos.<name>] *)
Definition message_class (name : string) : string := "org/apache/mesos/Protos$" +:+ name.

(** The body that the specialisations for messages share *)
Definition convert_message {T} (name : string) (p : Proto T) (t : T) : J jobject :=
  let data := default "" (SerializeToString p t) in
  let^ jdata := byte_array data in
  let^ clazz := FindMesosClass (message_class name) in
  let^ parseFrom := GetStaticMethodID vm clazz "parseFrom" ("([B)L" +:+ message_class name +:+ ";") in
  CallStaticObjectMethod vm clazz parseFrom [Reference jdata].

Definition convert_FrameworkID (p : Proto string) := convert_message "FrameworkID" p.
Definition convert_FrameworkInfo {T} (p : Proto T) := convert_message "FrameworkInfo" p.
Definition convert_MasterInfo (p : Proto string) := convert_message "MasterInfo" p.
Definition convert_ExecutorID (p : Proto string) := convert_message "ExecutorID" p.
Definition convert_TaskID (p : Proto string) := convert_message "TaskID" p.
Definition convert_SlaveID (p : Proto string) := convert_message "SlaveID" p.
Definition convert_SlaveInfo (p : Proto string) := convert_message "SlaveInfo" p.
Definition convert_OfferID (p : Proto string) := convert_message "OfferID" p.
Definition convert_TaskInfo (p : Proto TaskInfo) := convert_message "TaskInfo" p.
Definition convert_TaskStatus (p : Proto TaskStatus) := convert_message "TaskStatus" p.
Definition convert_Offer (p : Proto Offer) := convert_message "Offer" p.
Definition convert_ExecutorInfo (p : Proto string) := convert_message "ExecutorInfo" p.

(** The enumerations *)
Definition convert_number (name : string) (value : Z) : J jobject :=
  let^ clazz := FindMesosClass (message_class name) in
  let^ valueOf := GetStaticMethodID vm clazz "valueOf" ("(I)L" +:+ message_class name +:+ ";") in
  CallStaticObjectMethod vm clazz valueOf [Number value].

Definition convert_TaskState (state : TaskState) : J jobject := convert_number "TaskState" (task_state_code state).
Definition convert_Status (status : Status) : J jobject := convert_number "Status" (status_code status).

(** ** From Java to C++ *)

(** [parse<T>(data, size)] *)
Definition parse {T} (p : Proto T) (data : string) (size : nat) : J T := fun s =>
  match ParseFrom p (String.substring 0 size data) with
  | Some t => Finished t s
  | None => Stopped "Unexpected failure while parsing protobuf"
  end.

Definition construct_bool (jbool : Z) : bool := jbool =? 1.

Definition construct_string (jobj : jobject) : J string :=
  let^ s := GetStringUTFChars vm jobj in
  jcheck (bool_decide (is_Some s)) "Out of memory!" ;;^
  let result := before_nul (default "" s) in
  ReleaseStringUTFChars jobj ;;^ jret result.

(** The body that the specialisations for messages share; [data] is null only with
    an exception pending. *)
Definition construct_message {T} (p : Proto T) (jobj : jobject) : J T :=
  let^ clazz := GetObjectClass vm jobj in
  let^ toByteArray := GetMethodID vm clazz "toByteArray" "()[B" in
  let^ jdata := CallObjectMethod vm jobj toByteArray [] in
  let^ data := GetByteArrayElements vm jdata in
  let^ length := GetArrayLength vm jdata in
  let^ t := parse p (default "" data) length in
  ReleaseByteArrayElements jdata ;;^
  jret t.

Definition construct_FrameworkInfo (p : Proto FrameworkInfo) := construct_message p.
Definition construct_Credential (p : Proto string) := construct_message p.
Definition construct_Filters (p : Proto Filters) := construct_message p.
Definition construct_FrameworkID (p : Proto string) := construct_message p.
Definition construct_ExecutorID (p : Proto string) := construct_message p.
Definition construct_TaskID (p : Proto string) := construct_message p.
Definition construct_SlaveID (p : Proto string) := construct_message p.
Definition construct_OfferID (p : Proto string) := construct_message p.
Definition construct_TaskInfo (p : Proto TaskInfo) := construct_message p.
Definition construct_TaskStatus {T} (p : Proto T) := construct_message p.
Definition construct_ExecutorInfo (p : Proto string) := construct_message p.
Definition construct_Request (p : Proto Request) := construct_message p.
Definition construct_Operation (p : Proto OfferOperation) := construct_message p.

Definition construct_TaskState (jobj : jobject) : J Z :=
  let^ clazz := FindClass vm "org/apache/mesos/Protos$TaskState" in
  let^ getNumber := GetStaticMethodID vm clazz "getNumber" "()I" in
  CallIntMethod vm jobj getNumber.

(** The bytes of a [byte[]] argument: the first [length] of the elements *)
Definition construct_bytes (jdata : jobject) : J string :=
  let^ data := GetByteArrayElements vm jdata in
  let^ length := GetArrayLength vm jdata in
  let^ temp := jret (String.substring 0 length (default "" data)) in
  ReleaseByteArrayElements jdata ;;^ jret temp.

(** ** Collections *)

(** [while (hasNext) { next ...; body }], at most [fuel] times. *)
Fixpoint iterate {A} (fuel : nat) (jiterator : jobject) (hasNext next : jid) (body : A -> jobject -> J A) (acc : A)
    : J A :=
  match fuel with
  | O => fun _ => Looping
  | S fuel' =>
      let^ more := CallBooleanMethod vm jiterator hasNext [] in
      if more then
        let^ item := CallObjectMethod vm jiterator next [] in
        let^ acc' := body acc item in
        iterate fuel' jiterator hasNext next body acc'
      else jret acc
  end.

(** The loop over the items of a [Collection] *)
Definition for_each {A} (fuel : nat) (collection : jobject) (body : A -> jobject -> J A) (acc : A) : J A :=
  let^ clazz := GetObjectClass vm collection in
  let^ iterator := GetMethodID vm clazz "iterator" "()Ljava/util/Iterator;" in
  let^ jiterator := CallObjectMethod vm collection iterator [] in
  let^ clazz := GetObjectClass vm jiterator in
  let^ hasNext := GetMethodID vm clazz "hasNext" "()Z" in
  let^ next := GetMethodID vm clazz "next" "()Ljava/lang/Object;" in
  iterate fuel jiterator hasNext next body acc.

(** A vector of messages: each is constructed and pushed back. *)
Definition construct_all {T} (fuel : nat) (construct : jobject -> J T) (collection : jobject) : J (list T) :=
  for_each fuel collection (fun read item => let^ t := construct item in jret (read ++ [t])) [].

Definition construct_map (fuel : nat) (jobj : jobject) : J (gmap string string) :=
  let^ clazz := GetObjectClass vm jobj in
  let^ entrySet := GetMethodID vm clazz "entrySet" "()Ljava/util/Set;" in
  let^ jentrySet := CallObjectMethod vm jobj entrySet [] in
  for_each fuel jentrySet (fun result jentry =>
    let^ clazz := GetObjectClass vm jentry in
    let^ getKey := GetMethodID vm clazz "getKey" "()Ljava/lang/Object;" in
    let^ jkey := CallObjectMethod vm jentry getKey [] in
    let^ getValue := GetMethodID vm clazz "getValue" "()Ljava/lang/Object;" in
    let^ jvalue := CallObjectMethod vm jentry getValue [] in
    let^ key := construct_string jkey in
    let^ value := construct_string jvalue in
    jret (<[key := value]> result)) ∅.

(** ** org.apache.mesos.MesosNativeLibrary *)

Definition MESOS_VERSION : Z * Z * Z := (1, 4, 0).

Definition MesosNativeLibrary_version : J jobject :=
  let^ clazz := FindClass vm "org/apache/mesos/MesosNativeLibrary$Version" in
  let^ init := GetMethodID vm clazz "<init>" "(JJJ)V" in
  let '(major, minor, patch) := MESOS_VERSION in
  NewObject vm clazz init [Number major; Number minor; Number patch].

End Convert.
