(* ===== verification/JniScheduler.v ===== *)
(** * The Java binding of the scheduler driver (liburb/source/org_apache_mesos_MesosSchedulerDriver.cpp)

    [JNIScheduler] is the native scheduler that calls the framework's Java object;
    the native methods of the Java class MesosSchedulerDriver call the native
    driver, whose address is in the object's [__driver] field.  Log output is left
    out. *)
From S2P Require Import Prelude Scheduler Native Jni JniConvert.

(** ** What both drivers' bindings do *)

Section Shared.
  Context {D C : Type} `{ND : NativeDriver D C} (vm : Vm D C).

Abbreviation J := (Jni D C) (only parsing).

(** [jdriver], a field of the proxy *)
Definition proxy_jdriver (this : nat) : J jobject := fun s =>
  match heap s !! this with
  | Some (AProxy jdriver) => Finished jdriver s
  | _ => Undefined "not a proxy"
  end.

(** The framework's object, a field of the driver object, and one of its methods. *)
Definition framework_method (jdriver : jobject) (field type name sig : string) : J (jobject * jid) :=
  let^ clazz := GetObjectClass vm jdriver in
  let^ f := GetFieldID vm clazz field type in
  let^ framework := GetObjectField vm jdriver f in
  let^ clazz := GetObjectClass vm framework in
  let^ method := GetMethodID vm clazz name sig in
  jret (framework, method).

(** The call of the framework, and what follows if it throws. *)
Definition call_java (driver : nat) (framework : jobject) (method : jid) (args : list NativeArg) : J unit :=
  ExceptionClear ;;^
  CallVoidMethod vm driver framework method args ;;^
  let^ failed := ExceptionCheck in
  if failed then
    ExceptionDescribe ;;^ ExceptionClear ;;^ DetachCurrentThread ;;^
    let^ _ := jinvoke driver nd_abort in jret tt
  else DetachCurrentThread.

(** The address in a [long] field of the driver object *)
Definition long_field (thiz : jobject) (name : string) : J nat :=
  let^ clazz := GetObjectClass vm thiz in
  let^ f := GetFieldID vm clazz name "J" in
  GetLongField thiz f.
Definition this_driver (thiz : jobject) : J nat := long_field thiz "__driver".

(** [Status status = driver->method(...); return convert<Status>(env, status);] *)
Definition jreturn (m : J Status) : J jobject := let^ status := m in convert_Status vm status.

(** The body of a native method without arguments *)
Definition plain_method (thiz : jobject) (c : C) : J jobject :=
  let^ driver := this_driver thiz in jreturn (jinvoke driver c).

(** [new JNIScheduler(env, jdriver)]: the constructor asks for the machine, which
    needs an environment. *)
Definition new_proxy (jdriver : jobject) : J nat := with_env (new_object (AProxy jdriver)).

(** The beginning of [initialize]: a weak reference to the driver object, and the
    proxy, whose address goes into a field. *)
Definition initialize_proxy (thiz : jobject) (clazz : jclass) (field : string) : J nat :=
  let^ jdriver := NewWeakGlobalRef vm thiz in
  let^ proxy := new_proxy jdriver in
  let^ f := GetFieldID vm clazz field "J" in
  SetLongField thiz f proxy ;;^ jret proxy.

(** The end of [initialize]: [new_object] is the driver. *)
Definition initialize_driver (thiz : jobject) (clazz : jclass) (d : D) : J unit :=
  let^ driver := new_object (ADriver d) in
  let^ f := GetFieldID vm clazz "__driver" "J" in
  SetLongField thiz f driver.

(** [finalize]: the driver is deleted, then the weak reference and the proxy. *)
Definition finalize_native (thiz : jobject) (field : string) : J unit :=
  let^ clazz := GetObjectClass vm thiz in
  let^ f := GetFieldID vm clazz "__driver" "J" in
  let^ driver := GetLongField thiz f in
  delete_object driver ;;^
  let^ g := GetFieldID vm clazz field "J" in
  let^ proxy := GetLongField thiz g in
  let^ jdriver := proxy_jdriver proxy in
  DeleteWeakGlobalRef jdriver ;;^
  delete_object proxy.

End Shared.

Section Binding.
  Context {D : Type} `{ND : NativeDriver D Call} (vm : Vm D Call) (P : SchedulerProtos).
  (** [new MesosSchedulerDriver(...)] *)
  Context (new_driver : FrameworkInfo -> string -> bool -> option string -> D).
  (** The loops over collections are followed this far. *)
  Context (fuel : nat).

Abbreviation J := (Jni D Call) (only parsing).

(** ** JNIScheduler *)

Definition jni_scheduler_method (jdriver : jobject) (name sig : string) : J (jobject * jid) :=
  framework_method vm jdriver "scheduler" "Lorg/apache/mesos/Scheduler;" name sig.

Definition JNIScheduler_registered (this driver : nat) (frameworkId masterInfo : string) : J unit :=
  AttachCurrentThread vm ;;^
  let^ jdriver := proxy_jdriver this in
  let^ m := jni_scheduler_method jdriver "registered"
    "(Lorg/apache/mesos/SchedulerDriver;Lorg/apache/mesos/Protos$FrameworkID;Lorg/apache/mesos/Protos$MasterInfo;)V" in
  let^ jframeworkId := convert_FrameworkID vm (p_FrameworkID P) frameworkId in
  let^ jmasterInfo := convert_MasterInfo vm (p_MasterInfo P) masterInfo in
  call_java vm driver m.1 m.2 [Reference jdriver; Reference jframeworkId; Reference jmasterInfo].

Definition JNIScheduler_reregistered (this driver : nat) (masterInfo : string) : J unit :=
  AttachCurrentThread vm ;;^
  let^ jdriver := proxy_jdriver this in
  let^ m := jni_scheduler_method jdriver "reregistered"
    "(Lorg/apache/mesos/SchedulerDriver;Lorg/apache/mesos/Protos$MasterInfo;)V" in
  let^ jmasterInfo := convert_MasterInfo vm (p_MasterInfo P) masterInfo in
  call_java vm driver m.1 m.2 [Reference jdriver; Reference jmasterInfo].

Definition JNIScheduler_disconnected (this driver : nat) : J unit :=
  AttachCurrentThread vm ;;^
  let^ jdriver := proxy_jdriver this in
  let^ m := jni_scheduler_method jdriver "disconnected" "(Lorg/apache/mesos/SchedulerDriver;)V" in
  call_java vm driver m.1 m.2 [Reference jdriver].

(** The loop over the offers *)
Fixpoint add_offers (joffers : jobject) (add : jid) (offers : list Offer) : J unit :=
  match offers with
  | [] => jret tt
  | offer :: rest =>
      let^ joffer := convert_Offer vm (p_Offer P) offer in
      CallBooleanMethod vm joffers add [Reference joffer] ;;^
      add_offers joffers add rest
  end.

Definition JNIScheduler_resourceOffers (this driver : nat) (offers : list Offer) : J unit :=
  AttachCurrentThread vm ;;^
  let^ jdriver := proxy_jdriver this in
  let^ m := jni_scheduler_method jdriver "resourceOffers" "(Lorg/apache/mesos/SchedulerDriver;Ljava/util/List;)V" in
  let^ clazz := FindClass vm "java/util/ArrayList" in
  let^ init := GetMethodID vm clazz "<init>" "()V" in
  let^ joffers := NewObject vm clazz init [] in
  let^ add := GetMethodID vm clazz "add" "(Ljava/lang/Object;)Z" in
  add_offers joffers add offers ;;^
  call_java vm driver m.1 m.2 [Reference jdriver; Reference joffers].

Definition JNIScheduler_offerRescinded (this driver : nat) (offerId : string) : J unit :=
  AttachCurrentThread vm ;;^
  let^ jdriver := proxy_jdriver this in
  let^ m := jni_scheduler_method jdriver "offerRescinded"
    "(Lorg/apache/mesos/SchedulerDriver;Lorg/apache/mesos/Protos$OfferID;)V" in
  let^ jofferId := convert_OfferID vm (p_OfferID P) offerId in
  call_java vm driver m.1 m.2 [Reference jdriver; Reference jofferId].

Definition JNIScheduler_statusUpdate (this driver : nat) (status : TaskStatus) : J unit :=
  AttachCurrentThread vm ;;^
  let^ jdriver := proxy_jdriver this in
  let^ m := jni_scheduler_method jdriver "statusUpdate"
    "(Lorg/apache/mesos/SchedulerDriver;Lorg/apache/mesos/Protos$TaskStatus;)V" in
  let^ jstatus := convert_TaskStatus vm (p_TaskStatus P) status in
  call_java vm driver m.1 m.2 [Reference jdriver; Reference jstatus].

Definition JNIScheduler_frameworkMessage (this driver : nat) (executorId slaveId data : string) : J unit :=
  AttachCurrentThread vm ;;^
  let^ jdriver := proxy_jdriver this in
  let^ m := jni_scheduler_method jdriver "frameworkMessage"
    "(Lorg/apache/mesos/SchedulerDriver;Lorg/apache/mesos/Protos$ExecutorID;Lorg/apache/mesos/Protos$SlaveID;[B)V" in
  let^ jdata := byte_array vm data in
  let^ jexecutorId := convert_ExecutorID vm (p_ExecutorID P) executorId in
  let^ jslaveId := convert_SlaveID vm (p_SlaveID P) slaveId in
  call_java vm driver m.1 m.2 [Reference jdriver; Reference jexecutorId; Reference jslaveId; Reference jdata].

Definition JNIScheduler_slaveLost (this driver : nat) (slaveId : string) : J unit :=
  AttachCurrentThread vm ;;^
  let^ jdriver := proxy_jdriver this in
  let^ m := jni_scheduler_method jdriver "slaveLost"
    "(Lorg/apache/mesos/SchedulerDriver;Lorg/apache/mesos/Protos$SlaveID;)V" in
  let^ jslaveId := convert_SlaveID vm (p_SlaveID P) slaveId in
  call_java vm driver m.1 m.2 [Reference jdriver; Reference jslaveId].

Definition JNIScheduler_executorLost (this driver : nat) (executorId slaveId : string) (status : Z) : J unit :=
  AttachCurrentThread vm ;;^
  let^ jdriver := proxy_jdriver this in
  let^ m := jni_scheduler_method jdriver "executorLost"
    "(Lorg/apache/mesos/SchedulerDriver;Lorg/apache/mesos/Protos$ExecutorID;Lorg/apache/mesos/Protos$SlaveID;I)V" in
  let^ jexecutorId := convert_ExecutorID vm (p_ExecutorID P) executorId in
  let^ jslaveId := convert_SlaveID vm (p_SlaveID P) slaveId in
  call_java vm driver m.1 m.2 [Reference jdriver; Reference jexecutorId; Reference jslaveId; Number status].

Definition JNIScheduler_error (this driver : nat) (message : string) : J unit :=
  AttachCurrentThread vm ;;^
  let^ jdriver := proxy_jdriver this in
  let^ m := jni_scheduler_method jdriver "error" "(Lorg/apache/mesos/SchedulerDriver;Ljava/lang/String;)V" in
  let^ jmessage := convert_string vm message in
  call_java vm driver m.1 m.2 [Reference jdriver; Reference jmessage].

(** The virtual functions of [JNIScheduler] *)
Definition JNIScheduler (this driver : nat) (cb : SchedulerCallback) : J unit :=
  match cb with
  | Registered f m => JNIScheduler_registered this driver f m
  | Reregistered m => JNIScheduler_reregistered this driver m
  | Disconnected => JNIScheduler_disconnected this driver
  | ResourceOffers offers => JNIScheduler_resourceOffers this driver offers
  | OfferRescinded o => JNIScheduler_offerRescinded this driver o
  | StatusUpdated st => JNIScheduler_statusUpdate this driver st
  | FrameworkMessage e i d => JNIScheduler_frameworkMessage this driver e i d
  | SlaveLost i => JNIScheduler_slaveLost this driver i
  | ExecutorLost e i st => JNIScheduler_executorLost this driver e i st
  | ErrorMessage m => JNIScheduler_error this driver m
  end.

(** ** Life cycle *)

(** The value of an optional field *)
Definition optional_field {A} (f : FieldResult) (absent : A) (read : jid -> J A) : J A :=
  match f with FieldSome f => read f | _ => jret absent end.

(** The driver is made; the arguments of its constructor are evaluated from left to
    right. *)
Definition create_driver (thiz : jobject) (clazz : jclass) (jframework jmaster : jobject) (acks : bool) (jcredential : jobject)
    : J unit :=
  let^ f := construct_FrameworkInfo vm (p_FrameworkInfo P) jframework in
  let^ m := construct_string vm jmaster in
  match jcredential with
  | Some _ =>
      let^ c := construct_Credential vm (p_Credential P) jcredential in
      initialize_driver vm thiz clazz (new_driver f m (construct_bool (Z.b2z acks)) (Some c))
  | None => initialize_driver vm thiz clazz (new_driver f m (construct_bool (Z.b2z acks)) None)
  end.

(** The credential, and the rest *)
Definition read_credential (thiz : jobject) (clazz : jclass) (jframework jmaster : jobject) (acks : bool) : J unit :=
  let^ credential := getFieldID vm clazz "credential" "Lorg/apache/mesos/Protos$Credential;" in
  match credential with
  | FieldError _ => jret tt
  | _ =>
      let^ jcredential := optional_field credential None (GetObjectField vm thiz) in
      create_driver thiz clazz jframework jmaster acks jcredential
  end.

Definition MesosSchedulerDriver_initialize (thiz : jobject) : J unit :=
  let^ clazz := GetObjectClass vm thiz in
  let^ _ := initialize_proxy vm thiz clazz "__scheduler" in
  let^ framework := GetFieldID vm clazz "framework" "Lorg/apache/mesos/Protos$FrameworkInfo;" in
  let^ jframework := GetObjectField vm thiz framework in
  let^ master := GetFieldID vm clazz "master" "Ljava/lang/String;" in
  let^ jmaster := GetObjectField vm thiz master in
  let^ implicitAcknowledgements := getFieldID vm clazz "implicitAcknowledgements" "Z" in
  match implicitAcknowledgements with
  | FieldError _ => jret tt
  | _ =>
      let^ acks := optional_field implicitAcknowledgements true (GetBooleanField vm thiz) in
      read_credential thiz clazz jframework jmaster acks
  end.

Definition MesosSchedulerDriver_finalize (thiz : jobject) : J unit := finalize_native vm thiz "__scheduler".

(** ** Methods *)

Definition MesosSchedulerDriver_start (thiz : jobject) : J jobject := plain_method vm thiz DStart.

Definition MesosSchedulerDriver_stop (thiz : jobject) (failover : bool) : J jobject :=
  plain_method vm thiz (DStop failover).

Definition MesosSchedulerDriver_abort (thiz : jobject) : J jobject := plain_method vm thiz DAbort.

Definition MesosSchedulerDriver_join (thiz : jobject) : J jobject :=
  let^ driver := this_driver vm thiz in jreturn vm (jinvoke_join vm driver).

Definition MesosSchedulerDriver_acknowledgeStatusUpdate (thiz jtaskStatus : jobject) : J jobject :=
  let^ taskStatus := construct_TaskStatus vm (p_TaskStatus P) jtaskStatus in
  plain_method vm thiz (DAcknowledgeStatusUpdate taskStatus).

Definition MesosSchedulerDriver_sendFrameworkMessage (thiz jexecutorId jslaveId jdata : jobject) : J jobject :=
  let^ executorId := construct_ExecutorID vm (p_ExecutorID P) jexecutorId in
  let^ slaveId := construct_SlaveID vm (p_SlaveID P) jslaveId in
  let^ temp := construct_bytes vm jdata in
  plain_method vm thiz (DSendFrameworkMessage executorId slaveId temp).

Definition MesosSchedulerDriver_killTask (thiz jtaskId : jobject) : J jobject :=
  let^ taskId := construct_TaskID vm (p_TaskID P) jtaskId in
  plain_method vm thiz (DKillTask taskId).

(** [launchTasks] for one offer *)
Definition MesosSchedulerDriver_launchTasks_one (thiz jofferId jtasks jfilters : jobject) : J jobject :=
  let^ offerId := construct_OfferID vm (p_OfferID P) jofferId in
  let^ tasks := construct_all vm fuel (construct_TaskInfo vm (p_TaskInfo P)) jtasks in
  let^ filters := construct_Filters vm (p_Filters P) jfilters in
  plain_method vm thiz (DLaunchTasks [offerId] tasks filters).

(** [launchTasks] for several *)
Definition MesosSchedulerDriver_launchTasks (thiz jofferIds jtasks jfilters : jobject) : J jobject :=
  let^ offers := construct_all vm fuel (construct_OfferID vm (p_OfferID P)) jofferIds in
  let^ tasks := construct_all vm fuel (construct_TaskInfo vm (p_TaskInfo P)) jtasks in
  let^ filters := construct_Filters vm (p_Filters P) jfilters in
  plain_method vm thiz (DLaunchTasks offers tasks filters).

Definition MesosSchedulerDriver_acceptOffers (thiz jofferIds joperations jfilters : jobject) : J jobject :=
  let^ offers := construct_all vm fuel (construct_OfferID vm (p_OfferID P)) jofferIds in
  let^ operations := construct_all vm fuel (construct_Operation vm (p_Operation P)) joperations in
  let^ filters := construct_Filters vm (p_Filters P) jfilters in
  plain_method vm thiz (DAcceptOffers offers operations filters).

Definition MesosSchedulerDriver_declineOffer (thiz jofferId jfilters : jobject) : J jobject :=
  let^ offerId := construct_OfferID vm (p_OfferID P) jofferId in
  let^ filters := construct_Filters vm (p_Filters P) jfilters in
  plain_method vm thiz (DDeclineOffer offerId filters).

Definition MesosSchedulerDriver_reviveOffers (thiz : jobject) : J jobject := plain_method vm thiz DReviveOffers.

Definition MesosSchedulerDriver_suppressOffers (thiz : jobject) : J jobject := plain_method vm thiz DSuppressOffers.

(** The driver's address is read before the requests. *)
Definition MesosSchedulerDriver_requestResources (thiz jrequests : jobject) : J jobject :=
  let^ driver := this_driver vm thiz in
  let^ requests := construct_all vm fuel (construct_Request vm (p_Request P)) jrequests in
  jreturn vm (jinvoke driver (DRequestResources requests)).

Definition MesosSchedulerDriver_reconcileTasks (thiz jstatuses : jobject) : J jobject :=
  let^ statuses := construct_all vm fuel (construct_TaskStatus vm (p_TaskStatus P)) jstatuses in
  plain_method vm thiz (DReconcileTasks statuses).

(** The native methods of the Java class, with their arguments *)
Inductive SchedulerNative :=
| NStart | NStop (failover : bool) | NAbort | NJoin
| NAcknowledgeStatusUpdate (status : jobject)
| NSendFrameworkMessage (executorId slaveId data : jobject)
| NKillTask (taskId : jobject)
| NLaunchTask (offerId tasks filters : jobject)
| NLaunchTasks (offerIds tasks filters : jobject)
| NAcceptOffers (offerIds operations filters : jobject)
| NDeclineOffer (offerId filters : jobject)
| NReviveOffers | NSuppressOffers
| NRequestResources (requests : jobject)
| NReconcileTasks (statuses : jobject).

Definition scheduler_native_method (thiz : jobject) (n : SchedulerNative) : J jobject :=
  match n with
  | NStart => MesosSchedulerDriver_start thiz
  | NStop failover => MesosSchedulerDriver_stop thiz failover
  | NAbort => MesosSchedulerDriver_abort thiz
  | NJoin => MesosSchedulerDriver_join thiz
  | NAcknowledgeStatusUpdate st => MesosSchedulerDriver_acknowledgeStatusUpdate thiz st
  | NSendFrameworkMessage e i d => MesosSchedulerDriver_sendFrameworkMessage thiz e i d
  | NKillTask t => MesosSchedulerDriver_killTask thiz t
  | NLaunchTask o t f => MesosSchedulerDriver_launchTasks_one thiz o t f
  | NLaunchTasks o t f => MesosSchedulerDriver_launchTasks thiz o t f
  | NAcceptOffers o t f => MesosSchedulerDriver_acceptOffers thiz o t f
  | NDeclineOffer o f => MesosSchedulerDriver_declineOffer thiz o f
  | NReviveOffers => MesosSchedulerDriver_reviveOffers thiz
  | NSuppressOffers => MesosSchedulerDriver_suppressOffers thiz
  | NRequestResources r => MesosSchedulerDriver_requestResources thiz r
  | NReconcileTasks st => MesosSchedulerDriver_reconcileTasks thiz st
  end.

End Binding.
