(* ===== verification/JniExecutor.v ===== *)
(** * The Java binding of the executor driver (liburb/source/org_apache_mesos_MesosExecutorDriver.cpp)

    [JNIExecutor] is the native executor that calls the Java object; the native
    methods of the Java class MesosExecutorDriver call the native driver. *)
From S2P Require Import Prelude Scheduler Executor Native Jni JniConvert JniScheduler.

Section Binding.
  Context {D : Type} `{ND : NativeDriver D Executor.Call} (vm : Vm D Executor.Call) (Q : ExecutorProtos).
  (** [new MesosExecutorDriver(executor)] *)
  Context (new_driver : D).

Abbreviation J := (Jni D Executor.Call) (only parsing).

(** ** JNIExecutor *)

Definition jni_executor_method (jdriver : jobject) (name sig : string) : J (jobject * jid) :=
  framework_method vm jdriver "executor" "Lorg/apache/mesos/Executor;" name sig.

Definition JNIExecutor_registered (this driver : nat) (executorInfo frameworkInfo slaveInfo : string) : J unit :=
  AttachCurrentThread vm ;;^
  let^ jdriver := proxy_jdriver this in
  let^ m := jni_executor_method jdriver "registered"
    "(Lorg/apache/mesos/ExecutorDriver;Lorg/apache/mesos/Protos$ExecutorInfo;Lorg/apache/mesos/Protos$FrameworkInfo;Lorg/apache/mesos/Protos$SlaveInfo;)V" in
  let^ jexecutorInfo := convert_ExecutorInfo vm (q_ExecutorInfo Q) executorInfo in
  let^ jframeworkInfo := convert_FrameworkInfo vm (q_FrameworkInfo Q) frameworkInfo in
  let^ jslaveInfo := convert_SlaveInfo vm (q_SlaveInfo Q) slaveInfo in
  call_java vm driver m.1 m.2
    [Reference jdriver; Reference jexecutorInfo; Reference jframeworkInfo; Reference jslaveInfo].

Definition JNIExecutor_reregistered (this driver : nat) (slaveInfo : string) : J unit :=
  AttachCurrentThread vm ;;^
  let^ jdriver := proxy_jdriver this in
  let^ m := jni_executor_method jdriver "reregistered"
    "(Lorg/apache/mesos/ExecutorDriver;Lorg/apache/mesos/Protos$SlaveInfo;)V" in
  let^ jslaveInfo := convert_SlaveInfo vm (q_SlaveInfo Q) slaveInfo in
  call_java vm driver m.1 m.2 [Reference jdriver; Reference jslaveInfo].

Definition JNIExecutor_disconnected (this driver : nat) : J unit :=
  AttachCurrentThread vm ;;^
  let^ jdriver := proxy_jdriver this in
  let^ m := jni_executor_method jdriver "disconnected" "(Lorg/apache/mesos/ExecutorDriver;)V" in
  call_java vm driver m.1 m.2 [Reference jdriver].

Definition JNIExecutor_launchTask (this driver : nat) (desc : TaskInfo) : J unit :=
  AttachCurrentThread vm ;;^
  let^ jdriver := proxy_jdriver this in
  let^ m := jni_executor_method jdriver "launchTask"
    "(Lorg/apache/mesos/ExecutorDriver;Lorg/apache/mesos/Protos$TaskInfo;)V" in
  let^ jdesc := convert_TaskInfo vm (q_TaskInfo Q) desc in
  call_java vm driver m.1 m.2 [Reference jdriver; Reference jdesc].

Definition JNIExecutor_killTask (this driver : nat) (taskId : string) : J unit :=
  AttachCurrentThread vm ;;^
  let^ jdriver := proxy_jdriver this in
  let^ m := jni_executor_method jdriver "killTask"
    "(Lorg/apache/mesos/ExecutorDriver;Lorg/apache/mesos/Protos$TaskID;)V" in
  let^ jtaskId := convert_TaskID vm (q_TaskID Q) taskId in
  call_java vm driver m.1 m.2 [Reference jdriver; Reference jtaskId].

Definition JNIExecutor_frameworkMessage (this driver : nat) (data : string) : J unit :=
  AttachCurrentThread vm ;;^
  let^ jdriver := proxy_jdriver this in
  let^ m := jni_executor_method jdriver "frameworkMessage" "(Lorg/apache/mesos/ExecutorDriver;[B)V" in
  let^ jdata := byte_array vm data in
  call_java vm driver m.1 m.2 [Reference jdriver; Reference jdata].

Definition JNIExecutor_shutdown (this driver : nat) : J unit :=
  AttachCurrentThread vm ;;^
  let^ jdriver := proxy_jdriver this in
  let^ m := jni_executor_method jdriver "shutdown" "(Lorg/apache/mesos/ExecutorDriver;)V" in
  call_java vm driver m.1 m.2 [Reference jdriver].

Definition JNIExecutor_error (this driver : nat) (message : string) : J unit :=
  AttachCurrentThread vm ;;^
  let^ jdriver := proxy_jdriver this in
  let^ m := jni_executor_method jdriver "error" "(Lorg/apache/mesos/ExecutorDriver;Ljava/lang/String;)V" in
  let^ jmessage := convert_string vm message in
  call_java vm driver m.1 m.2 [Reference jdriver; Reference jmessage].

(** The virtual functions of [JNIExecutor] *)
Definition JNIExecutor (this driver : nat) (cb : ExecutorCallback) : J unit :=
  match cb with
  | ExRegistered e f i => JNIExecutor_registered this driver e f i
  | ExReregistered i => JNIExecutor_reregistered this driver i
  | ExDisconnected => JNIExecutor_disconnected this driver
  | ExLaunchTask task => JNIExecutor_launchTask this driver task
  | ExKillTask t => JNIExecutor_killTask this driver t
  | ExFrameworkMessage data => JNIExecutor_frameworkMessage this driver data
  | ExShutdown => JNIExecutor_shutdown this driver
  | ExError m => JNIExecutor_error this driver m
  end.

(** ** Life cycle *)

Definition MesosExecutorDriver_initialize (thiz : jobject) : J unit :=
  let^ clazz := GetObjectClass vm thiz in
  let^ _ := initialize_proxy vm thiz clazz "__executor" in
  initialize_driver vm thiz clazz new_driver.

Definition MesosExecutorDriver_finalize (thiz : jobject) : J unit := finalize_native vm thiz "__executor".

(** ** Methods *)

Definition MesosExecutorDriver_start (thiz : jobject) : J jobject := plain_method vm thiz DStart.

Definition MesosExecutorDriver_stop (thiz : jobject) : J jobject := plain_method vm thiz DStop.

Definition MesosExecutorDriver_abort (thiz : jobject) : J jobject := plain_method vm thiz DAbort.

Definition MesosExecutorDriver_join (thiz : jobject) : J jobject :=
  let^ driver := this_driver vm thiz in jreturn vm (jinvoke_join vm driver).

Definition MesosExecutorDriver_sendStatusUpdate (thiz jstatus : jobject) : J jobject :=
  let^ taskStatus := construct_TaskStatus vm (q_TaskStatus Q) jstatus in
  plain_method vm thiz (DSendStatusUpdate taskStatus).

Definition MesosExecutorDriver_sendFrameworkMessage (thiz jdata : jobject) : J jobject :=
  let^ temp := construct_bytes vm jdata in
  plain_method vm thiz (DSendFrameworkMessage temp).

(** The native methods of the Java class, with their arguments *)
Inductive ExecutorNative :=
| XStart | XStop | XAbort | XJoin
| XSendStatusUpdate (status : jobject)
| XSendFrameworkMessage (data : jobject).

Definition executor_native_method (thiz : jobject) (n : ExecutorNative) : J jobject :=
  match n with
  | XStart => MesosExecutorDriver_start thiz
  | XStop => MesosExecutorDriver_stop thiz
  | XAbort => MesosExecutorDriver_abort thiz
  | XJoin => MesosExecutorDriver_join thiz
  | XSendStatusUpdate st => MesosExecutorDriver_sendStatusUpdate thiz st
  | XSendFrameworkMessage d => MesosExecutorDriver_sendFrameworkMessage thiz d
  end.

End Binding.
