(* ===== verification/JniLogic.v ===== *)
(** * Reasoning about the Java bindings

    Most steps of the bindings only ask the machine: they leave the state as it
    was, and add to the events.  [yields] says so of a computation, and what it
    returns.  The records below say what the bindings need of the machine and of
    the objects that Java passes to them. *)
From Stdlib Require Import Ascii.
From S2P Require Import Prelude Scheduler Native Jni JniConvert JniScheduler.

(** The methods that classes are found, and messages and numbers read with *)
Abbreviation loadClass_id := (mkMember "java/lang/ClassLoader" "loadClass" "(Ljava/lang/String;)Ljava/lang/Class;").
Abbreviation parseFrom_id name := (mkMember (message_class name) "parseFrom" ("([B)L" +:+ message_class name +:+ ";")).
Abbreviation valueOf_id name := (mkMember (message_class name) "valueOf" ("(I)L" +:+ message_class name +:+ ";")).

Section Logic.
  Context {D C : Type} `{ND : NativeDriver D C} (vm : Vm D C).

Abbreviation St := (JniState D C).
Abbreviation Ev := (JniEvent C).
Abbreviation J := (Jni D C) (only parsing).

(** ** Computations that only add events *)

Definition logged (h : list Ev) (s : St) : St := mkJni (attached s) (frames s) (thrown s) (weaks s) (held s)
  (longs s) (heap s) (next s) (loader s) (events s ++ h).

Definition ready (s : St) : Prop := attached s = true /\ thrown s = None.

(** The events that are more than questions *)
Definition effect (e : Ev) : bool := match e with Asked _ _ => false | _ => true end.
Definition effects (h : list Ev) : list Ev := List.filter effect h.

Lemma effects_app h k : effects (h ++ k) = effects h ++ effects k.
Proof. apply List.filter_app. Qed.

Definition yields {A} (m : J A) (s : St) (P : A -> list Ev -> Prop) : Prop :=
  exists a h, m s = Finished a (logged h s) /\ effects h = [] /\ P a h.

Lemma logged_nil s : logged [] s = s.
Proof. destruct s. unfold logged. cbn. by rewrite app_nil_r. Qed.

Lemma logged_app h k s : logged k (logged h s) = logged (h ++ k) s.
Proof. unfold logged. cbn. by rewrite app_assoc. Qed.

Lemma logged_ready h s : ready s -> ready (logged h s).
Proof. done. Qed.

Lemma jlog_logged e (s : St) : jlog e s = logged [e] s.
Proof. done. Qed.

Lemma jbind_finished {A B} (m : J A) (k : A -> J B) s a s' : m s = Finished a s' -> jbind m k s = k a s'.
Proof. unfold jbind. by intros ->. Qed.

Lemma yields_ret {A} (a : A) s (P : A -> list Ev -> Prop) : P a [] -> yields (jret a) s P.
Proof. intros HP. exists a, []. by rewrite logged_nil. Qed.

Lemma yields_bind {A B} (m : J A) (k : A -> J B) s Q :
  yields m s (fun a h => yields (k a) (logged h s) (fun b h' => Q b (h ++ h'))) -> yields (jbind m k) s Q.
Proof.
  intros (a & h & E & N & b & h' & E' & N' & HQ).
  exists b, (h ++ h'). split_and!; [|by rewrite effects_app, N, N'|done].
  rewrite (jbind_finished _ _ _ _ _ E), E'. by rewrite logged_app.
Qed.

(** A step without events *)
Lemma yields_silent {A B} (m : J A) (k : A -> J B) s a Q :
  m s = Finished a s -> yields (k a) s Q -> yields (jbind m k) s Q.
Proof. intros E. unfold yields. by rewrite (jbind_finished _ _ _ _ _ E). Qed.

Lemma yields_mono {A} (m : J A) s (P Q : A -> list Ev -> Prop) :
  yields m s P -> (forall a h, P a h -> Q a h) -> yields m s Q.
Proof. intros (a & h & E & N & HP) HQ. exists a, h. auto. Qed.

Lemma yields_env {A} (m : J A) s P : ready s -> yields m s P -> yields (with_env m) s P.
Proof. intros (Ha & Ht) Hm. unfold yields, with_env, on_thread. by rewrite Ha, Ht. Qed.

Lemma yields_ask {A : Set} {B} (c : JniCall A) (null : B) result s a (P : B -> list Ev -> Prop) : ready s ->
  vm_reply vm (events s) c = Answers a -> P (result a) [Asked c (Answers a)] -> yields (ask vm c null result) s P.
Proof.
  intros R E HP. apply yields_env; [done|]. exists (result a), [Asked c (Answers a)].
  by rewrite E, jlog_logged.
Qed.

(** ** Requests that are answered *)

(** The answer to a request, whatever happened before. *)
Definition answers {A : Set} (c : JniCall A) : Prop := forall h, exists a, vm_reply vm h c = Answers a.

Definition has (kind : MemberKind) (cls name sig : string) : Prop := answers (MemberQ kind (mkMember cls name sig)).

Lemma GetObjectClass_yields o s (P : option string -> list Ev -> Prop) : ready s ->
  P (Some (vm_type vm o)) [] -> yields (GetObjectClass vm (Some (Local o))) s P.
Proof. intros R HP. apply yields_env; [done|]. exists (Some (vm_type vm o)), []. by rewrite logged_nil. Qed.

Lemma GetMember_yields kind cls name sig s (P : option Member -> list Ev -> Prop) : ready s -> has kind cls name sig ->
  P (Some (mkMember cls name sig)) [Asked (MemberQ kind (mkMember cls name sig)) (Answers tt)] ->
  yields (GetMember vm kind (Some cls) name sig) s P.
Proof.
  intros R Hm HP. apply yields_env; [done|]. destruct (Hm (events s)) as [[] E].
  eapply yields_silent; [done|]. by eapply yields_ask.
Qed.

(** A call of a method on an object the native code has a local reference to. *)
Lemma CallObjectMethod_yields o m s x (P : option Ref -> list Ev -> Prop) : ready s ->
  vm_reply vm (events s) (ObjectMethodQ o m []) = Answers x ->
  P (Local <$> x) [Asked (ObjectMethodQ o m []) (Answers x)] ->
  yields (CallObjectMethod vm (Some (Local o)) (Some m) []) s P.
Proof. intros (Ha & Ht) E HP. apply yields_env; [done|]. by apply (yields_ask (ObjectMethodQ o m []) None (fun a : option nat => Local <$> a) s x). Qed.

Lemma CallBooleanMethod_yields o m s b (P : bool -> list Ev -> Prop) : ready s ->
  vm_reply vm (events s) (BooleanMethodQ o m []) = Answers b -> P b [Asked (BooleanMethodQ o m []) (Answers b)] ->
  yields (CallBooleanMethod vm (Some (Local o)) (Some m) []) s P.
Proof. intros (Ha & Ht) E HP. apply yields_env; [done|]. by apply (yields_ask _ _ id s b). Qed.

(** ** Collections in the events *)

(** The number of items an iterator has given *)
Definition is_next (it : nat) (e : Ev) : bool :=
  match e with Asked (ObjectMethodQ o m _) (Answers _) => Nat.eqb o it && String.eqb (m_name m) "next" | _ => false end.
Definition nexts (it : nat) (h : list Ev) : nat := length (List.filter (is_next it) h).

(** The arguments of the successful calls of [add] on a list *)
Definition adds_to (l : nat) (e : Ev) : list JArg :=
  match e with
  | Asked (BooleanMethodQ o m args) (Answers _) => if Nat.eqb o l && String.eqb (m_name m) "add" then args else []
  | _ => []
  end.
Definition added (l : nat) (h : list Ev) : list JArg := concat (map (adds_to l) h).

(** Events of no collection *)
Definition idle_event (e : Ev) : bool :=
  match e with
  | Asked (ObjectMethodQ _ m _) _ => negb (String.eqb (m_name m) "next")
  | Asked (BooleanMethodQ _ m _) _ => negb (String.eqb (m_name m) "add")
  | _ => true
  end.
Definition idle_events (h : list Ev) : Prop := forallb idle_event h = true.

Lemma nexts_app it h k : nexts it (h ++ k) = (nexts it h + nexts it k)%nat.
Proof. unfold nexts. by rewrite List.filter_app, length_app. Qed.

Lemma added_app l h k : added l (h ++ k) = added l h ++ added l k.
Proof. unfold added. by rewrite map_app, concat_app. Qed.

Lemma idle_events_app h k : idle_events h -> idle_events k -> idle_events (h ++ k).
Proof. unfold idle_events. intros Hh Hk. by rewrite forallb_app, Hh, Hk. Qed.

Lemma idle_no_nexts it h : idle_events h -> nexts it h = 0%nat.
Proof.
  induction h as [|e h IH]; [done|]. unfold idle_events, nexts. cbn. intros [He Hh]%andb_prop.
  replace (is_next it e) with false; [by apply IH|].
  destruct e as [? [] []| | | | | | | |]; cbn in *; try done. by destruct (String.eqb _ _), (Nat.eqb _ _).
Qed.

Lemma idle_no_adds l h : idle_events h -> added l h = [].
Proof.
  induction h as [|e h IH]; [done|]. unfold idle_events, added. cbn. intros [He Hh]%andb_prop.
  replace (adds_to l e) with (@nil JArg); [by apply IH|].
  destruct e as [? [] []| | | | | | | |]; cbn in *; try done. by destruct (String.eqb _ _), (Nat.eqb _ _).
Qed.

(** ** What the machine must provide *)

(** Memory for the strings and arrays that the native code makes. *)
Record Memory : Prop := {
  mem_string : forall text, answers (NewStringUTFQ text);
  mem_bytes : forall n, 0 <= n -> answers (NewByteArrayQ n);
  mem_region : forall h array data, Z.of_nat (String.length data) < 2 ^ 31 ->
    Asked (NewByteArrayQ (Z.of_nat (String.length data))) (Answers array) ∈ h ->
    vm_reply vm h (SetByteArrayRegionQ array data) = Answers tt;
}.

(** A class is found: by the machine, or by the class loader that was captured. *)
Definition loads (s : St) (name : string) : Prop :=
  match loader s with
  | None => answers (FindClassQ name)
  | Some k => exists o, weaks s !! k = Some o /\ answers (FindClassQ "java/lang/ClassLoader") /\
      has Method "java/lang/ClassLoader" "loadClass" "(Ljava/lang/String;)Ljava/lang/Class;" /\
      forall h text, Asked (NewStringUTFQ (before_nul (binary_name name))) (Answers text) ∈ h ->
        exists c, vm_reply vm h (ObjectMethodQ o loadClass_id [AObj text]) = Answers (Some c) /\ vm_class vm c = name
  end.

(** Java can parse these bytes as a message of this type. *)
Definition parses (s : St) (name data : string) : Prop :=
  Z.of_nat (String.length data) < 2 ^ 31 /\ loads s (message_class name) /\
  has StaticMethod (message_class name) "parseFrom" ("([B)L" +:+ message_class name +:+ ";") /\
  forall h array, Asked (SetByteArrayRegionQ array data) (Answers tt) ∈ h ->
    exists o, vm_reply vm h (StaticMethodQ (parseFrom_id name) [AObj array]) = Answers (Some o).

(** The enumeration has this number. *)
Definition numbers (s : St) (name : string) (n : Z) : Prop :=
  loads s (message_class name) /\ has StaticMethod (message_class name) "valueOf" ("(I)L" +:+ message_class name +:+ ";") /\
  forall h, exists o, vm_reply vm h (StaticMethodQ (valueOf_id name) [ANumber n]) = Answers (Some o).

(** An object that Java made of the bytes of a message... *)
Definition made (h : list Ev) (name data : string) (o : nat) : Prop := exists array,
  Asked (SetByteArrayRegionQ array data) (Answers tt) ∈ h /\
  Asked (StaticMethodQ (parseFrom_id name) [AObj array]) (Answers (Some o)) ∈ h.
(** ... of a string, and an array with bytes. *)
Definition made_text (h : list Ev) (text : string) (o : nat) : Prop :=
  Asked (NewStringUTFQ (before_nul text)) (Answers o) ∈ h.
Definition made_bytes (h : list Ev) (data : string) (array : nat) : Prop :=
  Asked (SetByteArrayRegionQ array data) (Answers tt) ∈ h.

Lemma made_mono h k name data o : h ⊆ k -> made h name data o -> made k name data o.
Proof. intros Hs (array & H1 & H2). exists array. split; by apply Hs. Qed.

(** An event of those that were added. *)
Ltac in_events :=
  unfold made_bytes, made_text in *; cbn [events logged]; rewrite ?elem_of_app, ?list_elem_of_singleton; auto 10.

(** ** Conversions *)

Lemma no_exception s : ready s -> ExceptionCheck s = Finished false s.
Proof. intros [Ha Ht]. unfold ExceptionCheck, on_thread, jget. by rewrite Ha, Ht. Qed.

Lemma NewStringUTF_yields text s (P : option Ref -> list Ev -> Prop) : Memory -> ready s ->
  (forall o, P (Some (Local o)) [Asked (NewStringUTFQ (before_nul text)) (Answers o)]) ->
  yields (NewStringUTF vm text) s P.
Proof.
  intros M R HP. destruct (mem_string M (before_nul text) (events s)) as [o E]. by eapply yields_ask.
Qed.

Lemma FindMesosClass_yields name s (P : option string -> list Ev -> Prop) : Memory -> ready s -> loads s name ->
  (forall h, idle_events h -> P (Some name) h) -> yields (FindMesosClass vm name) s P.
Proof.
  intros M R L HP. eapply yields_silent; [by apply no_exception|]. eapply yields_silent; [done|].
  unfold loads in L. destruct (loader s) as [k|].
  2:{ destruct (L (events s)) as [[] E]. eapply yields_ask; [done|done|by apply HP]. }
  destruct L as (o & Ho & Hc & Hm & Hl). cbn zeta.
  destruct (Hc (events s)) as [[] E]. apply yields_bind. eapply yields_ask; [done|done|].
  eapply yields_silent; [done|]. apply yields_bind. apply GetMember_yields; [done|done|].
  eapply yields_silent; [done|]. apply yields_bind. apply NewStringUTF_yields; [done|done|]. intros text.
  eapply yields_silent; [by apply no_exception|]. cbn iota. rewrite !logged_app.
  match goal with |- yields _ (logged ?h s) _ =>
    destruct (Hl (events (logged h s)) text) as (c & Ec & Hn); [in_events|] end.
  apply yields_bind, yields_env; [done|].
  eapply yields_silent; [by cbn; rewrite Ho|]. eapply yields_silent; [done|]. eapply yields_silent; [done|].
  eapply yields_ask; [done|exact Ec|]. eapply yields_silent; [by apply no_exception|].
  eapply yields_silent; [done|]. apply yields_ret. rewrite Hn. by apply HP.
Qed.

Lemma byte_array_yields data s (P : option Ref -> list Ev -> Prop) : Memory -> ready s ->
  Z.of_nat (String.length data) < 2 ^ 31 ->
  (forall array h, made_bytes h data array -> idle_events h -> P (Some (Local array)) h) -> yields (byte_array vm data) s P.
Proof.
  intros M R Hn HP. apply yields_bind. unfold NewByteArray. rewrite va_int_small by lia.
  destruct (mem_bytes M (Z.of_nat (String.length data)) ltac:(lia) (events s)) as [array E].
  eapply yields_ask; [done|exact E|]. apply yields_bind, yields_env; [done|]. eapply yields_silent; [done|].
  eapply (yields_ask _ _ _ _ tt); [done|apply (mem_region M); [done|in_events]|].
  apply yields_ret, HP; [in_events|done].
Qed.

Definition bytes_of {T} (p : Proto T) (t : T) : string := default "" (SerializeToString p t).

Lemma convert_message_yields {T} name (p : Proto T) t s (P : option Ref -> list Ev -> Prop) : Memory -> ready s ->
  parses s name (bytes_of p t) -> (forall o h, made h name (bytes_of p t) o -> idle_events h -> P (Some (Local o)) h) ->
  yields (convert_message vm name p t) s P.
Proof.
  intros M R (Hn & L & Hm & Hp) HP. apply yields_bind, byte_array_yields; [done|done|done|].
  intros array h Hb Ih. apply yields_bind, FindMesosClass_yields; [done|done|done|]. intros h1 Ih1.
  apply yields_bind, GetMember_yields; [done|done|]. rewrite !logged_app.
  apply yields_env; [done|]. eapply yields_silent; [done|]. eapply yields_silent; [done|]. eapply yields_silent; [done|].
  match goal with |- yields _ (logged ?h s) _ =>
    destruct (Hp (events (logged h s)) array) as [o Eo]; [in_events|] end.
  eapply yields_ask; [done|exact Eo|]. apply HP; [exists array; split; in_events|by repeat apply idle_events_app].
Qed.

Lemma convert_number_yields name n s (P : option Ref -> list Ev -> Prop) : Memory -> ready s -> numbers s name n ->
  (forall o h, Asked (StaticMethodQ (valueOf_id name) [ANumber n]) (Answers (Some o)) ∈ h -> P (Some (Local o)) h) ->
  yields (convert_number vm name n) s P.
Proof.
  intros M R (L & Hm & Hv) HP. apply yields_bind, FindMesosClass_yields; [done|done|done|]. intros h _.
  apply yields_bind, GetMember_yields; [done|done|]. rewrite !logged_app.
  apply yields_env; [done|]. eapply yields_silent; [done|]. eapply yields_silent; [done|]. eapply yields_silent; [done|].
  match goal with |- yields _ (logged ?h s) _ => destruct (Hv (events (logged h s))) as [o Eo] end.
  eapply yields_ask; [done|exact Eo|]. apply HP. in_events.
Qed.

(** ** Objects that Java passes *)

(** An array with these bytes *)
Definition readable (array : nat) (data : string) : Prop := forall h,
  vm_reply vm h (ByteArrayElementsQ array) = Answers data /\
  vm_reply vm h (ArrayLengthQ array) = Answers (String.length data).

Abbreviation toByteArray_id o := (mkMember (vm_type vm o) "toByteArray" "()[B").

(** An object that serialises itself to these bytes *)
Definition honest_bytes (o : nat) (data : string) : Prop := has Method (vm_type vm o) "toByteArray" "()[B" /\
  forall h, exists array, vm_reply vm h (ObjectMethodQ o (toByteArray_id o) []) = Answers (Some array) /\
    readable array data.
Definition honest_message {T} (p : Proto T) (o : nat) (t : T) : Prop := exists data,
  honest_bytes o data /\ ParseFrom p data = Some t.
Definition honest_string (o : nat) (text : string) : Prop := forall h, vm_reply vm h (StringUTFCharsQ o) = Answers text.

Abbreviation iterator_id l := (mkMember (vm_type vm l) "iterator" "()Ljava/util/Iterator;").
Abbreviation hasNext_id it := (mkMember (vm_type vm it) "hasNext" "()Z").
Abbreviation next_id it := (mkMember (vm_type vm it) "next" "()Ljava/lang/Object;").

(** An iterator over these items, none of which it has given yet at [h] *)
Record iterates (h : list Ev) (it : nat) (items : list nat) : Prop := {
  it_new : nexts it h = 0%nat;
  it_hasNext : has Method (vm_type vm it) "hasNext" "()Z";
  it_next : has Method (vm_type vm it) "next" "()Ljava/lang/Object;";
  it_more : forall k, vm_reply vm k (BooleanMethodQ it (hasNext_id it) []) = Answers (nexts it k <? length items)%nat;
  it_item : forall k o, items !! nexts it k = Some o ->
    vm_reply vm k (ObjectMethodQ it (next_id it) []) = Answers (Some o);
}.

(** A collection of these items *)
Definition collection (l : nat) (items : list nat) : Prop :=
  has Method (vm_type vm l) "iterator" "()Ljava/util/Iterator;" /\
  forall h, exists it, vm_reply vm h (ObjectMethodQ l (iterator_id l) []) = Answers (Some it) /\ iterates h it items.
Definition honest_collection {T} (p : Proto T) (l : nat) (ts : list T) : Prop := exists items,
  collection l items /\ Forall2 (honest_message p) items ts.

Lemma with_env_ready {A} (m : J A) s : ready s -> with_env m s = m s.
Proof. intros (Ha & Ht). unfold with_env, on_thread. by rewrite Ha, Ht. Qed.

Lemma ask_done {A : Set} {B} (c : JniCall A) (null : B) result s a : ready s -> vm_reply vm (events s) c = Answers a ->
  ask vm c null result s = Finished (result a) (logged [Asked c (Answers a)] s).
Proof. intros R E. unfold ask. rewrite with_env_ready by done. by rewrite E. Qed.

Lemma hold_done o (c : JniCall string) data s : ready s -> vm_reply vm (events s) c = Answers data ->
  (let^ d := ask vm c None Some in hold o d) s =
  Finished (Some data) (logged [Asked c (Answers data)] (set_held (o :: held s) s)).
Proof. intros R E. by rewrite (jbind_finished _ _ _ _ _ (ask_done _ _ _ _ _ R E)). Qed.

Lemma release_done o l s : ready s -> held s = o :: l -> release (Some (Local o)) s = Finished tt (set_held l s).
Proof.
  intros (Ha & Ht) Hh. unfold release, on_thread, jbind, jget. rewrite Ha. cbn. rewrite Hh. cbn.
  by rewrite Nat.eqb_refl.
Qed.

(** The elements of an array are held while they are read. *)
Lemma elements_yields {T} (f : string -> nat -> J T) array data t s (P : T -> list Ev -> Prop) : ready s ->
  readable array data -> (forall s', f data (String.length data) s' = Finished t s') ->
  (forall h, idle_events h -> P t h) ->
  yields (let^ data := GetByteArrayElements vm (Some (Local array)) in
          let^ length := GetArrayLength vm (Some (Local array)) in
          let^ t := f (default "" data) length in
          ReleaseByteArrayElements (Some (Local array)) ;;^ jret t) s P.
Proof.
  intros (Ha & Ht) Hr Hf HP. destruct (Hr (events s)) as [E _].
  exists t, [Asked (ByteArrayElementsQ array) (Answers data); Asked (ArrayLengthQ array) (Answers (String.length data))].
  split_and!; [|done|by apply HP].
  erewrite jbind_finished; [|unfold GetByteArrayElements; rewrite with_env_ready by done; by apply hold_done].
  erewrite jbind_finished; [|unfold GetArrayLength; rewrite with_env_ready by done; by apply ask_done, Hr].
  erewrite jbind_finished; [|apply Hf]. erewrite jbind_finished; [|by apply release_done].
  unfold logged, set_held. cbn. rewrite <- app_assoc. by destruct s.
Qed.

Lemma parse_done {T} (p : Proto T) data t (s : St) : ParseFrom p data = Some t ->
  parse p data (String.length data) s = Finished t s.
Proof. intros E. unfold parse. by rewrite substring_all, E. Qed.

Lemma construct_message_yields {T} (p : Proto T) o t s (P : T -> list Ev -> Prop) : ready s -> honest_message p o t ->
  (forall h, idle_events h -> P t h) -> yields (construct_message vm p (Some (Local o))) s P.
Proof.
  intros R (data & (Hm & Hb) & Hp) HP. apply yields_bind, GetObjectClass_yields; [done|].
  apply yields_bind, GetMember_yields; [done|done|]. rewrite logged_app. cbn [app].
  match goal with |- yields _ ?s1 _ => destruct (Hb (events s1)) as (array & Ea & Hr) end.
  apply yields_bind. eapply CallObjectMethod_yields; [done|exact Ea|].
  eapply elements_yields; [done|exact Hr|by intros; apply parse_done|].
  intros h Hh. apply HP. by repeat apply idle_events_app.
Qed.

Lemma construct_bytes_yields array data s (P : string -> list Ev -> Prop) : ready s -> readable array data ->
  (forall h, idle_events h -> P data h) -> yields (construct_bytes vm (Some (Local array))) s P.
Proof.
  intros R Hr HP. eapply (elements_yields (fun d n => jret (String.substring 0 n d))); [done|exact Hr| |done].
  intros s'. by rewrite substring_all.
Qed.

Lemma construct_string_yields o text s (P : string -> list Ev -> Prop) : ready s -> honest_string o text ->
  (forall h, idle_events h -> P (before_nul text) h) -> yields (construct_string vm (Some (Local o))) s P.
Proof.
  intros (Ha & Ht) E HP. exists (before_nul text), [Asked (StringUTFCharsQ o) (Answers text)].
  split_and!; [|done|by apply HP]. unfold construct_string.
  erewrite jbind_finished; [|unfold GetStringUTFChars; rewrite with_env_ready by done; by apply hold_done].
  erewrite jbind_finished; [|done]. cbn zeta. erewrite jbind_finished; [|by apply release_done]. by destruct s.
Qed.

(** ** Loops over collections *)

Section Loop.
  Context {A X : Type} (body : A -> option Ref -> J A) (step : A -> X -> A) (ok : nat -> X -> Prop).
  Context (Hbody : forall acc o x s (P : A -> list Ev -> Prop), ready s -> ok o x ->
    (forall h, idle_events h -> P (step acc x) h) -> yields (body acc (Some (Local o))) s P).

(** The loop from the item that the iterator gives next *)
Lemma iterate_yields h0 it items fuel xs acc s (P : A -> list Ev -> Prop) : iterates h0 it items -> ready s ->
  (nexts it (events s) <= length items)%nat -> Forall2 ok (drop (nexts it (events s)) items) xs ->
  (length xs < fuel)%nat -> (forall h, P (foldl step acc xs) h) ->
  yields (iterate vm fuel (Some (Local it)) (Some (hasNext_id it)) (Some (next_id it)) body acc) s P.
Proof.
  intros I. revert xs acc s P. induction fuel as [|fuel IH]; intros xs acc s P R Hn H2 Hf HP; [lia|].
  cbn [iterate]. apply yields_bind. eapply CallBooleanMethod_yields; [done|apply (it_more _ _ _ I)|].
  set (n := nexts it (events s)) in *. destruct xs as [|x xs]; cbn [length foldl] in *.
  - apply Forall2_length in H2. rewrite length_drop in H2. cbn in H2.
    destruct (Nat.ltb_spec n (length items)); [lia|]. by apply yields_ret.
  - inversion H2 as [|o ? os ? Ho Hos Hdrop]; subst.
    assert (items !! n = Some o) as Hi by (rewrite <- (Nat.add_0_r n), <- lookup_drop; by rewrite <- Hdrop).
    pose proof (lookup_lt_Some _ _ _ Hi). destruct (Nat.ltb_spec n (length items)); [|lia].
    apply yields_bind. eapply CallObjectMethod_yields; [done|apply (it_item _ _ _ I)|].
    { cbn [logged events]. rewrite nexts_app. cbn. by rewrite Nat.add_0_r. }
    apply yields_bind, Hbody with x; [done|done|]. intros h Hh. rewrite !logged_app.
    match goal with |- yields _ ?s2 _ => assert (nexts it (events s2) = S n) as Hs end.
    { cbn [logged events]. rewrite !nexts_app, (idle_no_nexts it h Hh). cbn. rewrite Nat.eqb_refl. cbn. fold n. lia. }
    apply IH with xs; [done|lia| |lia|done]. rewrite Hs.
    rewrite <- Nat.add_1_r, <- drop_drop, <- Hdrop. done.
Qed.

Lemma for_each_yields l items fuel xs acc s (P : A -> list Ev -> Prop) : collection l items -> ready s ->
  Forall2 ok items xs -> (length xs < fuel)%nat -> (forall h, P (foldl step acc xs) h) ->
  yields (for_each vm fuel (Some (Local l)) body acc) s P.
Proof.
  intros (Hi & Hc) R H2 Hf HP. apply yields_bind, GetObjectClass_yields; [done|].
  apply yields_bind, GetMember_yields; [done|done|].
  match goal with |- yields _ ?s1 _ => destruct (Hc (events s1)) as (it & Ei & I) end.
  apply yields_bind. eapply CallObjectMethod_yields; [done|exact Ei|].
  apply yields_bind, GetObjectClass_yields; [done|].
  apply yields_bind, GetMember_yields; [done|apply I|]. apply yields_bind, GetMember_yields; [done|apply I|].
  eapply iterate_yields; [exact I|done| | |exact Hf|by intros; apply HP].
  all: cbn [logged events]; rewrite !nexts_app; pose proof (it_new _ _ _ I) as H0; cbn [logged events] in H0;
    rewrite !nexts_app in H0; cbn; rewrite ?andb_false_r; cbn.
  all: rewrite ?Nat.add_0_r; replace (nexts it (events s)) with 0%nat by lia; first [lia|done].
Qed.

End Loop.

Lemma push_all {T} (ts read : list T) : foldl (fun read t => read ++ [t]) read ts = read ++ ts.
Proof.
  revert read. induction ts as [|t ts IH]; intros read; cbn; [by rewrite app_nil_r|]. by rewrite IH, <- app_assoc.
Qed.

Lemma construct_all_yields {T} (p : Proto T) fuel l ts s (P : list T -> list Ev -> Prop) : ready s ->
  honest_collection p l ts -> (length ts < fuel)%nat -> (forall h, P ts h) ->
  yields (construct_all vm fuel (construct_message vm p) (Some (Local l))) s P.
Proof.
  intros R (items & Hc & H2) Hf HP.
  eapply (for_each_yields _ (fun read t => read ++ [t]) (honest_message p)); [|exact Hc|done|exact H2|done|].
  2:{ intros h. rewrite push_all. apply HP. }
  intros acc o t s' Q R' Ho HQ. apply yields_bind. eapply construct_message_yields; [done|exact Ho|].
  intros h Hh. apply yields_ret. rewrite app_nil_r. by apply HQ.
Qed.

(** ** Callbacks *)

(** What follows the call of the framework: the exception is printed, the thread
    leaves the machine unless Java methods are on its stack, and the driver is
    aborted. *)
Definition leaving (s : St) : list Ev := if frames s then [] else [Detach].
Definition entering (s : St) : list Ev := if attached s then [] else [Attach].
Definition aborting (threw : option nat) : list C := match threw with Some _ => [nd_abort] | None => [] end.
Definition ending (s : St) (threw : option nat) : list Ev :=
  match threw with Some e => [Described e] | None => [] end ++ leaving s ++ map Invoked (aborting threw).

(** The state after a callback that left the driver as [d] *)
Definition called_back (driver : nat) (d : D) (h : list Ev) (s : St) : St :=
  mkJni (frames s) (frames s) None (weaks s) (held s) (longs s) (<[driver := ADriver d]> (heap s))
    (next s) (loader s) (events s ++ h).

(** The driver after the calls that Java makes, and the abort *)
Definition after_calls {A} (d : D) (calls : list C) (finished : D -> JniResult D C A) (r : JniResult D C A) : Prop :=
  match run_calls calls (Some d) with
  | Ret (Some d') => r = finished d'
  | Ret None => False
  | Fatal why => r = Stopped why
  end.

Definition detached (s : St) : St := mkJni (frames s) (frames s) (thrown s) (weaks s) (held s) (longs s) (heap s)
  (next s) (loader s) (events s ++ leaving s).

Lemma detach_done s : attached s = true -> DetachCurrentThread s = Finished tt (detached s).
Proof.
  intros At. unfold DetachCurrentThread, detached, leaving. destruct s as [at' fr th we he lo hp nx ld ev]. cbn in *. subst.
  destruct fr; cbn; by rewrite ?app_nil_r.
Qed.

Lemma jinvoke_done driver c d (s : St) : heap s !! driver = Some (ADriver d) ->
  after_calls d [c] (fun d' => Finished tt (jlog (Invoked c) (set_heap (<[driver := ADriver d']> (heap s)) s)))
    ((let^ _ := jinvoke driver c in jret tt) s).
Proof.
  intros Hd. unfold after_calls, jbind, jinvoke. rewrite Hd. cbn. destruct (nd_invoke c d) as [[d' st]|]; done.
Qed.

Lemma call_java_done driver fw m nargs args d s : ready s -> heap s !! driver = Some (ADriver d) ->
  args_of nargs s = Finished args s ->
  let reply := vm_framework vm (events s) fw m args in
  after_calls d (fr_calls reply ++ aborting (fr_throws reply))
    (fun d' => Finished tt (called_back driver d'
       (Framework fw m args (fr_calls reply) (fr_throws reply) :: ending s (fr_throws reply)) s))
    (call_java vm driver (Some (Local fw)) (Some m) nargs s).
Proof.
  intros R Hd Ha reply. pose proof R as [At Th]. unfold call_java.
  erewrite jbind_finished; [|unfold ExceptionClear, on_thread; by rewrite At].
  replace (set_thrown None s) with s by (destruct s; cbn in *; by subst).
  destruct (run_calls (fr_calls reply) (Some d)) as [[d1|]|why] eqn:E1.
  - erewrite jbind_finished.
    2:{ unfold CallVoidMethod. rewrite with_env_ready by done.
        do 3 (erewrite jbind_finished; [|first [exact Ha|done]]). fold reply. rewrite Hd, E1. done. }
    unfold after_calls. rewrite (run_calls_app _ _ _ _ E1).
    set (s1 := jlog _ _). assert (attached s1 = true) as At1 by done.
    erewrite jbind_finished; [|unfold ExceptionCheck, on_thread; by rewrite At1]. unfold jget.
    assert (thrown s1 = fr_throws reply) as Ts by done. rewrite Ts. unfold called_back, ending.
    destruct (fr_throws reply) as [e|] eqn:Er.
    + rewrite bool_decide_true by done.
      erewrite jbind_finished; [|unfold ExceptionDescribe, on_thread; by rewrite At1].
      rewrite ?Ts, ?Er.
      erewrite jbind_finished; [|unfold ExceptionClear, on_thread; cbn; by rewrite At].
      erewrite jbind_finished; [|by apply detach_done].
      match goal with |- context [jbind (jinvoke driver nd_abort) _ ?s2] =>
        pose proof (jinvoke_done driver nd_abort d1 s2 (lookup_insert_eq _ _ _)) as Hj end.
      unfold after_calls in Hj. cbn [aborting map].
      destruct (run_calls [nd_abort] (Some d1)) as [[d2|]|]; [|done|exact Hj].
      rewrite Hj. unfold detached, jlog, set_thrown, set_heap. cbn. rewrite insert_insert_eq, <- !app_assoc. done.
    + rewrite bool_decide_false by (by intros []). cbn [aborting]. rewrite run_calls_nil, detach_done by done.
      unfold detached, s1, jlog, set_thrown, set_heap. cbn. by rewrite app_nil_r, <- !app_assoc.
  - unfold run_calls in E1. by destruct (ofold _ _ d).
  - unfold after_calls. rewrite (run_calls_stops _ _ _ _ E1). unfold CallVoidMethod. unfold jbind at 1.
    rewrite with_env_ready by done.
    do 3 (erewrite jbind_finished; [|first [exact Ha|done]]). fold reply. by rewrite Hd, E1.
Qed.

Section Served.
  Context (driver : nat) (d : D).

(** The computation calls one method of the framework, after questions [h] to the
    machine that [Q] describes, and ends as the call does. *)
Definition served (m : J unit) (s : St) (Q : list Ev -> nat -> Member -> list JArg -> Prop) : Prop :=
  exists h fw mem args, effects h = [] /\ Q h fw mem args /\
    let reply := vm_framework vm (events s ++ h) fw mem args in
    after_calls d (fr_calls reply ++ aborting (fr_throws reply))
      (fun d' => Finished tt (called_back driver d'
         (h ++ Framework fw mem args (fr_calls reply) (fr_throws reply) :: ending s (fr_throws reply)) s)) (m s).

Lemma served_bind {A} (m : J A) (k : A -> J unit) s Q :
  yields m s (fun a h => served (k a) (logged h s) (fun h' => Q (h ++ h'))) -> served (jbind m k) s Q.
Proof.
  intros (a & h & E & N & h' & fw & mem & args & N' & HQ & Hr).
  exists (h ++ h'), fw, mem, args. split_and!; [by rewrite effects_app, N, N'|done|].
  cbn zeta in *. cbn [logged events] in Hr. rewrite app_assoc. rewrite (jbind_finished _ _ _ _ _ E).
  unfold after_calls in *. destruct (run_calls _ _) as [[d'|]|]; [|done|done]. rewrite Hr.
  unfold called_back. cbn. by rewrite <- !app_assoc.
Qed.

Lemma served_silent {A} (m : J A) (k : A -> J unit) s a Q :
  m s = Finished a s -> served (k a) s Q -> served (jbind m k) s Q.
Proof. intros E. unfold served. by rewrite (jbind_finished _ _ _ _ _ E). Qed.

Lemma served_java_call fw mem nargs args s (Q : list Ev -> nat -> Member -> list JArg -> Prop) : ready s ->
  heap s !! driver = Some (ADriver d) -> args_of nargs s = Finished args s -> Q [] fw mem args ->
  served (call_java vm driver (Some (Local fw)) (Some mem) nargs) s Q.
Proof.
  intros R Hd Ha HQ. exists [], fw, mem, args. split_and!; [done|done|]. rewrite app_nil_r. cbn [app].
  by apply call_java_done.
Qed.

Lemma served_mono m s (P Q : list Ev -> nat -> Member -> list JArg -> Prop) :
  served m s P -> (forall h fw mem args, P h fw mem args -> Q h fw mem args) -> served m s Q.
Proof. intros (h & fw & mem & args & N & HP & Hr) HQ. exists h, fw, mem, args. auto. Qed.

End Served.

(** The state after the thread was attached *)
Definition entered (s : St) : St := mkJni true (frames s) (thrown s) (weaks s) (held s) (longs s) (heap s) (next s)
  (loader s) (events s ++ entering s).

Lemma attach_done s : attached s = true \/ vm_attaches vm (events s) = true ->
  AttachCurrentThread vm s = Finished tt (entered s).
Proof.
  intros Ha. unfold AttachCurrentThread, entered, entering. destruct s as [at' fr th we he lo hp nx ld ev]. cbn in *.
  destruct at'; [by rewrite app_nil_r|]. by destruct Ha as [?| ->].
Qed.

(** The native objects of a driver object *)
Record linked (s : St) (this driver self : nat) (d : D) : Prop := {
  ln_weak : exists k, heap s !! this = Some (AProxy (Some (Weak k))) /\ weaks s !! k = Some self;
  ln_driver : heap s !! driver = Some (ADriver d);
}.

(** The framework's object is in a field of the driver object, and has the method. *)
Record framework_is (self fw : nat) (field type name sig : string) : Prop := {
  fw_field : has Field (vm_type vm self) field type;
  fw_object : forall h, vm_reply vm h (ObjectFieldQ self (mkMember (vm_type vm self) field type)) = Answers (Some fw);
  fw_method : has Method (vm_type vm fw) name sig;
}.

Lemma framework_method_yields k self fw field type name sig s (P : option Ref * option Member -> list Ev -> Prop) :
  ready s -> weaks s !! k = Some self -> framework_is self fw field type name sig ->
  (forall h, idle_events h -> P (Some (Local fw), Some (mkMember (vm_type vm fw) name sig)) h) ->
  yields (framework_method vm (Some (Weak k)) field type name sig) s P.
Proof.
  intros R Hk [Hf Ho Hm] HP. eapply yields_silent.
  { unfold GetObjectClass. rewrite with_env_ready by done. erewrite jbind_finished; [done|]. cbn. by rewrite Hk. }
  apply yields_bind, GetMember_yields; [done|done|]. apply yields_bind, yields_env; [done|].
  eapply yields_silent; [cbn; by rewrite Hk|]. eapply yields_silent; [done|].
  eapply yields_ask; [done|apply Ho|]. apply yields_bind, GetObjectClass_yields; [done|].
  apply yields_bind, GetMember_yields; [done|done|]. apply yields_ret, HP. done.
Qed.

(** A callback, on a thread that may not be attached yet: it calls one method of the
    framework, with arguments that [Q] describes. *)
Definition serves (driver : nat) (d : D) (m : J unit) (s : St) (Q : list Ev -> nat -> Member -> list JArg -> Prop)
    : Prop :=
  exists h fw mem args, effects h = [] /\ Q h fw mem args /\
    let reply := vm_framework vm (events s ++ entering s ++ h) fw mem args in
    after_calls d (fr_calls reply ++ aborting (fr_throws reply))
      (fun d' => Finished tt (called_back driver d' (entering s ++ h ++
         Framework fw mem args (fr_calls reply) (fr_throws reply) :: ending s (fr_throws reply)) s)) (m s).

(** The thread can call Java, now or once it is attached. *)
Definition can_attach (s : St) : Prop :=
  thrown s = None /\ (attached s = true \/ vm_attaches vm (events s) = true).

Lemma serves_start (K : option Ref -> J unit) this driver self d s Q : linked s this driver self d -> can_attach s ->
  (forall k, weaks s !! k = Some self -> ready (entered s) ->
     served driver d (K (Some (Weak k))) (entered s) Q) ->
  serves driver d (AttachCurrentThread vm ;;^ let^ jdriver := proxy_jdriver this in K jdriver) s Q.
Proof.
  intros [(k & Ht & Hk) Hd] (T & At) HK. destruct (HK k Hk) as (h & fw & mem & args & N & HQ & Hr); [done|].
  exists h, fw, mem, args. split_and!; [done|done|]. cbn zeta in *. cbn [entered events] in Hr.
  rewrite <- app_assoc in Hr. rewrite (jbind_finished _ _ _ _ _ (attach_done s At)).
  rewrite (jbind_finished _ _ _ (Some (Weak k)) (entered s)); [|unfold proxy_jdriver; cbn; by rewrite Ht].
  unfold after_calls in *. destruct (run_calls _ _) as [[d'|]|]; [|done|done]. rewrite Hr.
  unfold called_back. cbn. by rewrite <- !app_assoc.
Qed.

(** The framework is called with the driver object and the objects made before. *)
Lemma served_finish driver d fw mem k self rest args s Q : ready s -> heap s !! driver = Some (ADriver d) ->
  weaks s !! k = Some self -> args_of rest s = Finished args s -> (Q [] fw mem (AObj self :: args) : Prop) ->
  served driver d (call_java vm driver (Some (Local fw)) (Some mem) (Reference (Some (Weak k)) :: rest)) s Q.
Proof.
  intros R Hd Hk Ha HQ. eapply served_java_call; [done|done| |exact HQ]. cbn [args_of].
  erewrite jbind_finished; [|cbn; unfold jbind, deref; rewrite Hk; done].
  by erewrite jbind_finished; [|exact Ha].
Qed.

(** ** Native methods *)

(** The driver object has a field with this address. *)
Definition points (s : St) (self : nat) (name : string) (address : nat) : Prop :=
  has Field (vm_type vm self) name "J" /\ longs s !! (self, name) = Some address.

Lemma long_field_yields self name address s (P : nat -> list Ev -> Prop) : ready s -> points s self name address ->
  (forall h, P address h) -> yields (long_field vm (Some (Local self)) name) s P.
Proof.
  intros R [Hf Hv] HP. apply yields_bind, GetObjectClass_yields; [done|].
  apply yields_bind, GetMember_yields; [done|done|]. apply yields_env; [done|].
  eapply yields_silent; [done|]. eapply yields_silent; [done|]. rewrite logged_app.
  eexists address, []. rewrite logged_nil. split_and!; [|done|apply HP]. unfold jget. cbn [longs logged m_name].
  by rewrite Hv.
Qed.

(** The driver's method was called once, and Java gets the status as an object of
    its enumeration. *)
Definition returned (driver : nat) (d : D) (c : C) (m : J (option Ref)) (s : St) : Prop :=
  match nd_invoke c d with
  | Fatal why => m s = Stopped why
  | Ret (d', st) => exists o h k, effects h = [] /\ effects k = [] /\
      Asked (StaticMethodQ (valueOf_id "Status") [ANumber (status_code st)]) (Answers (Some o)) ∈ k /\
      m s = Finished (Some (Local o))
        (logged (h ++ Invoked c :: k) (set_heap (<[driver := ADriver d']> (heap s)) s))
  end.

Lemma returned_bind {A} driver d c (m : J A) (k : A -> J (option Ref)) s :
  yields m s (fun a h => returned driver d c (k a) (logged h s)) -> returned driver d c (jbind m k) s.
Proof.
  intros (a & h & E & N & Hr). unfold returned in *. destruct (nd_invoke c d) as [[d' st]|].
  - destruct Hr as (o & h1 & h2 & N1 & N2 & Ho & Er). exists o, (h ++ h1), h2.
    split_and!; [by rewrite effects_app, N, N1|done|done|].
    rewrite (jbind_finished _ _ _ _ _ E), Er. unfold logged, set_heap. cbn. by rewrite <- !app_assoc.
  - by rewrite (jbind_finished _ _ _ _ _ E).
Qed.

Lemma jinvoke_returned driver d c s : Memory -> ready s -> (forall st, numbers s "Status" (status_code st)) ->
  heap s !! driver = Some (ADriver d) -> returned driver d c (jreturn vm (jinvoke driver c)) s.
Proof.
  intros M R Hn Hd. unfold returned, jreturn, jbind, jinvoke. rewrite Hd.
  destruct (nd_invoke c d) as [[d' st]|]; [|done]. rewrite jlog_logged.
  destruct (convert_number_yields "Status" (status_code st)
    (logged [Invoked c] (set_heap (<[driver := ADriver d']> (heap s)) s))
    (fun o h => exists x, o = Some (Local x) /\
       Asked (StaticMethodQ (valueOf_id "Status") [ANumber (status_code st)]) (Answers (Some x)) ∈ h) M R (Hn st))
    as (o & h & E & N & x & -> & Hx); [eauto|].
  exists x, [], h. split_and!; [done|done|done|]. unfold convert_Status. rewrite E. by rewrite logged_app.
Qed.

Lemma plain_method_returned driver d c self s : Memory -> ready s -> (forall st, numbers s "Status" (status_code st)) ->
  heap s !! driver = Some (ADriver d) -> points s self "__driver" driver ->
  returned driver d c (plain_method vm (Some (Local self)) c) s.
Proof.
  intros M R Hn Hd Hp. apply returned_bind. eapply long_field_yields; [done|exact Hp|]. intros h.
  by apply jinvoke_returned.
Qed.

(** [join] returns the status once the driver does, or never. *)
Lemma join_returned driver d self s : Memory -> ready s -> (forall st, numbers s "Status" (status_code st)) ->
  heap s !! driver = Some (ADriver d) -> points s self "__driver" driver ->
  match (let^ a := this_driver vm (Some (Local self)) in jreturn vm (jinvoke_join vm a)) s with
  | Blocked s' => exists h, s' = logged h s
  | Finished r s' => exists o h d' st, r = Some (Local o) /\ nd_join d' = Some st /\
      s' = logged h (set_heap (<[driver := ADriver d']> (heap s)) s) /\ effects h = [Joined] /\
      Asked (StaticMethodQ (valueOf_id "Status") [ANumber (status_code st)]) (Answers (Some o)) ∈ h
  | _ => False
  end.
Proof.
  intros M R Hn Hd Hp.
  destruct (long_field_yields self "__driver" driver s (fun a _ => a = driver) R Hp ltac:(done)) as (? & h & E & N & ->).
  rewrite (jbind_finished _ _ _ _ _ E). unfold jreturn, jbind at 1, jinvoke_join. cbn [heap logged]. rewrite Hd.
  destruct (vm_wait vm _) as [d'|]; [|by exists h]. destruct (nd_join d') as [st|] eqn:Hj; [|by exists h].
  rewrite jlog_logged. unfold convert_Status.
  match goal with |- context [convert_number _ _ _ ?s2] =>
    destruct (convert_number_yields "Status" (status_code st) s2
    (fun o h => exists x, o = Some (Local x) /\
       Asked (StaticMethodQ (valueOf_id "Status") [ANumber (status_code st)]) (Answers (Some x)) ∈ h) M R (Hn st))
    as (o & k & E2 & N2 & x & -> & Hx); [eauto|] end.
  rewrite E2. exists x, (h ++ [Joined] ++ k), d', st. split_and!; [done|done| | |].
  - unfold logged, set_heap. cbn. by rewrite <- !app_assoc.
  - by rewrite !effects_app, N, N2.
  - rewrite !elem_of_app. auto.
Qed.

(** ** Life cycle of the driver object *)

(** Questions to the machine, and then the rest of a computation *)
Definition reaches {A} (m : J A) (s : St) (Q : St -> JniResult D C A -> Prop) : Prop :=
  exists h, effects h = [] /\ Q (logged h s) (m s).

Lemma reaches_now {A} (m : J A) s (Q : St -> JniResult D C A -> Prop) : Q s (m s) -> reaches m s Q.
Proof. intros HQ. exists []. by rewrite logged_nil. Qed.

Lemma reaches_bind {A B} (m : J A) (k : A -> J B) s Q :
  yields m s (fun a h => reaches (k a) (logged h s) Q) -> reaches (jbind m k) s Q.
Proof.
  intros (a & h & E & N & h' & N' & HQ). exists (h ++ h'). rewrite effects_app, N, N'. split; [done|].
  rewrite logged_app in HQ. by rewrite (jbind_finished _ _ _ _ _ E).
Qed.

(** What a field lookup says: the field is there, it is not, or something else went
    wrong. *)
Inductive FieldState := Present | Absent | Broken (e : nat).
Definition field_state (r : Reply unit) : FieldState :=
  match r with
  | Answers _ => Present
  | Throws e => if vm_instance vm e "java/lang/NoSuchFieldError" then Absent else Broken e
  end.

(** [getFieldID] tells a field that does not exist from every other exception, which it throws again. *)
Lemma getFieldID_reaches cls name sig s : ready s -> answers (FindClassQ "java/lang/NoSuchFieldError") ->
  reaches (getFieldID vm (Some cls) name sig) s (fun s' r =>
    match field_state (vm_reply vm (events s) (MemberQ Field (mkMember cls name sig))) with
    | Present => r = Finished (FieldSome (Some (mkMember cls name sig))) s'
    | Absent => r = Finished FieldNone s'
    | Broken e => r = Finished (FieldError "Unexpected exception") (set_thrown (Some e) s')
    end).
Proof.
  intros R Hc. pose proof R as [At Th]. unfold getFieldID, field_state.
  destruct (vm_reply vm (events s) (MemberQ Field (mkMember cls name sig))) as [[]|e] eqn:E.
  - exists [Asked (MemberQ Field (mkMember cls name sig)) (Answers tt)]. split; [done|].
    erewrite jbind_finished.
    2:{ unfold GetFieldID, GetMember. rewrite with_env_ready by done. erewrite jbind_finished; [|done]. by apply ask_done. }
    erewrite jbind_finished; [|unfold ExceptionOccurred, on_thread; cbn; by rewrite At].
    cbn. by rewrite Th.
  - set (s1 := logged [Asked (MemberQ Field (mkMember cls name sig)) (Throws e)] s).
    destruct (Hc (events s1)) as [[] Ec].
    exists [Asked (MemberQ Field (mkMember cls name sig)) (Throws e);
            Asked (FindClassQ "java/lang/NoSuchFieldError") (Answers tt)]. split; [done|].
    assert (GetFieldID vm (Some cls) name sig s = Finished None (set_thrown (Some e) s1)) as E1.
    { unfold GetFieldID, GetMember. rewrite with_env_ready by done. erewrite jbind_finished; [|done].
      unfold ask. rewrite with_env_ready by done. by rewrite E. }
    rewrite (jbind_finished _ _ _ _ _ E1).
    erewrite jbind_finished; [|unfold ExceptionOccurred, on_thread; cbn; by rewrite At].
    cbn [thrown set_thrown]. erewrite jbind_finished; [|unfold ExceptionClear, on_thread; cbn; by rewrite At].
    replace (set_thrown None (set_thrown (Some e) s1)) with s1 by (unfold s1, logged, set_thrown; cbn; by rewrite Th).
    assert (ready s1) as R1 by done.
    rewrite (jbind_finished _ _ _ _ _ (ask_done _ None (fun _ => Some "java/lang/NoSuchFieldError") _ _ R1 Ec)).
    rewrite (jbind_finished _ _ _ _ _ (no_exception (logged _ s1) R1)).
    erewrite jbind_finished; [|unfold IsInstanceOf; rewrite with_env_ready by done; done].
    unfold s1. rewrite logged_app. destruct (vm_instance vm e _); cbn [negb app].
    + done.
    + erewrite jbind_finished; [|unfold Throw; rewrite with_env_ready by done; done]. done.
Qed.

(** The state after the proxy was made: its weak reference and address are unused
    before. *)
Definition proxied (field : string) (self : nat) (s : St) : St :=
  set_longs (<[(self, field) := S (next s)]> (longs s))
    (set_next (S (S (next s)))
      (set_heap (<[S (next s) := AProxy (Some (Weak (next s)))]> (heap s)) (set_weaks (<[next s := self]> (weaks s)) s))).

(** ... and after the driver was. *)
Definition driven (self : nat) (d : D) (s : St) : St :=
  set_longs (<[(self, "__driver") := next s]> (longs s))
    (set_next (S (next s)) (set_heap (<[next s := ADriver d]> (heap s)) s)).

Lemma initialize_proxy_done field self s : ready s -> answers (WeakGlobalRefQ self) ->
  has Field (vm_type vm self) field "J" ->
  exists h, effects h = [Created (S (next s))] /\
    initialize_proxy vm (Some (Local self)) (Some (vm_type vm self)) field s =
    Finished (S (next s)) (logged h (proxied field self s)).
Proof.
  intros R Hw Hf. destruct (Hw (events s)) as [[] Ew]. unfold initialize_proxy.
  erewrite jbind_finished.
  2:{ unfold NewWeakGlobalRef. rewrite with_env_ready by done. erewrite jbind_finished; [|done].
      rewrite (jbind_finished _ _ _ _ _ (ask_done _ _ (fun _ => true) _ _ R Ew)).
      erewrite jbind_finished; [|done]. erewrite jbind_finished; [|done]. done. }
  erewrite jbind_finished; [|unfold new_proxy; rewrite with_env_ready by done; done].
  match goal with |- context [jbind _ _ ?s2] => destruct (Hf (events s2)) as [[] Ef] end.
  erewrite jbind_finished.
  2:{ unfold GetFieldID, GetMember. rewrite with_env_ready by done. erewrite jbind_finished; [|done]. by apply ask_done. }
  erewrite jbind_finished; [|unfold SetLongField; rewrite with_env_ready by done; done].
  exists [Asked (WeakGlobalRefQ self) (Answers tt); Created (S (next s));
          Asked (MemberQ Field (mkMember (vm_type vm self) field "J")) (Answers tt)].
  split; [done|]. unfold jret, logged, proxied. cbn. by rewrite <- !app_assoc.
Qed.

Lemma initialize_driver_done self d s : ready s -> has Field (vm_type vm self) "__driver" "J" ->
  exists h, effects h = [Created (next s)] /\
    initialize_driver vm (Some (Local self)) (Some (vm_type vm self)) d s = Finished tt (logged h (driven self d s)).
Proof.
  intros R Hf. unfold initialize_driver. erewrite jbind_finished; [|done].
  match goal with |- context [jbind _ _ ?s2] => destruct (Hf (events s2)) as [[] Ef] end.
  erewrite jbind_finished.
  2:{ unfold GetFieldID, GetMember. rewrite with_env_ready by done. erewrite jbind_finished; [|done]. by apply ask_done. }
  unfold SetLongField. rewrite with_env_ready by done. exists [Created (next s); Asked (MemberQ Field (mkMember (vm_type vm self) "__driver" "J")) (Answers tt)].
  split; [done|].
  unfold jbind, deref, member_of, jret, jmodify, logged, driven. cbn. by rewrite <- !app_assoc.
Qed.

Lemma get_long_done self name s : ready s -> has Field (vm_type vm self) name "J" ->
  exists h, effects h = [] /\ forall (K : nat -> J unit),
    (let^ f := GetFieldID vm (Some (vm_type vm self)) name "J" in
     let^ v := GetLongField (Some (Local self)) f in K v) s =
    K (default 0%nat (longs s !! (self, name))) (logged h s).
Proof.
  intros R Hf. destruct (Hf (events s)) as [[] Ef].
  exists [Asked (MemberQ Field (mkMember (vm_type vm self) name "J")) (Answers tt)]. split; [done|]. intros K.
  erewrite jbind_finished.
  2:{ unfold GetFieldID, GetMember. rewrite with_env_ready by done. erewrite jbind_finished; [|done]. by apply ask_done. }
  erewrite jbind_finished; [|unfold GetLongField; rewrite with_env_ready by done; done]. done.
Qed.

(** The native heap without a driver, if there was one *)
Definition without (a : nat) (H : gmap nat (NativeObject D)) : gmap nat (NativeObject D) :=
  if Nat.eqb a 0 then H else delete a H.
Definition deletions (a : nat) : list Ev := if Nat.eqb a 0 then [] else [Deleted a].

Lemma finalize_done field self p a k s : ready s -> has Field (vm_type vm self) "__driver" "J" ->
  has Field (vm_type vm self) field "J" -> default 0%nat (longs s !! (self, "__driver")) = a ->
  longs s !! (self, field) = Some p -> p <> 0%nat -> p <> a -> heap s !! p = Some (AProxy (Some (Weak k))) ->
  is_Some (weaks s !! k) -> (a = 0%nat \/ is_Some (heap s !! a)) ->
  exists h, effects h = deletions a ++ [Deleted p] /\
    finalize_native vm (Some (Local self)) field s =
    Finished tt (logged h (set_heap (delete p (without a (heap s))) (set_weaks (delete k (weaks s)) s))).
Proof.
  intros R Hf Hg Ha Hp Hp0 Hpa Hh [o Hk] Hd. unfold finalize_native.
  erewrite jbind_finished; [|unfold GetObjectClass; rewrite with_env_ready by done; done].
  destruct (get_long_done self "__driver" s R Hf) as (h1 & N1 & E1). rewrite E1, Ha.
  erewrite (jbind_finished (delete_object a) _ _ tt (logged (h1 ++ deletions a) (set_heap (without a (heap s)) s))).
  2:{ unfold delete_object, without, deletions. destruct (Nat.eqb_spec a 0); [rewrite app_nil_r; by destruct s|].
      destruct Hd as [?|[v Hv]]; [done|]. cbn [heap logged]. rewrite Hv. unfold jlog, logged, set_heap. cbn.
      by rewrite <- app_assoc. }
  match goal with |- context [jbind _ _ ?s2] => destruct (get_long_done self field s2 R Hg) as (h2 & N2 & E2) end.
  rewrite E2. cbn [longs logged set_heap]. rewrite Hp. cbn [default from_option id].
  assert (without a (heap s) !! p = heap s !! p) as Hw.
  { unfold without. destruct (Nat.eqb_spec a 0); [done|]. by apply lookup_delete_ne. }
  erewrite (jbind_finished (proxy_jdriver p)); [|unfold proxy_jdriver; cbn [heap logged set_heap]; rewrite Hw, Hh; done].
  erewrite (jbind_finished (DeleteWeakGlobalRef _)).
  2:{ unfold DeleteWeakGlobalRef, on_thread. cbn [attached logged set_heap weaks]. rewrite (proj1 R), Hk. done. }
  exists (h1 ++ deletions a ++ h2 ++ [Deleted p]). split.
  { rewrite !effects_app, N1, N2. unfold deletions. by destruct (Nat.eqb a 0). }
  unfold delete_object. destruct (Nat.eqb_spec p 0); [done|]. cbn [heap logged set_heap set_weaks]. rewrite Hw, Hh.
  unfold jlog, logged, set_heap, set_weaks. cbn. by rewrite <- !app_assoc.
Qed.

End Logic.
