(* ===== verification/JniProperties.v ===== *)
(** * The Java bindings do what they are for

    Callbacks reach the framework's object exactly once, and the driver is aborted
    exactly when it throws; native methods call the driver exactly once with the
    values of their arguments; what [initialize] creates, [finalize] frees. *)
From Stdlib Require Import Ascii.
From S2P Require Import Prelude Scheduler Native Jni JniConvert JniScheduler JniLogic.

(** ** Steps of callbacks *)

(** An argument is converted. *)
Ltac convert_step W :=
  apply served_bind; eapply convert_message_yields; [eassumption|done|first [eassumption|apply W]|];
  let o := fresh "o" in let h := fresh "h" in let Hm := fresh "Hm" in let Ih := fresh "Ih" in intros o h Hm Ih.
(** An object was made in some of the events. *)
Ltac was_made :=
  match goal with Hm : made _ ?n ?b ?o |- made _ ?n ?b ?o =>
    eapply made_mono; [|exact Hm]; intros ? ?; rewrite !elem_of_app; auto 10 end.
(** The framework is called. *)
Ltac call_step L Hk :=
  eapply served_finish; [done|exact (ln_driver _ _ _ _ _ L)|exact Hk|reflexivity|];
  split_and!; [done|done|]; eexists; split; [reflexivity|]; cbn;
  repeat match goal with |- exists _, _ => eexists end.

Section SchedulerCallbacks.
  Context {D : Type} `{ND : NativeDriver D Scheduler.Call} (vm : Vm D Scheduler.Call) (P : SchedulerProtos).

Abbreviation St := (JniState D Scheduler.Call).
Abbreviation Ev := (JniEvent Scheduler.Call).

(** The method of org.apache.mesos.Scheduler, and its signature *)
Definition java_callback (cb : SchedulerCallback) : string * string :=
  match cb with
  | Registered _ _ => ("registered",
      "(Lorg/apache/mesos/SchedulerDriver;Lorg/apache/mesos/Protos$FrameworkID;Lorg/apache/mesos/Protos$MasterInfo;)V")
  | Reregistered _ => ("reregistered", "(Lorg/apache/mesos/SchedulerDriver;Lorg/apache/mesos/Protos$MasterInfo;)V")
  | Disconnected => ("disconnected", "(Lorg/apache/mesos/SchedulerDriver;)V")
  | ResourceOffers _ => ("resourceOffers", "(Lorg/apache/mesos/SchedulerDriver;Ljava/util/List;)V")
  | OfferRescinded _ => ("offerRescinded", "(Lorg/apache/mesos/SchedulerDriver;Lorg/apache/mesos/Protos$OfferID;)V")
  | StatusUpdated _ => ("statusUpdate", "(Lorg/apache/mesos/SchedulerDriver;Lorg/apache/mesos/Protos$TaskStatus;)V")
  | FrameworkMessage _ _ _ => ("frameworkMessage",
      "(Lorg/apache/mesos/SchedulerDriver;Lorg/apache/mesos/Protos$ExecutorID;Lorg/apache/mesos/Protos$SlaveID;[B)V")
  | SlaveLost _ => ("slaveLost", "(Lorg/apache/mesos/SchedulerDriver;Lorg/apache/mesos/Protos$SlaveID;)V")
  | ExecutorLost _ _ _ => ("executorLost",
      "(Lorg/apache/mesos/SchedulerDriver;Lorg/apache/mesos/Protos$ExecutorID;Lorg/apache/mesos/Protos$SlaveID;I)V")
  | ErrorMessage _ => ("error", "(Lorg/apache/mesos/SchedulerDriver;Ljava/lang/String;)V")
  end.

Abbreviation array_list := "java/util/ArrayList".

(** The arguments after the driver object: objects Java made of the values given *)
Definition java_args (cb : SchedulerCallback) (h : list Ev) (args : list JArg) : Prop :=
  match cb with
  | Registered f m => exists a b, args = [AObj a; AObj b] /\
      made h "FrameworkID" (bytes_of (p_FrameworkID P) f) a /\ made h "MasterInfo" (bytes_of (p_MasterInfo P) m) b
  | Reregistered m => exists a, args = [AObj a] /\ made h "MasterInfo" (bytes_of (p_MasterInfo P) m) a
  | Disconnected => args = []
  | ResourceOffers offers => exists l os, args = [AObj l] /\ added l h = map AObj os /\
      Forall2 (fun offer o => made h "Offer" (bytes_of (p_Offer P) offer) o) offers os
  | OfferRescinded i => exists a, args = [AObj a] /\ made h "OfferID" (bytes_of (p_OfferID P) i) a
  | StatusUpdated st => exists a, args = [AObj a] /\ made h "TaskStatus" (bytes_of (p_TaskStatus P) st) a
  | FrameworkMessage e i data => exists a b c, args = [AObj a; AObj b; AObj c] /\ made_bytes h data c /\
      made h "ExecutorID" (bytes_of (p_ExecutorID P) e) a /\ made h "SlaveID" (bytes_of (p_SlaveID P) i) b
  | SlaveLost i => exists a, args = [AObj a] /\ made h "SlaveID" (bytes_of (p_SlaveID P) i) a
  | ExecutorLost e i st => exists a b, args = [AObj a; AObj b; ANumber st] /\
      made h "ExecutorID" (bytes_of (p_ExecutorID P) e) a /\ made h "SlaveID" (bytes_of (p_SlaveID P) i) b
  | ErrorMessage m => exists a, args = [AObj a] /\ made_text h m a
  end.

(** Lists of the Java library *)
Record Lists : Prop := {
  ls_class : answers vm (FindClassQ array_list);
  ls_init : has vm Method array_list "<init>" "()V";
  ls_new : answers vm (NewObjectQ (mkMember array_list "<init>" "()V") []);
  ls_add : has vm Method array_list "add" "(Ljava/lang/Object;)Z";
  ls_adds : forall h l o, Asked (NewObjectQ (mkMember array_list "<init>" "()V") []) (Answers l) ∈ h ->
    vm_reply vm h (BooleanMethodQ l (mkMember array_list "add" "(Ljava/lang/Object;)Z") [AObj o]) = Answers true;
}.

(** Java accepts the arguments of the callback. *)
Definition java_willing (cb : SchedulerCallback) (s : St) : Prop :=
  match cb with
  | Registered f m => parses vm s "FrameworkID" (bytes_of (p_FrameworkID P) f) /\
      parses vm s "MasterInfo" (bytes_of (p_MasterInfo P) m)
  | Reregistered m => parses vm s "MasterInfo" (bytes_of (p_MasterInfo P) m)
  | Disconnected => True
  | ResourceOffers offers => Lists /\ Forall (fun offer => parses vm s "Offer" (bytes_of (p_Offer P) offer)) offers
  | OfferRescinded i => parses vm s "OfferID" (bytes_of (p_OfferID P) i)
  | StatusUpdated st => parses vm s "TaskStatus" (bytes_of (p_TaskStatus P) st)
  | FrameworkMessage e i data => Z.of_nat (String.length data) < 2 ^ 31 /\
      parses vm s "ExecutorID" (bytes_of (p_ExecutorID P) e) /\ parses vm s "SlaveID" (bytes_of (p_SlaveID P) i)
  | SlaveLost i => parses vm s "SlaveID" (bytes_of (p_SlaveID P) i)
  | ExecutorLost e i st =>
      parses vm s "ExecutorID" (bytes_of (p_ExecutorID P) e) /\ parses vm s "SlaveID" (bytes_of (p_SlaveID P) i)
  | ErrorMessage m => True
  end.

Lemma add_offers_yields l offers s (Q : unit -> list Ev -> Prop) : Memory vm -> ready s -> Lists ->
  Asked (NewObjectQ (mkMember array_list "<init>" "()V") []) (Answers l) ∈ events s ->
  Forall (fun offer => parses vm s "Offer" (bytes_of (p_Offer P) offer)) offers ->
  (forall h os, added l h = map AObj os ->
     Forall2 (fun offer o => made h "Offer" (bytes_of (p_Offer P) offer) o) offers os -> Q tt h) ->
  yields (add_offers vm P (Some (Local l)) (Some (mkMember array_list "add" "(Ljava/lang/Object;)Z")) offers) s Q.
Proof.
  intros M R L Hl Hp. revert s Q R Hl Hp. induction offers as [|offer offers IH]; intros s Q R Hl Hp HQ; cbn [add_offers].
  { apply yields_ret. by apply (HQ [] []). }
  apply Forall_cons in Hp as [Ho Hp].
  apply yields_bind. eapply convert_message_yields; [done|done|done|]. intros o h Hm Ih.
  apply yields_bind, yields_env; [done|]. do 3 (eapply yields_silent; [done|]).
  eapply (yields_ask _ _ _ _ _ true); [done|apply (ls_adds L); cbn; rewrite elem_of_app; by left|].
  rewrite logged_app. apply IH; [done|cbn; rewrite elem_of_app; by left|done|].
  intros k os Ha H2. rewrite app_assoc. apply (HQ _ (o :: os)).
  - rewrite !added_app, (idle_no_adds l h Ih), Ha. cbn. by rewrite Nat.eqb_refl.
  - constructor.
    + eapply made_mono; [|exact Hm]. intros e He. rewrite !elem_of_app. auto.
    + eapply Forall2_impl; [exact H2|]. intros x y Hxy. cbn beta in *. eapply made_mono; [|exact Hxy].
      intros e He. rewrite !elem_of_app. auto.
Qed.

(** What a callback asks of the framework *)
Definition java_call (self fw : nat) (cb : SchedulerCallback) (h : list Ev) (o : nat) (m : Member) (args : list JArg) : Prop :=
  o = fw /\ m = mkMember (vm_type vm fw) (java_callback cb).1 (java_callback cb).2 /\
  exists rest, args = AObj self :: rest /\ java_args cb h rest.

Lemma scheduler_callback_serves this driver self fw d cb s : Memory vm -> linked s this driver self d ->
  can_attach vm s -> framework_is vm self fw "scheduler" "Lorg/apache/mesos/Scheduler;" (java_callback cb).1 (java_callback cb).2 ->
  java_willing cb s ->
  serves vm driver d (JNIScheduler vm P this driver cb) s (java_call self fw cb).
Proof.
  intros M L A F W.
  destruct cb; cbn in F, W; (eapply serves_start; [exact L|exact A|]); intros k Hk R;
    (apply served_bind; eapply framework_method_yields; [exact R|exact Hk|exact F|]; intros h0 Ih0).
  - do 2 convert_step W. call_step L Hk. split_and!; [reflexivity|was_made|was_made].
  - convert_step W. call_step L Hk. split_and!; [reflexivity|was_made].
  - by call_step L Hk.
  - destruct W as [Ls W]. destruct (ls_class Ls (events (logged h0 (entered s)))) as [[] Ec].
    apply served_bind. eapply yields_ask; [done|exact Ec|].
    apply served_bind, GetMember_yields; [done|apply Ls|]. rewrite !logged_app.
    match goal with |- served _ _ _ _ ?s1 _ => destruct (ls_new Ls (events s1)) as [l El] end.
    apply served_bind, yields_env; [done|]. do 3 (eapply yields_silent; [done|]).
    eapply yields_ask; [done|exact El|]. apply served_bind, GetMember_yields; [done|apply Ls|]. rewrite !logged_app.
    apply served_bind, add_offers_yields; [done|done|done| |done|].
    { cbn [events logged]. rewrite !elem_of_app, !list_elem_of_singleton. auto 10. }
    intros h1 os Ha H2. call_step L Hk. split_and!; [reflexivity| |].
    + rewrite added_app, (idle_no_adds l h0 Ih0), app_nil_r. exact Ha.
    + eapply Forall2_impl; [exact H2|]. intros x y Hxy. cbn beta in *. eapply made_mono; [|exact Hxy].
      intros e He. rewrite elem_of_app. right. do 4 apply list_elem_of_further. rewrite elem_of_app. by left.
  - convert_step W. call_step L Hk. split_and!; [reflexivity|was_made].
  - convert_step W. call_step L Hk. split_and!; [reflexivity|was_made].
  - destruct W as (Hn & W). apply served_bind, byte_array_yields; [done|done|done|]. intros c hb Hb Ib.
    do 2 convert_step W. call_step L Hk. split_and!; [reflexivity| |was_made|was_made].
    unfold made_bytes in *. rewrite !elem_of_app. auto 10.
  - convert_step W. call_step L Hk. split_and!; [reflexivity|was_made].
  - do 2 convert_step W. call_step L Hk. split_and!; [reflexivity|was_made|was_made].
  - apply served_bind, NewStringUTF_yields; [done|done|]. intros o. call_step L Hk. split_and!; [reflexivity|].
    unfold made_text. rewrite !elem_of_app, list_elem_of_singleton. auto.
Qed.

(** C12: Suppose no exception is pending, the thread is attached or the virtual machine attaches it, the proxy's weak
    reference is to a live driver object whose field has a framework with the callback's method, the virtual machine has
    memory for strings and byte arrays, and Java makes an object of each of the callback's arguments (the message classes
    are found and parse them, lists can be made and appended to, a text has less than 2^31 bytes). Then a callback of the
    native scheduler attaches the thread if it is not, calls the one method of the framework's Java object with the driver
    object and the objects Java made of the callback's arguments, prints and clears an exception and aborts the driver
    exactly if that method throws, and leaves the thread detached unless Java methods are on its stack; no exception stays
    pending, and nothing but the driver changes. *)
Theorem jni_scheduler_callbacks this driver self fw d cb s : Memory vm -> linked s this driver self d ->
  can_attach vm s -> framework_is vm self fw "scheduler" "Lorg/apache/mesos/Scheduler;" (java_callback cb).1 (java_callback cb).2 ->
  java_willing cb s ->
  serves vm driver d (JNIScheduler vm P this driver cb) s (java_call self fw cb).
Proof. apply scheduler_callback_serves. Qed.

End SchedulerCallbacks.

Section SchedulerMethods.
  Context {D : Type} `{ND : NativeDriver D Scheduler.Call} (vm : Vm D Scheduler.Call) (P : SchedulerProtos) (fuel : nat).

Abbreviation St := (JniState D Scheduler.Call).
Abbreviation local o := (Some (Local o)) (only parsing).
Abbreviation message p o t := (honest_message vm p o t).
Definition items {T} (p : Proto T) (l : nat) (ts : list T) : Prop := honest_collection vm p l ts /\ (length ts < fuel)%nat.

(** The driver method that a native method stands for, with the values its arguments
    have *)
Inductive java_request : SchedulerNative -> Scheduler.Call -> Prop :=
| jr_start : java_request NStart Scheduler.DStart
| jr_stop failover : java_request (NStop failover) (Scheduler.DStop failover)
| jr_abort : java_request NAbort Scheduler.DAbort
| jr_revive : java_request NReviveOffers DReviveOffers
| jr_suppress : java_request NSuppressOffers DSuppressOffers
| jr_acknowledge o st : message (p_TaskStatus P) o st ->
    java_request (NAcknowledgeStatusUpdate (local o)) (DAcknowledgeStatusUpdate st)
| jr_send e i b eid sid data : message (p_ExecutorID P) e eid -> message (p_SlaveID P) i sid -> readable vm b data ->
    java_request (NSendFrameworkMessage (local e) (local i) (local b)) (Scheduler.DSendFrameworkMessage eid sid data)
| jr_kill o tid : message (p_TaskID P) o tid -> java_request (NKillTask (local o)) (DKillTask tid)
| jr_launch o l f oid ts fl : message (p_OfferID P) o oid -> items (p_TaskInfo P) l ts -> message (p_Filters P) f fl ->
    java_request (NLaunchTask (local o) (local l) (local f)) (DLaunchTasks [oid] ts fl)
| jr_launches o l f oids ts fl : items (p_OfferID P) o oids -> items (p_TaskInfo P) l ts -> message (p_Filters P) f fl ->
    java_request (NLaunchTasks (local o) (local l) (local f)) (DLaunchTasks oids ts fl)
| jr_accept o l f oids ops fl : items (p_OfferID P) o oids -> items (p_Operation P) l ops -> message (p_Filters P) f fl ->
    java_request (NAcceptOffers (local o) (local l) (local f)) (DAcceptOffers oids ops fl)
| jr_decline o f oid fl : message (p_OfferID P) o oid -> message (p_Filters P) f fl ->
    java_request (NDeclineOffer (local o) (local f)) (DDeclineOffer oid fl)
| jr_request l rs : items (p_Request P) l rs -> java_request (NRequestResources (local l)) (DRequestResources rs)
| jr_reconcile l sts : items (p_TaskStatus P) l sts -> java_request (NReconcileTasks (local l)) (DReconcileTasks sts).

(** The Java object [self] has a driver. *)
Record owns (s : St) (self driver : nat) (d : D) : Prop := {
  ow_points : points vm s self "__driver" driver;
  ow_driver : heap s !! driver = Some (ADriver d);
  ow_status : forall st, numbers vm s "Status" (status_code st);
}.

Ltac read_message := apply returned_bind; eapply construct_message_yields; [done|eassumption|]; intros ? _.
Ltac read_items :=
  repeat match goal with H : items _ _ _ |- _ => destruct H end;
  apply returned_bind; eapply construct_all_yields; [done|eassumption|done|]; intros ?.

Lemma scheduler_method_returns self driver d n c s : Memory vm -> ready s -> owns s self driver d -> java_request n c ->
  returned driver d c (scheduler_native_method vm P fuel (local self) n) s.
Proof.
  intros M R [Hp Hd Hn] Hr. destruct Hr; cbn [scheduler_native_method];
    try (repeat first [read_message|read_items]; by eapply plain_method_returned).
  - do 2 read_message. apply returned_bind. eapply construct_bytes_yields; [done|eassumption|]. intros h3 _.
    by eapply plain_method_returned.
  - apply returned_bind. eapply long_field_yields; [done|exact Hp|]. intros h1. read_items.
    by apply jinvoke_returned.
Qed.

(** C19: Suppose the thread is attached with no exception pending, the Java object has a driver, Java has memory and an
    object for each status, and every argument is a non-null object that converts to a value (a message that serialises, a
    collection whose iterator ends, of fewer elements than the fuel). Then a native method of the Java class, join and run
    excepted, constructs the values of its arguments, calls the one method of the driver that it stands for, exactly once,
    with these values, and returns the object of the Java enumeration for the driver's status; the elements of every array
    it looked at are released, no exception is pending, and nothing but the driver changes. *)
Theorem jni_scheduler_methods self driver d n c s : Memory vm -> ready s -> owns s self driver d -> java_request n c ->
  returned driver d c (scheduler_native_method vm P fuel (local self) n) s.
Proof. apply scheduler_method_returns. Qed.

End SchedulerMethods.

Section SchedulerLifeCycle.
  Context {D : Type} `{ND : NativeDriver D Scheduler.Call} (vm : Vm D Scheduler.Call) (P : SchedulerProtos).
  Context (new_driver : FrameworkInfo -> string -> bool -> option string -> D) (fuel : nat).
  Context (M : Memory vm).

Abbreviation St := (JniState D Scheduler.Call).
Abbreviation local o := (Some (Local o)) (only parsing).
Abbreviation field_id self name sig := (mkMember (vm_type vm self) name sig).

(** ** Creation *)

(** The class MesosSchedulerDriver, and the fields of the object [self] *)
Record driver_object (self : nat) (framework : FrameworkInfo) (master : string) : Prop := {
  do_weak : answers vm (WeakGlobalRefQ self);
  do_scheduler : has vm Field (vm_type vm self) "__scheduler" "J";
  do_driver : has vm Field (vm_type vm self) "__driver" "J";
  do_error : answers vm (FindClassQ "java/lang/NoSuchFieldError");
  do_framework : has vm Field (vm_type vm self) "framework" "Lorg/apache/mesos/Protos$FrameworkInfo;";
  do_framework_value : exists o, honest_message vm (p_FrameworkInfo P) o framework /\
    forall h, vm_reply vm h (ObjectFieldQ self (field_id self "framework" "Lorg/apache/mesos/Protos$FrameworkInfo;")) = Answers (Some o);
  do_master : has vm Field (vm_type vm self) "master" "Ljava/lang/String;";
  do_master_value : exists o, honest_string vm o master /\
    forall h, vm_reply vm h (ObjectFieldQ self (field_id self "master" "Ljava/lang/String;")) = Answers (Some o);
}.

(** The two fields that older versions of the class do not have *)
Record optional_fields (self : nat) (acks_reply : Reply unit) (acks : bool) (cred_reply : Reply unit) (cred : option string)
    : Prop := {
  of_acks : forall h, vm_reply vm h (MemberQ Field (field_id self "implicitAcknowledgements" "Z")) = acks_reply;
  of_acks_value : match field_state vm acks_reply with
    | Present => forall h, vm_reply vm h (BooleanFieldQ self (field_id self "implicitAcknowledgements" "Z")) = Answers acks
    | Absent => acks = true
    | Broken _ => True end;
  of_cred : forall h, vm_reply vm h (MemberQ Field (field_id self "credential" "Lorg/apache/mesos/Protos$Credential;")) = cred_reply;
  of_cred_value : match field_state vm cred_reply with
    | Present => exists o, (forall h, vm_reply vm h (ObjectFieldQ self (field_id self "credential" "Lorg/apache/mesos/Protos$Credential;")) = Answers o) /\
        match o with Some o => exists c, cred = Some c /\ honest_message vm (p_Credential P) o c | None => cred = None end
    | Absent => cred = None
    | Broken _ => True end;
}.

(** The state [initialize] leaves: with a driver, or with an exception *)
Definition initialized (self : nat) (d : D) (broken : option nat) (s : St) (r : JniResult D Scheduler.Call unit) : Prop :=
  exists h, match broken with
    | Some e => effects h = [Created (S (next s))] /\
        r = Finished tt (set_thrown (Some e) (logged h (proxied "__scheduler" self s)))
    | None => effects h = [Created (S (next s)); Created (S (S (next s)))] /\
        r = Finished tt (logged h (driven self d (proxied "__scheduler" self s)))
    end.

Definition broken_field (r : Reply unit) : option nat :=
  match field_state vm r with Broken e => Some e | _ => None end.

Lemma object_field_yields self name sig x s (Q : option Ref -> list _ -> Prop) : ready s ->
  has vm Field (vm_type vm self) name sig ->
  (forall h, vm_reply vm h (ObjectFieldQ self (field_id self name sig)) = Answers x) ->
  (forall h, Q (Local <$> x) h) ->
  yields (let^ f := GetFieldID vm (Some (vm_type vm self)) name sig in GetObjectField vm (local self) f) s Q.
Proof.
  intros R Hf Hv HQ. apply yields_bind, GetMember_yields; [done|done|]. apply yields_env; [done|].
  eapply yields_silent; [done|]. eapply yields_silent; [done|].
  apply (yields_ask vm (ObjectFieldQ self (field_id self name sig)) None (fun a : option nat => Local <$> a) _ x); [done|apply Hv|apply HQ].
Qed.

(** The end of a computation that [initialize] describes *)
Definition finishes (self : nat) (d : D) (broken : option nat) (s : St) (r : JniResult D Scheduler.Call unit) : Prop :=
  match broken with
  | Some e => r = Finished tt (set_thrown (Some e) s)
  | None => r = initialize_driver vm (local self) (Some (vm_type vm self)) d s
  end.

(** The last part of [initialize] *)
Lemma construct_finishes self jfw jmaster framework master acks cred jc s : ready s ->
  honest_message vm (p_FrameworkInfo P) jfw framework -> honest_string vm jmaster master ->
  match jc with Some o => exists c, cred = Some c /\ honest_message vm (p_Credential P) o c | None => cred = None end ->
  reaches (create_driver vm P new_driver (local self) (Some (vm_type vm self)) (local jfw) (local jmaster) acks (Local <$> jc))
    s (finishes self (new_driver framework (before_nul master) acks cred) None).
Proof.
  intros R Hf Hm Hc. apply reaches_bind. eapply construct_message_yields; [done|exact Hf|]. intros h1 _.
  apply reaches_bind. eapply construct_string_yields; [done|exact Hm|]. intros h2 _.
  assert (construct_bool (Z.b2z acks) = acks) as -> by (by destruct acks).
  destruct jc as [o|]; cbn [fmap option_fmap option_map].
  - destruct Hc as (c & -> & Hc). apply reaches_bind. eapply construct_message_yields; [done|exact Hc|]. intros h3 _.
    by apply reaches_now.
  - subst cred. by apply reaches_now.
Qed.

(** [getFieldID], and what follows *)
Lemma getFieldID_then self name sig reply (K : FieldResult -> Jni D Scheduler.Call unit) d s b : ready s ->
  answers vm (FindClassQ "java/lang/NoSuchFieldError") ->
  (forall h, vm_reply vm h (MemberQ Field (field_id self name sig)) = reply) ->
  match field_state vm reply with
  | Present => forall h, reaches (K (FieldSome (Some (field_id self name sig)))) (logged h s) (finishes self d b)
  | Absent => forall h, reaches (K FieldNone) (logged h s) (finishes self d b)
  | Broken e => b = Some e /\ forall m s', K (FieldError m) s' = Finished tt s'
  end ->
  reaches (let^ f := getFieldID vm (Some (vm_type vm self)) name sig in K f) s (finishes self d b).
Proof.
  intros R He Hr HK. destruct (getFieldID_reaches vm (vm_type vm self) name sig s R He) as (h & N & Hg).
  rewrite Hr in Hg. destruct (field_state vm reply).
  - destruct (HK h) as (h' & N' & HQ). exists (h ++ h'). rewrite effects_app, N, N'. split; [done|].
    rewrite logged_app in HQ. by rewrite (jbind_finished _ _ _ _ _ Hg).
  - destruct (HK h) as (h' & N' & HQ). exists (h ++ h'). rewrite effects_app, N, N'. split; [done|].
    rewrite logged_app in HQ. by rewrite (jbind_finished _ _ _ _ _ Hg).
  - destruct HK as [-> HK]. exists h. split; [done|]. cbn. by rewrite (jbind_finished _ _ _ _ _ Hg), HK.
Qed.

Lemma finishes_initialized self framework master d broken h0 s m : driver_object self framework master -> ready s ->
  effects h0 = [Created (S (next s))] ->
  reaches m (logged h0 (proxied "__scheduler" self s)) (finishes self d broken) ->
  initialized self d broken s (m (logged h0 (proxied "__scheduler" self s))).
Proof.
  intros Ob R N0 (h & N & Hf). unfold initialized, finishes in *. destruct broken as [e|].
  - exists (h0 ++ h). rewrite effects_app, N, N0. split; [done|]. by rewrite Hf, logged_app.
  - destruct (initialize_driver_done vm self d (logged h (logged h0 (proxied "__scheduler" self s))) R (do_driver _ _ _ Ob))
      as (h1 & N1 & E1).
    exists (h0 ++ h ++ h1). rewrite !effects_app, N, N0, N1. split; [done|]. rewrite Hf, E1.
    unfold logged, driven. cbn. by rewrite <- !app_assoc.
Qed.

Lemma read_credential_finishes self jfw jmaster framework master acks_reply acks cred_reply cred s : ready s ->
  driver_object self framework master -> optional_fields self acks_reply acks cred_reply cred ->
  honest_message vm (p_FrameworkInfo P) jfw framework -> honest_string vm jmaster master ->
  reaches (read_credential vm P new_driver (local self) (Some (vm_type vm self)) (local jfw) (local jmaster) acks) s
    (finishes self (new_driver framework (before_nul master) acks cred) (broken_field cred_reply)).
Proof.
  intros R Ob Op Hf Hm. eapply getFieldID_then; [done|apply Ob|apply Op|].
  pose proof (of_cred_value _ _ _ _ _ Op) as Hc. unfold broken_field. destruct (field_state vm cred_reply) as [| |e].
  - intros h. destruct Hc as (jc & Vc & Hc). apply reaches_bind, yields_env; [done|]. do 2 (eapply yields_silent; [done|]).
    apply (yields_ask vm (ObjectFieldQ self (field_id self "credential" "Lorg/apache/mesos/Protos$Credential;")) None
      (fun a : option nat => Local <$> a) _ jc); [done|apply Vc|]. by apply construct_finishes.
  - intros h. apply reaches_bind, yields_ret. by apply (construct_finishes self jfw jmaster framework master acks cred None).
  - done.
Qed.

Lemma scheduler_initialized self framework master acks_reply acks cred_reply cred s : ready s ->
  driver_object self framework master -> optional_fields self acks_reply acks cred_reply cred ->
  initialized self (new_driver framework (before_nul master) acks cred)
    (match broken_field acks_reply with Some e => Some e | None => broken_field cred_reply end) s
    (MesosSchedulerDriver_initialize vm P new_driver (local self) s).
Proof.
  intros R Ob Op. destruct (do_framework_value _ _ _ Ob) as (jfw & Hf & Vf), (do_master_value _ _ _ Ob) as (jm & Hm & Hv).
  unfold MesosSchedulerDriver_initialize.
  erewrite jbind_finished; [|unfold GetObjectClass; rewrite with_env_ready by done; done].
  destruct (initialize_proxy_done vm "__scheduler" self s R (do_weak _ _ _ Ob) (do_scheduler _ _ _ Ob)) as (h0 & N0 & E0).
  rewrite (jbind_finished _ _ _ _ _ E0). eapply finishes_initialized; [exact Ob|done|exact N0|].
  apply reaches_bind, GetMember_yields; [done|apply Ob|]. apply reaches_bind, yields_env; [done|].
  do 2 (eapply yields_silent; [done|]).
  apply (yields_ask vm (ObjectFieldQ self (field_id self "framework" "Lorg/apache/mesos/Protos$FrameworkInfo;")) None
    (fun a : option nat => Local <$> a) _ (Some jfw)); [done|apply Vf|].
  apply reaches_bind, GetMember_yields; [done|apply Ob|]. apply reaches_bind, yields_env; [done|].
  do 2 (eapply yields_silent; [done|]).
  apply (yields_ask vm (ObjectFieldQ self (field_id self "master" "Ljava/lang/String;")) None
    (fun a : option nat => Local <$> a) _ (Some jm)); [done|apply Hv|]. rewrite !logged_app.
  eapply getFieldID_then; [done|apply Ob|apply Op|].
  pose proof (of_acks_value _ _ _ _ _ Op) as Ha. change (broken_field acks_reply) with
    (match field_state vm acks_reply with Broken e => Some e | _ => None end).
  destruct (field_state vm acks_reply) as [| |e].
  - intros h. apply reaches_bind, yields_env; [done|]. do 2 (eapply yields_silent; [done|]).
    eapply yields_ask; [done|apply Ha|]. by eapply read_credential_finishes.
  - intros h. apply reaches_bind, yields_ret. subst acks. by eapply read_credential_finishes.
  - done.
Qed.

(** C21: [initialize] makes the proxy with a weak reference to the Java object, and, unless a field cannot be looked up, the
    driver with the framework and the master of the object; acknowledgements are implicit and there is no credential when
    the class does not have these fields.  When the lookup of one of them fails for another reason, the exception is thrown
    again and the object stays without a driver. *)
Theorem jni_scheduler_initialize self framework master acks_reply acks cred_reply cred s : ready s ->
  driver_object self framework master -> optional_fields self acks_reply acks cred_reply cred ->
  initialized self (new_driver framework (before_nul master) acks cred)
    (match broken_field acks_reply with Some e => Some e | None => broken_field cred_reply end) s
    (MesosSchedulerDriver_initialize vm P new_driver (local self) s).
Proof. apply scheduler_initialized. Qed.

(** ** From creation to finalization *)

Section Object.
  Context (self : nat) (framework : FrameworkInfo) (master : string).
  Context (acks_reply : Reply unit) (acks : bool) (cred_reply : Reply unit) (cred : option string).
  Context (Ob : driver_object self framework master) (Op : optional_fields self acks_reply acks cred_reply cred).
  (** The state before [initialize] *)
  Context (s0 : St) (R0 : ready s0).
  Context (Hfresh : forall x, (next s0 <= x)%nat -> heap s0 !! x = None /\ weaks s0 !! x = None).
  Context (Hattach : forall h, vm_attaches vm h = true).

Abbreviation proxy := (S (next s0)) (only parsing).
Abbreviation driver := (S (S (next s0))) (only parsing).

(** The same object seen from another thread: one of Java's, or the event loop's,
    which is not attached *)
Definition switch (java : bool) (s : St) : St := mkJni java java (thrown s) (weaks s) (held s) (longs s) (heap s) (next s)
  (loader s) (events s).

Inductive JavaOperation := OpNative (n : SchedulerNative) | OpCallback (cb : SchedulerCallback).

Definition run_java (op : JavaOperation) (s : St) : JniResult D Scheduler.Call unit :=
  match op with
  | OpNative n => (let^ _ := scheduler_native_method vm P fuel (local self) n in jret tt) (switch true s)
  | OpCallback cb => JNIScheduler vm P proxy driver cb (switch false s)
  end.

(** The operation gets what it needs from Java. *)
Definition java_allows (op : JavaOperation) (s : St) : Prop :=
  match op with
  | OpNative n => (forall st, numbers vm s "Status" (status_code st)) /\ (n = NJoin \/ exists c, java_request vm P fuel n c)
  | OpCallback cb => java_willing vm P cb s /\ exists fw,
      framework_is vm self fw "scheduler" "Lorg/apache/mesos/Scheduler;" (java_callback cb).1 (java_callback cb).2
  end.

Inductive java_reachable : St -> Prop :=
| jre_init s : MesosSchedulerDriver_initialize vm P new_driver (local self) s0 = Finished tt s -> thrown s = None ->
    java_reachable s
| jre_step op s s' : java_reachable s -> java_allows op s -> run_java op s = Finished tt s' -> java_reachable s'.

(** The native objects of the Java object, beside those there were before *)
Record alive (s : St) : Prop := {
  al_heap : exists d, heap s = <[driver := ADriver d]> (<[proxy := AProxy (Some (Weak (next s0)))]> (heap s0));
  al_weaks : weaks s = <[next s0 := self]> (weaks s0);
  al_longs : longs s !! (self, "__scheduler") = Some proxy /\ longs s !! (self, "__driver") = Some driver;
  al_held : held s = held s0;
  al_thrown : thrown s = None;
}.

Lemma alive_init s : MesosSchedulerDriver_initialize vm P new_driver (local self) s0 = Finished tt s -> thrown s = None ->
  alive s.
Proof.
  intros E T. destruct (scheduler_initialized self framework master acks_reply acks cred_reply cred s0 R0 Ob Op) as (h & Hi).
  rewrite E in Hi. destruct (match broken_field acks_reply with Some e => Some e | None => broken_field cred_reply end).
  - destruct Hi as [_ [= ->]]. done.
  - destruct Hi as [_ [= ->]]. split; try done.
    + by eexists.
    + split; [|apply lookup_insert_eq]. cbn. rewrite lookup_insert_ne by done. apply lookup_insert_eq.
Qed.

Lemma alive_driver s : alive s -> exists d, heap s !! driver = Some (ADriver d).
Proof. intros [[d Hh] _ _ _ _]. exists d. rewrite Hh. apply lookup_insert_eq. Qed.

Lemma alive_proxy s : alive s -> heap s !! proxy = Some (AProxy (Some (Weak (next s0)))) /\ weaks s !! next s0 = Some self.
Proof.
  intros [[d Hh] Hw _ _ _]. rewrite Hh, Hw, lookup_insert_ne by lia. split; apply lookup_insert_eq.
Qed.

Lemma alive_update d s s' : alive s -> weaks s' = weaks s -> longs s' = longs s -> held s' = held s -> thrown s' = None ->
  heap s' = <[driver := ADriver d]> (heap s) -> alive s'.
Proof.
  intros [[d' Hh] Hw Hl He Ht] Ew El Eh Et Eq. split.
  - exists d. by rewrite Eq, Hh, insert_insert_eq.
  - by rewrite Ew.
  - by rewrite El.
  - by rewrite Eh.
  - done.
Qed.

Lemma native_alive n s : alive s -> java_allows (OpNative n) s ->
  match run_java (OpNative n) s with Finished _ s' => alive s' | Undefined _ | Looping => False | _ => True end.
Proof.
  intros A [Hn Hr]. destruct (alive_driver s A) as [d Hd]. pose proof A as [_ _ [_ Hp] _ Ht].
  assert (ready (switch true s)) as R by done. unfold run_java, jbind.
  assert (points vm (switch true s) self "__driver" driver) as Hpt by (split; [apply Ob|done]).
  destruct Hr as [->|[c Hc]].
  - pose proof (join_returned vm driver d self (switch true s) M R Hn Hd Hpt) as Hj.
    cbn [scheduler_native_method]. unfold MesosSchedulerDriver_join.
    destruct (jbind _ _ _) as [r s'|s'| | |]; try done.
    destruct Hj as (o & h & d' & st & -> & _ & -> & _). by eapply (alive_update d' s).
  - pose proof (scheduler_method_returns vm P fuel self driver d n c (switch true s) M R) as Hm.
    specialize (Hm ltac:(by constructor) Hc). unfold returned in Hm.
    destruct (nd_invoke c d) as [[d' st]|why]; [|by rewrite Hm].
    destruct Hm as (o & h & k & _ & _ & _ & ->). by eapply (alive_update d' s).
Qed.

Lemma callback_alive cb s : alive s -> java_allows (OpCallback cb) s ->
  match run_java (OpCallback cb) s with Finished _ s' => alive s' | Undefined _ | Looping => False | _ => True end.
Proof.
  intros A (Hw & fw & Hf). destruct (alive_driver s A) as [d Hd], (alive_proxy s A) as [Hp Hk]. pose proof (al_thrown _ A) as Ht.
  cbn [run_java]. assert (linked (switch false s) proxy driver self d) as L by (split; [by exists (next s0)|done]).
  destruct (scheduler_callback_serves vm P proxy driver self fw d cb (switch false s) M L) as (h & o & m & args & _ & _ & Hr);
    [by split; [|right]|done|done|].
  cbn zeta in Hr. unfold after_calls in Hr. destruct (run_calls _ _) as [[d'|]|]; [|done|by rewrite Hr].
  rewrite Hr. by eapply (alive_update d' s).
Qed.

Lemma operation_alive op s : alive s -> java_allows op s ->
  match run_java op s with Finished _ s' => alive s' | Undefined _ | Looping => False | _ => True end.
Proof. destruct op; [apply native_alive|apply callback_alive]. Qed.

Lemma reachable_alive s : java_reachable s -> alive s.
Proof.
  induction 1 as [s E T|op s s' _ IH Ha E]; [by apply alive_init|].
  pose proof (operation_alive op s IH Ha) as Ho. by rewrite E in Ho.
Qed.

(** C10: From [initialize] on, no native method that Java calls with arguments it can read and no callback that Java accepts
    breaks a rule of the interface; and in every state that they reach, [finalize] frees the driver, the proxy and the weak
    reference to the object: the native heap and the weak references are as they were before. *)
Theorem jni_scheduler_object_safe s : java_reachable s ->
  (forall op, java_allows op s -> match run_java op s with Undefined _ | Looping => False | _ => True end) /\
  exists h, effects h = [Deleted driver; Deleted proxy] /\
    MesosSchedulerDriver_finalize vm (local self) (switch true s) =
    Finished tt (logged h (set_heap (heap s0) (set_weaks (weaks s0) (switch true s)))).
Proof.
  intros Hr. pose proof (reachable_alive s Hr) as A. split.
  { intros op Ha. pose proof (operation_alive op s A Ha). by destruct (run_java op s). }
  destruct (alive_driver s A) as [d Hd], (alive_proxy s A) as [Hp Hk]. pose proof A as [[d' Hh] Hw [L1 L2] _ Ht].
  destruct (finalize_done vm "__scheduler" self proxy driver (next s0) (switch true s)) as (h & N & E);
    [done|apply Ob|apply Ob|cbn; by rewrite L2|done|done|lia|done|by eexists|right; by eexists|].
  exists h. split; [exact N|]. unfold MesosSchedulerDriver_finalize. rewrite E. f_equal. f_equal.
  cbn [heap weaks switch]. rewrite Hh, Hw. unfold without. cbn [Nat.eqb].
  rewrite !delete_insert_id; [done|..]; [apply Hfresh; lia|apply Hfresh; lia|].
  rewrite lookup_insert_ne by lia. apply Hfresh. lia.
Qed.

End Object.

End SchedulerLifeCycle.

(** ** A Java machine *)

Module JniExample.

#[export] Instance driver : NativeDriver State Scheduler.Call :=
  scheduler_native (fun _ => "uuid") (fun _ => 0) (fun c s => Ret (emit (Scheduler.Called c) s)).

Definition text : Proto string := mkProto Some Some.
Definition status_of (id : string) : TaskStatus := mkTaskStatus id TASK_RUNNING None None None.
Definition protos : SchedulerProtos := mkSchedulerProtos text text text text
  (mkProto (fun t => Some (ts_task_id t)) (fun b => Some (status_of b))) text text
  (mkProto (fun f => Some (fw_name f)) (fun b => Some (mkFramework b None))) text text
  (mkProto (fun t => Some (ti_task_id t)) (fun b => Some (mkTaskInfo b "slave" None true None)))
  text (mkProto (fun _ => Some "op") (fun b => Some (OpOther 0))) text "".

Definition running : State := Scheduler.new_driver (mkFramework "fw" (Some "id")) "master".
Definition started : State :=
  match Scheduler.driver_start (set_connected true running) with
  | Ret s => set_channels true (set_connected true s)
  | Fatal _ => running
  end.

(** The object that an event takes an item from *)
Definition given {C} (e : JniEvent C) : nat :=
  match e with Asked (ObjectMethodQ o _ _) _ => o | _ => 0 end.
(** An iterator that has given nothing *)
Definition new_iterator {C} (h : list (JniEvent C)) : nat := S (list_max (map given h)).

Lemma new_iterator_new {C} (h : list (JniEvent C)) : nexts (new_iterator h) h = 0%nat.
Proof.
  assert (forall n, Forall (fun e => given e <= n)%nat h -> nexts (S n) h = 0%nat) as Hn.
  { intros n Hf. induction Hf as [|e h He Hf IH]; [done|]. unfold nexts in *. cbn.
    replace (is_next (S n) e) with false; [done|].
    destruct e as [? [] []| | | | | | | |]; cbn in *; try done. by destruct (Nat.eqb_spec o (S n)); [lia|]. }
  apply Hn. pose proof (proj1 (list_max_le (map given h) _) (Nat.le_refl _)) as Hm.
  by rewrite Forall_map in Hm.
Qed.

(** Object 1 is the driver object, 2 the framework, 3 its FrameworkInfo, 4 the master;
    every collection has the items 11 and 12, every message the same bytes, and other
    strings one letter.
    [raises] are the methods of the framework that throw, [missing] the members that
    are not found, with the exception 99, and [rejected] the classes that cannot
    parse the bytes of a message. *)
Definition machine {D C} (raises missing rejected : list string) (absent : bool) (waits : option D) : Vm D C := {|
  vm_type _ := "org/apache/mesos/MesosSchedulerDriver";
  vm_class _ := "org/apache/mesos/MesosNativeLibrary";
  vm_instance _ _ := absent;
  vm_reply h A c :=
    match c in JniCall A return Reply A with
    | FindClassQ _ => Answers tt
    | MemberQ _ m => if decide (m_name m ∈ missing) then Throws 99 else Answers tt
    | ObjectFieldQ o f => Answers (
        if String.eqb (m_name f) "scheduler" || String.eqb (m_name f) "executor" then Some 2 else if String.eqb (m_name f) "framework" then Some 3
        else if String.eqb (m_name f) "master" then Some 4 else None)%nat
    | BooleanFieldQ _ _ => Answers false
    | SetStaticBooleanQ _ _ => Answers tt
    | ObjectMethodQ o m _ => Answers (
        if String.eqb (m_name m) "iterator" then Some (new_iterator h)
        else if String.eqb (m_name m) "next" then [11; 12]%nat !! nexts o h
        else Some (o + 20)%nat)
    | BooleanMethodQ o m _ => Answers (
        if String.eqb (m_name m) "hasNext" then (nexts o h <? 2)%nat else true)
    | IntMethodQ _ _ _ => Answers 1
    | StaticMethodQ m _ => if decide (m_class m ∈ rejected) then Throws 98 else Answers (Some 30%nat)
    | NewObjectQ _ _ => Answers 40%nat
    | NewStringUTFQ _ => Answers 41%nat
    | NewByteArrayQ _ => Answers 42%nat
    | SetByteArrayRegionQ _ _ => Answers tt
    | ByteArrayElementsQ _ => Answers "bytes"
    | ArrayLengthQ _ => Answers 5%nat
    | StringUTFCharsQ o => Answers (if Nat.eqb o 4 then "master" else String (Ascii.ascii_of_nat o) "")
    | WeakGlobalRefQ _ => Answers tt
    end;
  vm_framework _ _ m _ := mkFrameworkReply [] (if decide (m_name m ∈ raises) then Some 97%nat else None);
  vm_attaches _ := true;
  vm_version := true;
  vm_wait _ := waits |}.

(** Before [initialize], on a thread of Java *)
Definition before : JniState State Scheduler.Call := mkJni true true None ∅ [] ∅ ∅ 5 None [].
(** A driver object that was initialized, seen from the thread of the event loop *)
Definition object : JniState State Scheduler.Call := mkJni false false None {[5%nat := 1%nat]} []
  {[(1%nat, "__scheduler") := 6%nat; (1%nat, "__driver") := 7%nat]}
  {[6%nat := AProxy (Some (Weak 5)); 7%nat := ADriver started]} 8 None [].

End JniExample.
Import JniExample.

Lemma machine_memory {D C} raises missing rejected absent waits : Memory (machine (D:=D) (C:=C) raises missing rejected absent waits).
Proof. split; [by eexists|by eexists|done]. Qed.

Lemma machine_parses {D C} raises missing absent waits name data (s : JniState D C) : loader s = None -> "parseFrom" ∉ missing ->
  Z.of_nat (String.length data) < 2 ^ 31 -> parses (machine (D:=D) (C:=C) raises missing [] absent waits) s name data.
Proof.
  intros Hl Hm Hn. split_and!; [done|unfold loads; rewrite Hl; by eexists|..].
  - intros h. exists tt. cbn. by rewrite decide_False.
  - intros h array _. exists 30%nat. cbn. by rewrite decide_False by apply not_elem_of_nil.
Qed.

Lemma machine_has {D C} raises rejected absent waits kind cls name sig : has (machine (D:=D) (C:=C) raises [] rejected absent waits) kind cls name sig.
Proof. intros h. exists tt. cbn. by rewrite decide_False by apply not_elem_of_nil. Qed.

Lemma jni_scheduler_callbacks_witness :
  let vm : Vm State Call := machine ["resourceOffers"] [] [] false None in
  serves vm 7 started (JNIScheduler vm protos 6 7 (ResourceOffers ["a"; "b"])) object
    (java_call vm protos 1 2 (ResourceOffers ["a"; "b"])) /\
  match JNIScheduler vm protos 6 7 (ResourceOffers ["a"; "b"]) object with
  | Finished _ s' => attached s' = false /\ thrown s' = None /\
      match heap s' !! 7%nat with Some (ADriver d) => status d = DRIVER_ABORTED | _ => False end
  | _ => False
  end.
Proof.
  intros vm. split; [|by vm_compute].
  apply (jni_scheduler_callbacks vm protos 6 7 1 2 started (ResourceOffers ["a"; "b"]) object).
  - apply machine_memory.
  - split; [by exists 5%nat|done].
  - split; [done|by right].
  - split; [apply machine_has|done|apply machine_has].
  - split.
    + split; [by eexists|apply machine_has|by eexists|apply machine_has|done].
    + do 2 (apply Forall_cons; split; [apply machine_parses; [done|apply not_elem_of_nil|done]|]). by apply Forall_nil.
Defined.

Lemma machine_message {D C T} raises missing rejected absent waits (p : Proto T) o t : "toByteArray" ∉ missing ->
  ParseFrom p "bytes" = Some t -> honest_message (machine (D:=D) (C:=C) raises missing rejected absent waits) p o t.
Proof.
  intros Hm Hp. exists "bytes". split; [split|done].
  - intros h. exists tt. cbn. by rewrite decide_False.
  - intros h. exists (o + 20)%nat. done.
Qed.

Lemma machine_collection {D C} raises rejected absent waits l : collection (machine (D:=D) (C:=C) raises [] rejected absent waits) l [11; 12]%nat.
Proof.
  split; [apply machine_has|]. intros h. exists (new_iterator h). split; [done|]. split.
  - apply new_iterator_new.
  - apply machine_has.
  - apply machine_has.
  - done.
  - intros k o Ho. cbn. by rewrite Ho.
Qed.

Lemma machine_numbers {D C} raises absent waits name n (s : JniState D C) : loader s = None -> numbers (machine (D:=D) (C:=C) raises [] [] absent waits) s name n.
Proof.
  intros Hl. split_and!; [unfold loads; rewrite Hl; by eexists|apply machine_has|].
  intros h. exists 30%nat. cbn. by rewrite decide_False by apply not_elem_of_nil.
Qed.

(** ... the same object seen from a thread of Java *)
Definition java_object : JniState State Call := switch true object.

Lemma jni_scheduler_methods_witness :
  let vm : Vm State Call := machine [] [] [] false None in
  returned 7 started (DReconcileTasks [status_of "bytes"; status_of "bytes"])
    (scheduler_native_method vm protos 3 (Some (Local 1)) (NReconcileTasks (Some (Local 9)))) java_object.
Proof.
  intros vm. apply (jni_scheduler_methods vm protos 3 1 7 started (NReconcileTasks (Some (Local 9)))).
  - apply machine_memory.
  - done.
  - split; [split; [apply machine_has|done]|done|intros st; by apply machine_numbers].
  - constructor. split; [|cbn; lia]. exists [11; 12]%nat. split; [apply machine_collection|].
    repeat constructor; apply machine_message; first [apply not_elem_of_nil|done].
Defined.

Definition new_scheduler (f : FrameworkInfo) (m : string) (acks : bool) (c : option string) : State := Scheduler.new_driver f m.

Lemma machine_driver_object raises missing rejected absent waits :
  Forall (fun name => name ∉ missing) ["__scheduler"; "__driver"; "framework"; "master"; "toByteArray"] ->
  driver_object (machine (D:=State) (C:=Call) raises missing rejected absent waits) protos 1 (mkFramework "bytes" None) "master".
Proof.
  intros Hm. repeat (apply Forall_cons in Hm as [? Hm]).
  assert (forall kind cls name sig, name ∉ missing -> has (machine (D:=State) (C:=Call) raises missing rejected absent waits) kind cls name sig) as Hh.
  { intros kind cls name sig Hn h. exists tt. cbn. by rewrite decide_False. }
  split; try (by apply Hh); try (by eexists).
  - exists 3%nat. split; [by apply machine_message|done].
  - exists 4%nat. done.
Qed.

Lemma jni_scheduler_initialize_witness :
  let vm : Vm State Call := machine [] ["implicitAcknowledgements"] [] false None in
  initialized 1 (new_scheduler (mkFramework "bytes" None) "master" true None) (Some 99%nat) before
    (MesosSchedulerDriver_initialize vm protos new_scheduler (Some (Local 1)) before).
Proof.
  intros vm.
  apply (jni_scheduler_initialize vm protos new_scheduler 1 (mkFramework "bytes" None) "master"
    (Throws 99) true (Answers tt) None before).
  - done.
  - apply machine_driver_object. by repeat constructor; intros ?%list_elem_of_singleton.
  - split; [done|done|done|]. cbn. exists None. done.
Defined.

Lemma jni_scheduler_object_safe_witness :
  let vm : Vm State Call := machine [] [] [] false None in
  exists s, MesosSchedulerDriver_initialize vm protos new_scheduler (Some (Local 1)) before = Finished tt s /\
  exists h, effects h = [Deleted 7; Deleted 6] /\
    MesosSchedulerDriver_finalize vm (Some (Local 1)) (switch true s) =
    Finished tt (logged h (set_heap ∅ (set_weaks ∅ (switch true s)))).
Proof.
  intros vm. eexists. split; [vm_compute; reflexivity|].
  refine (proj2 (jni_scheduler_object_safe vm protos new_scheduler 3 (machine_memory _ _ _ _ _) 1
    (mkFramework "bytes" None) "master" (Answers tt) false (Answers tt) None _ _ before _ _ _ _ _)).
  - apply machine_driver_object. repeat constructor; apply not_elem_of_nil.
  - split; [done|done|done|]. exists None. done.
  - done.
  - intros x _. split; apply lookup_empty.
  - done.
  - apply jre_init; [vm_compute; reflexivity|done].
Defined.

(** ** What goes wrong *)

(** The exception of a conversion is cleared before the call: the framework gets null
    for the message, and the driver goes on. *)
Lemma conversion_swallowed :
  let vm : Vm State Call := machine [] [] ["org/apache/mesos/Protos$MasterInfo"] false None in
  match JNIScheduler vm protos 6 7 (Reregistered "m") object with
  | Finished _ s' =>
      effects (events s') = [Attach; Framework 2 (mkMember "org/apache/mesos/MesosSchedulerDriver" "reregistered"
        "(Lorg/apache/mesos/SchedulerDriver;Lorg/apache/mesos/Protos$MasterInfo;)V") [AObj 1; ANull] [] None; Detach] /\
      heap s' = heap object
  | _ => False
  end.
Proof. by vm_compute. Qed.

(** When it is not the last conversion, the next one calls the machine while the
    exception is pending. *)
Lemma conversion_pending :
  let vm : Vm State Call := machine [] [] ["org/apache/mesos/Protos$FrameworkID"] false None in
  JNIScheduler vm protos 6 7 (Registered "f" "m") object = Undefined "an exception is pending".
Proof. by vm_compute. Qed.

(** A method called on an object whose [initialize] ended early has no driver. *)
Lemma start_without_driver :
  let vm : Vm State Call := machine [] ["implicitAcknowledgements"] [] false None in
  match MesosSchedulerDriver_initialize vm protos new_scheduler (Some (Local 1)) before with
  | Finished _ s => thrown s = Some 99%nat /\
      scheduler_native_method vm protos 3 (Some (Local 1)) NStart (set_thrown None s) = Undefined "not a driver"
  | _ => False
  end.
Proof. by vm_compute. Qed.

(** A null argument is dereferenced. *)
Lemma null_argument vm fuel self s : ready s ->
  scheduler_native_method vm protos fuel self (NKillTask None) s = Undefined "a null reference".
Proof.
  intros R. cbn [scheduler_native_method]. unfold MesosSchedulerDriver_killTask, construct_TaskID, construct_message, GetObjectClass.
  unfold jbind. rewrite with_env_ready by done. done.
Qed.

(** [getNumber] is an instance method, and is not found among the static ones. *)
Lemma task_state_not_static :
  construct_TaskState (machine [] ["getNumber"] [] false None) (Some (Local 9)) before = Undefined "an exception is pending".
Proof. by vm_compute. Qed.

(** A thread that cannot be attached is used all the same. *)
Lemma attach_ignored (vm : Vm State Call) s cb : attached s = false -> (forall h, vm_attaches vm h = false) ->
  match JNIScheduler vm protos 6 7 cb s with Undefined _ => True | _ => False end.
Proof.
  intros Ha Hv. assert (AttachCurrentThread vm s = Finished tt s) as E by (unfold AttachCurrentThread; by rewrite Ha, Hv).
  destruct cb; cbn [JNIScheduler];
    unfold JNIScheduler_registered, JNIScheduler_reregistered, JNIScheduler_disconnected, JNIScheduler_resourceOffers,
      JNIScheduler_offerRescinded, JNIScheduler_statusUpdate, JNIScheduler_frameworkMessage, JNIScheduler_slaveLost,
      JNIScheduler_executorLost, JNIScheduler_error;
    rewrite (jbind_finished _ _ _ _ _ E);
    unfold jbind, proxy_jdriver; destruct (heap s !! 6%nat) as [[]|]; try done;
    unfold jni_scheduler_method, framework_method, jbind, GetObjectClass, with_env, on_thread; by rewrite Ha.
Qed.
