(* ===== verification/JniExecutorProperties.v ===== *)
(** * The Java binding of the executor driver does what it is for

    The same as JniProperties.v for the scheduler driver. *)
From S2P Require Import Prelude Scheduler Executor Native Jni JniConvert JniScheduler JniExecutor JniLogic JniProperties.

Section Executor.
  Context {D : Type} `{ND : NativeDriver D Executor.Call} (vm : Vm D Executor.Call) (Q : ExecutorProtos) (new_driver : D).

Abbreviation St := (JniState D Executor.Call).
Abbreviation Ev := (JniEvent Executor.Call).
Abbreviation local o := (Some (Local o)) (only parsing).

(** ** Callbacks *)

(** The method of org.apache.mesos.Executor, and its signature *)
Definition executor_callback (cb : ExecutorCallback) : string * string :=
  match cb with
  | ExRegistered _ _ _ => ("registered",
      "(Lorg/apache/mesos/ExecutorDriver;Lorg/apache/mesos/Protos$ExecutorInfo;Lorg/apache/mesos/Protos$FrameworkInfo;Lorg/apache/mesos/Protos$SlaveInfo;)V")
  | ExReregistered _ => ("reregistered", "(Lorg/apache/mesos/ExecutorDriver;Lorg/apache/mesos/Protos$SlaveInfo;)V")
  | ExDisconnected => ("disconnected", "(Lorg/apache/mesos/ExecutorDriver;)V")
  | ExLaunchTask _ => ("launchTask", "(Lorg/apache/mesos/ExecutorDriver;Lorg/apache/mesos/Protos$TaskInfo;)V")
  | ExKillTask _ => ("killTask", "(Lorg/apache/mesos/ExecutorDriver;Lorg/apache/mesos/Protos$TaskID;)V")
  | ExFrameworkMessage _ => ("frameworkMessage", "(Lorg/apache/mesos/ExecutorDriver;[B)V")
  | ExShutdown => ("shutdown", "(Lorg/apache/mesos/ExecutorDriver;)V")
  | ExError _ => ("error", "(Lorg/apache/mesos/ExecutorDriver;Ljava/lang/String;)V")
  end.

(** The arguments after the driver object *)
Definition executor_args (cb : ExecutorCallback) (h : list Ev) (args : list JArg) : Prop :=
  match cb with
  | ExRegistered e f i => exists a b c, args = [AObj a; AObj b; AObj c] /\
      made h "ExecutorInfo" (bytes_of (q_ExecutorInfo Q) e) a /\ made h "FrameworkInfo" (bytes_of (q_FrameworkInfo Q) f) b /\
      made h "SlaveInfo" (bytes_of (q_SlaveInfo Q) i) c
  | ExReregistered i => exists a, args = [AObj a] /\ made h "SlaveInfo" (bytes_of (q_SlaveInfo Q) i) a
  | ExDisconnected | ExShutdown => args = []
  | ExLaunchTask t => exists a, args = [AObj a] /\ made h "TaskInfo" (bytes_of (q_TaskInfo Q) t) a
  | ExKillTask t => exists a, args = [AObj a] /\ made h "TaskID" (bytes_of (q_TaskID Q) t) a
  | ExFrameworkMessage data => exists a, args = [AObj a] /\ made_bytes h data a
  | ExError m => exists a, args = [AObj a] /\ made_text h m a
  end.

(** Java accepts the arguments of the callback. *)
Definition executor_willing (cb : ExecutorCallback) (s : St) : Prop :=
  match cb with
  | ExRegistered e f i => parses vm s "ExecutorInfo" (bytes_of (q_ExecutorInfo Q) e) /\
      parses vm s "FrameworkInfo" (bytes_of (q_FrameworkInfo Q) f) /\ parses vm s "SlaveInfo" (bytes_of (q_SlaveInfo Q) i)
  | ExReregistered i => parses vm s "SlaveInfo" (bytes_of (q_SlaveInfo Q) i)
  | ExLaunchTask t => parses vm s "TaskInfo" (bytes_of (q_TaskInfo Q) t)
  | ExKillTask t => parses vm s "TaskID" (bytes_of (q_TaskID Q) t)
  | ExFrameworkMessage data => Z.of_nat (String.length data) < 2 ^ 31
  | ExDisconnected | ExShutdown | ExError _ => True
  end.

(** What a callback asks of the executor *)
Definition executor_call (self ex : nat) (cb : ExecutorCallback) (h : list Ev) (o : nat) (m : Member) (args : list JArg) : Prop :=
  o = ex /\ m = mkMember (vm_type vm ex) (executor_callback cb).1 (executor_callback cb).2 /\
  exists rest, args = AObj self :: rest /\ executor_args cb h rest.

Lemma executor_callback_serves this driver self ex d cb s : Memory vm -> linked s this driver self d ->
  can_attach vm s ->
  framework_is vm self ex "executor" "Lorg/apache/mesos/Executor;" (executor_callback cb).1 (executor_callback cb).2 ->
  executor_willing cb s ->
  serves vm driver d (JNIExecutor vm Q this driver cb) s (executor_call self ex cb).
Proof.
  intros M L A F W.
  destruct cb; cbn in F, W; (eapply serves_start; [exact L|exact A|]); intros k Hk R;
    (apply served_bind; eapply framework_method_yields; [exact R|exact Hk|exact F|]; intros h0 Ih0).
  - do 3 convert_step W. call_step L Hk. split_and!; [reflexivity|was_made|was_made|was_made].
  - convert_step W. call_step L Hk. split_and!; [reflexivity|was_made].
  - by call_step L Hk.
  - convert_step W. call_step L Hk. split_and!; [reflexivity|was_made].
  - convert_step W. call_step L Hk. split_and!; [reflexivity|was_made].
  - apply served_bind, byte_array_yields; [done|done|done|]. intros c hb Hb Ib.
    call_step L Hk. split_and!; [reflexivity|]. unfold made_bytes in *. rewrite !elem_of_app. auto 10.
  - by call_step L Hk.
  - apply served_bind, NewStringUTF_yields; [done|done|]. intros o. call_step L Hk. split_and!; [reflexivity|].
    unfold made_text. rewrite !elem_of_app, list_elem_of_singleton. auto.
Qed.

(** A callback of the native executor calls the one method of the Java executor with the driver object and the objects
    Java made of the callback's arguments, aborts the driver exactly if that method throws, and leaves the thread as a
    callback of the scheduler does. *)
Theorem jni_executor_callbacks this driver self ex d cb s : Memory vm -> linked s this driver self d ->
  can_attach vm s ->
  framework_is vm self ex "executor" "Lorg/apache/mesos/Executor;" (executor_callback cb).1 (executor_callback cb).2 ->
  executor_willing cb s ->
  serves vm driver d (JNIExecutor vm Q this driver cb) s (executor_call self ex cb).
Proof. apply executor_callback_serves. Qed.

(** ** Methods *)

Inductive executor_request : ExecutorNative -> Executor.Call -> Prop :=
| xr_start : executor_request XStart DStart
| xr_stop : executor_request XStop DStop
| xr_abort : executor_request XAbort DAbort
| xr_update o st : honest_message vm (q_TaskStatus Q) o st ->
    executor_request (XSendStatusUpdate (local o)) (DSendStatusUpdate st)
| xr_message b data : readable vm b data -> executor_request (XSendFrameworkMessage (local b)) (DSendFrameworkMessage data).

Lemma executor_method_returns self driver d n c s : Memory vm -> ready s -> points vm s self "__driver" driver ->
  heap s !! driver = Some (ADriver d) -> (forall st, numbers vm s "Status" (status_code st)) -> executor_request n c ->
  returned driver d c (executor_native_method vm Q (local self) n) s.
Proof.
  intros M R Hp Hd Hn Hr. destruct Hr; cbn [executor_native_method]; try (by eapply plain_method_returned).
  - apply returned_bind. eapply construct_message_yields; [done|eassumption|]. intros h _. by eapply plain_method_returned.
  - apply returned_bind. eapply construct_bytes_yields; [done|eassumption|]. intros h _. by eapply plain_method_returned.
Qed.

(** A native method of the Java class calls the one driver method that it stands for, once, with the values of its
    arguments, and returns the object of the Java enumeration for the status. *)
Theorem jni_executor_methods self driver d n c s : Memory vm -> ready s -> points vm s self "__driver" driver ->
  heap s !! driver = Some (ADriver d) -> (forall st, numbers vm s "Status" (status_code st)) -> executor_request n c ->
  returned driver d c (executor_native_method vm Q (local self) n) s.
Proof. apply executor_method_returns. Qed.

(** ** Life cycle *)

(** [initialize] of the executor's driver object makes a proxy with a weak reference to the object, and a driver, and
    stores their addresses in the object; [finalize] right after it frees all three, and leaves the native heap and the weak
    references as they were. *)
Theorem jni_executor_lifecycle self s : ready s -> answers vm (WeakGlobalRefQ self) ->
  has vm Field (vm_type vm self) "__executor" "J" -> has vm Field (vm_type vm self) "__driver" "J" ->
  (forall x, (next s <= x)%nat -> heap s !! x = None /\ weaks s !! x = None) ->
  exists h s', MesosExecutorDriver_initialize vm new_driver (local self) s = Finished tt s' /\
    s' = logged h (driven self new_driver (proxied "__executor" self s)) /\
    exists k, MesosExecutorDriver_finalize vm (local self) s' =
      Finished tt (logged k (set_heap (heap s) (set_weaks (weaks s) s'))) /\
      effects (h ++ k) = [Created (S (next s)); Created (S (S (next s))); Deleted (S (S (next s))); Deleted (S (next s))].
Proof.
  intros R Hw He Hd Hf. unfold MesosExecutorDriver_initialize.
  destruct (initialize_proxy_done vm "__executor" self s R Hw He) as (h0 & N0 & E0).
  destruct (initialize_driver_done vm self new_driver (logged h0 (proxied "__executor" self s)) R Hd) as (h1 & N1 & E1).
  assert (logged h1 (driven self new_driver (logged h0 (proxied "__executor" self s))) =
          logged (h0 ++ h1) (driven self new_driver (proxied "__executor" self s))) as Es.
  { unfold logged, driven. cbn. by rewrite <- app_assoc. }
  exists (h0 ++ h1), (logged (h0 ++ h1) (driven self new_driver (proxied "__executor" self s))). split_and!.
  - erewrite jbind_finished; [|unfold GetObjectClass; rewrite with_env_ready by done; done].
    by rewrite (jbind_finished _ _ _ _ _ E0), E1, Es.
  - done.
  - set (n := next s) in *.
    destruct (finalize_done vm "__executor" self (S n) (S (S n)) n
      (logged (h0 ++ h1) (driven self new_driver (proxied "__executor" self s)))) as (k & N & E).
    + done.
    + done.
    + done.
    + cbn. by rewrite lookup_insert_eq.
    + cbn. rewrite lookup_insert_ne by done. by rewrite lookup_insert_eq.
    + done.
    + lia.
    + cbn. rewrite lookup_insert_ne by lia. by rewrite lookup_insert_eq.
    + cbn. by rewrite lookup_insert_eq.
    + right. cbn. by rewrite lookup_insert_eq.
    + exists k. rewrite !effects_app, N0, N1, N. split; [|done].
      unfold MesosExecutorDriver_finalize. rewrite E. f_equal. f_equal.
      unfold without. cbn [heap weaks logged driven proxied set_longs set_next set_heap set_weaks next Nat.eqb]. fold n.
      rewrite !delete_insert_id; [done|apply Hf; lia|apply Hf; lia|].
      rewrite lookup_insert_ne by lia. apply Hf. lia.
Qed.

End Executor.

(** ** An executor *)

Module JniExecutorExample.
Import JniExample.

#[export] Instance driver : NativeDriver Executor.State Executor.Call :=
  executor_native (fun _ => "uuid") (fun _ => 0) (Some "slave") (Some "framework") (Some "executor")
    (fun c s => Ret (Executor.emit (Executor.Called c) s)).

Definition executor_protos : ExecutorProtos := mkExecutorProtos text text text
  (mkProto (fun t => Some (ti_task_id t)) (fun b => Some (mkTaskInfo b "slave" None true None)))
  text (mkProto (fun t => Some (es_task_id t)) (fun b => Some (mkExecutorStatus b TASK_RUNNING None None None))).

Definition created : Executor.State := Executor.new_driver.

Definition executor_before : JniState Executor.State Executor.Call := mkJni true true None ∅ [] ∅ ∅ 5 None [].
Definition executor_object : JniState Executor.State Executor.Call := mkJni false false None {[5%nat := 1%nat]} []
  {[(1%nat, "__executor") := 6%nat; (1%nat, "__driver") := 7%nat]}
  {[6%nat := AProxy (Some (Weak 5)); 7%nat := ADriver created]} 8 None [].

End JniExecutorExample.
Import JniExample JniExecutorExample.

Lemma jni_executor_callbacks_witness :
  let vm : Vm Executor.State Executor.Call := machine ["killTask"] [] [] false None in
  serves vm 7 created (JNIExecutor vm executor_protos 6 7 (ExKillTask "t")) executor_object (executor_call vm executor_protos 1 2 (ExKillTask "t")).
Proof.
  intros vm. apply (jni_executor_callbacks vm executor_protos 6 7 1 2 created (ExKillTask "t") executor_object).
  - apply machine_memory.
  - split; [by exists 5%nat|done].
  - split; [done|by right].
  - split; [apply machine_has|done|apply machine_has].
  - apply machine_parses; [done|apply not_elem_of_nil|done].
Defined.

Lemma jni_executor_lifecycle_witness :
  let vm : Vm Executor.State Executor.Call := machine [] [] [] false None in
  exists h s', MesosExecutorDriver_initialize vm created (Some (Local 1)) executor_before = Finished tt s' /\
    s' = logged h (driven 1 created (proxied "__executor" 1 executor_before)) /\
    exists k, MesosExecutorDriver_finalize vm (Some (Local 1)) s' = Finished tt (logged k (set_heap ∅ (set_weaks ∅ s'))) /\
      effects (h ++ k) = [Created 6; Created 7; Deleted 7; Deleted 6].
Proof.
  intros vm. apply (jni_executor_lifecycle vm created 1 executor_before).
  - done.
  - by eexists.
  - apply machine_has.
  - apply machine_has.
  - intros x _. split; apply lookup_empty.
Defined.
