(* ===== verification/JniLibrary.v ===== *)
(** * Loading the library, finding classes, reading maps

    The class loader that [JNI_OnLoad] captures is the one that finds the Mesos
    classes later, from threads whose own loader cannot; a Java map is read entry by
    entry. *)
From Stdlib Require Import Ascii.
From S2P Require Import Prelude Scheduler Native Jni JniConvert JniScheduler JniLogic JniProperties.

(** ** Names of classes *)

(** The letter at each place is the same, but that slashes become dots. *)
Lemma binary_name_get name i :
  String.get i (binary_name name) =
  (fun c => if Ascii.eqb c "/" then "."%char else c) <$> String.get i name.
Proof. revert i. induction name as [|c name IH]; intros [|i]; cbn; try done. Qed.

(** Names with different letters other than dots and slashes stay different. *)
Lemma binary_name_inj a b :
  (forall i, String.get i a <> Some "."%char) -> (forall i, String.get i b <> Some "."%char) ->
  binary_name a = binary_name b -> a = b.
Proof.
  revert b. induction a as [|c a IH]; intros [|c' b] Ha Hb; cbn; try done. intros [= Hc E].
  assert (c = c') as ->.
  { pose proof (Ha 0%nat) as H1. pose proof (Hb 0%nat) as H2. cbn in H1, H2.
    destruct (Ascii.eqb_spec c "/"), (Ascii.eqb_spec c' "/"); congruence. }
  f_equal. apply IH; [intros i; apply (Ha (S i))|intros i; apply (Hb (S i))|done].
Qed.

Section Library.
  Context {D C : Type} `{ND : NativeDriver D C} (vm : Vm D C).

Abbreviation St := (JniState D C).
Abbreviation Ev := (JniEvent C).
Abbreviation J := (Jni D C) (only parsing).

(** ** Finding classes *)

Lemma describe_done x e (s : St) : ready s ->
  ExceptionDescribe (jlog x (set_thrown (Some e) s)) = Finished tt (logged [x; Described e] s).
Proof.
  intros [Ha Ht]. unfold ExceptionDescribe, on_thread, jmodify. cbn. rewrite Ha.
  unfold jlog, set_thrown, logged. cbn. by rewrite <- app_assoc, Ht.
Qed.

(** A class the loader cannot find is null: the loader's exception is printed and not
    left pending. *)
Lemma FindMesosClass_missing name k o e s : Memory vm -> ready s -> loader s = Some k -> weaks s !! k = Some o ->
  answers vm (FindClassQ "java/lang/ClassLoader") ->
  has vm Method "java/lang/ClassLoader" "loadClass" "(Ljava/lang/String;)Ljava/lang/Class;" ->
  (forall h text, Asked (NewStringUTFQ (before_nul (binary_name name))) (Answers text) ∈ h ->
     vm_reply vm h (ObjectMethodQ o loadClass_id [AObj text]) = Throws e) ->
  exists h, effects h = [Described e] /\ FindMesosClass vm name s = Finished None (logged h s).
Proof.
  intros M R Hl Hk Hc Hm Ht.
  destruct (Hc (events s)) as [[] Ec]. set (s1 := logged [Asked (FindClassQ "java/lang/ClassLoader") (Answers tt)] s).
  destruct (Hm (events s1)) as [[] Em]. set (s2 := logged [Asked (MemberQ Method loadClass_id) (Answers tt)] s1).
  destruct (mem_string vm M (before_nul (binary_name name)) (events s2)) as [text Et].
  set (s3 := logged [Asked (NewStringUTFQ (before_nul (binary_name name))) (Answers text)] s2).
  assert (vm_reply vm (events s3) (ObjectMethodQ o loadClass_id [AObj text]) = Throws e) as Ee.
  { apply Ht. unfold s3. cbn [events logged]. rewrite !elem_of_app, list_elem_of_singleton. auto. }
  exists [Asked (FindClassQ "java/lang/ClassLoader") (Answers tt); Asked (MemberQ Method loadClass_id) (Answers tt);
          Asked (NewStringUTFQ (before_nul (binary_name name))) (Answers text);
          Asked (ObjectMethodQ o loadClass_id [AObj text]) (Throws e); Described e]. split; [done|].
  unfold FindMesosClass. rewrite (jbind_finished _ _ _ _ _ (no_exception s R)).
  erewrite jbind_finished; [|done]. rewrite Hl. cbn zeta.
  assert (FindClass vm "java/lang/ClassLoader" s = Finished (Some "java/lang/ClassLoader") s1) as E1
    by (by apply (ask_done vm (FindClassQ "java/lang/ClassLoader") None (fun _ => Some "java/lang/ClassLoader"))).
  rewrite (jbind_finished _ _ _ _ _ E1). erewrite jbind_finished; [|done].
  assert (ready s1 /\ ready s2 /\ ready s3) as (R1 & R2 & R3) by done.
  erewrite (jbind_finished _ _ s1 (Some loadClass_id) s2).
  2:{ unfold GetMethodID, GetMember. rewrite with_env_ready by done. erewrite jbind_finished; [|done].
      by apply (ask_done vm (MemberQ Method loadClass_id) None (fun _ => Some loadClass_id)). }
  erewrite jbind_finished; [|done].
  assert (NewStringUTF vm (binary_name name) s2 = Finished (Some (Local text)) s3) as E3
    by (by apply (ask_done vm (NewStringUTFQ (before_nul (binary_name name))) None (fun o => Some (Local o)))).
  rewrite (jbind_finished _ _ _ _ _ E3), (jbind_finished _ _ _ _ _ (no_exception s3 R3)).
  erewrite jbind_finished.
  2:{ unfold CallObjectMethod. rewrite with_env_ready by done. erewrite jbind_finished; [|cbn; by rewrite Hk].
      erewrite jbind_finished; [|done]. erewrite jbind_finished; [|done].
      unfold ask. rewrite with_env_ready by done. rewrite Ee. done. }
  erewrite jbind_finished; [|unfold ExceptionCheck, on_thread; cbn; by rewrite (proj1 R)].
  cbn [thrown set_thrown jlog]. rewrite bool_decide_true by done.
  rewrite (jbind_finished _ _ _ _ _ (describe_done _ e s3 R3)).
  unfold s3, s2, s1. rewrite !logged_app. reflexivity.
Qed.

(** The class of a Mesos message is looked up by its dotted name in the captured class loader, or by the machine when
    there is none; a pending exception or one of the loader's gives null, and the loader's is printed and not left pending. *)
Theorem find_mesos_class name s : Memory vm -> ready s ->
  (loads vm s name -> exists h, effects h = [] /\ FindMesosClass vm name s = Finished (Some name) (logged h s)) /\
  (forall e, FindMesosClass vm name (set_thrown (Some e) s) = Finished None (set_thrown (Some e) s)) /\
  (forall k o e, loader s = Some k -> weaks s !! k = Some o -> answers vm (FindClassQ "java/lang/ClassLoader") ->
     has vm Method "java/lang/ClassLoader" "loadClass" "(Ljava/lang/String;)Ljava/lang/Class;" ->
     (forall h text, Asked (NewStringUTFQ (before_nul (binary_name name))) (Answers text) ∈ h ->
        vm_reply vm h (ObjectMethodQ o loadClass_id [AObj text]) = Throws e) ->
     exists h, effects h = [Described e] /\ FindMesosClass vm name s = Finished None (logged h s)).
Proof.
  intros M R. split_and!.
  - intros L. destruct (FindMesosClass_yields vm name s (fun c _ => c = Some name) M R L) as (c & h & E & N & ->); [done|].
    by exists h.
  - intros e. unfold FindMesosClass. erewrite jbind_finished; [|unfold ExceptionCheck, on_thread; cbn; by rewrite (proj1 R)].
    done.
  - intros k o e. by apply FindMesosClass_missing.
Qed.

(** ** Maps *)

(** An entry with this key and value *)
Record entry (o : nat) (kv : string * string) : Prop := {
  en_getKey : has vm Method (vm_type vm o) "getKey" "()Ljava/lang/Object;";
  en_key : forall h, exists k, vm_reply vm h (ObjectMethodQ o (mkMember (vm_type vm o) "getKey" "()Ljava/lang/Object;") []) =
    Answers (Some k) /\ honest_string vm k kv.1;
  en_getValue : has vm Method (vm_type vm o) "getValue" "()Ljava/lang/Object;";
  en_value : forall h, exists v, vm_reply vm h (ObjectMethodQ o (mkMember (vm_type vm o) "getValue" "()Ljava/lang/Object;") []) =
    Answers (Some v) /\ honest_string vm v kv.2;
  en_text : has_nul kv.1 = false /\ has_nul kv.2 = false;
}.

(** A Java map with these entries *)
Definition java_map (o : nat) (kvs : list (string * string)) : Prop :=
  has vm Method (vm_type vm o) "entrySet" "()Ljava/util/Set;" /\
  exists l items, (forall h, vm_reply vm h (ObjectMethodQ o (mkMember (vm_type vm o) "entrySet" "()Ljava/util/Set;") []) = Answers (Some l)) /\
    collection vm l items /\ Forall2 entry items kvs.

Lemma before_nul_id text : has_nul text = false -> before_nul text = text.
Proof.
  induction text as [|c text IH]; cbn; [done|]. destruct (Ascii.eqb c Ascii.zero); [done|].
  intros H'. by rewrite IH.
Qed.

Lemma insert_all (kvs : list (string * string)) (m : gmap string string) : NoDup kvs.*1 ->
  foldl (fun m kv => <[kv.1 := kv.2]> m) m kvs = list_to_map kvs ∪ m.
Proof.
  revert m. induction kvs as [|[k v] kvs IH]; intros m; cbn; [by rewrite (left_id_L ∅ (∪))|].
  intros [Hk Hd]%NoDup_cons. rewrite IH by done. rewrite <- insert_union_l, insert_union_r; [done|].
  by apply not_elem_of_list_to_map_1.
Qed.

(** A Java map is read to the finite map with its entries, whatever the order in which its iterator gives them; the loop
    ends after as many steps as the map has entries, and every string that was looked at is released. *)
Theorem construct_map_ok fuel o kvs s : ready s -> java_map o kvs -> NoDup kvs.*1 -> (length kvs < fuel)%nat ->
  exists h, effects h = [] /\ construct_map vm fuel (Some (Local o)) s = Finished (list_to_map kvs) (logged h s).
Proof.
  intros R (Hm & l & items & Hl & Hc & H2) Hd Hf.
  enough (yields (construct_map vm fuel (Some (Local o))) s (fun m _ => m = list_to_map kvs)) as (m & h & E & N & ->) by (by exists h).
  apply yields_bind, GetObjectClass_yields; [done|]. apply yields_bind, GetMember_yields; [done|done|].
  apply yields_bind. eapply CallObjectMethod_yields; [done|apply Hl|].
  eapply (for_each_yields vm _ (fun m kv => <[kv.1 := kv.2]> m) entry); [|exact Hc|done|exact H2|done|].
  2:{ intros h. rewrite insert_all by done. by rewrite (right_id_L ∅ (∪)). }
  intros acc e [k v] s1 Q R1 [Hk Vk Hv Vv [Nk Nv]] HQ. cbn [fst snd] in *.
  apply yields_bind, GetObjectClass_yields; [done|]. apply yields_bind, GetMember_yields; [done|done|].
  match goal with |- yields _ ?s2 _ => destruct (Vk (events s2)) as (ko & Ek & Sk) end.
  apply yields_bind. eapply CallObjectMethod_yields; [done|exact Ek|]. apply yields_bind, GetMember_yields; [done|done|].
  match goal with |- yields _ ?s2 _ => destruct (Vv (events s2)) as (vo & Ev' & Sv) end.
  apply yields_bind. eapply CallObjectMethod_yields; [done|exact Ev'|].
  apply yields_bind. eapply construct_string_yields; [done|exact Sk|]. intros h1 I1.
  apply yields_bind. eapply construct_string_yields; [done|exact Sv|]. intros h2 I2.
  rewrite !before_nul_id by done. apply yields_ret, HQ. by repeat apply idle_events_app.
Qed.

(** ** Loading and unloading the library *)

Abbreviation thread_class := "java/lang/Thread" (only parsing).

(** What the Java library provides, and the context class loader of the thread that
    loads the native library *)
Record JavaLibrary (context : option nat) : Prop := {
  jl_thread : answers vm (FindClassQ thread_class);
  jl_loader : answers vm (FindClassQ "java/lang/ClassLoader");
  jl_current : has vm StaticMethod thread_class "currentThread" "()Ljava/lang/Thread;";
  jl_getLoader : has vm Method thread_class "getContextClassLoader" "()Ljava/lang/ClassLoader;";
  jl_context : exists t, (forall h, vm_reply vm h (StaticMethodQ (mkMember thread_class "currentThread" "()Ljava/lang/Thread;") []) = Answers (Some t)) /\
    forall h, vm_reply vm h (ObjectMethodQ t (mkMember thread_class "getContextClassLoader" "()Ljava/lang/ClassLoader;") []) = Answers context;
  jl_weak : forall o, answers vm (WeakGlobalRefQ o);
}.

Abbreviation library_class := "org/apache/mesos/MesosNativeLibrary" (only parsing).

(** The state after the class loader was captured *)
Definition captured (context : option nat) (s : St) : St :=
  match context with
  | None => s
  | Some o => set_loader (Some (next s)) (set_next (S (next s)) (set_weaks (<[next s := o]> (weaks s)) s))
  end.

Lemma mark_loaded_yields s : Memory vm -> ready s -> loads vm s library_class -> has vm StaticField library_class "loaded" "Z" ->
  answers vm (SetStaticBooleanQ (mkMember library_class "loaded" "Z") true) ->
  yields (mark_loaded vm) s
    (fun _ h => Asked (SetStaticBooleanQ (mkMember library_class "loaded" "Z") true) (Answers tt) ∈ h).
Proof.
  intros M R L Hf Hs. apply yields_bind, FindMesosClass_yields; [done|done|done|]. intros h _.
  apply yields_bind, GetMember_yields; [done|done|]. rewrite logged_app.
  match goal with |- yields _ ?s2 _ => destruct (Hs (events s2)) as [[] Es] end.
  apply yields_env; [done|]. do 2 (eapply yields_silent; [done|]).
  eapply yields_ask; [done|exact Es|]. rewrite !elem_of_app, !list_elem_of_singleton. auto.
Qed.

Lemma find_context_yields context s : ready s -> JavaLibrary context ->
  yields (find_context vm) s (fun r _ => r = Local <$> context).
Proof.
  intros R L. destruct (jl_context _ L) as (t & Ht & Hc).
  destruct (jl_thread _ L (events s)) as [[] E1]. apply yields_bind. eapply yields_ask; [done|exact E1|].
  eapply yields_silent; [done|].
  match goal with |- yields _ ?s2 _ => destruct (jl_loader _ L (events s2)) as [[] E2] end.
  apply yields_bind. eapply yields_ask; [done|exact E2|]. eapply yields_silent; [done|].
  apply yields_bind, GetMember_yields; [done|apply L|]. eapply yields_silent; [done|].
  apply yields_bind, GetMember_yields; [done|apply L|]. eapply yields_silent; [done|].
  apply yields_bind, yields_env; [done|]. do 3 (eapply yields_silent; [done|]).
  apply (yields_ask vm (StaticMethodQ _ []) None (fun a : option nat => Local <$> a) _ (Some t)); [done|apply Ht|].
  eapply yields_silent; [done|]. by eapply CallObjectMethod_yields; [|apply Hc|].
Qed.

Lemma on_load_done context s : vm_version vm = true -> Memory vm -> ready s -> JavaLibrary context ->
  loads vm (captured context s) library_class -> has vm StaticField library_class "loaded" "Z" ->
  answers vm (SetStaticBooleanQ (mkMember library_class "loaded" "Z") true) ->
  exists h, effects h = [] /\ Asked (SetStaticBooleanQ (mkMember library_class "loaded" "Z") true) (Answers tt) ∈ h /\
    JNI_OnLoad vm s = Finished JNI_VERSION_1_2 (logged h (captured context s)).
Proof.
  intros Hv M R L Hl Hf Hs. unfold JNI_OnLoad. rewrite Hv. cbn [negb].
  destruct (find_context_yields context s R L) as (? & h1 & E1 & N1 & ->). rewrite (jbind_finished _ _ _ _ _ E1).
  assert (exists h2, effects h2 = [] /\
    match Local <$> context with
    | None => jret tt
    | Some _ => let^ weak := NewWeakGlobalRef vm (Local <$> context) in
        jmodify (set_loader (match weak with Some (Weak k) => Some k | _ => None end))
    end (logged h1 s) = Finished tt (logged (h1 ++ h2) (captured context s))) as (h2 & N2 & E2).
  { destruct context as [o|]; cbn [fmap option_fmap option_map].
    - destruct (jl_weak _ L o (events (logged h1 s))) as [[] Ew]. exists [Asked (WeakGlobalRefQ o) (Answers tt)]. split; [done|].
      erewrite jbind_finished.
      2:{ unfold NewWeakGlobalRef. rewrite with_env_ready by done. erewrite jbind_finished; [|done].
          rewrite (jbind_finished _ _ _ _ _ (ask_done vm _ _ (fun _ => true) _ _ (logged_ready h1 s R) Ew)).
          erewrite jbind_finished; [|done]. erewrite jbind_finished; [|done]. done. }
      rewrite logged_app. reflexivity.
    - exists []. by rewrite app_nil_r. }
  rewrite (jbind_finished _ _ _ _ _ E2).
  destruct (mark_loaded_yields (logged (h1 ++ h2) (captured context s)) M) as ([] & h3 & E3 & N3 & Hin).
  { by destruct context. }
  { exact Hl. }
  { exact Hf. }
  { exact Hs. }
  exists ((h1 ++ h2) ++ h3). rewrite !effects_app, N1, N2, N3. split_and!; [done|rewrite elem_of_app; by right|].
  rewrite (jbind_finished _ _ _ _ _ E3). by rewrite logged_app.
Qed.

(** Loading the library keeps a weak reference to the context class loader of the loading thread, if it has one, finds
    the library's own class with it and marks it as loaded; unloading the library deletes the reference, and leaves the weak
    references as they were before the library was loaded. *)
Theorem library_load_unload context s : vm_version vm = true -> Memory vm -> ready s -> loader s = None ->
  weaks s !! next s = None -> JavaLibrary context ->
  loads vm (captured context s) library_class -> has vm StaticField library_class "loaded" "Z" ->
  answers vm (SetStaticBooleanQ (mkMember library_class "loaded" "Z") true) ->
  exists h s', JNI_OnLoad vm s = Finished JNI_VERSION_1_2 s' /\ s' = logged h (captured context s) /\ effects h = [] /\
    Asked (SetStaticBooleanQ (mkMember library_class "loaded" "Z") true) (Answers tt) ∈ h /\
    exists s'', JNI_OnUnLoad vm s' = Finished tt s'' /\ loader s'' = None /\ weaks s'' = weaks s /\ events s'' = events s'.
Proof.
  intros Hv M R Hn Hw L Hl Hf Hs. destruct (on_load_done context s) as (h & N & Hin & E); try done.
  exists h, (logged h (captured context s)). split_and!; try done. unfold JNI_OnUnLoad. rewrite Hv. cbn [negb].
  erewrite jbind_finished; [|done]. destruct context as [o|]; cbn [captured loader logged set_loader].
  - erewrite jbind_finished.
    2:{ unfold DeleteWeakGlobalRef, on_thread. cbn [attached logged set_loader set_next set_weaks weaks].
        rewrite (proj1 R), lookup_insert_eq. done. }
    eexists. split_and!; [reflexivity|done| |done].
    cbn [weaks set_loader set_weaks set_next logged captured]. by rewrite delete_insert_id.
  - rewrite Hn. by eexists.
Qed.

End Library.

(** ** Examples *)

Import JniExample.

Lemma find_mesos_class_witness :
  let vm : Vm State Call := machine [] [] [] false None in
  exists h, effects h = [] /\
    FindMesosClass vm "org/apache/mesos/Protos$Offer" before = Finished (Some "org/apache/mesos/Protos$Offer") (logged h before).
Proof.
  intros vm. apply (find_mesos_class vm "org/apache/mesos/Protos$Offer" before).
  - apply machine_memory.
  - done.
  - intros h. by exists tt.
Defined.

Lemma machine_entry o (vm : Vm State Call) : vm = machine [] [] [] false None -> (1 < o < 200)%nat ->
  entry vm o (String (Ascii.ascii_of_nat (o + 20)) "", String (Ascii.ascii_of_nat (o + 20)) "").
Proof.
  intros -> Ho. assert (Ascii.eqb (Ascii.ascii_of_nat (o + 20)) Ascii.zero = false) as Hz.
  { apply Ascii.eqb_neq. intros E. apply (f_equal Ascii.nat_of_ascii) in E. rewrite Ascii.nat_ascii_embedding in E by lia.
    change (Ascii.nat_of_ascii Ascii.zero) with 0%nat in E. lia. }
  split.
  - apply machine_has.
  - intros h. exists (o + 20)%nat. split; [done|]. intros h'. cbn. destruct (Nat.eqb_spec (o + 20) 4); [lia|done].
  - apply machine_has.
  - intros h. exists (o + 20)%nat. split; [done|]. intros h'. cbn. destruct (Nat.eqb_spec (o + 20) 4); [lia|done].
  - cbn [fst snd has_nul]. rewrite Hz. done.
Qed.

Lemma construct_map_ok_witness :
  let vm : Vm State Call := machine [] [] [] false None in
  let kv n := (String (Ascii.ascii_of_nat (n + 20)) "", String (Ascii.ascii_of_nat (n + 20)) "") in
  exists h, effects h = [] /\
    construct_map vm 3 (Some (Local 9)) before = Finished (list_to_map [kv 11%nat; kv 12%nat]) (logged h before).
Proof.
  intros vm kv. apply (construct_map_ok vm 3 9 [kv 11%nat; kv 12%nat] before).
  - done.
  - split; [apply machine_has|]. exists 29%nat, [11; 12]%nat. split_and!; [done|apply machine_collection|].
    repeat constructor; apply machine_entry; first [done|lia].
  - apply NoDup_cons. split; [intros [=]%list_elem_of_singleton|apply NoDup_singleton].
  - cbn. lia.
Defined.

Lemma library_load_unload_witness :
  let vm : Vm State Call := machine [] [] [] false None in
  exists h s', JNI_OnLoad vm before = Finished JNI_VERSION_1_2 s' /\ s' = logged h (captured (Some 50%nat) before) /\ effects h = [] /\
    Asked (SetStaticBooleanQ (mkMember "org/apache/mesos/MesosNativeLibrary" "loaded" "Z") true) (Answers tt) ∈ h /\
    exists s'', JNI_OnUnLoad vm s' = Finished tt s'' /\ loader s'' = None /\ weaks s'' = ∅ /\ events s'' = events s'.
Proof.
  intros vm. apply (library_load_unload vm (Some 50%nat) before).
  - done.
  - apply machine_memory.
  - done.
  - done.
  - done.
  - split; try apply machine_has; try (by eexists).
  - exists 50%nat. split_and!; [done|by eexists|apply machine_has|]. intros h text _. exists 70%nat. done.
  - apply machine_has.
  - by eexists.
Defined.
